(* ===== verification/_CoqProject ===== *)
-Q . S2P
Prelude.v
Dpdk.v
Stdio.v
Config.v
CJsonData.v
CJsonText.v
CJsonTextSafe.v
CJsonNumber.v
CJsonParse.v
CJsonParseSafe.v
CJsonGrammar.v
CJsonDepth.v
CJsonQuery.v
CJsonProps.v
Switch.v
SwitchFrame.v
SwitchInv.v
SwitchSpec.v
FastPath.v
SwitchOrder.v
SwitchDrain.v
Firewall.v
FirewallSpec.v
Coprocessor.v
SetupSteps.v
RuleFile.v
Interface.v
Engine.v
EngineSteps.v
EngineSpec.v
EngineSafety.v
EngineTypes.v
EngineOrder.v
EngineDrain.v
EngineRace.v
Samples.v
FirewallProps.v
SwitchProps.v
EngineProps.v
StateMonad.v
Ghost.v
CgroupWatcher.v
CgroupSpec.v
NetTask.v
NetScheduler.v
NetSchedulerInv.v
NetSchedulerOps.v
NetSchedulerCallbacks.v
NetSchedulerRound.v
NetSchedulerLive.v
NetAgent.v
NetSchedulerReach.v
NetSchedulerQueue.v
NetSchedulerFair.v
NetAgentSpec.v
NetAgentMain.v
GhostReference.v
AgentSamples.v
AgentProps.v
