(* ===== verification/Prelude.v ===== *)
(** * Verification of the gHost data-plane engine and its scheduler

    The repository implements a small software data plane for containers.  Its
    C part, [engine/], is a DPDK process that switches packets between virtual
    ports (kernel NIC interfaces, KNI): a receive thread (the fast path) polls
    the ports, looks up the egress port of every packet and hands the packet to
    the coprocessor of that port through a ring; a coprocessor thread runs a
    network function (the firewall) on it and hands accepted packets back
    through a second ring, from which the fast path sends them to the port.  The
    firewall matches source addresses against a longest-prefix table that is
    filled from a JSON file, read with the bundled cJSON parser.  Its C++ part,
    [ghost_agent/], is a scheduler on the ghOSt interface of the kernel: one
    global agent thread gets messages about threads (new, runnable, blocked,
    preempted, ...), keeps them in two run queues, the engine's threads before
    all others, and starts them on the CPUs of its enclave by transactions; a
    second process scrapes control groups for threads to move to ghOSt.

    ** Parts of the program and where they are modelled

    - [Prelude] (this file): fixed-width integers, the result type [outcome]
      (a value, a fault such as a null dereference or an out-of-bounds access,
      exit of the process, or exhausted fuel), C pointers, arrays, loops as
      [foldM], iteration of steps until they are done ([completes]), counting of
      packets, and the tactics used throughout.
    - [Dpdk]: DPDK is not part of the repository.  Its rings, ports, tables and
      byte-order macros are type classes of operations ([RteRing], [RteKni],
      [RteLpm], [ByteOrder]), arguments of every definition that uses them;
      the classes named [...Laws] state the documented behaviour the proofs
      rely on; [Dpdk.Reference] has executable instances of all of them.
    - [Stdio]: ["%u"] in [snprintf] and [sscanf], with glibc's conversion.
    - [Config]: [engine/init.h] and [engine/init.c]; [globals] is the global
      state, [read_config], [engine_free] and [init] the operations.
    - [Switch]: [engine/switch.h] and [engine/switch.c] up to [coprocessor]; one
      definition per C function with the function's name, loop bodies as
      definitions of their own ([rx_port], [drain_coprocessor]) that are composed
      of what the threads do in one step ([rx_poll], [rx_packet],
      [handle_request], [drain_poll], [coprocessor_poll], [coprocessor_packet]).
      The state [switch] adds the counters of [switch.c] and the log of freed
      descriptors to [globals].
    - [Firewall]: [engine/nfs/firewall/firewall.{h,c}]; [firewall] is its global
      state (counters, table, rule array, number of rules) with the heap that
      [malloc] and [free] change and the arrays the pointer [rules] pointed to
      before, which other threads may still use ([old_arrays]).
    - [Coprocessor]: [engine/coprocessor.{h,c}]; set-up, teardown and
      [process_packet], the instance of [Switch.NetworkFunction].
    - [SetupSteps]: the set-up again, as the steps between which other threads run
      ([setup_pc], [setup_step]).
    - [Interface]: [engine/interface.{h,c}]; start of the physical port with the
      configuration it is given (the Ethernet device is the class [RteEth]), the
      link poll, allocation and release of the virtual ports and their callback.
    - [Engine]: [engine/main.c] and [main_loop]; [main], [signal_handler], the
      threads as a labelled step relation [step] over the shared state, and the
      end of [main] ([main_exit]).  A step of a thread takes one burst, treats one
      packet, flushes one staging buffer or does one part of a set-up; bursts and
      loop positions are local state of the thread ([rx_pc], [phase]).
    - [CJsonData], [CJsonText], [CJsonNumber], [CJsonParse], [CJsonQuery]:
      [engine/thirdparty/cJSON.{h,c}]: items and [cJSON_Delete] on a heap of
      live blocks; white space, escapes and strings; numbers as binary64;
      the recursive parser; lookup and type predicates.

    - [StateMonad]: computations with state that may fail (an exit keeps the state in
      which it happened), the predicate [wp]
      with its rules, and [steps], relations between the states of a run; the
      scheduler is written and verified with them.
    - [Ghost]: the ghOSt library and the kernel are not part of the repository.
      CPU sets and topology are classes ([CpuLists], [Topology]), every other
      call is an [event] that the parameter [ask] answers and that may change
      the [world]; [CpuListLaws] and [KernelLaws] state the documented behaviour
      the proofs rely on; [GhostReference] has executable instances.
    - [CgroupWatcher]: [ghost_agent/cgroup_watcher.{h,cc}].
    - [NetTask], [NetScheduler]: [ghost_agent/net_scheduler.{h,cc}]; [NetTask] is
      the struct, [PickNextCpu] the choice of a CPU; [NetScheduler] the object
      with the live tasks of the allocator and the world, one definition per
      method, the loops of [GlobalSchedule] as definitions of their own
      ([scan_cpu], [assign_loop], [assign_task], [place_task], [give_cpu]).
    - [NetAgent]: the agent thread, [FullNetAgent] and
      [ghost_agent/agent_net.cc] with its [main]; the message channel and the
      dispatcher of the library are the class [Dispatcher].

    The remaining files hold specifications and proofs: [CJsonTextSafe] and
    [CJsonParseSafe] (memory safety of the parser), [CJsonGrammar] (JSON values,
    the relation between values and texts, and that the parser implements it),
    [CJsonDepth] (the nesting limit), [RuleFile] (the rules that a JSON text
    states), [SwitchFrame] (what every operation of the switch keeps), [SwitchInv],
    [SwitchSpec] and [FastPath] (the switch), [SwitchOrder] and [EngineOrder]
    (the order of packets), [SwitchDrain] and [EngineDrain] (packets do not stay),
    [FirewallSpec] (the firewall), [EngineSteps] (the steps of a thread make up its
    functions), [EngineSpec] (the invariant of all interleavings), [EngineSafety]
    (set-ups that nothing disturbs), [EngineRace] (set-ups that overlap), [EngineTypes]
    (the data keeps its C types);
    [CJsonProps], [FirewallProps], [SwitchProps], [EngineProps] state the main
    properties, [Samples] has concrete packets, rule files and runs.  For the
    scheduler: [NetSchedulerInv] (places of tasks, and how moves keep them
    consistent), [NetSchedulerOps] (the methods that callbacks and rounds
    share), [NetSchedulerCallbacks] (the state machine of tasks and the
    callbacks), [NetSchedulerRound] (the scheduling round and the move of the
    global agent), [NetSchedulerLive] (who gets a CPU), [NetSchedulerReach] (runs
    as a step relation), [NetSchedulerQueue] and [NetSchedulerFair] (how long a task
    waits), [NetAgentSpec] (agent threads), [NetAgentMain] (the main process),
    [CgroupSpec] (which threads a scrape moves); [AgentProps] states the main properties,
    [AgentSamples] has concrete runs.

    ** What the theorems show

    - Whole engine ([EngineProps]): when all rings could be created, which the
      code does not check ([unchecked_ring_faults]), then in every state that an
      interleaving of the threads and of signals reaches after [main], every packet received is
      delivered, freed, still held or in the hands of a thread exactly once; no
      packet overtakes another one with the same source and destination port; and
      every variable holds a value of its C type.  When nothing more is received, a
      bounded number of sweeps over the threads delivers or frees every packet.
      When no coprocessor takes a step while another one is setting up
      ([undisturbed]), a packet that was sent to port [i] is routed to port [i] and accepted by the longest-prefix rules, and a step
      faults only for two causes, which are characterised: a packet whose IP
      version is not 4 in the firewall, and a second coprocessor's teardown of the
      rules all coprocessors share.  The code does not keep the coprocessors
      apart; two theorems show what an overlap leads to: the use of a rule that
      was never written, and packets that are judged against an empty table.
      [main] either starts the engine or exits, for every result of the calls it
      makes.
    - Switch ([SwitchProps]): one pass of the fast path and of a coprocessor
      returns, preserves the invariant and the packet ledger and empties the
      staging buffers; the coprocessor's theorem is proved against the interface
      [FastPath.NetworkFunctionSpec], which [Coprocessor.firewall_spec]
      discharges for the firewall.  The next hop of every packet after [main],
      and what happens when [main] could not create a ring.  (That the steps of a
      thread, left alone, compute the functions of [Switch] and [Coprocessor] is
      proved by lemmas of [EngineSteps] and [SetupSteps].)
    - Firewall ([FirewallProps]): the verdict of the packet handler on every
      branch; that a match gets the action of the most specific rule, also
      stated from the text of the rule file on ([rule_text_decides]); the life
      of the rules from the file to the table and to [free]; the
      address conversions; the files on which the reader overflows or hangs.
    - cJSON ([CJsonProps]): for every text and every behaviour of [malloc] the
      parser stays in bounds, terminates and does not leak, its result is
      nested within the limit, and deleting it restores the heap; every JSON
      text whose numerals have at most 63 characters is parsed to a tree of the
      value it denotes, strings ending at their first zero character, and a text
      with a longer numeral can be rejected; escapes decode to UTF-8; integers keep
      their value; lookup finds the first member of a name.
    - Scheduler ([AgentProps]): in every state that any order of messages,
      rounds and moves of the global agent reaches, for all answers of the kernel
      within [KernelLaws], as long as only blocked tasks depart and no message
      reports more run time than the thread had ([step_message]), every task is in exactly the queue, list or
      CPU slot that its run state says and nothing points to a freed task; the
      callbacks, that of a new thread included, refine a state machine of places
      and abort only for messages that do not fit or a refused affinity mask;
      rounds always return, and a move of the global agent aborts only when the
      kernel refuses to commit the unscheduling of a CPU; an agent thread on a
      dispatcher that delivers such messages keeps it so.  When the kernel's answers
      are stable and no transaction is in flight, a round starts the tasks that a greedy
      walk of the queues starts, and [PickNextCpu] is the nearest allowed CPU.
      Without affinity masks a task of high priority is not passed over: over any
      number of rounds and messages, the idle CPUs that rounds offer without
      starting it are bounded by its place in the queue and the tasks that others
      put before it.
      Two errors are proved: a queued task that departs leaves a dangling
      pointer, and the first queue of a new task is decided by uninitialised
      memory.  The invariant assumes that departing tasks are blocked, because of
      the former.
    - Cgroup watcher and main process ([AgentProps]): a scrape moves exactly the
      selected threads; [main] rejects invalid flags before it does anything, and
      otherwise starts the agents once, scrapes the control groups completely in
      every round until the signal comes, stops the agents once and returns 0.
    - Ports ([Interface]): the link poll ends, and when; allocated ports are
      the configured ones and are all released.

    ** Bounds and fuel

    Functions that recurse on something else than their data take fuel and
    return [OutOfFuel] when it ends.  The parser gets
    [parse_fuel text = 3 * (length text + 1) + 1]: two nested calls and one loop
    iteration per character at most; that it is enough is part of
    [parser_memory_safe].  [unescape] gets one unit per input character.
    [read_lines] gets [S (length file)]: every line read is non-empty, except
    for the buffer size [1], where the C loop does not terminate
    ([one_byte_file_hangs]).  The link poll has at most 92 iterations, and
    [kni_alloc_loop], whose index is a [uint8_t], 256.  Counters are 64-bit,
    buffer counts 16-bit, rule fields 8-bit, with their wrap-around.
    [assign_loop] gets [assign_fuel]: every iteration takes a task from the
    queues, and only a replacement, of which there is one per replaceable CPU,
    puts one back; that it is enough is part of [rounds_never_fail].
    [ScrapeDirectory] needs more fuel than the tree of control groups has levels
    ([CgroupSpec.shallow]); [drain], [AgentThread] and [scrape_loop] are loops
    that end only when there are no more messages or the process is told to:
    the theorems about [drain] and [AgentThread] hold for any fuel, and
    [scrape_loop] needs one unit for each sleep before the signal and one more
    ([main_process_life]); [SleepFor] gets three iterations, enough for every
    finite duration, which is less than [2 * kMaxSleep].  The counters of the scheduler are [int]s and
    wrap around; run times are nanoseconds in [Z].

    ** Not modelled

    Text printed by the engine (except that [print_stats] reports and clears
    the counters, and the text of the KNI callback) and the time source (a step of
    the receive thread may print or not).  A step of a thread
    accesses at most one ring that it shares with another thread, and at most one
    of the globals [rules], [num_rules] and [lpm_tbl]; rings and tables are
    atomic, as DPDK documents for the rings.  Data races inside a step are outside
    of the model: lost updates of the firewall's counters, which all coprocessors
    share, a table that changes during a lookup, and the tear-down, which is one
    step.  Of cJSON, vendored code, printing, list
    editing, duplication, comparison and minification are never called by the
    engine and not modelled.  Of [ghost_agent/], the text that the scheduler
    prints (with [DumpAllTasks], which only prints), the agent process class and
    the start of its threads, which belong to the ghOSt library, the parsing of the
    command line, and interleavings of agent threads inside one method are not
    modelled; an agent that is not the global one only yields.  [orchestrator/] (Python) is not modelled.

    ** What could come next

    Every function of [engine/] and of [ghost_agent/] that keeps state is
    modelled; what the sources have besides are prototypes, unused macros and
    output.  Stronger statements that are left: waiting times when the kernel turns
    transactions down or affinity masks are enforced (the bound proved is for
    rounds without interference), and the texts that the JSON parser rejects. *)
From stdpp Require Export base strings numbers gmap list.

Declare Scope engine_scope.
Delimit Scope engine_scope with engine.
Open Scope Z_scope.

(** ** Fixed-width unsigned integers

    A [w]-bit unsigned C integer is a [Z] in [[0, 2^w)]; assignment to a
    narrower or wrapping type is written out with these functions. *)

Definition u8 (x : Z) : Z := x mod 2 ^ 8.
Definition u16 (x : Z) : Z := x mod 2 ^ 16.
Definition u32 (x : Z) : Z := x mod 2 ^ 32.
Definition u64 (x : Z) : Z := x mod 2 ^ 64.

(** Conversion to a 32-bit two's complement [int]. *)
Definition to_int (z : Z) : Z := let u := u32 z in if u <? 2 ^ 31 then u else u - 2 ^ 32.

Definition is_byte (b : Z) : Prop := 0 <= b < 256.

Global Instance is_byte_dec b : Decision (is_byte b).
Proof. unfold is_byte. apply _. Defined.

(** Unfold the wrap-around operators to [mod] with literal moduli, so that
    [lia] decides goals that mention them. *)
Ltac words :=
  unfold u8, u16, u32, u64, is_byte in *;
  repeat match goal with
         | |- context [2 ^ ?n] => change (2 ^ n) with ltac:(let v := eval vm_compute in (2 ^ n) in exact v)
         end;
  change (2 ^ 8) with 256 in *;
  change (2 ^ 16) with 65536 in *;
  change (2 ^ 32) with 4294967296 in *;
  change (2 ^ 64) with 18446744073709551616 in *;
  Z.to_euclidean_division_equations; lia.

Lemma u16_id x : 0 <= x < 65536 → u16 x = x.
Proof. intros. by apply Z.mod_small. Qed.
Lemma u8_id x : 0 <= x < 256 → u8 x = x.
Proof. intros. by apply Z.mod_small. Qed.
Lemma u32_id x : 0 <= x < 4294967296 → u32 x = x.
Proof. intros. by apply Z.mod_small. Qed.
Lemma u64_range x : 0 <= u64 x < 2 ^ 64.
Proof. by apply Z.mod_pos_bound. Qed.
Lemma u64_add_l x y : u64 (u64 x + y) = u64 (x + y).
Proof. apply Zplus_mod_idemp_l. Qed.

Lemma to_int_small n : 0 <= n < 2 ^ 31 → to_int n = n.
Proof. intros Hn. unfold to_int. rewrite u32_id by lia. by destruct (Z.ltb_spec n (2 ^ 31)); [|lia]. Qed.

Lemma to_int_add a b : to_int (to_int a + b) = to_int (a + b).
Proof.
  unfold to_int. assert (u32 ((if u32 a <? 2 ^ 31 then u32 a else u32 a - 2 ^ 32) + b) = u32 (a + b)) as ->; [|done].
  unfold u32. destruct (_ <? _); [apply Zplus_mod_idemp_l|].
  replace (a mod 2 ^ 32 - 2 ^ 32 + b) with (a mod 2 ^ 32 + b + (-1) * 2 ^ 32) by lia.
  rewrite Z.mod_add by done. apply Zplus_mod_idemp_l.
Qed.

(** Disjoint bit fields: [lor] of a field below bit [n] with a shifted one. *)
Lemma lor_shiftl_add a b n : 0 <= n → 0 <= a < 2 ^ n → Z.lor a (Z.shiftl b n) = a + b * 2 ^ n.
Proof.
  intros Hn Ha. rewrite <-Z.shiftl_mul_pow2 by done.
  assert (Z.land a (Z.shiftl b n) = 0) as Hd.
  { apply Z.bits_inj'. intros i Hi. rewrite Z.land_spec, Z.shiftl_spec, Z.bits_0 by done.
    destruct (Z.ltb_spec i n); [by rewrite (Z.testbit_neg_r b), andb_false_r by lia|].
    by rewrite <-(Z.mod_small a (2 ^ n)), Z.mod_pow2_bits_high by lia. }
  rewrite <-Z.lxor_lor by done. symmetry. by apply Z.add_nocarry_lxor.
Qed.

(** ** Outcomes

    A call returns a value, terminates the process through [rte_exit], or
    runs into behaviour the C standard leaves undefined.  Undefined
    behaviour is a value of the model, so that its absence is a theorem;
    [OutOfFuel] is the value of a model loop that exhausts its fuel, so the
    same theorems show that the fuel given is enough. *)

Inductive fault :=
  | NullDereference
  | OutOfBounds
  | UseAfterFree
  | DoubleFree
  | Uninitialised
  | OutOfFuel.

Inductive outcome (A : Type) :=
  | Ok (a : A)
  | Exit (msg : string)
  | Fault (f : fault).
Arguments Ok {_} _.
Arguments Exit {_} _.
Arguments Fault {_} _.

Global Instance fault_eq_dec : EqDecision fault.
Proof. solve_decision. Defined.

Global Instance outcome_ret : MRet outcome := λ A a, Ok a.
Global Instance outcome_bind : MBind outcome := λ A B k m,
  match m with Ok a => k a | Exit msg => Exit msg | Fault f => Fault f end.

(** Absence of undefined behaviour. *)
Definition no_fault {A} (m : outcome A) : Prop :=
  match m with Fault _ => False | _ => True end.

Definition is_ok {A} (m : outcome A) : bool := match m with Ok _ => true | _ => false end.

Definition is_some {A} (o : option A) : bool := match o with Some _ => true | None => false end.

Lemma is_ok_ex {A} (m : outcome A) : is_ok m = true → ∃ a, m = Ok a.
Proof. destruct m; [eauto|done..]. Qed.

Lemma is_some_ex {A} (o : option A) : is_some o = true → ∃ a, o = Some a.
Proof. destruct o; [eauto|done]. Qed.

Definition or_fault {A} (f : fault) (o : option A) : outcome A :=
  match o with Some a => Ok a | None => Fault f end.

Lemma bind_Ok {A B} (m : outcome A) (k : A → outcome B) b :
  m ≫= k = Ok b ↔ ∃ a, m = Ok a ∧ k a = Ok b.
Proof. destruct m; simpl; naive_solver. Qed.

Lemma bind_assoc {A B C} (m : outcome A) (f : A → outcome B) (g : B → outcome C) :
  (m ≫= f) ≫= g = m ≫= (λ a, f a ≫= g).
Proof. by destruct m. Qed.

Lemma no_fault_bind {A B} (m : outcome A) (k : A → outcome B) :
  no_fault m → (∀ a, m = Ok a → no_fault (k a)) → no_fault (m ≫= k).
Proof. destruct m; simpl; naive_solver. Qed.

(** Decompose hypotheses [m ≫= k = Ok b] into their steps. *)
Ltac inv_ok :=
  repeat match goal with
         | H : _ ≫= _ = Ok _ |- _ => apply bind_Ok in H; destruct H as (? & ? & H)
         | H : Ok _ = Ok _ |- _ => injection H as H
         | H : mret _ = Ok _ |- _ => injection H as H
         | H : Fault _ = Ok _ |- _ => discriminate H
         | H : Exit _ = Ok _ |- _ => discriminate H
         end.

(** ** Heap pointers

    A pointer to a heap object is null, owns the live object, or dangles
    after the object was freed. *)
Inductive cptr (A : Type) :=
  | Null
  | Live (a : A)
  | Dangling.
Arguments Null {_}.
Arguments Live {_} _.
Arguments Dangling {_}.

Definition deref {A} (p : cptr A) : outcome A :=
  match p with Live a => Ok a | Null => Fault NullDereference | Dangling => Fault UseAfterFree end.

(** [free(p)]: a null pointer is ignored. *)
Definition cfree {A} (p : cptr A) : outcome (cptr A) :=
  match p with Live _ => Ok Dangling | Null => Ok Null | Dangling => Fault DoubleFree end.

(** ** Arrays

    A C array is a list; an access outside it is [Fault OutOfBounds]. *)

Definition arr_get {A} (l : list A) (i : Z) : outcome A :=
  if i <? 0 then Fault OutOfBounds else or_fault OutOfBounds (l !! Z.to_nat i).

Definition arr_set {A} (l : list A) (i : Z) (a : A) : outcome (list A) :=
  if (i <? 0) || (Z.of_nat (length l) <=? i) then Fault OutOfBounds
  else Ok (<[Z.to_nat i := a]> l).

Definition zlen {A} (l : list A) : Z := Z.of_nat (length l).

#[global] Arguments zlen : simpl never.

Lemma arr_get_Ok {A} (l : list A) i a :
  arr_get l i = Ok a ↔ 0 <= i ∧ l !! Z.to_nat i = Some a.
Proof.
  unfold arr_get. destruct (Z.ltb_spec i 0); [naive_solver lia|].
  destruct (l !! Z.to_nat i); simpl; naive_solver.
Qed.

Lemma arr_get_total {A} (l : list A) i :
  0 <= i < zlen l → ∃ a, arr_get l i = Ok a ∧ l !! Z.to_nat i = Some a.
Proof.
  unfold zlen. intros ?. destruct (lookup_lt_is_Some_2 l (Z.to_nat i)) as [a Ha]; [lia|].
  exists a. split; [apply arr_get_Ok|]; naive_solver lia.
Qed.

Lemma arr_set_total {A} (l : list A) i a :
  0 <= i < zlen l → arr_set l i a = Ok (<[Z.to_nat i := a]> l).
Proof.
  unfold zlen, arr_set. intros ?.
  destruct (Z.ltb_spec i 0); [lia|]. destruct (Z.leb_spec (Z.of_nat (length l)) i); [lia|done].
Qed.

Lemma arr_set_Ok {A} (l l' : list A) i a :
  arr_set l i a = Ok l' ↔ 0 <= i < zlen l ∧ l' = <[Z.to_nat i := a]> l.
Proof.
  split.
  - unfold arr_set, zlen. destruct (Z.ltb_spec i 0), (Z.leb_spec (Z.of_nat (length l)) i);
      simpl; naive_solver lia.
  - intros [? ->]. by apply arr_set_total.
Qed.

Lemma zlen_insert {A} (l : list A) i a : zlen (<[i := a]> l) = zlen l.
Proof. unfold zlen. by rewrite length_insert. Qed.

(** ** Loops

    [foldM f l s] runs [f] on the elements of [l] in order, threading the
    state [s]: the shape of every counted [for] loop of the engine. *)

Fixpoint foldM {A S} (f : A → S → outcome S) (l : list A) (s : S) : outcome S :=
  match l with
  | [] => Ok s
  | a :: l => s' ← f a s; foldM f l s'
  end.

Lemma foldM_app {A S} (f : A → S → outcome S) l1 l2 s :
  foldM f (l1 ++ l2) s = foldM f l1 s ≫= foldM f l2.
Proof. revert s. induction l1 as [|a l1 IH]; intros s; simpl; [done|]. destruct (f a s); simpl; auto. Qed.

Lemma foldM_fmap {A B S} (f : B → S → outcome S) (g : A → B) (h : A → S → outcome S) l s :
  (∀ a s, f (g a) s = h a s) → foldM f (g <$> l) s = foldM h l s.
Proof. intros Hf. revert s. induction l as [|a l IH]; intros s; cbn; [done|]. rewrite Hf. destruct (h a s); cbn; auto. Qed.

(** The loop rule: an invariant [I] indexed by the elements still to visit
    is established by every iteration, and the loop returns. *)
Lemma foldM_total {A S} (f : A → S → outcome S) (I : list A → S → Prop) l s :
  I l s →
  (∀ a l s, I (a :: l) s → ∃ s', f a s = Ok s' ∧ I l s') →
  ∃ s', foldM f l s = Ok s' ∧ I [] s'.
Proof.
  intros HI Hf. revert s HI. induction l as [|a l IH]; intros s HI; simpl; [eauto|].
  destruct (Hf _ _ _ HI) as (s' & -> & HI'). simpl. by apply IH.
Qed.

(** ** Iteration

    Some functions are also modelled as a sequence of steps between which other
    threads run. *)
Section completes.
Context {C S : Type} (final : C → bool) (step : C → S → outcome (C * S)).

(** Iterating [step] from [c] until [final], the state [s] becomes [m]. *)
Inductive completes : C → S → outcome S → Prop :=
  | completes_final c s : final c = true → completes c s (Ok s)
  | completes_next c s c' s' m :
      final c = false → step c s = Ok (c', s') → completes c' s' m → completes c s m
  | completes_exit c s msg : final c = false → step c s = Exit msg → completes c s (Exit msg)
  | completes_fault c s fl : final c = false → step c s = Fault fl → completes c s (Fault fl).

Lemma completes_functional c s m m' : completes c s m → completes c s m' → m' = m.
Proof.
  intros Hm. revert m'. induction Hm as [c s Hc|c s c' s' m Hc Hs _ IH|c s msg Hc Hs|c s fl Hc Hs];
    inversion 1; subst; try congruence. apply IH. congruence.
Qed.

(** A step, then the rest. *)
Lemma completes_bind {A} c s (f : outcome A) (g : A → C * S) (k : A → outcome S) :
  final c = false → step c s = (a ← f; Ok (g a)) → (∀ a, f = Ok a → completes (g a).1 (g a).2 (k a)) →
  completes c s (a ← f; k a).
Proof.
  intros Hc Hs Hk. destruct f as [a| |]; cbn in *; [|by constructor..].
  eapply completes_next; [done| |by apply Hk]. by destruct (g a).
Qed.
End completes.

(** Sum of a [Z]-valued measure over a list, and its change under update. *)
Definition zsum {A} (f : A → Z) (l : list A) : Z := foldr (λ a s, f a + s) 0 l.

Lemma zsum_app {A} (f : A → Z) l k : zsum f (l ++ k) = zsum f l + zsum f k.
Proof. induction l; simpl; lia. Qed.

Lemma zsum_insert {A} (f : A → Z) l i a b :
  l !! i = Some a → zsum f (<[i := b]> l) = zsum f l - f a + f b.
Proof.
  revert i. induction l as [|c l IH]; intros [|i]; simpl; try done.
  - intros [= ->]. lia.
  - intros Hi. rewrite (IH _ Hi). lia.
Qed.

Lemma zsum_nonneg {A} (f : A → Z) l : (∀ a, 0 <= f a) → 0 <= zsum f l.
Proof. intros Hf. induction l as [|a l IH]; simpl; [done|]. specialize (Hf a). lia. Qed.

Lemma zsum_elem {A} (f : A → Z) l a : (∀ a, 0 <= f a) → a ∈ l → f a <= zsum f l.
Proof.
  intros Hf. induction 1 as [b l|b c l _ IH]; simpl; [|specialize (Hf c); lia].
  pose proof (zsum_nonneg f l Hf). lia.
Qed.

(** ** Occurrences

    [occ x l] counts [x] in [l]; equalities between such counts are how
    conservation statements are phrased and [lia] closes them. *)

Section occ.
Context {A : Type} `{EqDecision A}.

Definition occ (x : A) (l : list A) : Z := zsum (λ y, if decide (x = y) then 1 else 0) l.

Lemma occ_nil x : occ x [] = 0.
Proof. done. Qed.
Lemma occ_app x l k : occ x (l ++ k) = occ x l + occ x k.
Proof. apply zsum_app. Qed.
Lemma occ_cons x y l : occ x (y :: l) = occ x [y] + occ x l.
Proof. apply (occ_app x [y]). Qed.
Lemma occ_nonneg x l : 0 <= occ x l.
Proof. apply zsum_nonneg. intros y. case_decide; lia. Qed.
Lemma occ_elem_of x l : x ∈ l ↔ 0 < occ x l.
Proof.
  induction l as [|y l IH].
  - rewrite elem_of_nil. simpl. unfold occ. simpl. lia.
  - rewrite elem_of_cons, IH, occ_cons. pose proof (occ_nonneg x l).
    unfold occ at 2. simpl. case_decide; naive_solver lia.
Qed.
Lemma occ_take_drop x n l : occ x (take n l) + occ x (drop n l) = occ x l.
Proof. by rewrite <-occ_app, take_drop. Qed.
End occ.
#[global] Arguments occ : simpl never.

(** ** Bytes and texts *)

Definition bytes_of_string (s : string) : list Z :=
  (λ c, Z.of_N (Ascii.N_of_ascii c)) <$> String.list_ascii_of_string s.

(** Hint databases of the development: [engine] closes well-formedness side
    conditions, [occ] normalises occurrence counts. *)
Create HintDb engine.
Create Rewrite HintDb occ.
#[export] Hint Rewrite @occ_nil @occ_app : occ.
#[export] Hint Resolve u64_range occ_nonneg : engine.
