(* ===== verification/Dpdk.v ===== *)
(** * The DPDK interface of the engine

    The engine calls DPDK (rings, kernel NIC interfaces, longest-prefix
    match tables, byte-order macros), whose sources are not part of the
    repository.  Each facility is a type class of operations, an argument of
    every definition that uses it; a second class per facility states the
    documented behaviour that the proofs rely on.  The module [Reference]
    instantiates all of them with executable list- and map-based models, so
    the laws are known to be satisfiable. *)
From S2P Require Import Prelude.

(** ** Packet descriptors

    [m_ptr] is the descriptor's address (its identity), [m_data] the bytes of
    the data room starting at the address [rte_pktmbuf_mtod] returns. *)
Record mbuf := Mbuf { m_ptr : Z; m_data : list Z }.

Global Instance mbuf_eq_dec : EqDecision mbuf.
Proof. solve_decision. Defined.

(** Wire layout of the Ethernet and IPv4 headers ([struct ether_hdr],
    [struct ipv4_hdr]): sizes and byte offsets of the fields used. *)
Definition ETHER_TYPE_IPv4 : Z := 0x0800.
Definition sizeof_ether_hdr : Z := 14.
Definition sizeof_ipv4_hdr : Z := 20.
Definition off_ether_type : Z := 12.
Definition off_version_ihl : Z := 0.
Definition off_src_addr : Z := 12.
Definition off_dst_addr : Z := 16.

(** Loads of a little-endian host from the data room of a packet. *)
Definition load8 (pkt : mbuf) (off : Z) : outcome Z := arr_get (m_data pkt) off.
Definition load16 (pkt : mbuf) (off : Z) : outcome Z :=
  b0 ← load8 pkt off; b1 ← load8 pkt (off + 1); Ok (Z.lor b0 (Z.shiftl b1 8)).
Definition load32 (pkt : mbuf) (off : Z) : outcome Z :=
  h0 ← load16 pkt off; h1 ← load16 pkt (off + 2); Ok (Z.lor h0 (Z.shiftl h1 16)).

(** A packet whose data room holds bytes and both headers.  Every descriptor
    of the engine's pool has a data room of [MBUF_DATA_SZ] bytes. *)
Definition wf_mbuf (pkt : mbuf) : Prop :=
  sizeof_ether_hdr + sizeof_ipv4_hdr <= zlen (m_data pkt) ∧ Forall is_byte (m_data pkt).

Global Instance wf_mbuf_dec pkt : Decision (wf_mbuf pkt).
Proof. unfold wf_mbuf. apply _. Defined.

(** Byte [i] of the packet, [0] outside of the data room. *)
Definition byte_at (pkt : mbuf) (i : nat) : Z := default 0 (m_data pkt !! i).

(** ** Byte order *)
Class ByteOrder := {
  rte_be_to_cpu_16 : Z → Z;
  rte_be_to_cpu_32 : Z → Z;
}.

Class ByteOrderLaws `{ByteOrder} := {
  be16_spec a b : is_byte a → is_byte b →
    rte_be_to_cpu_16 (a + 256 * b) = 256 * a + b;
  be32_spec a b c d : is_byte a → is_byte b → is_byte c → is_byte d →
    rte_be_to_cpu_32 (a + 256 * b + 65536 * c + 16777216 * d)
    = 16777216 * a + 65536 * b + 256 * c + d;
}.

(** ** Rings ([rte_ring.h]) *)
Class RteRing := {
  ring : Type;
  rte_ring_create : string → Z → option ring;
  (** number of objects enqueued, and the ring afterwards *)
  rte_ring_enqueue_bulk : ring → list mbuf → Z * ring;
  (** objects dequeued, at most the given number *)
  rte_ring_dequeue_burst : ring → Z → list mbuf * ring;
}.

(** A ring is a FIFO queue; [ring_items] lists what it holds, oldest first.
    A bulk enqueue is all-or-nothing. *)
Class RteRingLaws `{RteRing} := {
  ring_items : ring → list mbuf;
  ring_create_items name size r :
    rte_ring_create name size = Some r → ring_items r = [];
  ring_enqueue_spec r l n r' :
    rte_ring_enqueue_bulk r l = (n, r') →
    (n = zlen l ∧ ring_items r' = ring_items r ++ l) ∨
    (n = 0 ∧ ring_items r' = ring_items r);
  ring_dequeue_spec r k l r' :
    rte_ring_dequeue_burst r k = (l, r') →
    ring_items r = l ++ ring_items r' ∧ zlen l <= Z.max 0 k;
}.

(** A dequeue burst takes what there is, up to the maximum: it comes back
    with nothing only if the ring is empty. *)
Class RteRingProgress `{RteRingLaws} := {
  ring_dequeue_progress r k r' :
    0 < k → rte_ring_dequeue_burst r k = ([], r') → ring_items r = [];
}.

(** ** Kernel NIC interfaces ([rte_kni.h]) *)
(** The configuration of a port, with the two members of [rte_kni_ops] that are
    set: the port id, and the callback for interfaces that the kernel takes up or
    down (its result, and the text it prints). *)
Record rte_kni_conf := KniConf {
  kc_name : string; kc_force_bind : Z; kc_group_id : Z; kc_mbuf_size : Z;
  kc_core_id : Z; kc_ops_port_id : Z; kc_config_network_if : Z → Z → Z * list Z }.

Class RteKni := {
  kni : Type;
  rte_kni_init : Z → Z;
  rte_kni_alloc : rte_kni_conf → option kni;
  rte_kni_tx_burst : kni → list mbuf → Z * kni;
  rte_kni_rx_burst : kni → Z → list mbuf * kni;
  rte_kni_handle_request : kni → kni;
  rte_kni_release : kni → Z;
}.

(** [kni_recvd] and [kni_sent] list the packets a virtual port has handed to
    the engine and has taken from it.  A transmit burst takes a prefix. *)
Class RteKniLaws `{RteKni} := {
  kni_recvd : kni → list mbuf;
  kni_sent : kni → list mbuf;
  kni_alloc_spec conf k :
    rte_kni_alloc conf = Some k → kni_recvd k = [] ∧ kni_sent k = [];
  kni_tx_spec k l n k' :
    rte_kni_tx_burst k l = (n, k') →
    0 <= n <= zlen l ∧ kni_sent k' = kni_sent k ++ take (Z.to_nat n) l ∧
    kni_recvd k' = kni_recvd k;
  kni_rx_spec k m l k' :
    rte_kni_rx_burst k m = (l, k') →
    zlen l <= Z.max 0 m ∧ Forall wf_mbuf l ∧ kni_recvd k' = kni_recvd k ++ l ∧
    kni_sent k' = kni_sent k;
  kni_handle_request_spec k :
    kni_recvd (rte_kni_handle_request k) = kni_recvd k ∧
    kni_sent (rte_kni_handle_request k) = kni_sent k;
}.

(** ** Longest-prefix match ([rte_lpm.h]) *)
Class RteLpm := {
  lpm : Type;
  rte_lpm_create : string → Z → Z → option lpm;
  (** return code and the table afterwards; [None] is a null pointer *)
  rte_lpm_add : option lpm → Z → Z → Z → Z * option lpm;
  (** return code and the value of [*next_hop] afterwards, given the one before *)
  rte_lpm_lookup : option lpm → Z → Z → Z * Z;
}.

(** The leading [depth] bits of an address. *)
Definition lpm_prefix (ip depth : Z) : Z :=
  Z.shiftl (Z.shiftr ip (32 - depth)) (32 - depth).

(** The next hop of the most specific rule that matches [ip], for a rule set
    keyed by (prefix, depth). *)
Definition lpm_longest (rules : gmap (Z * Z) Z) (ip : Z) : option Z :=
  head (omap (λ d, rules !! (lpm_prefix ip d, d)) (reverse (seqZ 1 32))).

Class RteLpmLaws `{RteLpm} := {
  lpm_rules : lpm → gmap (Z * Z) Z;
  lpm_create_spec name max tbl8s t :
    rte_lpm_create name max tbl8s = Some t → lpm_rules t = ∅;
  lpm_add_spec t ip depth hop ret p :
    rte_lpm_add (Some t) ip depth hop = (ret, p) →
    ∃ t', p = Some t' ∧
    ((ret = 0 ∧ 1 <= depth <= 32 ∧
      lpm_rules t' = <[(lpm_prefix ip depth, depth) := hop]> (lpm_rules t)) ∨
     (ret < 0 ∧ lpm_rules t' = lpm_rules t));
  lpm_lookup_spec t ip hop0 ret hop :
    rte_lpm_lookup (Some t) ip hop0 = (ret, hop) →
    match lpm_longest (lpm_rules t) ip with
    | Some h => ret = 0 ∧ hop = h
    | None => ret < 0
    end;
}.

Lemma lpm_longest_empty ip : lpm_longest ∅ ip = None.
Proof.
  unfold lpm_longest. induction (reverse (seqZ 1 32)) as [|d l IH]; [done|]. cbn. by rewrite lookup_empty.
Qed.

(** ** Header fields of a well-formed packet *)

Section fields.
Context (pkt : mbuf) (Hpkt : wf_mbuf pkt).

Lemma byte_at_spec i :
  0 <= i < 34 → load8 pkt i = Ok (byte_at pkt (Z.to_nat i)) ∧ is_byte (byte_at pkt (Z.to_nat i)).
Proof using Hpkt.
  destruct Hpkt as [Hlen Hbytes]. unfold sizeof_ether_hdr, sizeof_ipv4_hdr in Hlen. intros Hi.
  destruct (arr_get_total (m_data pkt) i) as (b & Hget & Hb); [lia|].
  unfold load8, byte_at. rewrite Hget, Hb. split; [done|].
  by eapply Forall_lookup_1 in Hbytes.
Qed.

Lemma load8_spec i : 0 <= i < 34 → load8 pkt i = Ok (byte_at pkt (Z.to_nat i)).
Proof using Hpkt. intros Hi. apply (byte_at_spec i Hi). Qed.

Lemma byte_at_range i : (i < 34)%nat → is_byte (byte_at pkt i).
Proof using Hpkt. intros Hi. destruct (byte_at_spec (Z.of_nat i)) as [_ H]; [lia|]. by rewrite Nat2Z.id in H. Qed.

Lemma load16_spec i :
  0 <= i < 33 →
  load16 pkt i = Ok (byte_at pkt (Z.to_nat i) + 256 * byte_at pkt (S (Z.to_nat i))).
Proof using Hpkt.
  intros Hi. unfold load16. rewrite !load8_spec by lia. simpl.
  pose proof (byte_at_range (Z.to_nat i) ltac:(lia)).
  rewrite lor_shiftl_add by (unfold is_byte in *; lia).
  replace (Z.to_nat (i + 1)) with (S (Z.to_nat i)) by lia. f_equal. lia.
Qed.

Lemma load32_spec i :
  0 <= i < 31 →
  load32 pkt i = Ok (byte_at pkt (Z.to_nat i) + 256 * byte_at pkt (1 + Z.to_nat i) +
    65536 * byte_at pkt (2 + Z.to_nat i) + 16777216 * byte_at pkt (3 + Z.to_nat i)).
Proof using Hpkt.
  intros Hi. unfold load32. rewrite !load16_spec by lia. simpl.
  pose proof (byte_at_range (Z.to_nat i) ltac:(lia)).
  pose proof (byte_at_range (1 + Z.to_nat i) ltac:(lia)).
  replace (Z.to_nat (i + 2)) with (2 + Z.to_nat i)%nat by lia. simpl in *.
  rewrite lor_shiftl_add by (unfold is_byte in *; lia). f_equal. lia.
Qed.

Section endian.
Context `{ByteOrderLaws}.

(** Network-order fields, as the engine reads them after byte swapping. *)
Definition be16_at (i : nat) : Z := 256 * byte_at pkt i + byte_at pkt (1 + i).
Definition be32_at (i : nat) : Z :=
  16777216 * byte_at pkt i + 65536 * byte_at pkt (1 + i) +
  256 * byte_at pkt (2 + i) + byte_at pkt (3 + i).

Lemma load_be16 i :
  0 <= i < 33 → (v ← load16 pkt i; Ok (rte_be_to_cpu_16 v)) = Ok (be16_at (Z.to_nat i)).
Proof using All.
  intros Hi. rewrite load16_spec by done. simpl. f_equal.
  apply be16_spec; apply byte_at_range; lia.
Qed.

Lemma load_be32 i :
  0 <= i < 31 → (v ← load32 pkt i; Ok (rte_be_to_cpu_32 v)) = Ok (be32_at (Z.to_nat i)).
Proof using All.
  intros Hi. rewrite load32_spec by done. simpl. f_equal.
  apply be32_spec; apply byte_at_range; lia.
Qed.
End endian.
End fields.

(** ** Executable reference instances *)
Module Reference.

Definition byte_order : ByteOrder := {|
  rte_be_to_cpu_16 v := 256 * (v mod 256) + (v / 256) mod 256;
  rte_be_to_cpu_32 v := 16777216 * (v mod 256) + 65536 * ((v / 256) mod 256) +
    256 * ((v / 65536) mod 256) + (v / 16777216) mod 256;
|}.

Definition byte_order_laws : @ByteOrderLaws byte_order.
Proof. split; unfold is_byte; intros; simpl; Z.to_euclidean_division_equations; lia. Qed.

(** A ring of bounded capacity holding its items in order. *)
Definition rings : RteRing := {|
  ring := Z * list mbuf;
  rte_ring_create _ size := Some (size - 1, []);
  rte_ring_enqueue_bulk r l :=
    if zlen (r.2 ++ l) <=? r.1 then (zlen l, (r.1, r.2 ++ l)) else (0, r);
  rte_ring_dequeue_burst r k := (take (Z.to_nat k) r.2, (r.1, drop (Z.to_nat k) r.2));
|}.

(** A virtual port: packets waiting to be received, packets received, packets
    sent, and the number of packets the port still accepts. *)
Record port := Port { p_in : list mbuf; p_recvd : list mbuf; p_sent : list mbuf; p_room : Z }.

(** [arrivals] lists the packets that will arrive on the port of a
    configuration. *)
Definition knis (arrivals : rte_kni_conf → list mbuf) : RteKni := {|
  kni := port;
  rte_kni_alloc conf := Some (Port (arrivals conf) [] [] 1024);
  rte_kni_tx_burst k l :=
    let n := Z.max 0 (Z.min (p_room k) (zlen l)) in
    (n, Port (p_in k) (p_recvd k) (p_sent k ++ take (Z.to_nat n) l) (p_room k - n));
  rte_kni_rx_burst k m :=
    let l := filter wf_mbuf (take (Z.to_nat m) (p_in k)) in
    (l, Port (drop (Z.to_nat m) (p_in k)) (p_recvd k ++ l) (p_sent k) (p_room k));
  rte_kni_handle_request k := k;
  rte_kni_init _ := 0;
  rte_kni_release _ := 0;
|}.

Definition lpms : RteLpm := {|
  lpm := gmap (Z * Z) Z;
  rte_lpm_create _ _ _ := Some ∅;
  rte_lpm_add p ip depth hop :=
    match p with
    | Some t =>
        if (1 <=? depth) && (depth <=? 32) then (0, Some (<[(lpm_prefix ip depth, depth) := hop]> t))
        else (-22, p)
    | None => (-22, None)
    end;
  rte_lpm_lookup p ip hop0 :=
    match p ≫= λ t, lpm_longest t ip with Some h => (0, h) | None => (-2, hop0) end;
|}.

Program Definition ring_laws : @RteRingLaws rings := {| ring_items := snd |}.
Next Obligation. simpl. intros ???[= <-]. done. Qed.
Next Obligation.
  simpl. intros [c q] l n r'; simpl. destruct (zlen (q ++ l) <=? c); intros [= <- <-]; auto.
Qed.
Next Obligation.
  simpl. intros [c q] k l r' [= <- <-]. simpl. rewrite take_drop. split; [done|].
  unfold zlen. rewrite length_take. lia.
Qed.

Definition ring_progress : @RteRingProgress rings ring_laws.
Proof.
  split. simpl. intros [c q] k r' Hk [= Hl _]. simpl in *. destruct q as [|x q]; [done|].
  by replace (Z.to_nat k) with (S (Z.to_nat (k - 1))) in Hl by lia.
Qed.

Program Definition kni_laws arrivals : @RteKniLaws (knis arrivals) :=
  {| kni_recvd := p_recvd; kni_sent := p_sent |}.
Next Obligation. simpl. intros ???[= <-]. done. Qed.
Next Obligation.
  simpl. intros _ k l n k' [= <- <-]. simpl. unfold zlen. split_and!; [lia|lia|done|done].
Qed.
Next Obligation.
  simpl. intros _ k m l k' [= <- <-]. simpl. split_and!; [|apply Forall_forall; intros x Hx; by apply list_elem_of_filter in Hx as [? _]|done..].
  unfold zlen. pose proof (length_filter wf_mbuf (take (Z.to_nat m) (p_in k))) as Hf.
  rewrite length_take in Hf. lia.
Qed.
Next Obligation. done. Qed.

Program Definition lpm_laws : @RteLpmLaws lpms := {| lpm_rules t := t |}.
Next Obligation. simpl. intros ????[= <-]. done. Qed.
Next Obligation.
  simpl. intros t ip depth hop ret p.
  destruct (Z.leb_spec 1 depth), (Z.leb_spec depth 32); simpl; intros [= <- <-];
    (eexists; split; [done|]); auto with lia.
Qed.
Next Obligation.
  simpl. intros t ip hop0 ret hop. destruct (lpm_longest t ip); intros [= <- <-]; [done|lia].
Qed.

End Reference.
