(* ===== verification/Stdio.v ===== *)
(** * The parts of C's formatted I/O the engine uses

    [snprintf] with ["%u"] and [sscanf] with ["%u"], on C strings modelled as
    lists of bytes without the terminating NUL.  The scanner follows glibc's
    conversion through [strtoul] on a 64-bit [unsigned long]. *)
From S2P Require Import Prelude.

Definition is_digit (c : Z) : bool := (48 <=? c) && (c <=? 57).
Definition is_space (c : Z) : bool := (c =? 32) || ((9 <=? c) && (c <=? 13)).

(** Longest prefix of decimal digits. *)
Fixpoint span_digits (s : list Z) : list Z * list Z :=
  match s with
  | c :: s' => if is_digit c then let '(ds, r) := span_digits s' in (c :: ds, r) else ([], s)
  | [] => ([], [])
  end.

Definition dec_value (ds : list Z) : Z := foldl (λ v d, 10 * v + (d - 48)) 0 ds.

Fixpoint skip_space (s : list Z) : list Z :=
  match s with c :: s' => if is_space c then skip_space s' else s | [] => [] end.

(** One ["%u"] conversion: the value stored and the rest of the input, [None]
    on a matching failure. *)
Definition scan_u (s : list Z) : option (Z * list Z) :=
  let s := skip_space s in
  let '(neg, s) := match s with
                   | 45 :: s' => (true, s')
                   | 43 :: s' => (false, s')
                   | _ => (false, s)
                   end in
  match span_digits s with
  | ([], _) => None
  | (ds, r) =>
      let v := dec_value ds in
      let ul := if 2 ^ 64 - 1 <? v then 2 ^ 64 - 1 else if neg then u64 (- v) else v in
      Some (u32 ul, r)
  end.

(** A literal character of the format. *)
Definition scan_char (c : Z) (s : list Z) : option (list Z) :=
  match s with c' :: s' => if c =? c' then Some s' else None | [] => None end.

(** ["%u"] output.  Twenty digits hold every 64-bit value. *)
Fixpoint print_u_digits (fuel : nat) (n : Z) (acc : list Z) : list Z :=
  match fuel with
  | O => acc
  | S fuel =>
      let acc := (48 + n mod 10) :: acc in
      if n <? 10 then acc else print_u_digits fuel (n / 10) acc
  end.

Definition print_u (n : Z) : list Z := print_u_digits 20 n [].

(** [snprintf(buf, size, ...)]: at most [size - 1] characters are stored. *)
Definition snprintf_store (size : Z) (text : list Z) : list Z := take (Z.to_nat (size - 1)) text.

(** ** Lemmas *)

Lemma is_digit_spec c : is_digit c = true ↔ 48 <= c <= 57.
Proof. unfold is_digit. lia. Qed.

Lemma foldl_dec_app v ds d :
  foldl (λ v d, 10 * v + (d - 48)) v (ds ++ [d]) = 10 * foldl (λ v d, 10 * v + (d - 48)) v ds + (d - 48).
Proof. by rewrite foldl_app. Qed.

Lemma dec_value_shift v ds :
  foldl (λ v d, 10 * v + (d - 48)) v ds = v * 10 ^ zlen ds + dec_value ds.
Proof.
  unfold dec_value, zlen. revert v. induction ds as [|d ds IH] using rev_ind; intros v; simpl; [lia|].
  rewrite !foldl_dec_app, IH, length_app. simpl.
  replace (Z.of_nat (length ds + 1)) with (Z.succ (Z.of_nat (length ds))) by lia.
  rewrite Z.pow_succ_r by lia. lia.
Qed.

Lemma dec_value_cons d ds : dec_value (d :: ds) = (d - 48) * 10 ^ zlen ds + dec_value ds.
Proof. unfold dec_value at 1. simpl. by rewrite dec_value_shift. Qed.

(** The printed digits in front of [acc] denote [n]. *)
Lemma print_u_digits_spec fuel n acc :
  0 <= n < 10 ^ Z.of_nat fuel → Forall (λ c, is_digit c = true) acc →
  Forall (λ c, is_digit c = true) (print_u_digits fuel n acc) ∧
  dec_value (print_u_digits fuel n acc) = n * 10 ^ zlen acc + dec_value acc.
Proof.
  revert n acc. induction fuel as [|fuel IH]; intros n acc Hn Hacc.
  - simpl in *. split; [done|]. replace n with 0 by lia. lia.
  - assert (is_digit (48 + n mod 10) = true) as Hd
      by (apply is_digit_spec; Z.to_euclidean_division_equations; lia).
    assert (Forall (λ c, is_digit c = true) ((48 + n mod 10) :: acc)) as Hacc' by auto.
    cbn [print_u_digits]. destruct (Z.ltb_spec n 10).
    + split; [done|]. rewrite dec_value_cons, (Z.mod_small n) by lia. lia.
    + destruct (IH (n / 10) ((48 + n mod 10) :: acc)) as [? ->]; [|done|].
      { rewrite Nat2Z.inj_succ, Z.pow_succ_r in Hn by lia.
        Z.to_euclidean_division_equations; lia. }
      split; [done|]. rewrite dec_value_cons. unfold zlen. cbn [length].
      rewrite Nat2Z.inj_succ, Z.pow_succ_r by lia.
      pose proof (Z.div_mod n 10). nia.
Qed.

Lemma print_u_digits_nonempty fuel n acc : print_u_digits (S fuel) n acc ≠ [].
Proof.
  revert n acc. induction fuel as [|fuel IH]; intros n acc; [simpl; by destruct (_ <? _)|].
  cbn [print_u_digits]. destruct (_ <? _); [done|]. apply IH.
Qed.

Lemma print_u_spec n :
  0 <= n < 10 ^ 20 →
  Forall (λ c, is_digit c = true) (print_u n) ∧ dec_value (print_u n) = n ∧ print_u n ≠ [].
Proof.
  intros Hn. destruct (print_u_digits_spec 20 n [] Hn) as [? Hv]; [done|].
  split_and!; [done| |apply print_u_digits_nonempty].
  unfold print_u. rewrite Hv. unfold zlen, dec_value. simpl. lia.
Qed.

Lemma span_digits_app ds r :
  Forall (λ c, is_digit c = true) ds → (∀ c r', r = c :: r' → is_digit c = false) →
  span_digits (ds ++ r) = (ds, r).
Proof.
  intros Hds Hr. induction Hds as [|d ds Hd _ IH]; simpl; [|by rewrite Hd, IH].
  destruct r as [|c r]; [done|]. simpl. by rewrite (Hr c r).
Qed.

(** Scanning what was printed gives the number back. *)
Lemma scan_u_print_u n r :
  0 <= n < 2 ^ 32 → (∀ c r', r = c :: r' → is_digit c = false) →
  scan_u (print_u n ++ r) = Some (n, r).
Proof.
  intros Hn Hr. destruct (print_u_spec n) as (Hds & Hv & Hne); [lia|].
  unfold scan_u. destruct (print_u n) as [|d ds] eqn:E; [done|].
  pose proof (Forall_inv Hds) as Hd. apply is_digit_spec in Hd. simpl.
  assert (is_space d = false) as -> by (unfold is_space; lia).
  assert ((match d with 45 => (true, ds ++ r) | 43 => (false, ds ++ r) | _ => (false, d :: ds ++ r) end)
          = (false, d :: ds ++ r)) as ->.
  { destruct d as [|p|p]; [done| |lia]. do 7 (try destruct p as [p|p|]); try done; lia. }
  change (d :: ds ++ r) with ((d :: ds) ++ r). rewrite span_digits_app by done.
  rewrite Hv. destruct (Z.ltb_spec (2 ^ 64 - 1) n); [lia|]. by rewrite u32_id by lia.
Qed.
