(* ===== verification/Config.v ===== *)
(** * Engine configuration and initialisation ([engine/init.h], [engine/init.c])

    The global state of the engine, the routing table and ring set-up of
    [read_config] and the start-up sequence of [init]. *)
From S2P Require Import Prelude Dpdk Stdio.

(** ** Constants of [init.h] *)
Definition UNKNOWN_PORT : Z := 0xFFFF.
Definition UINT16_MAX : Z := 65535.
Definition ROUTING_TBL_SZ : Z := 0x10000.
Definition MAX_PACKET_SZ : Z := 2048.
Definition PKT_BURST_SZ : Z := 32.
Definition KNI_KTHREAD : Z := 5.
Definition NF_QUEUE_RINGSIZE : Z := 16384.
Definition NB_MBUF : Z := 8192 * 16.

Definition RTE_IPV4 (a b c d : Z) : Z :=
  Z.lor (Z.lor (Z.lor (u32 (Z.shiftl (Z.land a 0xff) 24)) (Z.shiftl (Z.land b 0xff) 16))
               (Z.shiftl (Z.land c 0xff) 8))
        (Z.land d 0xff).

(** ** Data structures of [init.h] *)

(** The array [buffer] has [PKT_BURST_SZ] descriptor pointers, [None] for a
    null pointer; the first [count] of them are in use. *)
Record packet_buf := PacketBuf { buffer : list (option mbuf); count : Z }.

Record kni_config := KniConfig { kc_id : Z; kc_ip : Z; kc_core : Z }.

(** [routing_table] is an array of [ROUTING_TBL_SZ] 16-bit entries in static
    storage: an entry that was never written is [0]. *)
Record queue_mgr := QueueMgr {
  qm_tx : cptr (list packet_buf);
  nb_active_kni : Z;
  kni_cnf : list kni_config;
  routing_table : gmap Z Z }.

Definition route (t : gmap Z Z) (i : Z) : Z := default 0 (t !! i).

Section globals.
Context `{RteRing, RteKni}.

Record coprocessor_mgr := CoprocessorMgr {
  rx_q : option ring; tx_q : option ring; nf_rx : packet_buf; nf_tx : packet_buf }.

(** The globals of [init.c].  [pktmbuf_pool] is whether the pool exists. *)
Record globals := Globals {
  pktmbuf_pool : bool;
  kni_list : list (option kni);
  tx_mgr : queue_mgr;
  nf : list coprocessor_mgr;
  kni_stop : Z }.

(** Objects with static storage duration are zero-initialised. *)
Definition zero_packet_buf : packet_buf := PacketBuf (replicate 32 None) 0.
Definition zero_queue_mgr : queue_mgr := QueueMgr Null 0 (replicate 5 (KniConfig 0 0 0)) ∅.
Definition zero_coprocessor_mgr : coprocessor_mgr :=
  CoprocessorMgr None None zero_packet_buf zero_packet_buf.
Definition zero_globals : globals :=
  Globals false (replicate 5 None) zero_queue_mgr (replicate 5 zero_coprocessor_mgr) 0.

Definition set_pool (b : bool) (g : globals) : globals :=
  Globals b (kni_list g) (tx_mgr g) (nf g) (kni_stop g).
Definition set_kni_list (l : list (option kni)) (g : globals) : globals :=
  Globals (pktmbuf_pool g) l (tx_mgr g) (nf g) (kni_stop g).
Definition set_tx_mgr (q : queue_mgr) (g : globals) : globals :=
  Globals (pktmbuf_pool g) (kni_list g) q (nf g) (kni_stop g).
Definition set_nf (l : list coprocessor_mgr) (g : globals) : globals :=
  Globals (pktmbuf_pool g) (kni_list g) (tx_mgr g) l (kni_stop g).
Definition set_kni_stop (z : Z) (g : globals) : globals :=
  Globals (pktmbuf_pool g) (kni_list g) (tx_mgr g) (nf g) z.

Definition set_qm_tx (t : cptr (list packet_buf)) (q : queue_mgr) : queue_mgr :=
  QueueMgr t (nb_active_kni q) (kni_cnf q) (routing_table q).

(** ** Queue names

    The name is formatted into a static buffer of
    [sizeof("MProc_Client_%u_RX") + 2 = 21] bytes with size argument 20. *)
Definition get_rx_queue_name (id : Z) : list Z :=
  snprintf_store 20 (bytes_of_string "MProc_Client_" ++ print_u id ++ bytes_of_string "_RX").
Definition get_tx_queue_name (id : Z) : list Z :=
  snprintf_store 20 (bytes_of_string "MProc_Client_" ++ print_u id ++ bytes_of_string "_TX").

Definition string_of_bytes (l : list Z) : string :=
  String.string_of_list_ascii ((λ b, Ascii.ascii_of_N (Z.to_N b)) <$> l).

(** ** [read_config] *)

(** The five loops over [KNI_KTHREAD], in the order of the source. *)
Definition default_route_body (i : Z) (q : queue_mgr) : outcome queue_mgr :=
  Ok (QueueMgr (qm_tx q) (nb_active_kni q) (kni_cnf q) (<[i := UINT16_MAX]> (routing_table q))).

Definition port_config_body (i : Z) (q : queue_mgr) : outcome queue_mgr :=
  cnf ← arr_set (kni_cnf q) i (KniConfig i (RTE_IPV4 192 167 10 (i + 1)) i);
  Ok (QueueMgr (qm_tx q) (nb_active_kni q) cnf (routing_table q)).

Definition ring_setup_body (i : Z) (l : list coprocessor_mgr) : outcome (list coprocessor_mgr) :=
  c ← arr_get l i;
  arr_set l i (CoprocessorMgr
    (rte_ring_create (string_of_bytes (get_rx_queue_name i)) NF_QUEUE_RINGSIZE)
    (rte_ring_create (string_of_bytes (get_tx_queue_name i)) NF_QUEUE_RINGSIZE)
    (nf_rx c) (nf_tx c)).

Definition populate_route_body (i : Z) (q : queue_mgr) : outcome queue_mgr :=
  c ← arr_get (kni_cnf q) i;
  Ok (QueueMgr (qm_tx q) (nb_active_kni q) (kni_cnf q)
        (<[Z.land (kc_ip c) 0xFFFF := u16 (kc_id c)]> (routing_table q))).

Definition read_config (g : globals) : outcome (Z * globals) :=
  q ← foldM default_route_body (seqZ 0 KNI_KTHREAD) (tx_mgr g);
  q ← foldM port_config_body (seqZ 0 KNI_KTHREAD) q;
  let q := QueueMgr (qm_tx q) KNI_KTHREAD (kni_cnf q) (routing_table q) in
  l ← foldM ring_setup_body (seqZ 0 KNI_KTHREAD) (nf g);
  q ← foldM populate_route_body (seqZ 0 (nb_active_kni q)) q;
  Ok (0, set_nf l (set_tx_mgr q g)).

(** ** [init]

    [pool_ok] and [calloc_ok] are whether [rte_pktmbuf_pool_create] and
    [rte_calloc] return non-null. *)
Definition engine_free (g : globals) : outcome globals :=
  match qm_tx (tx_mgr g) with
  | Null => Ok g
  | _ => p ← cfree (qm_tx (tx_mgr g)); Ok (set_tx_mgr (set_qm_tx p (tx_mgr g)) g)
  end.

Definition init (pool_ok calloc_ok : bool) (g : globals) : outcome (Z * globals) :=
  let g := set_pool pool_ok g in
  if negb (pktmbuf_pool g) then Exit "Could not initialise mbuf pool"
  else
    let tx := if calloc_ok then Live (replicate 5 zero_packet_buf) else Null in
    let g := set_tx_mgr (set_qm_tx tx (tx_mgr g)) g in
    match qm_tx (tx_mgr g) with
    | Null => g ← engine_free g; Ok (-1, g)
    | _ =>
        '(r, g) ← read_config g;
        if negb (r =? 0) then g ← engine_free g; Ok (-1, g) else Ok (0, g)
    end.

(** ** The configuration that [read_config] computes *)

(** The routing table after [read_config], as a function of the low 16 bits of
    the destination address and of the table before. *)
Definition configured_route (t : gmap Z Z) (k : Z) : Z :=
  if decide (2561 <= k < 2566) then k - 2561
  else if decide (0 <= k < 5) then UINT16_MAX
  else route t k.

(** Globals whose arrays have their declared sizes. *)
Definition sized (g : globals) : Prop :=
  length (kni_cnf (tx_mgr g)) = 5%nat ∧ length (nf g) = 5%nat ∧ length (kni_list g) = 5%nat.

Definition configured_nf (i : nat) (c : coprocessor_mgr) : coprocessor_mgr :=
  CoprocessorMgr
    (rte_ring_create (string_of_bytes (get_rx_queue_name (Z.of_nat i))) NF_QUEUE_RINGSIZE)
    (rte_ring_create (string_of_bytes (get_tx_queue_name (Z.of_nat i))) NF_QUEUE_RINGSIZE)
    (nf_rx c) (nf_tx c).

Lemma seqZ_KNI : seqZ 0 KNI_KTHREAD = [0; 1; 2; 3; 4].
Proof. reflexivity. Qed.

Lemma default_routes_run q :
  foldM default_route_body (seqZ 0 KNI_KTHREAD) q
  = Ok (QueueMgr (qm_tx q) (nb_active_kni q) (kni_cnf q)
      (<[4 := UINT16_MAX]> (<[3 := UINT16_MAX]> (<[2 := UINT16_MAX]>
        (<[1 := UINT16_MAX]> (<[0 := UINT16_MAX]> (routing_table q))))))).
Proof. by rewrite seqZ_KNI. Qed.

Definition configured_cnf : list kni_config :=
  (λ i, KniConfig i (RTE_IPV4 192 167 10 (i + 1)) i) <$> [0; 1; 2; 3; 4].

Lemma port_config_run q :
  length (kni_cnf q) = 5%nat →
  foldM port_config_body (seqZ 0 KNI_KTHREAD) q
  = Ok (QueueMgr (qm_tx q) (nb_active_kni q) configured_cnf (routing_table q)).
Proof.
  destruct q as [tx n [|c0 [|c1 [|c2 [|c3 [|c4 [|]]]]]] t]; intros Hl; try discriminate Hl.
  by rewrite seqZ_KNI.
Qed.

Lemma ring_setup_run l :
  length l = 5%nat → foldM ring_setup_body (seqZ 0 KNI_KTHREAD) l = Ok (imap configured_nf l).
Proof.
  destruct l as [|c0 [|c1 [|c2 [|c3 [|c4 [|]]]]]]; intros Hl; try discriminate Hl.
  rewrite seqZ_KNI. unfold ring_setup_body, configured_nf.
  generalize get_rx_queue_name get_tx_queue_name string_of_bytes. intros rx tx str. done.
Qed.

Lemma populate_routes_run q :
  kni_cnf q = configured_cnf →
  foldM populate_route_body (seqZ 0 KNI_KTHREAD) q
  = Ok (QueueMgr (qm_tx q) (nb_active_kni q) configured_cnf
      (<[2565 := 4]> (<[2564 := 3]> (<[2563 := 2]> (<[2562 := 1]> (<[2561 := 0]>
        (routing_table q))))))).
Proof. rewrite seqZ_KNI. destruct q as [tx n cnf t]. intros Hc. simpl in Hc. by subst cnf. Qed.

Lemma read_config_run g :
  sized g →
  ∃ t, read_config g = Ok (0, set_nf (imap configured_nf (nf g))
    (set_tx_mgr (QueueMgr (qm_tx (tx_mgr g)) KNI_KTHREAD configured_cnf t) g)) ∧
    ∀ k, route t k = configured_route (routing_table (tx_mgr g)) k.
Proof.
  intros (Hcnf & Hnf & _). unfold read_config.
  rewrite default_routes_run. cbn [mbind outcome_bind].
  rewrite port_config_run by done. cbn [mbind outcome_bind nb_active_kni qm_tx kni_cnf routing_table].
  rewrite ring_setup_run by done. cbn [mbind outcome_bind].
  rewrite populate_routes_run by done. cbn [mbind outcome_bind qm_tx routing_table nb_active_kni].
  eexists. split; [done|]. intros k. unfold configured_route, route. rewrite !lookup_insert.
  repeat case_decide; subst; try done; try lia.
Qed.

End globals.
