(* ===== verification/CJsonData.v ===== *)
(** * cJSON: items, allocation and deletion ([engine/thirdparty/cJSON.{h,c}])

    The item structure of [cJSON.h], the allocator behind [internal_hooks],
    [cJSON_New_Item] and [cJSON_Delete]. *)
From S2P Require Import Prelude.
From Stdlib Require Export SpecFloat.

(** ** Type codes of [cJSON.h] *)
Definition cJSON_Invalid : Z := 0.
Definition cJSON_False : Z := 1.
Definition cJSON_True : Z := 2.
Definition cJSON_NULL : Z := 4.
Definition cJSON_Number : Z := 8.
Definition cJSON_String : Z := 16.
Definition cJSON_Array : Z := 32.
Definition cJSON_Object : Z := 64.
Definition cJSON_Raw : Z := 128.
Definition cJSON_IsReference : Z := 256.
Definition cJSON_StringIsConst : Z := 512.
Definition CJSON_NESTING_LIMIT : Z := 1000.

(** ** Heap blocks

    A block is named by the index of the allocation request that created it,
    so a name is never reused; [live] is the set of blocks allocated and not
    yet freed. *)
Record heap := Heap { reqs : nat; live : gset nat }.

(** A heap string: its block and the bytes before the final NUL. *)
Record cstr := CStr { c_addr : nat; c_bytes : list Z }.

(** The C string in the buffer ends at the first NUL byte. *)
Fixpoint cstring (l : list Z) : list Z :=
  match l with
  | [] => []
  | c :: l' => if c =? 0 then [] else c :: cstring l'
  end.

(** ** Items

    [child] lists the chain that the fields [child], [next] and [prev] of the
    C structure link together. *)
Inductive cJSON := CJSON {
  addr : nat;
  type : Z;
  valuestring : option cstr;
  valueint : Z;
  valuedouble : spec_float;
  item_string : option cstr;
  child : list cJSON }.

(** Induction over items and, through [Forall], over their children. *)
Lemma cJSON_tree_ind (P : cJSON → Prop) :
  (∀ a t vs vi vd s ch, Forall P ch → P (CJSON a t vs vi vd s ch)) → ∀ j, P j.
Proof.
  intros IH. fix self 1. intros [a t vs vi vd s ch]. apply IH.
  induction ch as [|j ch IHch]; constructor; [apply self|apply IHch].
Qed.

Definition is_reference (j : cJSON) : bool := negb (Z.land (type j) cJSON_IsReference =? 0).
Definition string_is_const (j : cJSON) : bool := negb (Z.land (type j) cJSON_StringIsConst =? 0).

Section alloc.
(** [may_allocate n size] is whether the [n]-th request succeeds: the
    behaviour of [malloc], about which nothing is assumed. *)
Variable may_allocate : nat → Z → bool.

Definition allocate (size : Z) (h : heap) : option nat * heap :=
  if may_allocate (reqs h) size
  then (Some (reqs h), Heap (S (reqs h)) ({[reqs h]} ∪ live h))
  else (None, Heap (S (reqs h)) (live h)).

Definition deallocate (a : nat) (h : heap) : outcome heap :=
  if decide (a ∈ live h) then Ok (Heap (reqs h) (live h ∖ {[a]})) else Fault DoubleFree.

(** Size in bytes of [struct cJSON] on x86-64. *)
Definition sizeof_cJSON : Z := 64.

(** [cJSON_New_Item]: a zeroed item. *)
Definition cJSON_New_Item (h : heap) : option cJSON * heap :=
  let '(p, h) := allocate sizeof_cJSON h in
  ((λ a, CJSON a cJSON_Invalid None 0 (S754_zero false) None []) <$> p, h).
End alloc.

(** ** Deletion

    The loop of [cJSON_Delete] over the [next] chain and its recursive call on
    the children, in the order of the source. *)
Fixpoint delete_item (j : cJSON) (h : heap) : outcome heap :=
  let fix delete_chain (l : list cJSON) (h : heap) : outcome heap :=
    match l with
    | [] => Ok h
    | j :: l => h ← delete_item j h; delete_chain l h
    end in
  h ← (if negb (is_reference j) then delete_chain (child j) h else Ok h);
  h ← (if negb (is_reference j) then
         match valuestring j with Some s => deallocate (c_addr s) h | None => Ok h end
       else Ok h);
  h ← (if negb (string_is_const j) then
         match item_string j with Some s => deallocate (c_addr s) h | None => Ok h end
       else Ok h);
  deallocate (addr j) h.

Fixpoint cJSON_Delete (l : list cJSON) (h : heap) : outcome heap :=
  match l with
  | [] => Ok h
  | j :: l => h ← delete_item j h; cJSON_Delete l h
  end.

(** ** Ownership *)

Definition cstr_blocks (s : option cstr) : list nat :=
  match s with Some s => [c_addr s] | None => [] end.

(** The blocks an item owns, in the order in which [cJSON_Delete] frees them. *)
Fixpoint blocks (j : cJSON) : list nat :=
  concat (blocks <$> child j) ++ cstr_blocks (valuestring j) ++ cstr_blocks (item_string j) ++ [addr j].

Definition chain_blocks (l : list cJSON) : list nat := concat (blocks <$> l).

(** An item tree built by the parser: no reference and no constant key. *)
Inductive owned : cJSON → Prop :=
  | owned_intro j :
      is_reference j = false → string_is_const j = false → Forall owned (child j) → owned j.

Lemma blocks_unfold j :
  blocks j = chain_blocks (child j) ++ cstr_blocks (valuestring j) ++ cstr_blocks (item_string j) ++ [addr j].
Proof. by destruct j. Qed.

Lemma chain_blocks_app l k : chain_blocks (l ++ k) = chain_blocks l ++ chain_blocks k.
Proof. unfold chain_blocks. by rewrite fmap_app, concat_app. Qed.

Lemma chain_blocks_singleton j : chain_blocks [j] = blocks j.
Proof. unfold chain_blocks. simpl. apply app_nil_r. Qed.

Lemma delete_item_unfold j h :
  delete_item j h =
  (h ← (if negb (is_reference j) then cJSON_Delete (child j) h else Ok h);
   h ← (if negb (is_reference j) then
          match valuestring j with Some s => deallocate (c_addr s) h | None => Ok h end
        else Ok h);
   h ← (if negb (string_is_const j) then
          match item_string j with Some s => deallocate (c_addr s) h | None => Ok h end
        else Ok h);
   deallocate (addr j) h).
Proof. by destruct j. Qed.

(** Deleting an owned tree frees its blocks one after the other. *)
Lemma delete_item_blocks j : owned j → ∀ h, delete_item j h = foldM deallocate (blocks j) h.
Proof.
  induction j as [a t vs vi vd s ch IH] using cJSON_tree_ind. intros Hj. inversion Hj as [? Hr Hc Hch]; subst.
  intros h. rewrite delete_item_unfold, blocks_unfold, Hr, Hc. cbn [negb child valuestring item_string addr] in *.
  rewrite foldM_app.
  assert (∀ h, cJSON_Delete ch h = foldM deallocate (chain_blocks ch) h) as Hdel.
  { clear -IH Hch. induction ch as [|j ch IHch]; intros h; [done|].
    apply Forall_cons in IH as [IHj IH], Hch as [Hj Hch]. unfold chain_blocks. cbn.
    rewrite foldM_app, (IHj Hj). destruct (foldM deallocate (blocks j) h); cbn; [|done..]. by apply IHch. }
  rewrite Hdel. destruct (foldM deallocate (chain_blocks ch) h) as [h1| |]; cbn; [|done..].
  destruct vs as [vs|]; cbn; (destruct s as [s|]; cbn; [|]);
    repeat (match goal with |- context [deallocate ?x ?y] => destruct (deallocate x y); cbn end; try done).
Qed.

Lemma cJSON_Delete_blocks l : Forall owned l → ∀ h, cJSON_Delete l h = foldM deallocate (chain_blocks l) h.
Proof.
  induction 1 as [|j l Hj Hl IH]; intros h; [done|]. unfold chain_blocks. cbn.
  rewrite foldM_app, (delete_item_blocks j Hj). destruct (foldM deallocate (blocks j) h); cbn; auto.
Qed.

Lemma deallocate_all l h :
  NoDup l → list_to_set l ⊆ live h →
  foldM deallocate l h = Ok (Heap (reqs h) (live h ∖ list_to_set l)).
Proof.
  intros Hnd. revert h. induction Hnd as [|a l Ha Hnd IH]; intros [n L] Hsub; cbn in *.
  { do 2 f_equal. set_solver. }
  assert (deallocate a (Heap n L) = Ok (Heap n (L ∖ {[a]}))) as ->.
  { unfold deallocate. cbn. by rewrite decide_True by set_solver. }
  cbn. rewrite IH by (cbn; set_solver).
  cbn. do 2 f_equal. set_solver.
Qed.

(** [cJSON_Delete] of a well-formed chain releases exactly its blocks. *)
Lemma cJSON_Delete_spec l h :
  Forall owned l → NoDup (chain_blocks l) → list_to_set (chain_blocks l) ⊆ live h →
  cJSON_Delete l h = Ok (Heap (reqs h) (live h ∖ list_to_set (chain_blocks l))).
Proof. intros Hl ??. rewrite cJSON_Delete_blocks by done. by apply deallocate_all. Qed.
