(* ===== verification/CJsonText.v ===== *)
(** * cJSON: lexical level of the parser

    The parse buffer, white space, hexadecimal and UTF-16 escapes and string
    literals of [engine/thirdparty/cJSON.c].  The text is the array
    [content]; a read outside of it, or a write beyond an allocated output
    buffer, is a fault. *)
From S2P Require Import Prelude CJsonData.

(** The fields of [parse_buffer] ([length] is the length of [content]), and
    the heap the parser allocates from. *)
Record parse_buffer := ParseBuffer {
  content : list Z; offset : nat; depth : Z; bheap : heap }.

Definition set_offset (n : nat) (b : parse_buffer) : parse_buffer :=
  ParseBuffer (content b) n (depth b) (bheap b).
Definition set_depth (d : Z) (b : parse_buffer) : parse_buffer :=
  ParseBuffer (content b) (offset b) d (bheap b).
Definition set_heap (h : heap) (b : parse_buffer) : parse_buffer :=
  ParseBuffer (content b) (offset b) (depth b) h.

Definition read (s : list Z) (p : nat) : outcome Z := or_fault OutOfBounds (s !! p).

(** [can_read], [can_access_at_index] and [buffer_at_offset(b)[0]] *)
Definition can_read (b : parse_buffer) (size : nat) : bool :=
  (offset b + size <=? length (content b))%nat.
Definition can_access_at_index (b : parse_buffer) (i : nat) : bool :=
  (offset b + i <? length (content b))%nat.
Definition byte_at_offset (b : parse_buffer) : outcome Z := read (content b) (offset b).

(** Short-circuit test [can_access_at_index(b, 0) && b[0] == c]. *)
Definition next_is (b : parse_buffer) (c : Z) : outcome bool :=
  if can_access_at_index b 0 then x ← byte_at_offset b; Ok (x =? c) else Ok false.

(** [can_read(b, n) && strncmp(buffer_at_offset(b), lit, n) == 0] for a
    literal of [n] characters. *)
Definition starts_with (b : parse_buffer) (lit : list Z) : bool :=
  can_read b (length lit) && bool_decide (take (length lit) (drop (offset b) (content b)) = lit).

(** ** White space *)

(** Length of the run of bytes up to 32 at the front of the remaining text. *)
Fixpoint space_run (l : list Z) : nat :=
  match l with c :: l' => if c <=? 32 then S (space_run l') else O | [] => O end.

Definition buffer_skip_whitespace (b : parse_buffer) : parse_buffer :=
  let o := (offset b + space_run (drop (offset b) (content b)))%nat in
  let o := if (o =? length (content b))%nat then pred o else o in
  set_offset o b.

(** [None] when the offset is not 0, as the source returns [NULL]. *)
Definition skip_utf8_bom (b : parse_buffer) : option parse_buffer :=
  if negb (offset b =? 0)%nat then None
  else if can_access_at_index b 4 &&
          bool_decide (take 3 (drop (offset b) (content b)) = [0xEF; 0xBB; 0xBF])
  then Some (set_offset (offset b + 3) b) else Some b.

(** ** Hexadecimal digits and UTF-16 literals *)

Definition hex_digit (c : Z) : option Z :=
  if (48 <=? c) && (c <=? 57) then Some (c - 48)
  else if (65 <=? c) && (c <=? 70) then Some (10 + c - 65)
  else if (97 <=? c) && (c <=? 102) then Some (10 + c - 97)
  else None.

Fixpoint hex4_loop (s : list Z) (p : nat) (idx : list nat) (h : Z) : outcome Z :=
  match idx with
  | [] => Ok h
  | i :: idx =>
      c ← read s (p + i);
      match hex_digit c with
      | None => Ok 0
      | Some d =>
          let h := u32 (h + d) in
          hex4_loop s p idx (if (i <? 3)%nat then u32 (Z.shiftl h 4) else h)
      end
  end.

Definition parse_hex4 (s : list Z) (p : nat) : outcome Z := hex4_loop s p [0; 1; 2; 3]%nat 0.

(** The encoding loop: positions [k], ..., [1] and the bits left for the
    first byte. *)
Fixpoint utf8_tail (k : nat) (codepoint : Z) (acc : list Z) : list Z * Z :=
  match k with
  | O => (acc, codepoint)
  | S k => utf8_tail k (Z.shiftr codepoint 6) (u8 (Z.land (Z.lor codepoint 0x80) 0xBF) :: acc)
  end.

Definition utf8_bytes (utf8_length : nat) (first_byte_mark codepoint : Z) : list Z :=
  let '(rest, cp) := utf8_tail (pred utf8_length) codepoint [] in
  (if (1 <? utf8_length)%nat then u8 (Z.land (Z.lor cp first_byte_mark) 0xFF)
   else u8 (Z.land cp 0x7F)) :: rest.

Definition utf8_encode (codepoint : Z) : option (list Z) :=
  if codepoint <? 0x80 then Some (utf8_bytes 1 0 codepoint)
  else if codepoint <? 0x800 then Some (utf8_bytes 2 0xC0 codepoint)
  else if codepoint <? 0x10000 then Some (utf8_bytes 3 0xE0 codepoint)
  else if codepoint <=? 0x10FFFF then Some (utf8_bytes 4 0xF0 codepoint)
  else None.

(** [utf16_literal_to_utf8] at position [p] of a literal that ends at [e]:
    the length of the sequence and the bytes written, length [0] on failure. *)
Definition utf16_literal_to_utf8 (s : list Z) (p e : nat) : outcome (nat * list Z) :=
  let fail := Ok (0%nat, []) in
  if (e - p <? 6)%nat then fail
  else
    first_code ← parse_hex4 s (p + 2);
    if (0xDC00 <=? first_code) && (first_code <=? 0xDFFF) then fail
    else if (0xD800 <=? first_code) && (first_code <=? 0xDBFF) then
      let second_sequence := (p + 6)%nat in
      if (e - second_sequence <? 6)%nat then fail
      else
        c0 ← read s second_sequence;
        if negb (c0 =? 92) then fail
        else
          c1 ← read s (second_sequence + 1);
          if negb (c1 =? 117) then fail
          else
            second_code ← parse_hex4 s (second_sequence + 2);
            if (second_code <? 0xDC00) || (0xDFFF <? second_code) then fail
            else
              let codepoint := 0x10000 +
                Z.lor (Z.shiftl (Z.land first_code 0x3FF) 10) (Z.land second_code 0x3FF) in
              match utf8_encode codepoint with Some bs => Ok (12%nat, bs) | None => fail end
    else
      match utf8_encode first_code with Some bs => Ok (6%nat, bs) | None => fail end.

(** ** String literals *)

(** The first pass over the literal: [l] is the text from position [p] on.
    Position of the closing quote and number of escapes, [None] when the
    literal ends unexpectedly. *)
Fixpoint scan_string_end (l : list Z) (p skipped : nat) : option (nat * nat) :=
  match l with
  | [] => None
  | c :: l' =>
      if c =? 34 then Some (p, skipped)
      else if c =? 92 then
        match l' with
        | [] => None
        | _ :: l'' => scan_string_end l'' (S (S p)) (S skipped)
        end
      else scan_string_end l' (S p) skipped
  end.

(** Writing to an output buffer of [room] bytes. *)
Definition emit (room : nat) (out bs : list Z) : outcome (list Z) :=
  if (length out + length bs <=? room)%nat then Ok (out ++ bs) else Fault OutOfBounds.

Definition simple_escape (c : Z) : option Z :=
  if c =? 98 then Some 8            (* \b *)
  else if c =? 102 then Some 12     (* \f *)
  else if c =? 110 then Some 10     (* \n *)
  else if c =? 114 then Some 13     (* \r *)
  else if c =? 116 then Some 9      (* \t *)
  else if (c =? 34) || (c =? 92) || (c =? 47) then Some c
  else None.

(** The second pass: from [p] to the closing quote at [e].  The output, or
    [None] on failure, and the final input position. *)
Fixpoint unescape (fuel : nat) (s : list Z) (e room : nat) (p : nat) (out : list Z) :
    outcome (option (list Z) * nat) :=
  match fuel with
  | O => Fault OutOfFuel
  | S fuel =>
      if (p <? e)%nat then
        c ← read s p;
        if negb (c =? 92) then
          out ← emit room out [c]; unescape fuel s e room (S p) out
        else if (e - p <? 1)%nat then Ok (None, p)
        else
          c1 ← read s (S p);
          match simple_escape c1 with
          | Some x => out ← emit room out [x]; unescape fuel s e room (p + 2) out
          | None =>
              if c1 =? 117 then
                '(n, bs) ← utf16_literal_to_utf8 s p e;
                if (n =? 0)%nat then Ok (None, p)
                else out ← emit room out bs; unescape fuel s e room (p + n) out
              else Ok (None, p)
          end
      else Ok (Some out, p)
  end.

Section parse_string.
Variable may_allocate : nat → Z → bool.

Definition set_string (j : cJSON) (t : Z) (s : option cstr) : cJSON :=
  CJSON (addr j) t s (valueint j) (valuedouble j) (item_string j) (child j).

(** [parse_string]: the item filled in, or [None] with the item unchanged. *)
Definition parse_string (item : cJSON) (b : parse_buffer) : outcome (option cJSON * parse_buffer) :=
  let start := S (offset b) in
  c ← byte_at_offset b;
  if negb (c =? 34) then Ok (None, set_offset start b)
  else
    match scan_string_end (drop start (content b)) start 0 with
    | None => Ok (None, set_offset start b)
    | Some (input_end, skipped_bytes) =>
        let allocation_length := (input_end - offset b - skipped_bytes)%nat in
        let '(p, h) := allocate may_allocate (Z.of_nat (allocation_length + 1)) (bheap b) in
        match p with
        | None => Ok (None, set_offset start (set_heap h b))
        | Some a =>
            '(r, ip) ← unescape (S (length (content b))) (content b) input_end
                         (allocation_length + 1) start [];
            match r with
            | None => h ← deallocate a h; Ok (None, set_offset ip (set_heap h b))
            | Some out =>
                _ ← emit (allocation_length + 1) out [0];
                Ok (Some (set_string item cJSON_String (Some (CStr a out))),
                    set_offset (S input_end) (set_heap h b))
            end
        end
    end.
End parse_string.
