(* ===== verification/CJsonTextSafe.v ===== *)
(** * cJSON: safety and meaning of the lexical level

    String parsing stays inside the text and inside the output buffer it
    allocates, white space skipping stays inside the text, and the escape
    decoders compute what they should. *)
From S2P Require Import Prelude CJsonData CJsonText.

(** ** Counting escapes *)

(** Number of escape sequences of a literal body read from its front. *)
Fixpoint escapes (l : list Z) : nat :=
  match l with
  | [] => O
  | c :: l' => if c =? 92 then match l' with [] => O | _ :: l'' => S (escapes l'') end else escapes l'
  end.

Lemma list_ind2 {A} (P : list A → Prop) :
  P [] → (∀ a, P [a]) → (∀ a b l, P l → P (b :: l) → P (a :: b :: l)) → ∀ l, P l.
Proof.
  intros H0 H1 H2 l. enough (P l ∧ ∀ a, P (a :: l)) by naive_solver.
  induction l as [|a l [IH1 IH2]]; split; auto.
Qed.

(** Dropping a byte loses at most one escape and never gains one. *)
Lemma escapes_mono c l : (escapes l <= escapes (c :: l))%nat.
Proof.
  revert c. induction l as [|a|a b l IH1 IH2] using list_ind2; intros c.
  - simpl. destruct (c =? 92); lia.
  - simpl. destruct (c =? 92), (a =? 92); lia.
  - specialize (IH1 b). cbn [escapes] in *. destruct (c =? 92), (a =? 92), (b =? 92); lia.
Qed.

Lemma escapes_drop1 c l : (escapes (c :: l) <= S (escapes l))%nat.
Proof.
  cbn [escapes]. destruct (c =? 92); [|lia]. destruct l as [|d l]; [lia|].
  pose proof (escapes_mono d l). lia.
Qed.

Lemma escapes_drop n l : (escapes l <= n + escapes (drop n l))%nat.
Proof.
  revert l. induction n as [|n IH]; intros l; [done|]. destruct l as [|c l]; [simpl; lia|].
  pose proof (escapes_drop1 c l). specialize (IH l). simpl drop. lia.
Qed.

(** The part of the text between positions [p] and [e]. *)
Definition span (s : list Z) (p e : nat) : list Z := take (e - p) (drop p s).

Lemma span_cons s p e c : s !! p = Some c → (p < e)%nat → span s p e = c :: span s (S p) e.
Proof.
  intros Hp He. unfold span. rewrite (drop_S s c p Hp).
  replace (e - p)%nat with (S (e - S p)) by lia. done.
Qed.

Lemma span_drop s p e n : span s (p + n) e = drop n (span s p e).
Proof. unfold span. rewrite skipn_firstn_comm, drop_drop. f_equal. lia. Qed.

Lemma span_length s p e : (p <= e)%nat → (e <= length s)%nat → length (span s p e) = (e - p)%nat.
Proof. intros. unfold span. rewrite length_take, length_drop. lia. Qed.

Lemma escapes_span s p e : (escapes (span s p e) <= e - p)%nat.
Proof.
  pose proof (escapes_drop (e - p) (span s p e)) as Hd.
  rewrite (drop_ge (span s p e)) in Hd by (unfold span; rewrite length_take; lia). simpl in Hd. lia.
Qed.

Lemma scan_string_end_spec s p k e k' :
  scan_string_end (drop p s) p k = Some (e, k') →
  (p <= e)%nat ∧ s !! e = Some 34 ∧ k' = (k + escapes (span s p e))%nat.
Proof.
  remember (length (drop p s)) as n eqn:Hn. revert p k Hn.
  induction (lt_wf n) as [n _ IH]. intros p k -> Hscan.
  destruct (drop p s) as [|c l] eqn:Hd; [done|].
  assert (s !! p = Some c) as Hc by (by rewrite <-(Nat.add_0_r p), <-lookup_drop, Hd).
  assert (drop (S p) s = l) as Hl by (by rewrite (drop_S s c p Hc) in Hd; injection Hd).
  cbn [scan_string_end] in Hscan. destruct (Z.eqb_spec c 34) as [->|Hq].
  { injection Hscan as <- <-. split_and!; [lia|done|]. unfold span. rewrite Nat.sub_diag. simpl. lia. }
  destruct (Z.eqb_spec c 92) as [->|Hb].
  - destruct l as [|d l']; [done|].
    assert (s !! S p = Some d) as Hdp by (by rewrite <-(Nat.add_0_r (S p)), <-lookup_drop, Hl).
    assert (drop (S (S p)) s = l') as Hl' by (by rewrite (drop_S s d (S p) Hdp) in Hl; injection Hl).
    rewrite <-Hl' in Hscan.
    destruct (IH (length l') ltac:(simpl; lia) (S (S p)) (S k) ltac:(by rewrite Hl') Hscan) as (? & ? & ->).
    split_and!; [lia|done|]. rewrite (span_cons s p e 92), (span_cons s (S p) e d) by (done || lia).
    simpl. lia.
  - rewrite <-Hl in Hscan.
    destruct (IH (length l) ltac:(simpl; lia) (S p) k ltac:(by rewrite Hl) Hscan) as (? & ? & ->).
    split_and!; [lia|done|]. rewrite (span_cons s p e c) by (done || lia). cbn [escapes].
    by destruct (Z.eqb_spec c 92).
Qed.

(** ** Hexadecimal escapes *)

Lemma hex_digit_range c d : hex_digit c = Some d → 0 <= d < 16 ∧ c ≠ 92.
Proof. unfold hex_digit. repeat case_match; naive_solver lia. Qed.

Lemma read_Ok s p : (p < length s)%nat → ∃ c, read s p = Ok c ∧ s !! p = Some c.
Proof. intros [c Hc]%lookup_lt_is_Some_2. unfold read. rewrite Hc. eauto. Qed.

(** The value of four hexadecimal digits. *)
Definition hex4_value (a b c d : Z) : option Z :=
  match hex_digit a, hex_digit b, hex_digit c, hex_digit d with
  | Some a, Some b, Some c, Some d => Some (4096 * a + 256 * b + 16 * c + d)
  | _, _, _, _ => None
  end.

Lemma parse_hex4_value s p a b c d :
  s !! p = Some a → s !! (p + 1)%nat = Some b → s !! (p + 2)%nat = Some c → s !! (p + 3)%nat = Some d →
  parse_hex4 s p = Ok (default 0 (hex4_value a b c d)).
Proof.
  intros Ha Hb Hc Hd. unfold parse_hex4, hex4_value. cbn [hex4_loop]. unfold read.
  rewrite Nat.add_0_r, Ha. cbn [or_fault mbind outcome_bind].
  destruct (hex_digit a) as [x|] eqn:Ex; [|done]. cbn [Nat.ltb Nat.leb].
  rewrite Hb. cbn [or_fault mbind outcome_bind]. destruct (hex_digit b) as [y|] eqn:Ey; [|done].
  rewrite Hc. cbn [or_fault mbind outcome_bind]. destruct (hex_digit c) as [z|] eqn:Ez; [|done].
  rewrite Hd. cbn [or_fault mbind outcome_bind]. destruct (hex_digit d) as [w|] eqn:Ew; [|done].
  apply hex_digit_range in Ex, Ey, Ez, Ew. simpl default.
  rewrite !Z.shiftl_mul_pow2 by lia. change (2 ^ 4) with 16.
  repeat match goal with |- context [u32 ?t] =>
    lazymatch t with context [u32 _] => fail | _ => rewrite (u32_id t) by lia end end.
  f_equal. lia.
Qed.

Lemma hex4_value_range a b c d v : hex4_value a b c d = Some v → 0 <= v < 65536 ∧ a ≠ 92 ∧ b ≠ 92 ∧ c ≠ 92 ∧ d ≠ 92.
Proof.
  unfold hex4_value.
  destruct (hex_digit a) eqn:Ea, (hex_digit b) eqn:Eb, (hex_digit c) eqn:Ec, (hex_digit d) eqn:Ed; try done.
  intros [= <-]. apply hex_digit_range in Ea, Eb, Ec, Ed. lia.
Qed.

(** ** UTF-8 *)

(** A property of a byte checked on all 256 values. *)
Lemma byte_cases (P : Z → bool) : forallb P (seqZ 0 256) = true → ∀ x, 0 <= x < 256 → P x = true.
Proof. rewrite forallb_forall. intros HP x Hx. apply HP, list_elem_of_In, elem_of_seqZ. lia. Qed.

Lemma continuation_byte x : u8 (Z.land (Z.lor x 0x80) 0xBF) = 128 + x mod 64.
Proof.
  assert (Z.land (Z.lor x 0x80) 0xBF = Z.land (Z.lor (x mod 256) 0x80) 0xBF) as ->.
  { apply Z.bits_inj'. intros i Hi. rewrite !Z.land_spec, !Z.lor_spec. change 256 with (2 ^ 8).
    destruct (Z.ltb_spec i 8); [by rewrite Z.mod_pow2_bits_low by lia|].
    by rewrite (Z.bits_above_log2 0xBF), !andb_false_r by (simpl; lia). }
  replace (x mod 64) with ((x mod 256) mod 64) by (Z.to_euclidean_division_equations; lia).
  apply Z.eqb_eq, (byte_cases (λ y, u8 (Z.land (Z.lor y 0x80) 0xBF) =? 128 + y mod 64)); [done|].
  apply Z.mod_pos_bound. lia.
Qed.

Lemma first_byte x mark lim :
  forallb (λ y, implb (y <? lim) (u8 (Z.land (Z.lor y mark) 0xFF) =? mark + y)) (seqZ 0 256) = true →
  0 <= x < lim → lim <= 256 → u8 (Z.land (Z.lor x mark) 0xFF) = mark + x.
Proof.
  intros Hall Hx Hlim. pose proof (byte_cases _ Hall x ltac:(lia)) as Hb. simpl in Hb.
  destruct (Z.ltb_spec x lim); [|lia]. by apply Z.eqb_eq.
Qed.

(** The UTF-8 encoding form of a code point, by division. *)
Definition utf8_form (cp : Z) : list Z :=
  if cp <? 0x80 then [cp]
  else if cp <? 0x800 then [0xC0 + cp / 64; 0x80 + cp mod 64]
  else if cp <? 0x10000 then [0xE0 + cp / 4096; 0x80 + cp / 64 mod 64; 0x80 + cp mod 64]
  else [0xF0 + cp / 262144; 0x80 + cp / 4096 mod 64; 0x80 + cp / 64 mod 64; 0x80 + cp mod 64].

Lemma utf8_encode_form cp : 0 <= cp <= 0x10FFFF → utf8_encode cp = Some (utf8_form cp).
Proof.
  intros Hcp. unfold utf8_encode, utf8_form, utf8_bytes. cbn [pred utf8_tail Nat.ltb Nat.leb].
  rewrite !continuation_byte, !Z.shiftr_div_pow2 by lia. change (2 ^ 6) with 64.
  rewrite !Z.div_div by lia. simpl (64 * _). simpl (_ * 64).
  destruct (Z.ltb_spec cp 0x80).
  { do 2 f_equal. apply Z.eqb_eq. change (Z.eqb _ cp) with ((λ y, u8 (Z.land y 0x7F) =? y) cp).
    assert (implb (cp <? 128) (u8 (Z.land cp 0x7F) =? cp) = true) as Hb.
    { apply (byte_cases (λ y, implb (y <? 128) (u8 (Z.land y 0x7F) =? y))); [done|lia]. }
    destruct (Z.ltb_spec cp 128); [done|lia]. }
  destruct (Z.ltb_spec cp 0x800).
  { by rewrite (first_byte _ 0xC0 32) by (done || Z.to_euclidean_division_equations; lia). }
  destruct (Z.ltb_spec cp 0x10000).
  { by rewrite (first_byte _ 0xE0 16) by (done || Z.to_euclidean_division_equations; lia). }
  destruct (Z.leb_spec cp 0x10FFFF); [|lia].
  by rewrite (first_byte _ 0xF0 8) by (done || Z.to_euclidean_division_equations; lia).
Qed.

Lemma utf8_form_length cp : 0 < cp → (length (utf8_form cp) <= 4)%nat ∧ (cp < 0x10000 → (length (utf8_form cp) <= 3)%nat).
Proof. intros. unfold utf8_form. repeat case_match; simpl; split; lia. Qed.

(** The code point of a surrogate pair. *)
Lemma surrogate_codepoint x y :
  0xD800 <= x <= 0xDBFF → 0xDC00 <= y <= 0xDFFF →
  0x10000 + Z.lor (Z.shiftl (Z.land x 0x3FF) 10) (Z.land y 0x3FF)
  = 0x10000 + (x - 0xD800) * 1024 + (y - 0xDC00).
Proof.
  intros Hx Hy. change 0x3FF with (Z.ones 10). rewrite !Z.land_ones by lia. change (2 ^ 10) with 1024.
  rewrite Z.lor_comm, lor_shiftl_add by (try lia; apply Z.mod_pos_bound; lia).
  change (2 ^ 10) with 1024. Z.to_euclidean_division_equations; lia.
Qed.

(** ** String literals *)

(** Four bytes that are not backslashes contain no escape. *)
Lemma escapes_plain4 s p e a b c d :
  s !! p = Some a → s !! (p + 1)%nat = Some b → s !! (p + 2)%nat = Some c → s !! (p + 3)%nat = Some d →
  a ≠ 92 → b ≠ 92 → c ≠ 92 → d ≠ 92 → (p + 4 <= e)%nat →
  escapes (span s p e) = escapes (span s (p + 4) e).
Proof.
  intros Ha Hb Hc Hd Na Nb Nc Nd He.
  replace (p + 1)%nat with (S p) in Hb by lia. replace (p + 2)%nat with (S (S p)) in Hc by lia.
  replace (p + 3)%nat with (S (S (S p))) in Hd by lia.
  rewrite (span_cons s p e a), (span_cons s (S p) e b), (span_cons s (S (S p)) e c),
    (span_cons s (S (S (S p))) e d) by (done || lia).
  replace (S (S (S (S p)))) with (p + 4)%nat by lia. cbn [escapes].
  repeat match goal with |- context [?x =? 92] => destruct (Z.eqb_spec x 92); [done|] end. done.
Qed.

Lemma hex4_reads s p :
  (p + 3 < length s)%nat →
  ∃ a b c d, s !! p = Some a ∧ s !! (p + 1)%nat = Some b ∧ s !! (p + 2)%nat = Some c ∧
    s !! (p + 3)%nat = Some d ∧ parse_hex4 s p = Ok (default 0 (hex4_value a b c d)).
Proof.
  intros Hp. destruct (lookup_lt_is_Some_2 s p) as [a Ha]; [lia|].
  destruct (lookup_lt_is_Some_2 s (p + 1)) as [b Hb]; [lia|].
  destruct (lookup_lt_is_Some_2 s (p + 2)) as [c Hc]; [lia|].
  destruct (lookup_lt_is_Some_2 s (p + 3)) as [d Hd]; [lia|].
  exists a, b, c, d. split_and!; [done..|by apply parse_hex4_value].
Qed.

Lemma hex4_default_range a b c d : 0 <= default 0 (hex4_value a b c d) < 65536.
Proof. destruct (hex4_value a b c d) eqn:E; simpl; [apply hex4_value_range in E|]; lia. Qed.

(** One escape, and a pair of escapes. *)
Lemma utf16_escape_run s p e a b c d :
  s !! (p + 2)%nat = Some a → s !! (p + 3)%nat = Some b → s !! (p + 4)%nat = Some c → s !! (p + 5)%nat = Some d →
  (p + 6 <= e)%nat →
  let v := default 0 (hex4_value a b c d) in
  ¬ (0xD800 <= v <= 0xDFFF) → utf16_literal_to_utf8 s p e = Ok (6%nat, utf8_form v).
Proof.
  intros Ha Hb Hc Hd He v Hv. unfold utf16_literal_to_utf8. destruct (Nat.ltb_spec (e - p) 6); [lia|].
  rewrite (parse_hex4_value s (p + 2) a b c d) by (rewrite <-?Nat.add_assoc; done). cbn [mbind outcome_bind].
  fold v. pose proof (hex4_default_range a b c d). fold v in H.
  destruct (Z.leb_spec 0xDC00 v), (Z.leb_spec v 0xDFFF), (Z.leb_spec 0xD800 v), (Z.leb_spec v 0xDBFF); cbn [andb];
    try lia; by rewrite utf8_encode_form by lia.
Qed.

Lemma utf16_pair_run s p e a b c d a' b' c' d' v w :
  s !! (p + 2)%nat = Some a → s !! (p + 3)%nat = Some b → s !! (p + 4)%nat = Some c → s !! (p + 5)%nat = Some d →
  s !! (p + 6)%nat = Some 92 → s !! (p + 7)%nat = Some 117 →
  s !! (p + 8)%nat = Some a' → s !! (p + 9)%nat = Some b' → s !! (p + 10)%nat = Some c' → s !! (p + 11)%nat = Some d' →
  (p + 12 <= e)%nat →
  hex4_value a b c d = Some v → hex4_value a' b' c' d' = Some w → 0xD800 <= v <= 0xDBFF → 0xDC00 <= w <= 0xDFFF →
  utf16_literal_to_utf8 s p e = Ok (12%nat, utf8_form (0x10000 + (v - 0xD800) * 1024 + (w - 0xDC00))).
Proof.
  intros Ha Hb Hc Hd H6 H7 Ha' Hb' Hc' Hd' He Hv Hw Rv Rw. unfold utf16_literal_to_utf8.
  destruct (Nat.ltb_spec (e - p) 6); [lia|].
  rewrite (parse_hex4_value s (p + 2) a b c d) by (rewrite <-?Nat.add_assoc; done). rewrite Hv. cbn [mbind outcome_bind default from_option id].
  destruct (Z.leb_spec 0xDC00 v); [lia|]. cbn [andb]. destruct (Z.leb_spec 0xD800 v); [|lia]. destruct (Z.leb_spec v 0xDBFF); [|lia].
  cbn [andb]. destruct (Nat.ltb_spec (e - (p + 6)) 6); [lia|]. unfold read. rewrite H6. cbn [or_fault mbind outcome_bind Z.eqb Pos.eqb negb].
  replace (p + 6 + 1)%nat with (p + 7)%nat by lia. rewrite H7. cbn [or_fault mbind outcome_bind Z.eqb Pos.eqb negb].
  rewrite (parse_hex4_value s (p + 6 + 2) a' b' c' d') by (rewrite <-?Nat.add_assoc; done).
  rewrite Hw. cbn [mbind outcome_bind default from_option id].
  destruct (Z.ltb_spec w 0xDC00); [lia|]. destruct (Z.ltb_spec 0xDFFF w); [lia|]. cbn [orb].
  rewrite surrogate_codepoint, utf8_encode_form by lia. done.
Qed.

(** A UTF-16 literal is decoded inside the text; the bytes it produces fit
    into the share of the output buffer that its text accounts for. *)
Lemma utf16_literal_safe s p e :
  (e < length s)%nat → (p < e)%nat → s !! p = Some 92 → s !! S p = Some 117 →
  ∃ n bs, utf16_literal_to_utf8 s p e = Ok (n, bs) ∧
    (n = 0%nat ∨ (6 <= n)%nat ∧ (p + n <= e)%nat ∧
      (length bs + escapes (span s p e) <= n + escapes (span s (p + n) e))%nat).
Proof.
  intros He Hpe Hp Hp1. unfold utf16_literal_to_utf8.
  destruct (Nat.ltb_spec (e - p) 6); [by do 2 eexists; split; [|left]|].
  destruct (hex4_reads s (p + 2)) as (a & b & c & d & Ha & Hb & Hc & Hd & ->); [lia|].
  assert (escapes (span s p e) = S (escapes (span s (p + 2) e))) as Hesc.
  { rewrite (span_cons s p e 92), (span_cons s (S p) e 117) by (done || lia).
    replace (p + 2)%nat with (S (S p)) by lia. done. }
  pose proof (hex4_default_range a b c d) as Hr. cbn [mbind outcome_bind].
  assert (default 0 (hex4_value a b c d) = 0 ∨ escapes (span s (p + 2) e) = escapes (span s (p + 6) e)) as Hv.
  { destruct (hex4_value a b c d) eqn:E; [right|by left]. apply hex4_value_range in E as (_ & ? & ? & ? & ?).
    rewrite (escapes_plain4 s (p + 2) e a b c d) by (done || lia). by replace (p + 2 + 4)%nat with (p + 6)%nat by lia. }
  set (x := default 0 (hex4_value a b c d)) in *.
  destruct ((0xDC00 <=? x) && (x <=? 0xDFFF)) eqn:E1; [by do 2 eexists; split; [|left]|].
  destruct ((0xD800 <=? x) && (x <=? 0xDBFF)) eqn:E2.
  - destruct (Nat.ltb_spec (e - (p + 6)) 6); [by do 2 eexists; split; [|left]|].
    destruct (read_Ok s (p + 6)) as (c0 & -> & _); [lia|]. cbn [mbind outcome_bind].
    destruct (negb (c0 =? 92)); [by do 2 eexists; split; [|left]|].
    destruct (read_Ok s (p + 6 + 1)) as (c1 & -> & _); [lia|]. cbn [mbind outcome_bind].
    destruct (negb (c1 =? 117)); [by do 2 eexists; split; [|left]|].
    destruct (hex4_reads s (p + 6 + 2)) as (a' & b' & c' & d' & _ & _ & _ & _ & ->); [lia|].
    cbn [mbind outcome_bind]. set (y := default 0 (hex4_value a' b' c' d')).
    destruct ((y <? 0xDC00) || (0xDFFF <? y)) eqn:E3; [by do 2 eexists; split; [|left]|].
    rewrite surrogate_codepoint by lia. rewrite utf8_encode_form by lia.
    do 2 eexists. split; [done|right]. split_and!; [lia|lia|].
    set (cp := 0x10000 + _ + _). assert (0 < cp) as Hcp by lia.
    destruct (utf8_form_length cp Hcp) as [Hl _].
    pose proof (escapes_drop 6 (span s (p + 6) e)) as Hd6. rewrite <-span_drop in Hd6.
    replace (p + 6 + 6)%nat with (p + 12)%nat in Hd6 by lia. lia.
  - rewrite utf8_encode_form by lia. do 2 eexists. split; [done|right]. split_and!; [lia|lia|].
    pose proof (escapes_drop 4 (span s (p + 2) e)) as Hd4. rewrite <-span_drop in Hd4.
    replace (p + 2 + 4)%nat with (p + 6)%nat in Hd4 by lia.
    destruct (decide (x = 0)) as [->|Hx]; [simpl; lia|].
    destruct (utf8_form_length x) as [_ Hl]; [lia|]. specialize (Hl ltac:(lia)). lia.
Qed.

(** The unescaping loop returns, and what it writes leaves one byte of the
    output buffer for the terminator. *)
Lemma unescape_safe fuel s e room p out :
  (e < length s)%nat → (p <= S e)%nat → (S e - p < fuel)%nat →
  (length out + (e - p) + 1 <= room + escapes (span s p e))%nat →
  (length out + 1 <= room)%nat →
  ∃ r ip, unescape fuel s e room p out = Ok (r, ip) ∧ (ip <= S e)%nat ∧
    ∀ out', r = Some out' → (length out' + 1 <= room)%nat.
Proof.
  intros He. revert p out. induction fuel as [|fuel IH]; intros p out Hp Hf Hroom Hout; [lia|].
  cbn [unescape]. destruct (Nat.ltb_spec p e) as [Hpe|]; [|do 2 eexists; split_and!; [done|lia|by intros ? [= <-]]].
  destruct (read_Ok s p) as (c & -> & Hc); [lia|]. cbn [mbind outcome_bind].
  rewrite (span_cons s p e c) in Hroom by done.
  assert (∀ bs, (length out + length bs <= room)%nat → emit room out bs = Ok (out ++ bs)) as Hemit.
  { intros bs Hbs. unfold emit. by destruct (Nat.leb_spec (length out + length bs) room); [|lia]. }
  pose proof (escapes_span s p e) as Hmax. rewrite (span_cons s p e c) in Hmax by done.
  destruct (Z.eqb_spec c 92) as [->|Hne]; simpl negb; cbn match.
  - destruct (Nat.ltb_spec (e - p) 1); [lia|].
    destruct (read_Ok s (S p)) as (c1 & -> & Hc1); [lia|]. cbn [mbind outcome_bind].
    destruct (simple_escape c1) as [x|] eqn:Hx.
    + rewrite Hemit by (simpl; lia). cbn [mbind outcome_bind].
      destruct (decide (S p = e)) as [<-|].
      { apply IH; rewrite ?length_app; simpl; unfold span in *; rewrite ?Nat.sub_diag in *; simpl in *; lia. }
      rewrite (span_cons s (S p) e c1) in Hroom by (done || lia).
      pose proof (escapes_span s (S (S p)) e). replace (p + 2)%nat with (S (S p)) by lia.
      apply IH; rewrite ?length_app; simpl in *; lia.
    + destruct (Z.eqb_spec c1 117) as [->|]; [|do 2 eexists; split_and!; [done|lia|done]].
      destruct (utf16_literal_safe s p e He Hpe Hc Hc1) as (n & bs & -> & Hn). cbn [mbind outcome_bind].
      destruct (Nat.eqb_spec n 0); [do 2 eexists; split_and!; [done|lia|done]|].
      destruct Hn as [?|(Hn6 & Hne & Hbs)]; [done|].
      pose proof (escapes_span s (p + n) e). rewrite (span_cons s p e 92) in Hbs by done.
      rewrite Hemit by lia. cbn [mbind outcome_bind]. apply IH; rewrite ?length_app; lia.
  - rewrite Hemit by (simpl; lia). cbn [mbind outcome_bind]. cbn [escapes] in Hroom.
    destruct (Z.eqb_spec c 92); [done|]. pose proof (escapes_span s (S p) e). apply IH; rewrite ?length_app; simpl in *; lia.
Qed.

(** ** [parse_string] *)

(** Block names below [reqs] only: fresh names are fresh. *)
Definition heap_ok (h : heap) : Prop := ∀ a, a ∈ live h → (a < reqs h)%nat.

(** The parser moved forward, and the last byte it consumed is not a NUL. *)
Definition advanced (b b' : parse_buffer) : Prop :=
  (offset b < offset b')%nat ∧ ∃ c, content b !! pred (offset b') = Some c ∧ c ≠ 0.

Section parse_string.
Variable may_allocate : nat → Z → bool.

Lemma allocate_spec size h p h' :
  allocate may_allocate size h = (p, h') → heap_ok h →
  heap_ok h' ∧ reqs h' = S (reqs h) ∧
  match p with
  | Some a => a = reqs h ∧ (a ∉ live h) ∧ live h' = {[a]} ∪ live h
  | None => live h' = live h
  end.
Proof.
  intros Ha Hh. unfold allocate in Ha. destruct (may_allocate _ _); injection Ha as <- <-; simpl.
  - split_and!; auto.
    + intros a Ha. simpl. apply elem_of_union in Ha as [Ha|Ha%Hh]; [apply elem_of_singleton in Ha|]; lia.
    + intros ?%Hh. lia.
  - split_and!; auto. intros a ?%Hh. simpl. lia.
Qed.

(** What a parsing function guarantees: it returns; on failure the set of
    live blocks is as before, on success the item owns the fresh blocks. *)
Definition parse_string_post (item : cJSON) (b : parse_buffer) (r : option cJSON) (b' : parse_buffer) : Prop :=
  content b' = content b ∧ depth b' = depth b ∧ heap_ok (bheap b') ∧
  (reqs (bheap b) <= reqs (bheap b'))%nat ∧
  match r with
  | None => live (bheap b') = live (bheap b)
  | Some j => ∃ out, j = set_string item cJSON_String (Some (CStr (reqs (bheap b)) out)) ∧
      live (bheap b') = {[reqs (bheap b)]} ∪ live (bheap b) ∧
      reqs (bheap b') = S (reqs (bheap b)) ∧ advanced b b'
  end.

Lemma parse_string_safe item b :
  (offset b < length (content b))%nat → heap_ok (bheap b) →
  ∃ r b', parse_string may_allocate item b = Ok (r, b') ∧ parse_string_post item b r b'.
Proof.
  intros Ho Hh. unfold parse_string, byte_at_offset.
  destruct (read_Ok (content b) (offset b) Ho) as (c & -> & Hc). cbn [mbind outcome_bind].
  assert (∀ o, parse_string_post item b None (set_offset o b)) as Hfail by (intros o; split_and!; auto).
  destruct (negb (c =? 34)); [by do 2 eexists|].
  destruct (scan_string_end _ _ 0) as [[e k]|] eqn:Hscan; [|by do 2 eexists].
  apply scan_string_end_spec in Hscan as (He & Hquote & ->). apply lookup_lt_Some in Hquote as Hel.
  destruct (allocate _ _ _) as [p h] eqn:Ha. destruct (allocate_spec _ _ _ _ Ha Hh) as (Hok & Hreq & Hp).
  destruct p as [a|].
  2: { do 2 eexists; split; [done|]. split_and!; simpl; auto. lia. }
  destruct Hp as (-> & Hfresh & Hlive). pose proof (escapes_span (content b) (S (offset b)) e).
  set (room := (e - offset b - (0 + escapes (span (content b) (S (offset b)) e)) + 1)%nat).
  destruct (unescape_safe (S (length (content b))) (content b) e room (S (offset b)) [])
    as (r & ip & -> & Hip & Hout); [done|lia|lia|simpl; lia|simpl; lia|].
  cbn [mbind outcome_bind]. destruct r as [out|].
  - unfold emit. specialize (Hout out eq_refl). simpl length.
    destruct (Nat.leb_spec (length out + 1) room); [|lia]. cbn [mbind outcome_bind].
    do 2 eexists. split; [done|]. split_and!; simpl; auto; [lia|].
    exists out. split_and!; auto. split; [simpl; lia|]. by exists 34.
  - unfold deallocate. rewrite decide_True by (rewrite Hlive; set_solver). cbn [mbind outcome_bind].
    do 2 eexists. split; [done|]. split_and!; simpl; auto; [| lia |set_solver].
    intros a Ha'. simpl in *. rewrite Hlive in Ha'. apply Hok. set_solver.
Qed.
End parse_string.

(** White space skipping ends inside the text and never moves back over what
    was consumed, except from the end onto the last byte. *)
Lemma space_run_le l : (space_run l <= length l)%nat.
Proof. induction l; simpl; [lia|]. case_match; lia. Qed.

Lemma skip_whitespace_spec b :
  (0 < length (content b))%nat → (offset b <= length (content b))%nat →
  let b' := buffer_skip_whitespace b in
  content b' = content b ∧ depth b' = depth b ∧ bheap b' = bheap b ∧
  (offset b' < length (content b))%nat ∧
  ((offset b < length (content b))%nat → (offset b <= offset b')%nat).
Proof.
  intros Hl Ho. unfold buffer_skip_whitespace. simpl.
  pose proof (space_run_le (drop (offset b) (content b))) as Hr. rewrite length_drop in Hr.
  destruct (Nat.eqb_spec (offset b + space_run (drop (offset b) (content b))) (length (content b)));
    split_and!; auto; try lia.
Qed.
