(* ===== verification/CJsonNumber.v ===== *)
(** * cJSON: numbers

    [parse_number] of [engine/thirdparty/cJSON.c] with [strtod] on the
    characters that can reach it.  A [double] is a [spec_float] of precision
    53 and maximal exponent 1024; the conversion rounds to nearest even. *)
From S2P Require Import Prelude Stdio CJsonData CJsonText CJsonTextSafe.

Definition INT_MAX : Z := 2147483647.
Definition INT_MIN : Z := -2147483648.

(** ** [strtod] on decimal numerals *)

(** The double nearest to [m * 10^e], negated if [neg]. *)
Definition dec_to_double (neg : bool) (m e : Z) : spec_float :=
  match m with
  | Z0 => S754_zero neg
  | Zpos p =>
      if 0 <=? e then binary_round 53 1024 neg (Z.to_pos (m * 10 ^ e)) 0
      else let '(q, e', loc) := SFdiv_core_binary 53 1024 m 0 (10 ^ (- e)) 0 in
           binary_round_aux 53 1024 neg q e' loc
  | Zneg _ => S754_nan
  end.

Definition scan_sign (s : list Z) : bool * list Z :=
  match s with
  | c :: s' => if c =? 45 then (true, s') else if c =? 43 then (false, s') else (false, s)
  | [] => (false, [])
  end.

(** An exponent part, which is only taken with at least one digit. *)
Definition scan_exponent (s : list Z) : Z * list Z :=
  match s with
  | c :: s' =>
      if (c =? 101) || (c =? 69) then
        let '(neg, s1) := scan_sign s' in
        match span_digits s1 with
        | ([], _) => (0, s)
        | (ds, r) => (if neg then - dec_value ds else dec_value ds, r)
        end
      else (0, s)
  | [] => (0, [])
  end.

(** The fraction part: a point and any number of digits. *)
Definition scan_fraction (s : list Z) : list Z * list Z :=
  match s with
  | c :: s' => if c =? 46 then span_digits s' else ([], s)
  | [] => ([], [])
  end.

(** Value and number of characters of the longest numeral at the front of [s],
    [None] when there is none. *)
Definition strtod (s : list Z) : option (spec_float * nat) :=
  let '(neg, s1) := scan_sign s in
  let '(ip, s2) := span_digits s1 in
  let '(fp, s3) := scan_fraction s2 in
  match ip ++ fp with
  | [] => None
  | ds =>
      let '(x, s4) := scan_exponent s3 in
      Some (dec_to_double neg (dec_value ds) (x - zlen fp), (length s - length s4)%nat)
  end.

(** ** [parse_number] *)

Definition number_char (c : Z) : bool :=
  is_digit c || (c =? 43) || (c =? 45) || (c =? 101) || (c =? 69) || (c =? 46).

(** The loop that fills [number_c_string], at most [n] characters. *)
Fixpoint number_c_string (n : nat) (l : list Z) : list Z :=
  match n, l with
  | S n, c :: l' => if number_char c then c :: number_c_string n l' else []
  | _, _ => []
  end.

(** [(int) d] for a double in the range of [int]. *)
Definition double_to_int (d : spec_float) : Z :=
  match d with
  | S754_finite s m e =>
      let v := if 0 <=? e then Zpos m * 2 ^ e else Z.shiftr (Zpos m) (- e) in
      if s then - v else v
  | _ => 0
  end.

Definition double_of_int (z : Z) : spec_float := binary_normalize 53 1024 z 0 false.

(** The saturating conversion used for [valueint]. *)
Definition saturate_int (number : spec_float) : Z :=
  if SFleb (double_of_int INT_MAX) number then INT_MAX
  else if SFleb number (double_of_int INT_MIN) then INT_MIN
  else double_to_int number.

Definition set_number (j : cJSON) (d : spec_float) : cJSON :=
  CJSON (addr j) cJSON_Number (valuestring j) (saturate_int d) d (item_string j) (child j).

Definition parse_number (item : cJSON) (b : parse_buffer) : option cJSON * parse_buffer :=
  match strtod (number_c_string 63 (drop (offset b) (content b))) with
  | None => (None, b)
  | Some (number, n) => (Some (set_number item number), set_offset (offset b + n) b)
  end.

(** ** Progress *)

Lemma span_digits_length s : (length (span_digits s).1 + length (span_digits s).2 = length s)%nat.
Proof.
  induction s as [|c s IH]; [done|]. simpl. destruct (is_digit c); [|done].
  destruct (span_digits s). simpl in *. lia.
Qed.

Lemma scan_sign_length s : (length (scan_sign s).2 <= length s)%nat.
Proof. destruct s; simpl; [lia|]. repeat case_match; simpl; lia. Qed.

Lemma scan_fraction_length s : (length (scan_fraction s).1 + length (scan_fraction s).2 <= length s)%nat.
Proof.
  destruct s as [|c s]; simpl; [lia|]. case_match; [|simpl; lia].
  pose proof (span_digits_length s). lia.
Qed.

Lemma scan_exponent_length s : (length (scan_exponent s).2 <= length s)%nat.
Proof.
  destruct s as [|c s]; [done|]. cbn [scan_exponent]. case_match; [|done].
  pose proof (scan_sign_length s). destruct (scan_sign s) as [neg s1]. simpl in *.
  pose proof (span_digits_length s1). destruct (span_digits s1) as [[|d ds] r]; simpl in *; lia.
Qed.

(** A numeral has at least one and at most all of the characters. *)
Lemma strtod_length s d n : strtod s = Some (d, n) → (1 <= n <= length s)%nat.
Proof.
  unfold strtod. pose proof (scan_sign_length s). destruct (scan_sign s) as [neg s1].
  pose proof (span_digits_length s1). destruct (span_digits s1) as [ip s2].
  pose proof (scan_fraction_length s2). destruct (scan_fraction s2) as [fp s3].
  pose proof (scan_exponent_length s3). destruct (scan_exponent s3) as [x s4]. simpl in *.
  assert (length (ip ++ fp) = length ip + length fp)%nat as Happ by apply length_app.
  destruct (ip ++ fp); [done|]. intros [= <- <-]. simpl in Happ. lia.
Qed.

Lemma number_c_string_length n l : (length (number_c_string n l) <= length l)%nat.
Proof. revert l. induction n; intros [|c l]; simpl; try lia. case_match; simpl; [|lia]. specialize (IHn l). lia. Qed.

Lemma number_c_string_lookup n l i c :
  number_c_string n l !! i = Some c → l !! i = Some c ∧ c ≠ 0.
Proof.
  revert l i. induction n as [|n IH]; intros [|d l] i; simpl; try done.
  destruct (number_char d) eqn:Hd; [|done]. destruct i as [|i]; simpl; [|apply IH].
  intros [= ->]. split; [done|]. intros ->. done.
Qed.

Lemma parse_number_progress item b :
  let '(r, b') := parse_number item b in
  content b' = content b ∧ depth b' = depth b ∧ bheap b' = bheap b ∧
  match r with
  | Some j => ∃ d, j = set_number item d ∧ advanced b b'
  | None => b' = b
  end.
Proof.
  unfold parse_number. destruct (strtod _) as [[d n]|] eqn:Hs; [|done].
  apply strtod_length in Hs. split_and!; [done..|]. exists d. split; [done|]. split; [simpl; lia|].
  destruct (lookup_lt_is_Some_2 (number_c_string 63 (drop (offset b) (content b))) (pred n)) as [c Hc]; [lia|].
  apply number_c_string_lookup in Hc as [Hc Hz]. rewrite lookup_drop in Hc.
  exists c. split; [|done]. simpl. by replace (pred (offset b + n)) with (offset b + pred n)%nat by lia.
Qed.

(** ** Integers *)

Lemma digits2_pos_bound m : 2 ^ (Zpos (digits2_pos m) - 1) <= Zpos m < 2 ^ Zpos (digits2_pos m).
Proof.
  induction m as [m IH|m IH|]; simpl digits2_pos; [| |simpl; lia];
    rewrite Pos2Z.inj_succ, Z.pow_succ_r by lia;
    replace (Z.succ (Zpos (digits2_pos m)) - 1) with (Z.succ (Zpos (digits2_pos m) - 1)) by lia;
    rewrite Z.pow_succ_r by lia; lia.
Qed.

Lemma digits2_iter_xO m k : digits2_pos (Pos.iter xO m k) = (digits2_pos m + k)%positive.
Proof. induction k using Pos.peano_ind; [simpl; lia|]. rewrite Pos.iter_succ. simpl. lia. Qed.

Lemma iter_xO_shift m k : Zpos (Pos.iter xO m k) = Zpos m * 2 ^ Zpos k.
Proof.
  induction k using Pos.peano_ind; [simpl; lia|]. rewrite Pos.iter_succ.
  rewrite (Pos2Z.inj_xO (Pos.iter xO m k)), IHk, Pos2Z.inj_succ, Z.pow_succ_r by lia. lia.
Qed.

(** A mantissa of full precision is already rounded. *)
Lemma round_full s m e :
  Zpos (digits2_pos m) = 53 → -1000 <= e <= 0 →
  binary_round_aux 53 1024 s (Zpos m) e loc_Exact = S754_finite s m e.
Proof.
  intros Hm He. assert (fexp 53 1024 (Zdigits2 (Zpos m) + e) - e = 0) as Hf.
  { unfold fexp, emin. simpl Zdigits2. rewrite Hm. lia. }
  unfold binary_round_aux, shr_fexp. rewrite Hf. cbn [shr shr_record_of_loc shr_m loc_of_shr_record round_nearest_even].
  rewrite Hf. cbn [shr shr_m]. by destruct (Z.leb_spec e (1024 - 53)); [|lia].
Qed.

Lemma round_int s m :
  Zpos m < 2 ^ 31 →
  ∃ q, binary_round 53 1024 s m 0 = S754_finite s q (Zpos (digits2_pos m) - 53) ∧
       Zpos q = Zpos m * 2 ^ (53 - Zpos (digits2_pos m)).
Proof.
  intros Hm. pose proof (digits2_pos_bound m) as [Hlo _].
  assert (Zpos (digits2_pos m) <= 31) as Hd.
  { destruct (Z.le_gt_cases (Zpos (digits2_pos m)) 31); [done|].
    pose proof (Z.pow_le_mono_r 2 31 (Zpos (digits2_pos m) - 1)). lia. }
  assert (shl_align m 0 (fexp 53 1024 (Zpos (digits2_pos m) + 0))
          = (Pos.iter xO m (Z.to_pos (53 - Zpos (digits2_pos m))), Zpos (digits2_pos m) - 53)) as Hal.
  { unfold shl_align, fexp, emin. rewrite Z.max_l by lia. rewrite Z.add_0_r, Z.sub_0_r.
    destruct (Zpos (digits2_pos m) - 53) as [|d|d] eqn:E; [lia|lia|].
    by replace (53 - Zpos (digits2_pos m)) with (Zpos d) by lia. }
  exists (Pos.iter xO m (Z.to_pos (53 - Zpos (digits2_pos m)))). split.
  - unfold binary_round. rewrite Hal. apply round_full; [|lia].
    rewrite digits2_iter_xO, Pos2Z.inj_add, Z2Pos.id by lia. lia.
  - by rewrite iter_xO_shift, Z2Pos.id by lia.
Qed.

Lemma double_of_INT_MAX : double_of_int INT_MAX = S754_finite false 9007199250546688 (-22).
Proof. reflexivity. Qed.
Lemma double_of_INT_MIN : double_of_int INT_MIN = S754_finite true 4503599627370496 (-21).
Proof. reflexivity. Qed.

Lemma digits2_le_31 m : Zpos m < 2 ^ 31 → Zpos (digits2_pos m) <= 31.
Proof.
  intros Hm. pose proof (digits2_pos_bound m) as [Hlo _].
  destruct (Z.le_gt_cases (Zpos (digits2_pos m)) 31); [done|].
  pose proof (Z.pow_le_mono_r 2 31 (Zpos (digits2_pos m) - 1)). lia.
Qed.

Lemma double_to_int_round s m :
  Zpos m < 2 ^ 31 → double_to_int (binary_round 53 1024 s m 0) = if s then - Zpos m else Zpos m.
Proof.
  intros Hm. destruct (round_int s m Hm) as (q & -> & Hq). pose proof (digits2_le_31 m Hm) as Hd.
  cbn [double_to_int]. destruct (Z.leb_spec 0 (Zpos (digits2_pos m) - 53)); [lia|].
  rewrite Z.shiftr_div_pow2, Hq by lia.
  replace (- (Zpos (digits2_pos m) - 53)) with (53 - Zpos (digits2_pos m)) by lia.
  by rewrite Z.div_mul by (apply Z.pow_nonzero; lia).
Qed.

(** An integer of absolute value below 2^31 survives the way through the
    double and the saturating conversion. *)
Lemma saturate_int_exact s m :
  Zpos m < 2 ^ 31 → saturate_int (binary_round 53 1024 s m 0) = if s then - Zpos m else Zpos m.
Proof.
  intros Hm. pose proof (double_to_int_round s m Hm) as Hint.
  destruct (round_int s m Hm) as (q & Hr & Hq). pose proof (digits2_le_31 m Hm) as Hd.
  rewrite Hr in *. unfold saturate_int, SFleb. rewrite double_of_INT_MAX, double_of_INT_MIN, Hint.
  set (e := Zpos (digits2_pos m) - 53) in *. assert (53 - Zpos (digits2_pos m) = - e) as Ee by lia. rewrite Ee in Hq.
  cbn [SFcompare]. destruct s.
  - destruct (Z.compare_spec e (-21)); [lia|done|lia].
  - destruct (Z.compare_spec (-22) e) as [<-|?|?]; [|lia|done].
    change (2 ^ (- -22)) with 4194304 in Hq.
    change (PosDef.Pos.compare_cont Eq 9007199250546688 q) with (Pos.compare 9007199250546688 q).
    destruct (Pos.compare_spec 9007199250546688 q) as [<-|?|?]; unfold INT_MAX; [lia|lia|done].
Qed.

(** ** Decimal integers *)

Lemma digit_number_char c : is_digit c = true → number_char c = true.
Proof. unfold number_char. by intros ->. Qed.

Lemma number_c_string_digits ds n r :
  Forall (λ c, is_digit c = true) ds → (length ds < n)%nat → (∀ c r', r = c :: r' → number_char c = false) →
  number_c_string n (ds ++ r) = ds.
Proof.
  intros Hds Hn Hr. revert n Hn. induction Hds as [|d ds Hd _ IH]; intros [|n] Hn; simpl in *; try lia.
  - destruct r as [|c r]; [done|]. by rewrite (Hr c r).
  - rewrite digit_number_char by done. f_equal. apply IH. lia.
Qed.

Lemma strtod_digits ds :
  Forall (λ c, is_digit c = true) ds → ds ≠ [] →
  strtod ds = Some (dec_to_double false (dec_value ds) 0, length ds).
Proof.
  intros Hds Hne. unfold strtod. destruct ds as [|d ds]; [done|].
  pose proof (Forall_inv Hds) as Hd. apply is_digit_spec in Hd.
  assert (scan_sign (d :: ds) = (false, d :: ds)) as ->.
  { cbn. destruct (Z.eqb_spec d 45), (Z.eqb_spec d 43); lia || done. }
  rewrite <-(app_nil_r (d :: ds)) at 1. rewrite span_digits_app by done.
  cbn [scan_fraction]. rewrite app_nil_r. cbn [scan_exponent length]. unfold zlen. done.
Qed.

Lemma double_of_nonneg n : 0 <= n < 2 ^ 31 → saturate_int (dec_to_double false n 0) = n.
Proof.
  intros Hn. unfold dec_to_double. destruct n as [|p|p]; [done| |lia].
  cbn [Z.leb Z.compare]. rewrite Z.mul_1_r. cbn [Z.to_pos].
  by rewrite (saturate_int_exact false p) by lia.
Qed.

Lemma print_u_length n : (length (print_u n) <= 20)%nat.
Proof.
  assert (∀ fuel n acc, (length (print_u_digits fuel n acc) <= length acc + fuel)%nat) as H.
  { induction fuel as [|fuel IH]; intros m acc; cbn [print_u_digits]; [lia|].
    case_match; [simpl; lia|]. specialize (IH (m / 10) ((48 + m mod 10) :: acc)). simpl in *. lia. }
  apply (H 20%nat n []).
Qed.

(** A printed 31-bit number is read back exactly. *)
Lemma parse_number_print_u item b n r :
  0 <= n < 2 ^ 31 → (∀ c r', r = c :: r' → number_char c = false) →
  drop (offset b) (content b) = print_u n ++ r →
  ∃ d, parse_number item b = (Some (set_number item d), set_offset (offset b + length (print_u n)) b) ∧
       valueint (set_number item d) = n.
Proof.
  intros Hn Hr Hb. destruct (print_u_spec n) as (Hds & Hv & Hne); [lia|].
  unfold parse_number. rewrite Hb, number_c_string_digits by (done || pose proof (print_u_length n); lia).
  rewrite strtod_digits by done. eexists. split; [done|]. simpl. by rewrite Hv, double_of_nonneg.
Qed.
