(* ===== verification/CJsonParse.v ===== *)
(** * cJSON: the recursive parser

    [parse_value], [parse_array], [parse_object] and the entry points
    [cJSON_ParseWithOpts] and [cJSON_Parse] of [engine/thirdparty/cJSON.c].
    The mutual recursion and the two element loops run on fuel; that the fuel
    the entry point passes is enough is part of the safety theorem. *)
From S2P Require Import Prelude CJsonData CJsonText CJsonTextSafe CJsonNumber.

Definition lit_null : list Z := bytes_of_string "null".
Definition lit_false : list Z := bytes_of_string "false".
Definition lit_true : list Z := bytes_of_string "true".

Definition set_type (j : cJSON) (t : Z) : cJSON :=
  CJSON (addr j) t (valuestring j) (valueint j) (valuedouble j) (item_string j) (child j).
Definition set_valueint (j : cJSON) (n : Z) : cJSON :=
  CJSON (addr j) (type j) (valuestring j) n (valuedouble j) (item_string j) (child j).

(** [item->type = t; item->child = head] *)
Definition set_children (j : cJSON) (t : Z) (l : list cJSON) : cJSON :=
  CJSON (addr j) t (valuestring j) (valueint j) (valuedouble j) (item_string j) l.

(** [item->string = item->valuestring; item->valuestring = NULL] *)
Definition swap_name (j : cJSON) : cJSON :=
  CJSON (addr j) (type j) None (valueint j) (valuedouble j) (valuestring j) (child j).

Definition advance (n : nat) (b : parse_buffer) : parse_buffer := set_offset (offset b + n) b.
Definition step_back (b : parse_buffer) : parse_buffer := set_offset (pred (offset b)) b.

Section parse.
Variable may_allocate : nat → Z → bool.

(** A parser fills in an item: the filled item on success, [None] on failure,
    when the item is left as it was. *)
Definition parser : Type := cJSON → parse_buffer → outcome (option cJSON * parse_buffer).

(** The tail that [parse_array] and [parse_object] share: on failure the
    chain built so far is deleted, on success it becomes the child chain. *)
Definition finish (t : Z) (item : cJSON) (r : bool * list cJSON * parse_buffer) :
    outcome (option cJSON * parse_buffer) :=
  let '(ok, head, b) := r in
  if ok : bool then
    Ok (Some (set_children item t head), advance 1 (set_depth (depth b - 1) b))
  else
    h ← cJSON_Delete head (bheap b);
    Ok (None, set_heap h b).

Fixpoint parse_value (fuel : nat) (item : cJSON) (b : parse_buffer) :
    outcome (option cJSON * parse_buffer) :=
  match fuel with
  | O => Fault OutOfFuel
  | S fuel =>
      if starts_with b lit_null then Ok (Some (set_type item cJSON_NULL), advance 4 b)
      else if starts_with b lit_false then Ok (Some (set_type item cJSON_False), advance 5 b)
      else if starts_with b lit_true then
        Ok (Some (set_valueint (set_type item cJSON_True) 1), advance 4 b)
      else if can_access_at_index b 0 then
        c ← byte_at_offset b;
        if c =? 34 then parse_string may_allocate item b
        else if (c =? 45) || ((48 <=? c) && (c <=? 57)) then Ok (parse_number item b)
        else if c =? 91 then parse_array fuel item b
        else if c =? 123 then parse_object fuel item b
        else Ok (None, b)
      else Ok (None, b)
  end

with parse_array (fuel : nat) (item : cJSON) (b : parse_buffer) :
    outcome (option cJSON * parse_buffer) :=
  match fuel with
  | O => Fault OutOfFuel
  | S fuel =>
      if CJSON_NESTING_LIMIT <=? depth b then Ok (None, b)
      else
        let b := set_depth (depth b + 1) b in
        c ← byte_at_offset b;
        if negb (c =? 91) then finish cJSON_Array item (false, [], b)
        else
          let b := buffer_skip_whitespace (advance 1 b) in
          closed ← next_is b 93;
          if closed : bool then finish cJSON_Array item (true, [], b)
          else if negb (can_access_at_index b 0) then finish cJSON_Array item (false, [], step_back b)
          else
            r ← array_loop fuel [] (step_back b);
            finish cJSON_Array item r
  end

(** The [do ... while] loop over the elements, [head] the chain so far;
    whether the closing bracket was found, the chain, and the buffer. *)
with array_loop (fuel : nat) (head : list cJSON) (b : parse_buffer) :
    outcome (bool * list cJSON * parse_buffer) :=
  match fuel with
  | O => Fault OutOfFuel
  | S fuel =>
      let '(p, h) := cJSON_New_Item may_allocate (bheap b) in
      let b := set_heap h b in
      match p with
      | None => Ok (false, head, b)
      | Some new_item =>
          '(r, b) ← parse_value fuel new_item (buffer_skip_whitespace (advance 1 b));
          match r with
          | None => Ok (false, head ++ [new_item], b)
          | Some current_item =>
              let head := head ++ [current_item] in
              let b := buffer_skip_whitespace b in
              more ← next_is b 44;
              if more : bool then array_loop fuel head b
              else
                closed ← next_is b 93;
                Ok (closed, head, b)
          end
      end
  end

with parse_object (fuel : nat) (item : cJSON) (b : parse_buffer) :
    outcome (option cJSON * parse_buffer) :=
  match fuel with
  | O => Fault OutOfFuel
  | S fuel =>
      if CJSON_NESTING_LIMIT <=? depth b then Ok (None, b)
      else
        let b := set_depth (depth b + 1) b in
        opened ← next_is b 123;
        if negb opened then finish cJSON_Object item (false, [], b)
        else
          let b := buffer_skip_whitespace (advance 1 b) in
          closed ← next_is b 125;
          if closed : bool then finish cJSON_Object item (true, [], b)
          else if negb (can_access_at_index b 0) then finish cJSON_Object item (false, [], step_back b)
          else
            r ← object_loop fuel [] (step_back b);
            finish cJSON_Object item r
  end

(** The loop over the members: name, colon, value. *)
with object_loop (fuel : nat) (head : list cJSON) (b : parse_buffer) :
    outcome (bool * list cJSON * parse_buffer) :=
  match fuel with
  | O => Fault OutOfFuel
  | S fuel =>
      let '(p, h) := cJSON_New_Item may_allocate (bheap b) in
      let b := set_heap h b in
      match p with
      | None => Ok (false, head, b)
      | Some new_item =>
          '(r, b) ← parse_string may_allocate new_item (buffer_skip_whitespace (advance 1 b));
          match r with
          | None => Ok (false, head ++ [new_item], b)
          | Some named =>
              let b := buffer_skip_whitespace b in
              let named := swap_name named in
              colon ← next_is b 58;
              if negb colon then Ok (false, head ++ [named], b)
              else
                '(r, b) ← parse_value fuel named (buffer_skip_whitespace (advance 1 b));
                match r with
                | None => Ok (false, head ++ [named], b)
                | Some current_item =>
                    let head := head ++ [current_item] in
                    let b := buffer_skip_whitespace b in
                    more ← next_is b 44;
                    if more : bool then object_loop fuel head b
                    else
                      closed ← next_is b 125;
                      Ok (closed, head, b)
                end
          end
      end
  end.

(** Result of [cJSON_ParseWithOpts]: the item returned, the offset stored
    through [return_parse_end], the position in [global_error] ([None] when it
    was reset) and the heap. *)
Record parse_result := ParseResult {
  parsed : option cJSON; parse_end : nat; global_error : option nat; rheap : heap }.

(** Enough fuel for a text of this length. *)
Definition parse_fuel (text : list Z) : nat := (3 * (length text + 1) + 1)%nat.

(** The code at the label [fail] of [cJSON_ParseWithOpts]. *)
Definition parse_fail (item : option cJSON) (b : parse_buffer) : outcome parse_result :=
  h ← (match item with Some j => cJSON_Delete [j] (bheap b) | None => Ok (bheap b) end);
  let position := if (offset b <? length (content b))%nat then offset b
                  else if (0 <? length (content b))%nat then pred (length (content b)) else O in
  Ok (ParseResult None position (Some position) h).

(** [value] is the C string [text], [None] for a null pointer. *)
Definition cJSON_ParseWithOpts (value : option (list Z)) (require_null_terminated : bool) (h : heap) :
    outcome parse_result :=
  match value with
  | None => Ok (ParseResult None 0 None h)
  | Some text =>
      let '(p, h) := cJSON_New_Item may_allocate h in
      let b := ParseBuffer (text ++ [0]) 0 0 h in
      match p with
      | None => parse_fail None b
      | Some item =>
          '(r, b) ← match skip_utf8_bom b with
                    | None => Ok (None, b)
                    | Some b => parse_value (parse_fuel text) item (buffer_skip_whitespace b)
                    end;
          match r with
          | None => parse_fail (Some item) b
          | Some j =>
              if require_null_terminated then
                let b := buffer_skip_whitespace b in
                c ← (if (length (content b) <=? offset b)%nat then Ok 1 else byte_at_offset b);
                if negb (c =? 0) then parse_fail (Some j) b
                else Ok (ParseResult (Some j) (offset b) None (bheap b))
              else Ok (ParseResult (Some j) (offset b) None (bheap b))
          end
      end
  end.

Definition cJSON_Parse (value : option (list Z)) (h : heap) : outcome (option cJSON * heap) :=
  r ← cJSON_ParseWithOpts value false h;
  Ok (parsed r, rheap r).
End parse.

