(* ===== verification/CJsonParseSafe.v ===== *)
(** * cJSON: the parser is memory safe, terminates and does not leak

    For every NUL-terminated text and every behaviour of the allocator the
    parser returns without a fault; when it fails the set of live blocks is the
    one it started from, when it succeeds the new live blocks are exactly the
    blocks of the item tree, each owned once. *)
From S2P Require Import Prelude CJsonData CJsonText CJsonTextSafe CJsonNumber CJsonParse.

(** The text ends in a NUL and the offset is inside it. *)
Definition inside (b : parse_buffer) : Prop :=
  (offset b < length (content b))%nat ∧ last (content b) = Some 0.

Definition remaining (b : parse_buffer) : nat := (length (content b) - offset b)%nat.

Lemma advanced_inside b b' :
  inside b → content b' = content b → advanced b b' → inside b' ∧ (remaining b' < remaining b)%nat.
Proof.
  intros [Ho Hl] Hc [Hlt (c & Hc' & Hz)]. unfold inside, remaining. rewrite Hc.
  apply lookup_lt_Some in Hc' as Hlen.
  assert (offset b' ≠ length (content b)) as Hne.
  { intros E. rewrite E in Hc'. rewrite last_lookup in Hl. congruence. }
  split; [split; [lia|done]|lia].
Qed.

Lemma skip_inside b :
  inside b →
  let b' := buffer_skip_whitespace b in
  inside b' ∧ content b' = content b ∧ depth b' = depth b ∧ bheap b' = bheap b ∧ (offset b <= offset b')%nat.
Proof.
  intros [Ho Hl]. destruct (skip_whitespace_spec b) as (Hc & Hd & Hh & Ho' & Hm); [lia|lia|].
  split_and!; auto. unfold inside. by rewrite Hc.
Qed.

Lemma byte_inside b : inside b → ∃ c, byte_at_offset b = Ok c ∧ content b !! offset b = Some c.
Proof. intros [Ho _]. by apply read_Ok. Qed.

Lemma next_is_inside b c :
  inside b → ∃ r, next_is b c = Ok r ∧ (r = true → content b !! offset b = Some c).
Proof.
  intros Hb. unfold next_is. destruct (byte_inside b Hb) as (x & -> & Hx).
  destruct (can_access_at_index b 0); simpl; eexists; (split; [done|]); [|done].
  intros ->%Z.eqb_eq. done.
Qed.

(** A byte other than NUL is followed by another byte of the text. *)
Lemma advance_inside b c :
  inside b → content b !! offset b = Some c → c ≠ 0 → inside (advance 1 b).
Proof.
  intros Hb Hc Hz. apply (advanced_inside b (advance 1 b) Hb eq_refl).
  split; [simpl; lia|]. exists c. simpl. by rewrite Nat.add_1_r.
Qed.

Lemma starts_with_advanced b lit n :
  starts_with b lit = true → n = length lit → Forall (λ c, c ≠ 0) lit → lit ≠ [] → advanced b (advance n b).
Proof.
  unfold starts_with. intros [Hr Ht%bool_decide_eq_true]%andb_true_iff -> Hz Hne.
  assert (0 < length lit)%nat by (destruct lit; [done|simpl; lia]).
  split; [simpl; lia|]. destruct (lookup_lt_is_Some_2 lit (pred (length lit))) as [c Hc]; [lia|].
  exists c. split; [|exact (Forall_lookup_1 _ _ _ _ Hz Hc)]. rewrite <-Ht in Hc.
  apply lookup_take_Some in Hc as [Hc _]. rewrite lookup_drop in Hc. rewrite <-Hc.
  f_equal. simpl. rewrite Ht. lia.
Qed.

(** ** Ownership along the way *)

(** [nb] are the blocks allocated and still live since [h0]. *)
Definition grew (h0 h : heap) (nb : list nat) : Prop :=
  heap_ok h ∧ NoDup nb ∧ live h = list_to_set nb ∪ live h0 ∧
  (reqs h0 <= reqs h)%nat ∧ Forall (λ a, (reqs h0 <= a)%nat) nb.

Lemma grew_refl h : heap_ok h → grew h h [].
Proof. intros. split_and!; [done|by constructor|set_solver|done|constructor]. Qed.

Lemma grew_trans h0 h1 h2 l1 l2 : grew h0 h1 l1 → grew h1 h2 l2 → grew h0 h2 (l2 ++ l1).
Proof.
  intros (Hok1 & Hn1 & Hl1 & Hr1 & Hf1) (Hok2 & Hn2 & Hl2 & Hr2 & Hf2). split_and!; [done| |set_solver|lia|].
  - apply NoDup_app. split_and!; [done| |done]. intros a Ha1 Ha2.
    rewrite Forall_forall in Hf2. apply Hf2 in Ha1.
    assert (a ∈ live h1) as Ha by set_solver. apply Hok1 in Ha. lia.
  - apply Forall_app. split; [|done]. eapply Forall_impl; [done|]. simpl. lia.
Qed.

Lemma grew_perm h0 h l l' : l ≡ₚ l' → grew h0 h l → grew h0 h l'.
Proof. intros Hp (?&?&?&?&?). split_and!; [done|by rewrite <-Hp|by rewrite <-Hp|done|by rewrite <-Hp]. Qed.

(** Deleting a chain that owns all new blocks restores the live set. *)
Lemma grew_delete h0 h l :
  heap_ok h0 → Forall owned l → grew h0 h (chain_blocks l) →
  ∃ h', cJSON_Delete l h = Ok h' ∧ grew h0 h' [].
Proof.
  intros Hok0 Hown (Hok & Hn & Hl & Hr & Hf). eexists. split; [apply cJSON_Delete_spec; [done..|set_solver]|].
  split_and!; simpl; [|by constructor| |done|constructor].
  - intros a Ha. apply Hok. set_solver.
  - rewrite Hl. apply set_eq. intros a. rewrite elem_of_difference, elem_of_union.
    rewrite Forall_forall in Hf. split; [set_solver|]. intros Ha.
    assert (a ∈ live h0) as Ha0 by set_solver. split; [by right|]. intros Hin.
    apply elem_of_list_to_set, Hf in Hin. apply Hok0 in Ha0. lia.
Qed.

Lemma grew_live h0 h : grew h0 h [] → live h = live h0.
Proof. intros (_ & _ & -> & _). set_solver. Qed.

(** An item as [cJSON_New_Item] returns it, up to its key. *)
Definition fresh_item (j : cJSON) : Prop :=
  valuestring j = None ∧ child j = [] ∧ is_reference j = false ∧ string_is_const j = false.

Lemma fresh_owned j : fresh_item j → owned j.
Proof. intros (_ & Hc & ? & ?). constructor; [done..|]. by rewrite Hc. Qed.

(** [j] is [item] with a value filled in that owns [nb]. *)
Definition filled (item j : cJSON) (nb : list nat) : Prop :=
  owned j ∧ addr j = addr item ∧ item_string j = item_string item ∧ blocks j ≡ₚ nb ++ blocks item.

Section safe.
Variable may_allocate : nat → Z → bool.

Definition value_post (item : cJSON) (b : parse_buffer) (r : option cJSON) (b' : parse_buffer) : Prop :=
  content b' = content b ∧
  match r with
  | None => grew (bheap b) (bheap b') []
  | Some j => depth b' = depth b ∧ advanced b b' ∧
      ∃ nb, grew (bheap b) (bheap b') nb ∧ filled item j nb
  end.

(** A loop over elements extends the chain; all blocks since [h0] are in it. *)
Definition chain_ok (h0 h : heap) (l : list cJSON) : Prop :=
  Forall owned l ∧ grew h0 h (chain_blocks l).

Definition loop_post (h0 : heap) (b : parse_buffer) (closing : Z)
    (ok : bool) (l : list cJSON) (b' : parse_buffer) : Prop :=
  content b' = content b ∧ chain_ok h0 (bheap b') l ∧
  (ok = true → depth b' = depth b ∧ (offset b < offset b')%nat ∧ content b !! offset b' = Some closing).

Lemma chain_ok_weaken h0 h h' l : chain_ok h0 h l → grew h h' [] → chain_ok h0 h' l.
Proof. intros [? Hg] Hg'. split; [done|]. exact (grew_trans _ _ _ _ _ Hg Hg'). Qed.

Lemma chain_ok_fill h0 h h' l item j nb :
  chain_ok h0 h (l ++ [item]) → grew h h' nb → owned j → blocks j ≡ₚ nb ++ blocks item →
  chain_ok h0 h' (l ++ [j]).
Proof.
  intros [Hown Hg] Hg' Hj Hp. apply Forall_app in Hown as [Hown _].
  split; [apply Forall_app; split; [done|by constructor]|].
  eapply grew_perm; [|exact (grew_trans _ _ _ _ _ Hg Hg')].
  rewrite !chain_blocks_app, !chain_blocks_singleton, Hp. by rewrite app_assoc, (Permutation_app_comm nb), app_assoc.
Qed.

Lemma new_item_ok h p h' :
  cJSON_New_Item may_allocate h = (p, h') → heap_ok h →
  match p with
  | Some j => fresh_item j ∧ item_string j = None ∧ grew h h' (blocks j)
  | None => grew h h' []
  end.
Proof.
  unfold cJSON_New_Item. destruct (allocate _ _ _) as [q h1] eqn:Ha. intros [= <- <-] Hok.
  destruct (allocate_spec _ _ _ _ _ Ha Hok) as (Hok' & Hr & Hq). destruct q as [a|]; simpl.
  - destruct Hq as (-> & Hf & Hl). split_and!; [done|done|]. split_and!; [done| |set_solver|lia|].
    + apply NoDup_singleton.
    + by constructor.
  - split_and!; [done|by constructor|set_solver|lia|constructor].
Qed.

Lemma chain_ok_new h0 h h' l j :
  chain_ok h0 h l → grew h h' (blocks j) → fresh_item j → chain_ok h0 h' (l ++ [j]).
Proof.
  intros [Hown Hg] Hg' Hj. split; [apply Forall_app; split; [done|constructor; [by apply fresh_owned|done]]|].
  eapply grew_perm; [|exact (grew_trans _ _ _ _ _ Hg Hg')].
  rewrite chain_blocks_app, chain_blocks_singleton. apply Permutation_app_comm.
Qed.

(** ** Leaves *)

Lemma filled_plain item j :
  fresh_item item → child j = [] → valuestring j = None → addr j = addr item →
  item_string j = item_string item → is_reference j = false → string_is_const j = false → filled item j [].
Proof.
  intros (Hv & Hc & _ & _) Hcj Hvj Ha Hs ??. split_and!; [constructor; rewrite ?Hcj; auto|done..|].
  by rewrite !blocks_unfold, Hcj, Hvj, Ha, Hs, Hc, Hv.
Qed.

Lemma value_post_plain item b j n :
  heap_ok (bheap b) → advanced b (advance n b) → filled item j [] →
  value_post item b (Some j) (advance n b).
Proof. intros. split; [done|]. split_and!; [done..|]. exists []. split; [by apply grew_refl|done]. Qed.

Lemma parse_string_value item b :
  inside b → heap_ok (bheap b) → fresh_item item →
  ∃ r b', parse_string may_allocate item b = Ok (r, b') ∧ value_post item b r b' ∧
    ∀ j, r = Some j → ∃ s, j = set_string item cJSON_String (Some s).
Proof.
  intros [Ho _] Hok Hf. destruct (parse_string_safe may_allocate item b Ho Hok) as (r & b' & -> & Hc & Hd & Hok' & Hr & Hpost).
  exists r, b'. split; [done|]. destruct r as [j|].
  - destruct Hpost as (out & -> & Hl & Hr' & Hadv). split; [|intros ? [= <-]; eauto].
    split; [done|]. split_and!; [done..|]. exists [reqs (bheap b)]. destruct Hf as (Hv & Hch & ? & ?). split.
    + split_and!; [done|apply NoDup_singleton|set_solver|done|by constructor].
    + split_and!; [constructor; simpl; rewrite ?Hch; auto|done|done|].
      rewrite !blocks_unfold. simpl. by rewrite Hch, Hv.
  - split; [|done]. split; [done|]. split_and!; [done|by constructor|set_solver|done|constructor].
Qed.

Lemma parse_number_value item b :
  heap_ok (bheap b) → fresh_item item →
  let '(r, b') := parse_number item b in value_post item b r b'.
Proof.
  intros Hok Hf. pose proof (parse_number_progress item b) as Hp.
  destruct (parse_number item b) as [r b']. destruct Hp as (Hc & Hd & Hh & Hr). split; [done|].
  destruct r as [j|]; [|by rewrite Hh; apply grew_refl].
  destruct Hr as (d & -> & Hadv). split_and!; [done..|]. exists []. rewrite Hh.
  split; [by apply grew_refl|]. destruct Hf as (Hv & Hch & ? & ?). by apply filled_plain.
Qed.

(** ** The shared tail *)

Lemma finish_spec t closing item b l ok b1 :
  (t = cJSON_Array ∨ t = cJSON_Object) → closing ≠ 0 → heap_ok (bheap b) → fresh_item item →
  content b1 = content b → chain_ok (bheap b) (bheap b1) l →
  (ok = true → depth b1 = depth b + 1 ∧ (offset b < offset b1)%nat ∧ content b !! offset b1 = Some closing) →
  ∃ r b', finish t item (ok, l, b1) = Ok (r, b') ∧ value_post item b r b'.
Proof.
  intros Ht Hz Hok Hf Hc [Hown Hg] Hsucc. unfold finish. destruct ok.
  - destruct (Hsucc eq_refl) as (Hd & Ho & Hcl). do 2 eexists. split; [done|]. split; [done|].
    split_and!; [simpl; lia| |].
    + split; [simpl; lia|]. exists closing. simpl. by rewrite Nat.add_1_r.
    + exists (chain_blocks l). split; [done|]. destruct Hf as (Hv & Hch & ? & ?).
      split_and!; [|done|done|].
      * constructor; [by destruct Ht as [->| ->]..|done].
      * rewrite !blocks_unfold. simpl. by rewrite Hch.
  - destruct (grew_delete _ _ _ Hok Hown Hg) as (h' & -> & Hg'). do 2 eexists. split; [done|]. by split.
Qed.

Lemma finish_fail t item b b1 :
  content b1 = content b → bheap b1 = bheap b → heap_ok (bheap b) →
  ∃ r b', finish t item (false, [], b1) = Ok (r, b') ∧ value_post item b r b'.
Proof.
  intros Hc Hh Hok. do 2 eexists. split; [done|]. split; [done|]. simpl. rewrite Hh. by apply grew_refl.
Qed.

(** ** The recursion *)

(** A parser meets its specification on buffers for which [fuel] suffices:
    [3 * remaining + 1] for a value, one less for an array or object, two less
    for a loop standing in front of an element. *)
Definition value_spec (extra : nat) (p : nat → parser) (fuel : nat) : Prop := ∀ item b,
  inside b → heap_ok (bheap b) → fresh_item item → (3 * remaining b + extra <= fuel)%nat →
  ∃ r b', p fuel item b = Ok (r, b') ∧ value_post item b r b'.

Definition loop_spec (closing : Z) (p : nat → list cJSON → parse_buffer → outcome (bool * list cJSON * parse_buffer))
    (fuel : nat) : Prop := ∀ h0 l b,
  inside (advance 1 b) → heap_ok h0 → chain_ok h0 (bheap b) l → (3 * remaining b <= fuel + 1)%nat →
  ∃ ok l' b', p fuel l b = Ok (ok, l', b') ∧ loop_post h0 b closing ok l' b'.

Lemma parse_value_step fuel :
  value_spec 0 (parse_array may_allocate) fuel → value_spec 0 (parse_object may_allocate) fuel →
  value_spec 1 (parse_value may_allocate) (S fuel).
Proof.
  intros HA HO item b Hin Hok Hf Hfuel. cbn [parse_value].
  pose proof Hf as (Hv & Hch & Href & Hconst).
  destruct (starts_with b lit_null) eqn:E1; [do 2 eexists; split; [done|]; apply value_post_plain;
    [done|eapply (starts_with_advanced _ _ _ E1); [done|by repeat constructor|done]|by apply filled_plain]|].
  destruct (starts_with b lit_false) eqn:E2; [do 2 eexists; split; [done|]; apply value_post_plain;
    [done|eapply (starts_with_advanced _ _ _ E2); [done|by repeat constructor|done]|by apply filled_plain]|].
  destruct (starts_with b lit_true) eqn:E3; [do 2 eexists; split; [done|]; apply value_post_plain;
    [done|eapply (starts_with_advanced _ _ _ E3); [done|by repeat constructor|done]|by apply filled_plain]|].
  assert (value_post item b None b) as Hnone by (split; [done|by apply grew_refl]).
  destruct (can_access_at_index b 0); [|by do 2 eexists].
  destruct (byte_inside b Hin) as (c & -> & Hc). cbn [mbind outcome_bind].
  destruct (c =? 34).
  { destruct (parse_string_value item b Hin Hok Hf) as (r & b' & ? & ? & _). eauto. }
  destruct (_ || _).
  { pose proof (parse_number_value item b Hok Hf). destruct (parse_number item b). eauto. }
  destruct (c =? 91); [apply HA; auto; lia|].
  destruct (c =? 123); [apply HO; auto; lia|]. by do 2 eexists.
Qed.

(** After the opening bracket: skipping white space stays inside. *)
Lemma opened_inside b c :
  inside b → content b !! offset b = Some c → c ≠ 0 →
  let b' := buffer_skip_whitespace (advance 1 b) in
  inside b' ∧ content b' = content b ∧ depth b' = depth b ∧ bheap b' = bheap b ∧ (offset b < offset b')%nat.
Proof.
  intros Hin Hc Hz. pose proof (advance_inside b c Hin Hc Hz) as Hin'.
  destruct (skip_inside _ Hin') as (? & ? & ? & ? & ?). split_and!; auto. simpl in *. lia.
Qed.

(** The body that arrays and objects share once the bracket is consumed. *)
Lemma after_open t closing loop fuel item b b1 :
  (t = cJSON_Array ∨ t = cJSON_Object) → closing ≠ 0 → heap_ok (bheap b) → fresh_item item →
  inside b → inside b1 → content b1 = content b → depth b1 = depth b + 1 → bheap b1 = bheap b →
  (offset b < offset b1)%nat → loop_spec closing loop fuel → (3 * remaining b <= fuel + 1)%nat →
  ∃ r b',
    (closed ← next_is b1 closing;
     if closed : bool then finish t item (true, [], b1)
     else if negb (can_access_at_index b1 0) then finish t item (false, [], step_back b1)
     else r ← loop fuel [] (step_back b1); finish t item r) = Ok (r, b') ∧ value_post item b r b'.
Proof.
  intros Ht Hz Hok Hf Hin Hin1 Hc Hd Hh Ho HL Hfuel.
  assert (chain_ok (bheap b) (bheap b) []) as Hnil by (split; [done|by apply grew_refl]).
  destruct (next_is_inside b1 closing Hin1) as ([] & -> & Hcl); cbn [mbind outcome_bind].
  { apply (finish_spec t closing); auto; [by rewrite Hh|].
    intros _. split_and!; [done..|]. rewrite <-Hc. by apply Hcl. }
  destruct (negb _); [by apply finish_fail|].
  destruct (HL (bheap b) [] (step_back b1)) as (ok & l & b2 & -> & Hc2 & Hch & Hsucc).
  - destruct Hin1. split; simpl; [|done]. lia.
  - done.
  - simpl. by rewrite Hh.
  - unfold remaining in *. simpl. rewrite Hc. lia.
  - cbn [mbind outcome_bind]. apply (finish_spec t closing); auto; simpl in *; [by rewrite Hc2|].
    intros Hokt. destruct (Hsucc Hokt) as (? & ? & ?). split_and!; [lia|lia|]. by rewrite <-Hc.
Qed.

Lemma parse_array_step fuel :
  loop_spec 93 (array_loop may_allocate) fuel → value_spec 0 (parse_array may_allocate) (S fuel).
Proof.
  intros HL item b Hin Hok Hf Hfuel. cbn [parse_array].
  destruct (_ <=? depth b). { do 2 eexists. split; [done|]. split; [done|]. by apply grew_refl. }
  destruct (byte_inside (set_depth (depth b + 1) b) Hin) as (c & -> & Hc). cbn [mbind outcome_bind].
  destruct (Z.eqb_spec c 91) as [->|]; simpl negb; cbn match; [|by apply finish_fail].
  destruct (opened_inside (set_depth (depth b + 1) b) 91 Hin Hc) as (? & ? & ? & ? & ?); [done|].
  eapply after_open; eauto; try done; lia.
Qed.

Lemma parse_object_step fuel :
  loop_spec 125 (object_loop may_allocate) fuel → value_spec 0 (parse_object may_allocate) (S fuel).
Proof.
  intros HL item b Hin Hok Hf Hfuel. cbn [parse_object].
  destruct (_ <=? depth b). { do 2 eexists. split; [done|]. split; [done|]. by apply grew_refl. }
  destruct (next_is_inside (set_depth (depth b + 1) b) 123 Hin) as ([] & -> & Hc); cbn [mbind outcome_bind negb];
    [|by apply finish_fail].
  destruct (opened_inside (set_depth (depth b + 1) b) 123 Hin (Hc eq_refl)) as (? & ? & ? & ? & ?); [done|].
  eapply after_open; eauto; try done; lia.
Qed.

(** The end of an iteration: another element after a comma, or the closing
    bracket. *)
Lemma after_element closing loop fuel h0 l b b1 :
  closing ≠ 0 → heap_ok h0 → inside b1 → content b1 = content b → depth b1 = depth b →
  (offset b < offset b1)%nat → chain_ok h0 (bheap b1) l →
  loop_spec closing loop fuel → (3 * remaining b <= fuel + 2)%nat →
  ∃ ok l' b',
    (more ← next_is (buffer_skip_whitespace b1) 44;
     if more : bool then loop fuel l (buffer_skip_whitespace b1)
     else closed ← next_is (buffer_skip_whitespace b1) closing; Ok (closed, l, buffer_skip_whitespace b1))
    = Ok (ok, l', b') ∧ loop_post h0 b closing ok l' b'.
Proof.
  intros Hz Hok Hin Hc Hd Ho Hch HL Hfuel.
  destruct (skip_inside b1 Hin) as (Hin2 & Hc2 & Hd2 & Hh2 & Ho2).
  set (b2 := buffer_skip_whitespace b1) in *.
  destruct (next_is_inside b2 44 Hin2) as ([] & -> & Hcomma); cbn [mbind outcome_bind].
  - destruct (HL h0 l b2) as (ok & l' & b' & -> & Hc' & Hch' & Hsucc).
    + by eapply advance_inside; [|by apply Hcomma|].
    + done.
    + by rewrite Hh2.
    + unfold remaining in *. rewrite Hc2, Hc. destruct Hin2. lia.
    + do 3 eexists. split; [done|]. split_and!; [congruence|done|].
      intros (? & ? & Hcl)%Hsucc. split_and!; [lia|lia|]. by rewrite <-Hc, <-Hc2.
  - destruct (next_is_inside b2 closing Hin2) as (ok & -> & Hcl). cbn [mbind outcome_bind].
    do 3 eexists. split; [done|]. split_and!; [congruence|by rewrite Hh2|].
    intros ?. split_and!; [lia|lia|]. rewrite <-Hc, <-Hc2. auto.
Qed.

Lemma array_loop_step fuel :
  value_spec 1 (parse_value may_allocate) fuel → loop_spec 93 (array_loop may_allocate) fuel →
  loop_spec 93 (array_loop may_allocate) (S fuel).
Proof.
  intros HV HL h0 l b Hin Hok Hch Hfuel. cbn [array_loop].
  pose proof (proj2 Hch) as (Hokb & _).
  destruct (cJSON_New_Item _ _) as [p h] eqn:Hnew. pose proof (new_item_ok _ _ _ Hnew Hokb) as Hp.
  destruct p as [item|].
  2: { do 3 eexists. split; [done|]. split_and!; [done|by eapply chain_ok_weaken|done]. }
  destruct Hp as (Hfresh & _ & Hg). pose proof (chain_ok_new _ _ _ _ _ Hch Hg Hfresh) as Hch1.
  destruct (skip_inside (advance 1 (set_heap h b)) Hin) as (Hin1 & Hc1 & Hd1 & Hh1 & Ho1).
  destruct (HV item (buffer_skip_whitespace (advance 1 (set_heap h b)))) as (r & b1 & -> & Hc2 & Hr); auto.
  { rewrite Hh1. by destruct Hg. }
  { unfold remaining in *. rewrite Hc1. simpl in *. destruct Hin. simpl in *. lia. }
  cbn [mbind outcome_bind]. rewrite Hh1 in Hr. destruct r as [j|].
  - destruct Hr as (Hd2 & Hadv & nb & Hg2 & Hfill).
    destruct (advanced_inside _ _ Hin1 Hc2 Hadv) as [Hin2 _]. destruct Hadv as [Ho2 _].
    eapply after_element; eauto; try done; simpl in *; [lia| |lia].
    destruct Hfill as (? & _ & _ & ?). by eapply chain_ok_fill.
  - do 3 eexists. split; [done|]. split_and!; [by rewrite Hc2, Hc1|by eapply chain_ok_weaken|done].
Qed.

Lemma swap_name_filled item j s nb :
  fresh_item item → item_string item = None → filled item j nb → j = set_string item cJSON_String (Some s) →
  fresh_item (swap_name j) ∧ blocks (swap_name j) ≡ₚ nb ++ blocks item.
Proof.
  intros (Hv & Hc & Hr & Hs) Hn (_ & _ & _ & Hb) ->. split; [by split_and!|].
  rewrite <-Hb, !blocks_unfold. simpl. rewrite Hn, Hc. done.
Qed.

Lemma object_loop_step fuel :
  value_spec 1 (parse_value may_allocate) fuel → loop_spec 125 (object_loop may_allocate) fuel →
  loop_spec 125 (object_loop may_allocate) (S fuel).
Proof.
  intros HV HL h0 l b Hin Hok Hch Hfuel. cbn [object_loop].
  pose proof (proj2 Hch) as (Hokb & _).
  destruct (cJSON_New_Item _ _) as [p h] eqn:Hnew. pose proof (new_item_ok _ _ _ Hnew Hokb) as Hp.
  destruct p as [item|].
  2: { do 3 eexists. split; [done|]. split_and!; [done|by eapply chain_ok_weaken|done]. }
  destruct Hp as (Hfresh & Hnostr & Hg). pose proof (chain_ok_new _ _ _ _ _ Hch Hg Hfresh) as Hch1.
  destruct (skip_inside (advance 1 (set_heap h b)) Hin) as (Hin1 & Hc1 & Hd1 & Hh1 & Ho1).
  destruct (parse_string_value item (buffer_skip_whitespace (advance 1 (set_heap h b))))
    as (r & b1 & -> & (Hc2 & Hr) & Hset); auto.
  { rewrite Hh1. by destruct Hg. }
  cbn [mbind outcome_bind]. rewrite Hh1 in Hr. destruct r as [named|].
  2: { do 3 eexists. split; [done|]. split_and!; [by rewrite Hc2, Hc1|by eapply chain_ok_weaken|done]. }
  destruct Hr as (Hd2 & Hadv & nb & Hg2 & Hfill). destruct (Hset named eq_refl) as [s Hs].
  destruct (swap_name_filled item named s nb Hfresh Hnostr Hfill Hs) as [Hfresh2 Hb2].
  assert (chain_ok h0 (bheap b1) (l ++ [swap_name named])) as Hch2.
  { eapply (chain_ok_fill h0 h); [done|exact Hg2|by apply fresh_owned|done]. }
  destruct (advanced_inside _ _ Hin1 Hc2 Hadv) as [Hin2 _]. destruct Hadv as [Ho2 _].
  assert (content b1 = content b) as Hcb by (by rewrite Hc2, Hc1).
  assert (depth b1 = depth b) as Hdb by (by rewrite Hd2, Hd1).
  assert (offset b < offset b1)%nat as Hob by (simpl in *; lia).
  clear Hc1 Hd1 Hh1 Ho1 Hc2 Hd2 Ho2 Hin1 Hset Hfill.
  destruct (skip_inside b1 Hin2) as (Hin3 & Hc3 & Hd3 & Hh3 & Ho3).
  set (b3 := buffer_skip_whitespace b1) in *. clearbody b3.
  destruct (next_is_inside b3 58 Hin3) as ([] & -> & Hcolon); cbn [mbind outcome_bind negb].
  2: { do 3 eexists. split; [done|]. split_and!; [congruence|by rewrite Hh3|done]. }
  destruct (opened_inside b3 58 Hin3 (Hcolon eq_refl)) as (Hin4 & Hc4 & Hd4 & Hh4 & Ho4); [done|].
  set (b4 := buffer_skip_whitespace (advance 1 b3)) in *. clearbody b4.
  destruct (HV (swap_name named) b4) as (r & b5 & -> & Hc5 & Hr); auto.
  { rewrite Hh4, Hh3. by destruct Hg2. }
  { unfold remaining in *. rewrite Hc4, Hc3, Hcb. destruct Hin. simpl in *. lia. }
  cbn [mbind outcome_bind]. rewrite Hh4, Hh3 in Hr. destruct r as [j|].
  2: { do 3 eexists. split; [done|]. split_and!; [congruence|by eapply chain_ok_weaken|done]. }
  destruct Hr as (Hd5 & Hadv & nb' & Hg5 & Hfill).
  destruct (advanced_inside _ _ Hin4 Hc5 Hadv) as [Hin5 _]. destruct Hadv as [Ho5 _].
  eapply after_element; eauto; try done; [congruence|congruence|lia| |lia].
  destruct Hfill as (? & _ & _ & ?). by eapply chain_ok_fill.
Qed.

(** All five functions meet their specifications, whatever the fuel. *)
Lemma parser_specs fuel :
  value_spec 1 (parse_value may_allocate) fuel ∧
  value_spec 0 (parse_array may_allocate) fuel ∧ loop_spec 93 (array_loop may_allocate) fuel ∧
  value_spec 0 (parse_object may_allocate) fuel ∧ loop_spec 125 (object_loop may_allocate) fuel.
Proof.
  induction fuel as [|fuel (HV & HA & HAL & HO & HOL)].
  - split_and!; [intros ? b [] ??|intros ? b [] ??|intros ?? b [Hin _] ??|intros ? b [] ??|intros ?? b [Hin _] ??];
      unfold remaining; simpl in *; lia.
  - split_and!; eauto using parse_value_step, parse_array_step, parse_object_step, array_loop_step, object_loop_step.
Qed.

Lemma parse_value_safe fuel item b :
  inside b → heap_ok (bheap b) → fresh_item item → (3 * remaining b + 1 <= fuel)%nat →
  ∃ r b', parse_value may_allocate fuel item b = Ok (r, b') ∧ value_post item b r b'.
Proof. intros. by apply (proj1 (parser_specs fuel)). Qed.

(** ** Entry points *)

Lemma start_inside text h : inside (ParseBuffer (text ++ [0]) 0 0 h).
Proof. split; simpl; [rewrite length_app; simpl; lia|by rewrite last_snoc]. Qed.

Lemma skip_bom_inside b :
  inside b → offset b = 0%nat →
  ∃ b', skip_utf8_bom b = Some b' ∧ inside b' ∧ content b' = content b ∧ depth b' = depth b ∧ bheap b' = bheap b.
Proof.
  intros Hin Ho. unfold skip_utf8_bom. rewrite Ho. cbn [Nat.eqb negb].
  destruct (can_access_at_index b 4) eqn:E; cbn [andb]; [|by exists b].
  case_bool_decide; [|by exists b].
  eexists. split_and!; [done|split; simpl; [|by apply Hin]|done..].
  unfold can_access_at_index in E. apply Nat.ltb_lt in E. lia.
Qed.

Lemma parse_fail_spec h0 b items :
  heap_ok h0 → (0 < length (content b))%nat →
  Forall owned (option_list items) → grew h0 (bheap b) (chain_blocks (option_list items)) →
  ∃ r, parse_fail items b = Ok r ∧ parsed r = None ∧ grew h0 (rheap r) [] ∧
       (parse_end r < length (content b))%nat ∧ global_error r = Some (parse_end r).
Proof.
  intros Hok Hlen Hown Hg. unfold parse_fail.
  assert (∃ h', match items with Some j => cJSON_Delete [j] (bheap b) | None => Ok (bheap b) end = Ok h' ∧ grew h0 h' [])
    as (h' & -> & Hg').
  { destruct items as [j|]; [by apply grew_delete|eauto]. }
  eexists. split; [done|]. split_and!; [done|done| |done]. simpl.
  destruct (Nat.ltb_spec (offset b) (length (content b))); [lia|].
  destruct (Nat.ltb_spec 0 (length (content b))); lia.
Qed.

(** What [cJSON_ParseWithOpts] promises for the C string [text]. *)
Definition parse_post (text : list Z) (require_null_terminated : bool) (h : heap) (r : parse_result) : Prop :=
  heap_ok (rheap r) ∧ (parse_end r <= length text)%nat ∧
  match parsed r with
  | None => live (rheap r) = live h ∧ global_error r = Some (parse_end r)
  | Some j =>
      owned j ∧ item_string j = None ∧ NoDup (blocks j) ∧ list_to_set (blocks j) ## live h ∧
      live (rheap r) = list_to_set (blocks j) ∪ live h ∧ global_error r = None ∧
      (require_null_terminated = true → (text ++ [0]) !! parse_end r = Some 0)
  end.

Lemma grew_disjoint h0 h nb : heap_ok h0 → grew h0 h nb → list_to_set nb ## live h0.
Proof.
  intros Hok (_ & _ & _ & _ & Hf) a Ha%elem_of_list_to_set H0%Hok. rewrite Forall_forall in Hf. apply Hf in Ha. lia.
Qed.

Lemma parse_success text req h b j :
  heap_ok h → inside b → content b = text ++ [0] → owned j → item_string j = None → grew h (bheap b) (blocks j) →
  (req = true → (text ++ [0]) !! offset b = Some 0) →
  parse_post text req h (ParseResult (Some j) (offset b) None (bheap b)).
Proof.
  intros Hok [Hin _] Hc Hown Hs Hg Hreq. pose proof (grew_disjoint _ _ _ Hok Hg). destruct Hg as (Hok' & Hn & Hl & _).
  rewrite Hc, length_app in Hin. simpl in Hin. split_and!; simpl; [done|lia|]. by split_and!.
Qed.

Lemma parse_failure text req h b items :
  heap_ok h → content b = text ++ [0] →
  Forall owned (option_list items) → grew h (bheap b) (chain_blocks (option_list items)) →
  ∃ r, parse_fail items b = Ok r ∧ parse_post text req h r.
Proof.
  intros Hok Hc Hown Hg. assert (length (content b) = length text + 1)%nat as Hl by (by rewrite Hc, length_app).
  destruct (parse_fail_spec h b items) as (r & -> & Hp & Hgr & He & Hge); [done|lia|done|done|].
  exists r. split; [done|]. split_and!; [by destruct Hgr|lia|]. rewrite Hp. split; [by apply grew_live|done].
Qed.

Lemma ParseWithOpts_spec text req h :
  heap_ok h → ∃ r, cJSON_ParseWithOpts may_allocate (Some text) req h = Ok r ∧ parse_post text req h r.
Proof.
  intros Hok. cbn [cJSON_ParseWithOpts].
  destruct (cJSON_New_Item _ _) as [p h1] eqn:Hnew. pose proof (new_item_ok _ _ _ Hnew Hok) as Hp.
  destruct p as [item|]; [|by apply parse_failure].
  destruct Hp as (Hfresh & Hnone & Hg).
  destruct (skip_bom_inside _ (start_inside text h1)) as (b & -> & Hin & Hc & Hd & Hh); [done|].
  destruct (skip_inside b Hin) as (Hin1 & Hc1 & Hd1 & Hh1 & _).
  set (b1 := buffer_skip_whitespace b) in *. clearbody b1. simpl in Hc, Hh.
  assert (content b1 = text ++ [0]) as Hcb by congruence. assert (bheap b1 = h1) as Hhb by congruence.
  destruct (parse_value_safe (parse_fuel text) item b1) as (r & b2 & -> & Hc2 & Hr); auto.
  { rewrite Hhb. by destruct Hg. }
  { unfold remaining, parse_fuel. rewrite Hcb, length_app. simpl. lia. }
  cbn [mbind outcome_bind]. rewrite Hhb in Hr. destruct r as [j|].
  2: { apply parse_failure; [done|congruence|by constructor; [apply fresh_owned|]|].
       simpl. rewrite chain_blocks_singleton. exact (grew_trans _ _ _ _ _ Hg Hr). }
  destruct Hr as (_ & Hadv & nb & Hg2 & Hown & _ & Hs & Hperm).
  assert (grew h (bheap b2) (blocks j)) as Hgj by (eapply grew_perm; [by symmetry|by eapply grew_trans]).
  destruct (advanced_inside _ _ Hin1 Hc2 Hadv) as [Hin2 _]. rewrite Hnone in Hs.
  destruct req; [|eexists; split; [done|]; apply parse_success; auto; congruence].
  destruct (skip_inside b2 Hin2) as (Hin3 & Hc3 & _ & Hh3 & _).
  set (b3 := buffer_skip_whitespace b2) in *. clearbody b3. rewrite <-Hh3 in Hgj.
  assert (content b3 = text ++ [0]) as Hc3b by congruence.
  destruct (Nat.leb_spec (length (content b3)) (offset b3)); [destruct Hin3; lia|].
  destruct (byte_inside b3 Hin3) as (c & -> & Hbyte). cbn [mbind outcome_bind]. rewrite Hc3b in Hbyte.
  destruct (Z.eqb_spec c 0) as [->|]; cbn [negb].
  - eexists. split; [done|]. by apply parse_success.
  - apply parse_failure; [done|done|by constructor|]. simpl. by rewrite chain_blocks_singleton.
Qed.
End safe.
