(* ===== verification/CJsonGrammar.v ===== *)
(** * cJSON: the grammar of JSON and the texts the parser accepts

    JSON values, the texts that denote them (a relation, with white space,
    escapes and every form of numeral, of a length that is a parameter), and the
    proof that the parser turns a text of a value into an item tree for that
    value when the numerals fit the buffer of [parse_number]. *)
From S2P Require Import Prelude Stdio CJsonData CJsonText CJsonTextSafe CJsonNumber CJsonParse CJsonParseSafe.

(** ** Values and the trees that represent them *)

Inductive json :=
  | JNull
  | JBool (b : bool)
  | JNum (d : spec_float)
  | JStr (s : list Z)
  | JArr (l : list json)
  | JObj (l : list (list Z * json)).

(** The value whose bytes the blocks of an item tree hold up to their last
    terminator, [None] for a tree that is not the image of a value. *)
Fixpoint contents_of (j : cJSON) : option json :=
  if type j =? cJSON_NULL then Some JNull
  else if type j =? cJSON_False then Some (JBool false)
  else if type j =? cJSON_True then Some (JBool true)
  else if type j =? cJSON_Number then
    if valueint j =? saturate_int (valuedouble j) then Some (JNum (valuedouble j)) else None
  else if type j =? cJSON_String then s ← valuestring j; Some (JStr (c_bytes s))
  else if type j =? cJSON_Array then l ← mapM contents_of (child j); Some (JArr l)
  else if type j =? cJSON_Object then
    l ← mapM (λ c, k ← item_string c; v ← contents_of c; Some (c_bytes k, v)) (child j); Some (JObj l)
  else None.

Definition member_of (c : cJSON) : option (list Z * json) :=
  k ← item_string c; v ← contents_of c; Some (c_bytes k, v).

(** What a C program reads in an item tree: strings and names are C strings. *)
Fixpoint value_of (j : cJSON) : option json :=
  if type j =? cJSON_NULL then Some JNull
  else if type j =? cJSON_False then Some (JBool false)
  else if type j =? cJSON_True then Some (JBool true)
  else if type j =? cJSON_Number then
    if valueint j =? saturate_int (valuedouble j) then Some (JNum (valuedouble j)) else None
  else if type j =? cJSON_String then s ← valuestring j; Some (JStr (cstring (c_bytes s)))
  else if type j =? cJSON_Array then l ← mapM value_of (child j); Some (JArr l)
  else if type j =? cJSON_Object then
    l ← mapM (λ c, k ← item_string c; v ← value_of c; Some (cstring (c_bytes k), v)) (child j); Some (JObj l)
  else None.

(** The value with its strings and names cut at their first NUL. *)
Fixpoint c_value (v : json) : json :=
  match v with
  | JStr s => JStr (cstring s)
  | JArr l => JArr (c_value <$> l)
  | JObj l => JObj ((λ m, (cstring m.1, c_value m.2)) <$> l)
  | _ => v
  end.

Lemma contents_value : ∀ j v, contents_of j = Some v → value_of j = Some (c_value v).
Proof.
  fix IH 1. intros [a ty vs vi vd name ch] v. cbn.
  destruct (ty =? cJSON_NULL); [by intros [= <-]|]. destruct (ty =? cJSON_False); [by intros [= <-]|].
  destruct (ty =? cJSON_True); [by intros [= <-]|].
  destruct (ty =? cJSON_Number); [destruct (vi =? saturate_int vd); [by intros [= <-]|done]|].
  destruct (ty =? cJSON_String); [destruct vs; [by intros [= <-]|done]|].
  destruct (ty =? cJSON_Array).
  - intros (l & Hl & [= <-])%bind_Some. enough (mapM value_of ch = Some (c_value <$> l)) as -> by done.
    revert l Hl. induction ch as [|c ch IHch]; cbn; [by intros l [= <-]|].
    intros l (x & Hx & (xs & Hxs & [= <-])%bind_Some)%bind_Some. by rewrite (IH c x Hx), (IHch xs Hxs).
  - destruct (ty =? cJSON_Object); [|done]. intros (l & Hl & [= <-])%bind_Some. cbn [c_value].
    match goal with |- context [mapM ?f ch] =>
      enough (mapM f ch = Some ((λ m, (cstring m.1, c_value m.2)) <$> l)) as -> by done end.
    revert l Hl. induction ch as [|c ch IHch]; cbn; [by intros l [= <-]|].
    intros l (x & (k & Hk & (y & Hy & [= <-])%bind_Some)%bind_Some & (xs & Hxs & [= <-])%bind_Some)%bind_Some.
    rewrite Hk. cbn. by rewrite (IH c y Hy), (IHch xs Hxs).
Qed.

(** Nesting of arrays and objects. *)
Fixpoint json_depth (v : json) : nat :=
  match v with
  | JArr l => S (foldr (λ v n, json_depth v `max` n) 0 l)%nat
  | JObj l => S (foldr (λ m n, json_depth m.2 `max` n) 0 l)%nat
  | _ => O
  end.

Definition depth_elems (l : list json) : nat := foldr (λ v n, json_depth v `max` n)%nat 0%nat l.
Definition depth_members (l : list (list Z * json)) : nat := foldr (λ m n, json_depth m.2 `max` n)%nat 0%nat l.

(** ** Texts *)

Definition white (w : list Z) : Prop := Forall (λ c, 0 < c <= 32) w.

(** The body of a string literal and the bytes it denotes. *)
Inductive str_text : list Z → list Z → Prop :=
  | st_nil : str_text [] []
  | st_plain c t s : 0 < c < 256 → c ≠ 34 → c ≠ 92 → str_text t s → str_text (c :: t) (c :: s)
  | st_escape c x t s : simple_escape c = Some x → str_text t s → str_text (92 :: c :: t) (x :: s)
  | st_unicode a b c d v t s :
      hex4_value a b c d = Some v → ¬ (0xD800 <= v <= 0xDFFF) → str_text t s →
      str_text (92 :: 117 :: a :: b :: c :: d :: t) (utf8_form v ++ s)
  | st_pair a b c d a' b' c' d' v w t s :
      hex4_value a b c d = Some v → hex4_value a' b' c' d' = Some w →
      0xD800 <= v <= 0xDBFF → 0xDC00 <= w <= 0xDFFF → str_text t s →
      str_text (92 :: 117 :: a :: b :: c :: d :: 92 :: 117 :: a' :: b' :: c' :: d' :: t)
               (utf8_form (0x10000 + (v - 0xD800) * 1024 + (w - 0xDC00)) ++ s).

Definition digits (ds : list Z) : Prop := Forall (λ c, is_digit c = true) ds.

Definition sign_text (t : list Z) (neg : bool) : Prop := t = [] ∧ neg = false ∨ t = [45] ∧ neg = true.

Definition frac_text (t fp : list Z) : Prop := t = [] ∧ fp = [] ∨ t = 46 :: fp ∧ digits fp.

Inductive exp_text : list Z → Z → Prop :=
  | et_none : exp_text [] 0
  | et_plain c ds : (c = 101 ∨ c = 69) → digits ds → ds ≠ [] → exp_text (c :: ds) (dec_value ds)
  | et_plus c ds : (c = 101 ∨ c = 69) → digits ds → ds ≠ [] → exp_text (c :: 43 :: ds) (dec_value ds)
  | et_minus c ds : (c = 101 ∨ c = 69) → digits ds → ds ≠ [] → exp_text (c :: 45 :: ds) (- dec_value ds).

(** A numeral of at most [n] characters and the double nearest to it. *)
Inductive num_text (n : nat) : list Z → spec_float → Prop :=
  | nt_intro sg neg ip ft fp xt x :
      sign_text sg neg → digits ip → ip ≠ [] → frac_text ft fp → exp_text xt x →
      (length (sg ++ ip ++ ft ++ xt) <= n)%nat →
      num_text n (sg ++ ip ++ ft ++ xt) (dec_to_double neg (dec_value (ip ++ fp)) (x - zlen fp)).

(** Values, non-empty element lists and non-empty member lists; the latter two
    start at their first element.  The numerals in the text have at most [n]
    characters. *)
Inductive value_text (n : nat) : json → list Z → Prop :=
  | vt_null : value_text n JNull lit_null
  | vt_false : value_text n (JBool false) lit_false
  | vt_true : value_text n (JBool true) lit_true
  | vt_num d t : num_text n t d → value_text n (JNum d) t
  | vt_str s t : str_text t s → value_text n (JStr s) (34 :: t ++ [34])
  | vt_empty_array w : white w → value_text n (JArr []) (91 :: w ++ [93])
  | vt_array l w t : white w → elems_text n l t → value_text n (JArr l) (91 :: w ++ t ++ [93])
  | vt_empty_object w : white w → value_text n (JObj []) (123 :: w ++ [125])
  | vt_object l w t : white w → members_text n l t → value_text n (JObj l) (123 :: w ++ t ++ [125])

with elems_text (n : nat) : list json → list Z → Prop :=
  | el_one v t w : value_text n v t → white w → elems_text n [v] (t ++ w)
  | el_more v l t w w' t' :
      value_text n v t → white w → white w' → elems_text n l t' → elems_text n (v :: l) (t ++ w ++ 44 :: w' ++ t')

with members_text (n : nat) : list (list Z * json) → list Z → Prop :=
  | me_one k v kt w1 w2 t w :
      str_text kt k → white w1 → white w2 → value_text n v t → white w →
      members_text n [(k, v)] (34 :: kt ++ 34 :: w1 ++ 58 :: w2 ++ t ++ w)
  | me_more k v l kt w1 w2 t w w' t' :
      str_text kt k → white w1 → white w2 → value_text n v t → white w → white w' → members_text n l t' →
      members_text n ((k, v) :: l) (34 :: kt ++ 34 :: w1 ++ 58 :: w2 ++ t ++ w ++ 44 :: w' ++ t').

Global Arguments nt_intro {n} _ _ _ _ _ _ _ _ _ _ _ _ _.
Global Arguments vt_num {n} _ _ _.
Global Arguments vt_str {n} _ _ _.
Global Arguments vt_array {n} _ _ _ _ _.
Global Arguments vt_object {n} _ _ _ _ _.
Global Arguments el_one {n} _ _ _ _ _.
Global Arguments el_more {n} _ _ _ _ _ _ _ _ _ _.

(** [t] is a JSON text of [v]. *)
Definition json_text (v : json) (t : list Z) : Prop := ∃ n, value_text n v t.

Scheme value_text_mut := Minimality for value_text Sort Prop
  with elems_text_mut := Minimality for elems_text Sort Prop
  with members_text_mut := Minimality for members_text Sort Prop.
Combined Scheme grammar_ind from value_text_mut, elems_text_mut, members_text_mut.

(** ** The buffer at a text *)

Definition at_text (b : parse_buffer) (l : list Z) : Prop := drop (offset b) (content b) = l.

(** The text goes on with something that does not extend a numeral. *)
Definition stops (r : list Z) : Prop := ∃ c r', r = c :: r' ∧ number_char c = false.

Lemma at_text_length b l : at_text b l → l ≠ [] → length (content b) = (offset b + length l)%nat.
Proof.
  intros Hb Hl. assert (length (drop (offset b) (content b)) = length l) as E by (by rewrite Hb).
  rewrite length_drop in E. destruct l; [done|]. simpl in *. lia.
Qed.

Lemma at_text_cons b c l :
  at_text b (c :: l) → content b !! offset b = Some c ∧ can_access_at_index b 0 = true ∧ byte_at_offset b = Ok c.
Proof.
  intros Hb. assert (content b !! offset b = Some c) as Hc.
  { rewrite <-(Nat.add_0_r (offset b)), <-lookup_drop, Hb. done. }
  split_and!; [done| |unfold byte_at_offset, read; by rewrite Hc].
  apply lookup_lt_Some in Hc. unfold can_access_at_index. rewrite Nat.add_0_r. by apply Nat.ltb_lt.
Qed.

Lemma at_text_app b l r n : at_text b (l ++ r) → n = length l → at_text (advance n b) r.
Proof.
  unfold at_text. simpl. intros Hb ->. rewrite <-drop_drop, Hb. apply drop_app_length.
Qed.

Lemma next_is_at b c l d : at_text b (c :: l) → next_is b d = Ok (c =? d).
Proof. intros (_ & Ha & Hb)%at_text_cons. unfold next_is. by rewrite Ha, Hb. Qed.

Lemma starts_with_literal b lit r : at_text b (lit ++ r) → lit ≠ [] → starts_with b lit = true.
Proof.
  intros Hb Hne. unfold starts_with, can_read.
  assert (lit ++ r ≠ []) as Hn by (by destruct lit).
  rewrite (at_text_length b _ Hb Hn), Hb, take_app_length, length_app.
  rewrite bool_decide_eq_true_2, andb_true_r by done. apply Nat.leb_le. lia.
Qed.

Lemma starts_with_other b c l d lit : at_text b (c :: l) → c ≠ d → starts_with b (d :: lit) = false.
Proof.
  intros Hb Hc. unfold starts_with. rewrite Hb. apply andb_false_intro2, bool_decide_eq_false_2. simpl. congruence.
Qed.

Lemma space_run_white w c r : white w → 32 < c → space_run (w ++ c :: r) = length w.
Proof.
  intros Hw Hc. induction Hw as [|x w Hx _ IH]; simpl.
  - by destruct (Z.leb_spec c 32); [lia|].
  - destruct (Z.leb_spec x 32); [by rewrite IH|lia].
Qed.

Lemma skip_white b w c r :
  at_text b (w ++ c :: r) → white w → 32 < c → buffer_skip_whitespace b = advance (length w) b.
Proof.
  intros Hb Hw Hc. unfold buffer_skip_whitespace. cbv zeta. rewrite !Hb, !space_run_white by done.
  rewrite (at_text_length b _ Hb) by (by destruct w). rewrite length_app. cbn [length].
  by rewrite (proj2 (Nat.eqb_neq _ _)) by lia.
Qed.

(** ** String literals *)

Lemma hex4_not_quote a b c d v : hex4_value a b c d = Some v → a ≠ 34 ∧ b ≠ 34 ∧ c ≠ 34 ∧ d ≠ 34.
Proof.
  unfold hex4_value, hex_digit. intros Hv. split_and!; intros ->; revert Hv; cbn; repeat case_match; done.
Qed.

(** Decide the comparisons of characters with the quote and the backslash. *)
Ltac not_special :=
  repeat match goal with
         | H : hex4_value _ _ _ _ = Some _ |- _ =>
             pose proof (hex4_not_quote _ _ _ _ _ H) as (? & ? & ? & ?);
             apply hex4_value_range in H as (? & ? & ? & ? & ?)
         | |- context [?x =? 34] => rewrite (proj2 (Z.eqb_neq x 34)) by done
         | |- context [?x =? 92] => rewrite (proj2 (Z.eqb_neq x 92)) by done
         end.

(** The first pass finds the closing quote and counts the escapes. *)
Lemma scan_text t s r p k :
  str_text t s → scan_string_end (t ++ 34 :: r) p k = Some ((p + length t)%nat, (k + escapes t)%nat).
Proof.
  intros Ht. revert p k.
  induction Ht; intros p k; cbn [app scan_string_end escapes length Z.eqb Pos.eqb];
    not_special; rewrite ?IHHt; f_equal; f_equal; lia.
Qed.

(** The bytes denoted fit the room that the text accounts for. *)
Lemma utf8_form_short cp : (length (utf8_form cp) <= 4)%nat ∧ (cp < 0x10000 → (length (utf8_form cp) <= 3)%nat).
Proof. unfold utf8_form. repeat case_match; simpl; split; lia. Qed.

Lemma str_text_room t s : str_text t s → (length s + escapes t <= length t)%nat.
Proof.
  induction 1 as [| | |a b c d v t s Hv _ _ IH|a b c d a' b' c' d' v w t s Hv Hw _ _ _ IH];
    cbn [escapes length Z.eqb Pos.eqb]; not_special; rewrite ?length_app; try lia.
  - destruct (utf8_form_short v) as [_ Hl]. specialize (Hl ltac:(lia)). lia.
  - destruct (utf8_form_short (0x10000 + (v - 0xD800) * 1024 + (w - 0xDC00))) as [Hl _]. lia.
Qed.

(** Strings are bytes. *)
Lemma utf8_form_bytes cp : 0 <= cp <= 0x10FFFF → Forall is_byte (utf8_form cp).
Proof.
  intros Hcp. unfold utf8_form. repeat case_match; repeat constructor; unfold is_byte;
    Z.to_euclidean_division_equations; lia.
Qed.

Lemma str_text_bytes t s : str_text t s → Forall is_byte s.
Proof.
  induction 1 as [|c t s Hc _ _ _ IH|c x t s Hx _ IH|a b c d v t s Hv _ _ IH
    |a b c d a' b' c' d' v w t s Hv Hw Rv Rw _ IH]; [constructor|constructor; [unfold is_byte; lia|done]|..].
  - constructor; [|done]. revert Hx. unfold simple_escape, is_byte. repeat case_match; intros [= <-]; lia.
  - apply hex4_value_range in Hv as (? & _). apply Forall_app. split; [apply utf8_form_bytes; lia|done].
  - apply Forall_app. split; [apply utf8_form_bytes; lia|done].
Qed.

Lemma members_text_keys l t : members_text 63 l t → Forall (λ m, Forall is_byte m.1) l.
Proof.
  apply (members_text_mut 63 (λ _ _, True) (λ _ _, True) (λ l _, Forall (λ m, Forall is_byte m.1) l)); try done.
  - intros k v kt w1 w2 t0 w Hk. intros. constructor; [by eapply str_text_bytes|constructor].
  - intros k v l0 kt w1 w2 t0 w w' t' Hk. intros. constructor; [by eapply str_text_bytes|done].
Qed.

(** ** One step of the second pass *)

Section unescape.
Variables (text : list Z) (e room : nat).

(** [text] has the bytes [l] at position [p], before [e]. *)
Definition holds_at (p : nat) (l : list Z) : Prop :=
  (p + length l <= e)%nat ∧ ∀ i x, l !! i = Some x → text !! (p + i)%nat = Some x.

Lemma holds_at_0 p c l : holds_at p (c :: l) → text !! p = Some c ∧ (p < e)%nat.
Proof. intros [He Hl]. simpl in He. split; [|lia]. rewrite <-(Nat.add_0_r p). by apply Hl. Qed.

Lemma emit_room out bs : (length out + length bs <= room)%nat → emit room out bs = Ok (out ++ bs).
Proof. intros. unfold emit. by rewrite (proj2 (Nat.leb_le _ _)). Qed.

Lemma unescape_plain fuel p c out :
  holds_at p [c] → c ≠ 92 → (length out + 1 <= room)%nat →
  unescape (S fuel) text e room p out = unescape fuel text e room (S p) (out ++ [c]).
Proof.
  intros [Hc Hp]%holds_at_0 Hb Hr. cbn [unescape]. rewrite (proj2 (Nat.ltb_lt _ _)) by done. unfold read. rewrite Hc.
  cbn [or_fault mbind outcome_bind]. not_special. cbn [negb]. by rewrite emit_room.
Qed.

(** An escape sequence of [n] characters that denotes [bs]. *)
Definition escape_step (p n : nat) (c1 : Z) (bs : list Z) : Prop :=
  (∃ x, simple_escape c1 = Some x ∧ n = 2%nat ∧ bs = [x]) ∨
  (c1 = 117 ∧ n ≠ 0%nat ∧ utf16_literal_to_utf8 text p e = Ok (n, bs)).

Lemma unescape_escape fuel p n c1 bs out :
  holds_at p [92; c1] → escape_step p n c1 bs → (length out + length bs <= room)%nat →
  unescape (S fuel) text e room p out = unescape fuel text e room (p + n) (out ++ bs).
Proof.
  intros Hh Hs Hr. destruct (holds_at_0 _ _ _ Hh) as [H0 Hp].
  assert (text !! S p = Some c1) as H1 by (rewrite <-Nat.add_1_r; by apply Hh).
  cbn [unescape]. rewrite (proj2 (Nat.ltb_lt _ _)) by done. unfold read. rewrite H0, H1.
  cbn [or_fault mbind outcome_bind Z.eqb Pos.eqb negb]. rewrite (proj2 (Nat.ltb_ge _ _)) by lia.
  destruct Hs as [(x & -> & -> & ->)|(-> & Hn & Hu)].
  - by rewrite emit_room.
  - cbn [simple_escape Z.eqb Pos.eqb orb]. rewrite Hu. cbn [mbind outcome_bind].
    rewrite (proj2 (Nat.eqb_neq _ _)) by done. by rewrite emit_room.
Qed.

Lemma holds_at_app p l l' : holds_at p (l ++ l') → holds_at p l.
Proof.
  intros [He Hl]. rewrite length_app in He. split; [lia|]. intros i x Hi. apply Hl. by apply lookup_app_l_Some.
Qed.

Lemma unicode_step p a b c d v l :
  holds_at p (92 :: 117 :: a :: b :: c :: d :: l) → hex4_value a b c d = Some v → ¬ (0xD800 <= v <= 0xDFFF) →
  escape_step p 6 117 (utf8_form v).
Proof.
  intros [He Hl] Hv Hs. right. split_and!; [done..|].
  pose proof (utf16_escape_run text p e a b c d) as Hrun. rewrite Hv in Hrun. simpl in He.
  apply Hrun; first [by apply Hl|lia|done].
Qed.

Lemma pair_step p a b c d a' b' c' d' v w l :
  holds_at p (92 :: 117 :: a :: b :: c :: d :: 92 :: 117 :: a' :: b' :: c' :: d' :: l) →
  hex4_value a b c d = Some v → hex4_value a' b' c' d' = Some w → 0xD800 <= v <= 0xDBFF → 0xDC00 <= w <= 0xDFFF →
  escape_step p 12 117 (utf8_form (0x10000 + (v - 0xD800) * 1024 + (w - 0xDC00))).
Proof.
  intros [He Hl] Hv Hw Rv Rw. right. split_and!; [done..|]. simpl in He.
  apply (utf16_pair_run text p e a b c d a' b' c' d' v w); first [by apply Hl|lia|done].
Qed.

Lemma holds_at_drop p l l' : holds_at p (l ++ l') → holds_at (p + length l) l'.
Proof.
  intros [He Hl]. rewrite length_app in He. split; [lia|]. intros i x Hi. rewrite <-Nat.add_assoc. apply Hl.
  rewrite lookup_app_r by lia. by replace (length l + i - length l)%nat with i by lia.
Qed.

(** The second pass writes the bytes the text denotes. *)
Lemma unescape_text t s p fuel out :
  str_text t s → holds_at p t → (p + length t = e)%nat → (length t < fuel)%nat → (length out + length s <= room)%nat →
  unescape fuel text e room p out = Ok (Some (out ++ s), e).
Proof.
  intros Ht. revert p fuel out.
  induction Ht as [|c t s _ _ Hb _ IH|c x t s Hx _ IH|a b c d v t s Hv Hsur _ IH
    |a b c d a' b' c' d' v w t s Hv Hw Rv Rw _ IH];
    intros p [|fuel] out Hp He Hf Hr; cbn [length] in *; rewrite ?length_app in Hr; try lia.
  - cbn [unescape]. rewrite (proj2 (Nat.ltb_ge _ _)) by lia. rewrite app_nil_r. do 2 f_equal. lia.
  - rewrite (unescape_plain fuel p c) by (done || lia || by apply (holds_at_app p [c] t)).
    rewrite IH; [by rewrite <-app_assoc| |lia|lia|rewrite length_app; simpl; lia].
    rewrite <-Nat.add_1_r. by apply (holds_at_drop p [c]).
  - rewrite (unescape_escape fuel p 2 c [x]); [|by apply (holds_at_app p [92; c] t)|left; eauto|simpl; lia].
    rewrite IH; [by rewrite <-app_assoc| |lia|lia|rewrite length_app; simpl; lia]. by apply (holds_at_drop p [92; c]).
  - rewrite (unescape_escape fuel p 6 117 (utf8_form v));
      [|by apply (holds_at_app p [92; 117] (a :: b :: c :: d :: t))|by eapply unicode_step|lia].
    rewrite IH; [by rewrite <-app_assoc| |lia|lia|rewrite length_app; lia].
    by apply (holds_at_drop p [92; 117; a; b; c; d]).
  - rewrite (unescape_escape fuel p 12 117 (utf8_form (0x10000 + (v - 0xD800) * 1024 + (w - 0xDC00))));
      [|by apply (holds_at_app p [92; 117] (a :: b :: c :: d :: 92 :: 117 :: a' :: b' :: c' :: d' :: t))
       |by eapply pair_step|lia].
    rewrite IH; [by rewrite <-app_assoc| |lia|lia|rewrite length_app; lia].
    by apply (holds_at_drop p [92; 117; a; b; c; d; 92; 117; a'; b'; c'; d']).
Qed.
End unescape.

(** The buffer [n] characters further, with another heap. *)
Definition moved (b : parse_buffer) (n : nat) (h : heap) : parse_buffer :=
  ParseBuffer (content b) (offset b + n) (depth b) h.

Lemma moved_at b l r n h : at_text b (l ++ r) → n = length l → at_text (moved b n h) r.
Proof. intros Hb Hn. exact (at_text_app b l r n Hb Hn). Qed.

(** ** Numerals *)

Lemma number_c_string_text t r n :
  Forall (λ c, number_char c = true) t → (length t <= n)%nat → stops r → number_c_string n (t ++ r) = t.
Proof.
  intros Ht Hn (c & r' & -> & Hc). revert n Hn. induction Ht as [|x t Hx _ IH]; intros [|n] Hn; simpl in *; try lia.
  - done.
  - by rewrite Hc.
  - rewrite Hx. f_equal. apply IH. lia.
Qed.

Lemma span_digits_stop ds r :
  digits ds → (∀ c r', r = c :: r' → is_digit c = false) → span_digits (ds ++ r) = (ds, r).
Proof.
  intros Hds Hr. induction Hds as [|d ds Hd _ IH]; simpl.
  - destruct r as [|c r]; [done|]. simpl. by rewrite (Hr c r eq_refl).
  - by rewrite Hd, IH.
Qed.

Lemma digits_number ds : digits ds → Forall (λ c, number_char c = true) ds.
Proof. intros Hd. eapply Forall_impl; [exact Hd|]. simpl. apply digit_number_char. Qed.

Lemma exp_text_scan xt x : exp_text xt x → scan_exponent xt = (x, []) ∧ Forall (λ c, number_char c = true) xt ∧
  (∀ c r, xt = c :: r → c = 101 ∨ c = 69).
Proof.
  assert (∀ ds, digits ds → span_digits ds = (ds, [])) as Hspan.
  { intros ds Hds. rewrite <-(app_nil_r ds) at 1. by apply span_digits_stop. }
  assert (∀ ds, digits ds → ds ≠ [] → scan_sign ds = (false, ds)) as Hsign.
  { intros [|d ds] Hds Hne; [done|]. apply Forall_inv, is_digit_spec in Hds. cbn.
    destruct (Z.eqb_spec d 45), (Z.eqb_spec d 43); lia || done. }
  assert (∀ c, c = 101 ∨ c = 69 → ((c =? 101) || (c =? 69)) = true ∧ number_char c = true) as He by (by intros c [-> | ->]).
  intros [|c ds Hc Hd Hn|c ds Hc Hd Hn|c ds Hc Hd Hn]; [done|..]; destruct (He c Hc) as [Hc1 Hc2];
    (split_and!; [|repeat (constructor; [done|]); by apply digits_number|by intros ?? [= <- <-]]); cbn [scan_exponent]; rewrite Hc1.
  - rewrite Hsign, Hspan by done. by destruct ds.
  - cbn [scan_sign Z.eqb Pos.eqb]. rewrite Hspan by done. by destruct ds.
  - cbn [scan_sign Z.eqb Pos.eqb]. rewrite Hspan by done. by destruct ds.
Qed.

Lemma frac_text_scan ft fp xt :
  frac_text ft fp → (∀ c r, xt = c :: r → c = 101 ∨ c = 69) →
  scan_fraction (ft ++ xt) = (fp, xt) ∧ Forall (λ c, number_char c = true) ft ∧
  (∀ c r, ft ++ xt = c :: r → is_digit c = false).
Proof.
  intros [[-> ->]|[-> Hd]] Hx; (split_and!; [| |]).
  - destruct xt as [|c xt]; [done|]. cbn. by destruct (Hx c xt eq_refl) as [-> | ->].
  - done.
  - intros c r E. by destruct (Hx c r E) as [-> | ->].
  - cbn [app scan_fraction Z.eqb Pos.eqb]. apply span_digits_stop; [done|]. intros c r E.
    by destruct (Hx c r E) as [-> | ->].
  - constructor; [done|]. by apply digits_number.
  - by intros c r [= <- <-].
Qed.

Lemma sign_text_scan sg neg ip r :
  sign_text sg neg → digits ip → ip ≠ [] →
  scan_sign (sg ++ ip ++ r) = (neg, ip ++ r) ∧ Forall (λ c, number_char c = true) sg.
Proof.
  intros [[-> ->]|[-> ->]] Hd Hn; (split; [|by repeat constructor]); [|done].
  destruct ip as [|d ip]; [done|]. apply Forall_inv, is_digit_spec in Hd. cbn.
  destruct (Z.eqb_spec d 45), (Z.eqb_spec d 43); lia || done.
Qed.

Lemma num_text_strtod t d :
  num_text 63 t d → strtod t = Some (d, length t) ∧ Forall (λ c, number_char c = true) t ∧ (length t <= 63)%nat.
Proof.
  intros [sg neg ip ft fp xt x Hsg Hip Hne Hft Hxt Hlen].
  destruct (exp_text_scan _ _ Hxt) as (Hx & Hxn & Hxh). destruct (frac_text_scan _ _ xt Hft Hxh) as (Hf & Hfn & Hfh).
  destruct (sign_text_scan sg neg ip (ft ++ xt) Hsg Hip Hne) as [Hs Hsn]. split_and!; [|by rewrite !Forall_app; auto using digits_number|done].
  unfold strtod. rewrite Hs, (span_digits_stop ip _ Hip Hfh), Hf. destruct (ip ++ fp) eqn:E; [by destruct ip|].
  rewrite <-E, Hx. simpl. by rewrite Nat.sub_0_r.
Qed.

(** A numeral starts with a digit or a minus sign. *)
Lemma num_text_head t d : num_text 63 t d → ∃ c t', t = c :: t' ∧ (c = 45 ∨ is_digit c = true).
Proof.
  intros [sg neg ip ft fp xt x [[-> _]|[-> _]] Hip Hne _ _ _]; [|by eexists _, _; split; [|left]].
  destruct ip as [|c ip]; [done|]. eexists _, _. split; [done|right]. by apply Forall_inv in Hip.
Qed.

Lemma parse_number_text item b t d r :
  num_text 63 t d → at_text b (t ++ r) → stops r →
  parse_number item b = (Some (set_number item d), moved b (length t) (bheap b)).
Proof.
  intros (Hs & Hn & Hl)%num_text_strtod Hb Hr. unfold parse_number. rewrite Hb.
  by rewrite (number_c_string_text t r 63 Hn Hl Hr), Hs.
Qed.

(** ** The parser on texts of values *)

Section accept.
Variable may_allocate : nat → Z → bool.
Hypothesis enough_memory : ∀ n size, may_allocate n size = true.

Lemma parse_string_text item b t s r :
  str_text t s → at_text b (34 :: t ++ 34 :: r) →
  ∃ a h, parse_string may_allocate item b =
    Ok (Some (set_string item cJSON_String (Some (CStr a s))), moved b (length t + 2) h).
Proof using enough_memory.
  intros Ht Hb. destruct (at_text_cons _ _ _ Hb) as (_ & _ & Hbyte).
  pose proof (at_text_length _ _ Hb ltac:(done)) as Hlen. cbn [length] in Hlen. rewrite length_app in Hlen. cbn [length] in Hlen.
  pose proof (at_text_app b [34] _ 1 Hb eq_refl) as Hb1. unfold at_text in Hb1. cbn in Hb1. rewrite Nat.add_1_r in Hb1.
  unfold parse_string. rewrite Hbyte. cbn [mbind outcome_bind Z.eqb Pos.eqb negb]. rewrite Hb1, (scan_text t s r _ _ Ht).
  unfold allocate. rewrite enough_memory. pose proof (str_text_room t s Ht) as Hroom. cbn [Nat.add].
  rewrite (unescape_text _ _ _ t s) ; [|done| |lia|lia|simpl; lia].
  - cbn [mbind outcome_bind app]. rewrite emit_room by (simpl; lia). cbn [mbind outcome_bind]. do 2 eexists.
    unfold moved, set_offset. cbn. do 2 f_equal. f_equal. lia.
  - split; [lia|]. intros i x Hi. rewrite <-lookup_drop, Hb1. by apply lookup_app_l_Some.
Qed.

(** What [parse_value] does on a text of [v]. *)
Definition value_run (v : json) (t : list Z) : Prop :=
  ∀ fuel item b r, at_text b (t ++ r) → stops r → depth b + Z.of_nat (json_depth v) <= CJSON_NESTING_LIMIT →
    (3 * length t <= fuel)%nat →
    ∃ j h, parse_value may_allocate fuel item b = Ok (Some j, moved b (length t) h) ∧
      contents_of j = Some v ∧ item_string j = item_string item.

(** What the loops do from the character before white space and elements. *)
Definition elems_run (l : list json) (t : list Z) : Prop :=
  ∀ fuel head b x w r, at_text b (x :: w ++ t ++ 93 :: r) → white w →
    depth b + Z.of_nat (depth_elems l) <= CJSON_NESTING_LIMIT → (3 * length t < fuel)%nat →
    ∃ js h, array_loop may_allocate fuel head b = Ok (true, head ++ js, moved b (S (length w + length t)) h) ∧
      mapM contents_of js = Some l.

Definition members_run (l : list (list Z * json)) (t : list Z) : Prop :=
  ∀ fuel head b x w r, at_text b (x :: w ++ t ++ 125 :: r) → white w →
    depth b + Z.of_nat (depth_members l) <= CJSON_NESTING_LIMIT → (3 * length t < fuel)%nat →
    ∃ js h, object_loop may_allocate fuel head b = Ok (true, head ++ js, moved b (S (length w + length t)) h) ∧
      mapM member_of js = Some l.

(** Characters at which a value starts. *)
Definition value_head (c : Z) : Prop := 32 < c ∧ c ≠ 93 ∧ c ≠ 125 ∧ c < 128.

Lemma value_text_head v t : value_text 63 v t → ∃ c t', t = c :: t' ∧ value_head c.
Proof.
  intros Hv. destruct Hv as [| | |d t Hn|s t _|w _|l w t _ _|w _|l w t _ _].
  4: { destruct (num_text_head _ _ Hn) as (c & t' & -> & Hc). eexists _, _. split; [done|].
    destruct Hc as [-> |Hc%is_digit_spec]; unfold value_head; lia. }
  1-3: by eexists _, _; split; [vm_compute; reflexivity|].
  all: by eexists _, _.
Qed.

Lemma elems_text_head l t : elems_text 63 l t → ∃ c t', t = c :: t' ∧ value_head c.
Proof.
  intros [v t0 w Hv _|v l0 t0 w w' t' Hv _ _ _]; destruct (value_text_head _ _ Hv) as (c & t1 & -> & Hc); by eexists _, _.
Qed.

Lemma members_text_head l t : members_text 63 l t → ∃ t', t = 34 :: t'.
Proof. intros []; by eexists. Qed.

(** White space before a value is skipped. *)
Lemma skip_to_value b w c l :
  at_text b (w ++ c :: l) → white w → 32 < c →
  buffer_skip_whitespace b = moved b (length w) (bheap b) ∧ at_text (moved b (length w) (bheap b)) (c :: l).
Proof. intros Hb Hw Hc. split; [by apply (skip_white b w c l)|by eapply moved_at]. Qed.

(** None of the three literals starts at another character. *)
Lemma not_literal b c l :
  at_text b (c :: l) → c ≠ 110 → c ≠ 102 → c ≠ 116 →
  starts_with b lit_null = false ∧ starts_with b lit_false = false ∧ starts_with b lit_true = false.
Proof. intros Hb H1 H2 H3. split_and!; by eapply starts_with_other. Qed.

Lemma value_run_null : value_run JNull lit_null.
Proof.
  intros fuel item b r Hb _ _ Hf. destruct fuel as [|fuel]; [simpl in Hf; lia|]. cbn [parse_value].
  rewrite (starts_with_literal b lit_null r Hb) by done. by do 2 eexists.
Qed.

Lemma value_run_false : value_run (JBool false) lit_false.
Proof.
  intros fuel item b r Hb _ _ Hf. destruct fuel as [|fuel]; [simpl in Hf; lia|]. cbn [parse_value].
  assert (starts_with b lit_null = false) as -> by (by eapply (starts_with_other b 102); [exact Hb|]).
  rewrite (starts_with_literal b lit_false r Hb) by done. by do 2 eexists.
Qed.

Lemma value_run_true : value_run (JBool true) lit_true.
Proof.
  intros fuel item b r Hb _ _ Hf. destruct fuel as [|fuel]; [simpl in Hf; lia|]. cbn [parse_value].
  assert (starts_with b lit_null = false) as -> by (by eapply (starts_with_other b 116); [exact Hb|]).
  assert (starts_with b lit_false = false) as -> by (by eapply (starts_with_other b 116); [exact Hb|]).
  rewrite (starts_with_literal b lit_true r Hb) by done. by do 2 eexists.
Qed.

Lemma value_run_num d t : num_text 63 t d → value_run (JNum d) t.
Proof.
  intros Ht fuel item b r Hb Hr _ Hf. destruct (num_text_head _ _ Ht) as (c & t' & E & Hc).
  destruct fuel as [|fuel]; [rewrite E in Hf; simpl in Hf; lia|]. cbn [parse_value].
  assert (at_text b (c :: t' ++ r)) as Hbc by (by rewrite E in Hb).
  assert (c ≠ 34 ∧ c ≠ 110 ∧ c ≠ 102 ∧ c ≠ 116 ∧ ((c =? 45) || ((48 <=? c) && (c <=? 57))) = true) as (? & ? & ? & ? & Hnum).
  { destruct Hc as [-> |Hc]; [done|]. pose proof (proj1 (is_digit_spec c) Hc). unfold is_digit in Hc. rewrite Hc, orb_true_r. lia. }
  destruct (not_literal b c _ Hbc) as (-> & -> & ->); [done..|]. destruct (at_text_cons _ _ _ Hbc) as (_ & -> & ->).
  cbn [mbind outcome_bind]. rewrite (proj2 (Z.eqb_neq c 34)), Hnum by done.
  rewrite (parse_number_text item b t d r Ht Hb Hr). do 2 eexists. split; [done|]. cbn. by rewrite Z.eqb_refl.
Qed.

Lemma value_run_str s t : str_text t s → value_run (JStr s) (34 :: t ++ [34]).
Proof using enough_memory.
  intros Ht fuel item b r Hb Hr _ Hf. destruct fuel as [|fuel]; [simpl in Hf; lia|]. cbn [parse_value].
  cbn [app] in Hb. rewrite <-app_assoc in Hb. cbn [app] in Hb.
  destruct (not_literal b 34 _ Hb) as (-> & -> & ->); [done..|]. destruct (at_text_cons _ _ _ Hb) as (_ & -> & ->).
  cbn [mbind outcome_bind Z.eqb Pos.eqb]. destruct (parse_string_text item b t s r Ht Hb) as (a & h & ->).
  replace (length (34 :: t ++ [34])) with (length t + 2)%nat by (cbn [length]; rewrite length_app; cbn [length]; lia).
  by do 2 eexists.
Qed.

(** ** Arrays and objects *)

Lemma contents_of_object_inv j l : contents_of j = Some (JObj l) → mapM member_of (child j) = Some l.
Proof. destruct j as [a ty vs vi vd sn ch]. unfold member_of. cbn. intros. repeat case_match; by simplify_option_eq. Qed.

Lemma contents_of_string_inv j s : contents_of j = Some (JStr s) → ∃ a, valuestring j = Some (CStr a s).
Proof.
  destruct j as [a ty [[a' s']|] vi vd sn ch]; cbn; intros; repeat case_match; simplify_option_eq; try done. by exists a'.
Qed.

Lemma contents_of_number_inv j d : contents_of j = Some (JNum d) → valueint j = saturate_int d.
Proof.
  destruct j as [a ty vs vi vd sn ch]. cbn. intros. repeat case_match; simplify_option_eq; try done. by apply Z.eqb_eq.
Qed.

Lemma contents_of_array j l : type j = cJSON_Array → mapM contents_of (child j) = Some l → contents_of j = Some (JArr l).
Proof. destruct j. cbn. intros -> E. cbn. by rewrite E. Qed.

Lemma contents_of_object j l : type j = cJSON_Object → mapM member_of (child j) = Some l → contents_of j = Some (JObj l).
Proof. destruct j. cbn. intros -> E. unfold member_of in E. cbn. by rewrite E. Qed.

(** After the opening bracket: white space is skipped to the character [c]. *)
Lemma open_skip b o w c l :
  at_text b (o :: w ++ c :: l) → white w → 32 < c →
  let b1 := set_depth (depth b + 1) b in
  let b2 := ParseBuffer (content b) (offset b + S (length w)) (depth b + 1) (bheap b) in
  byte_at_offset b1 = Ok o ∧ next_is b1 o = Ok true ∧ buffer_skip_whitespace (advance 1 b1) = b2 ∧ at_text b2 (c :: l).
Proof.
  intros Hb Hw Hc b1 b2. assert (at_text b1 (o :: w ++ c :: l)) as Hb1 by exact Hb.
  pose proof (at_text_app b1 [o] _ 1 Hb1 eq_refl) as Ha.
  destruct (at_text_cons _ _ _ Hb1) as (_ & _ & Hbyte). rewrite (next_is_at _ _ _ o Hb1), Z.eqb_refl.
  destruct (skip_to_value _ w c l Ha Hw Hc) as [-> Hat].
  assert (moved (advance 1 b1) (length w) (bheap (advance 1 b1)) = b2) as E.
  { unfold moved, b2. cbn. f_equal. lia. }
  rewrite E in *. by split_and!.
Qed.

(** One character back from there. *)
Lemma open_back b o w l :
  at_text b (o :: w ++ l) →
  ∃ x, at_text (step_back (ParseBuffer (content b) (offset b + S (length w)) (depth b + 1) (bheap b))) (x :: l).
Proof.
  intros Hb. destruct (lookup_lt_is_Some_2 (o :: w) (length w)) as [x Hx]; [simpl; lia|]. exists x.
  unfold at_text, step_back. cbn [set_offset offset content]. rewrite Nat.add_succ_r. cbn [pred].
  rewrite <-drop_drop, Hb, app_comm_cons, drop_app_le by (simpl; lia).
  rewrite (drop_S (o :: w) x) by done. by rewrite drop_ge by (simpl; lia).
Qed.

Lemma parse_value_open o l b fuel item :
  o = 91 ∨ o = 123 → at_text b (o :: l) →
  parse_value may_allocate (S fuel) item b =
    if o =? 91 then parse_array may_allocate fuel item b else parse_object may_allocate fuel item b.
Proof.
  intros Ho Hb. cbn [parse_value].
  destruct (not_literal b o _ Hb) as (-> & -> & ->); [lia..|]. destruct (at_text_cons _ _ _ Hb) as (_ & -> & ->).
  cbn [mbind outcome_bind]. by destruct Ho as [-> | ->].
Qed.

Lemma can_access_at b c l : at_text b (c :: l) → can_access_at_index b 0 = true.
Proof. by intros (_ & Ha & _)%at_text_cons. Qed.

(** Both container parsers on an empty pair of brackets. *)
Lemma value_run_empty o cl v ty w :
  (o, cl, v, ty) = (91, 93, JArr [], cJSON_Array) ∨ (o, cl, v, ty) = (123, 125, JObj [], cJSON_Object) →
  white w → value_run v (o :: w ++ [cl]).
Proof.
  intros Hcase Hw fuel item b r Hb _ Hd Hf. cbn [length] in Hf. rewrite length_app in Hf. cbn [length] in Hf.
  destruct fuel as [|[|fuel]]; [lia..|]. cbn [app] in Hb. rewrite <-app_assoc in Hb. cbn [app] in Hb.
  rewrite (parse_value_open o _ b _ item) by (done || naive_solver).
  assert (32 < cl) as Hcl by (destruct Hcase; simplify_eq; lia).
  destruct (open_skip b o w cl r Hb Hw Hcl) as (Hbyte & Hnext & Hskip & Hat).
  assert (json_depth v = 1%nat) as Hv by (by destruct Hcase; simplify_eq). rewrite Hv in Hd.
  assert (CJSON_NESTING_LIMIT <=? depth b = false) as Hlim by (apply Z.leb_gt; lia).
  exists (set_children item ty []), (bheap b). split; [|by destruct Hcase; simplify_eq].
  replace (length (o :: w ++ [cl])) with (S (length w) + 1)%nat by (cbn [length]; rewrite length_app; cbn [length]; lia).
  assert (advance 1 (set_depth (depth b + 1 - 1) (ParseBuffer (content b) (offset b + S (length w)) (depth b + 1) (bheap b)))
    = moved b (S (length w) + 1) (bheap b)) as E.
  { unfold moved, advance, set_offset, set_depth. cbn. f_equal; lia. }
  destruct Hcase; simplify_eq; cbn [Z.eqb Pos.eqb parse_array parse_object];
    rewrite Hlim, ?Hbyte, ?Hnext; cbn [mbind outcome_bind Z.eqb Pos.eqb negb];
    rewrite Hskip, (next_is_at _ _ _ _ Hat); cbn [mbind outcome_bind Z.eqb Pos.eqb finish depth]; by rewrite E.
Qed.

(** Both container parsers when the loop accepts the elements. *)
Lemma value_run_filled o cl v ty w t :
  (∃ l, (o, cl, v, ty) = (91, 93, JArr l, cJSON_Array) ∧ elems_run l t ∧ elems_text 63 l t) ∨
  (∃ l, (o, cl, v, ty) = (123, 125, JObj l, cJSON_Object) ∧ members_run l t ∧ members_text 63 l t) →
  white w → value_run v (o :: w ++ t ++ [cl]).
Proof.
  intros Hcase Hw fuel item b r Hb _ Hd Hf. cbn [length] in Hf. rewrite !length_app in Hf. cbn [length] in Hf.
  destruct fuel as [|[|fuel]]; [lia..|]. cbn [app] in Hb. rewrite <-!app_assoc in Hb. cbn [app] in Hb.
  assert (∃ c t', t = c :: t' ∧ 32 < c ∧ c ≠ cl) as (c & t' & Et & Hc & Hne).
  { destruct Hcase as [(l & ? & _ & Ht)|(l & ? & _ & Ht)]; simplify_eq.
    - destruct (elems_text_head _ _ Ht) as (c & t' & -> & ? & ? & ? & _). by exists c, t'.
    - destruct (members_text_head _ _ Ht) as (t' & ->). by exists 34, t'. }
  rewrite (parse_value_open o _ b _ item) by (done || naive_solver).
  destruct (open_back b o w (t ++ cl :: r) Hb) as (x & Hback). rewrite Et in Hb.
  destruct (open_skip b o w c (t' ++ cl :: r) Hb Hw Hc) as (Hbyte & Hnext & Hskip & Hat).
  set (b2 := ParseBuffer (content b) (offset b + S (length w)) (depth b + 1) (bheap b)) in *.
  assert (∃ js h, (if o =? 91 then array_loop may_allocate fuel [] (step_back b2) else object_loop may_allocate fuel [] (step_back b2))
      = Ok (true, js, moved (step_back b2) (S (length t)) h) ∧ contents_of (set_children item ty js) = Some v)
    as (js & h & Hloop & Hval).
  { destruct Hcase as [(l & [= -> -> -> ->] & Hrun & _)|(l & [= -> -> -> ->] & Hrun & _)];
      (destruct (Hrun fuel [] (step_back b2) x [] r Hback) as (js & h & E & Hm); [constructor|cbn in Hd |- *|lia|]);
      [unfold depth_elems; lia| |unfold depth_members; lia|];
      (exists js, h; split; [exact E|]); [by apply contents_of_array|by apply contents_of_object]. }
  exists (set_children item ty js), h. split; [|by split].
  replace (length (o :: w ++ t ++ [cl])) with (S (length w) + length t + 1)%nat
    by (cbn [length]; rewrite !length_app; cbn [length]; lia).
  assert (advance 1 (set_depth (depth b + 1 - 1) (moved (step_back b2) (S (length t)) h))
    = moved b (S (length w) + length t + 1) h) as E.
  { unfold moved, advance, set_offset, set_depth, step_back, b2. cbn. f_equal; lia. }
  assert (CJSON_NESTING_LIMIT <=? depth b = false) as Hlim.
  { apply Z.leb_gt. destruct Hcase as [(l & [= -> -> -> ->] & _)|(l & [= -> -> -> ->] & _)]; cbn in Hd; lia. }
  destruct Hcase as [(l & [= -> -> -> ->] & _)|(l & [= -> -> -> ->] & _)]; cbn [Z.eqb Pos.eqb] in Hloop |- *;
    cbn [parse_array parse_object]; rewrite Hlim, ?Hbyte, ?Hnext; cbn [mbind outcome_bind Z.eqb Pos.eqb negb];
    rewrite Hskip, (next_is_at _ _ _ _ Hat), (can_access_at _ _ _ Hat); cbn [mbind outcome_bind];
    rewrite (proj2 (Z.eqb_neq c _)) by done; cbn [negb]; rewrite Hloop; cbn [mbind outcome_bind finish];
    unfold moved at 1; cbn [depth]; by rewrite <-E.
Qed.

(** ** The loops *)

Lemma stops_white w c r : white w → number_char c = false → stops (w ++ c :: r).
Proof.
  intros Hw Hc. destruct Hw as [|x w Hx _]; [by eexists _, _|]. eexists _, _. split; [done|].
  unfold number_char, is_digit.
  repeat match goal with |- context [x =? ?n] => rewrite (proj2 (Z.eqb_neq x n)) by lia end.
  by rewrite (proj2 (Z.leb_gt 48 x)) by lia.
Qed.

Lemma new_item_enough h : ∃ a h', cJSON_New_Item may_allocate h = (Some (CJSON a cJSON_Invalid None 0 (S754_zero false) None []), h').
Proof using enough_memory. unfold cJSON_New_Item, allocate. rewrite enough_memory. by do 2 eexists. Qed.

(** White space, a value, white space: from [b] to the character [c] after
    them. *)
Lemma value_padded v t w0 w c r b fuel item :
  value_text 63 v t → value_run v t → at_text b (w0 ++ t ++ w ++ c :: r) → white w0 → white w →
  (c = 44 ∨ c = 93 ∨ c = 125) → depth b + Z.of_nat (json_depth v) <= CJSON_NESTING_LIMIT → (3 * length t <= fuel)%nat →
  ∃ j h b1, parse_value may_allocate fuel item (buffer_skip_whitespace b) = Ok (Some j, b1) ∧
    buffer_skip_whitespace b1 = moved b (length w0 + length t + length w) h ∧
    at_text (moved b (length w0 + length t + length w) h) (c :: r) ∧
    contents_of j = Some v ∧ item_string j = item_string item.
Proof.
  intros Ht Hrun Hb Hw0 Hw Hc Hd Hf. destruct (value_text_head _ _ Ht) as (x & t' & Et & Hx & _).
  assert (at_text b (w0 ++ x :: (t' ++ w ++ c :: r))) as Hb' by (by rewrite Et in Hb).
  destruct (skip_to_value b w0 x _ Hb' Hw0 Hx) as [-> Hat].
  assert (number_char c = false) as Hn by (by destruct Hc as [-> |[-> | ->]]).
  destruct (Hrun fuel item (moved b (length w0) (bheap b)) (w ++ c :: r)) as (j & h & Hp & Hv & Hs);
    [by rewrite Et|by apply stops_white|done|done|].
  assert (at_text (moved (moved b (length w0) (bheap b)) (length t) h) (w ++ c :: r)) as Hat2.
  { apply (moved_at _ t _ _ h); [|done]. by rewrite Et. }
  destruct (skip_to_value _ w c r Hat2 Hw ltac:(lia)) as [Hskip Hat3].
  assert (moved (moved (moved b (length w0) (bheap b)) (length t) h) (length w) h
    = moved b (length w0 + length t + length w) h) as E by (unfold moved; cbn; f_equal; lia).
  cbn [bheap moved] in Hskip, Hat3. rewrite E in *. by exists j, h, (moved (moved b (length w0) (bheap b)) (length t) h).
Qed.

(** One iteration of the array loop. *)
Lemma array_loop_elem fuel head b x w0 v t w c r :
  value_text 63 v t → value_run v t → at_text b (x :: w0 ++ t ++ w ++ c :: r) → white w0 → white w → (c = 44 ∨ c = 93) →
  depth b + Z.of_nat (json_depth v) <= CJSON_NESTING_LIMIT → (3 * length t <= fuel)%nat →
  ∃ j h, let b' := moved b (S (length w0 + length t + length w)) h in
    at_text b' (c :: r) ∧ contents_of j = Some v ∧
    array_loop may_allocate (S fuel) head b =
      if c =? 44 then array_loop may_allocate fuel (head ++ [j]) b' else Ok (true, head ++ [j], b').
Proof using enough_memory.
  intros Ht Hrun Hb Hw0 Hw Hc Hd Hf. cbn [array_loop]. destruct (new_item_enough (bheap b)) as (a & h0 & ->).
  assert (at_text (advance 1 (set_heap h0 b)) (w0 ++ t ++ w ++ c :: r)) as Hb1 by (by apply (at_text_app (set_heap h0 b) [x])).
  destruct (value_padded v t w0 w c r _ fuel (CJSON a cJSON_Invalid None 0 (S754_zero false) None []) Ht Hrun Hb1 Hw0 Hw)
    as (j & h & b1 & -> & Hskip & Hat & Hv & _); [naive_solver|done|done|].
  assert (moved (advance 1 (set_heap h0 b)) (length w0 + length t + length w) h
    = moved b (S (length w0 + length t + length w)) h) as E by (unfold moved; cbn; f_equal; lia).
  rewrite E in *. exists j, h. cbn [mbind outcome_bind]. rewrite Hskip, !(next_is_at _ _ _ _ Hat).
  cbn [mbind outcome_bind]. split_and!; [done..|]. by destruct Hc as [-> | ->].
Qed.

Lemma elems_run_one v t w : value_text 63 v t → value_run v t → white w → elems_run [v] (t ++ w).
Proof using enough_memory.
  intros Ht Hrun Hw fuel head b x w0 r Hb Hw0 Hd Hf. rewrite length_app in *. cbn in Hd.
  destruct fuel as [|fuel]; [lia|]. rewrite <-app_assoc in Hb.
  destruct (array_loop_elem fuel head b x w0 v t w 93 r) as (j & h & _ & Hv & ->); auto; [lia..|].
  exists [j], h. cbn [Z.eqb Pos.eqb]. rewrite Nat.add_assoc. split; [done|]. cbn. by rewrite Hv.
Qed.

Lemma elems_run_more v l t w w' t' :
  value_text 63 v t → value_run v t → white w → white w' → elems_run l t' → elems_run (v :: l) (t ++ w ++ 44 :: w' ++ t').
Proof using enough_memory.
  intros Ht Hrun Hw Hw' Hl fuel head b x w0 r Hb Hw0 Hd Hf.
  repeat first [rewrite length_app in Hf|progress cbn [length] in Hf]. cbn [depth_elems foldr] in Hd. fold (depth_elems l) in Hd.
  destruct fuel as [|fuel]; [lia|]. repeat first [rewrite <-app_assoc in Hb|progress cbn [app] in Hb].
  destruct (array_loop_elem fuel head b x w0 v t w 44 (w' ++ t' ++ 93 :: r)) as (j & h & Hat & Hv & ->); auto; [lia..|].
  cbn [Z.eqb Pos.eqb].
  destruct (Hl fuel (head ++ [j]) _ 44 w' r Hat Hw') as (js & h' & -> & Hjs); [cbn; lia|lia|].
  exists (j :: js), h'. split; [|by cbn; rewrite Hv; cbn; rewrite Hjs].
  rewrite <-app_assoc. cbn [app]. do 2 f_equal. unfold moved. cbn [content offset depth]. f_equal.
  repeat first [rewrite length_app|progress cbn [length]]. lia.
Qed.

(** The name of a member and its colon: from before white space to the
    character after the colon. *)
Lemma name_padded k kt w0 w1 l b item :
  str_text kt k → white w0 → white w1 → at_text b (w0 ++ 34 :: kt ++ 34 :: w1 ++ 58 :: l) →
  ∃ a h b1, parse_string may_allocate item (buffer_skip_whitespace b) =
      Ok (Some (set_string item cJSON_String (Some (CStr a k))), b1) ∧
    let b2 := moved b (length w0 + (length kt + 2) + length w1) h in
    buffer_skip_whitespace b1 = b2 ∧ next_is b2 58 = Ok true ∧ at_text (advance 1 b2) l.
Proof using enough_memory.
  intros Hk Hw0 Hw1 Hb. destruct (skip_to_value b w0 34 _ Hb Hw0 ltac:(lia)) as [-> Hat].
  destruct (parse_string_text item _ kt k _ Hk Hat) as (a & h & ->).
  assert (at_text (moved (moved b (length w0) (bheap b)) (length kt + 2) h) (w1 ++ 58 :: l)) as Hat1.
  { apply (moved_at _ (34 :: kt ++ [34])); [|cbn [length]; rewrite length_app; cbn [length]; lia].
    cbn [app]. by rewrite <-app_assoc. }
  destruct (skip_to_value _ w1 58 l Hat1 Hw1 ltac:(lia)) as [Hskip Hat2].
  assert (moved (moved (moved b (length w0) (bheap b)) (length kt + 2) h) (length w1) h
    = moved b (length w0 + (length kt + 2) + length w1) h) as E by (unfold moved; cbn; f_equal; lia).
  cbn [bheap moved] in Hskip, Hat2. rewrite E in *. exists a, h, (moved (moved b (length w0) (bheap b)) (length kt + 2) h).
  split; [done|]. cbv zeta. split_and!; [exact Hskip|by rewrite (next_is_at _ _ _ _ Hat2)|by apply (at_text_app _ [58])].
Qed.

(** One iteration of the object loop. *)
Lemma object_loop_elem fuel head b x w0 k kt w1 w2 v t w c r :
  str_text kt k → white w1 → white w2 → value_text 63 v t → value_run v t →
  at_text b (x :: w0 ++ 34 :: kt ++ 34 :: w1 ++ 58 :: w2 ++ t ++ w ++ c :: r) → white w0 → white w → (c = 44 ∨ c = 125) →
  depth b + Z.of_nat (json_depth v) <= CJSON_NESTING_LIMIT → (3 * length t <= fuel)%nat →
  ∃ j h, let b' := moved b (length w0 + length kt + length w1 + length w2 + length t + length w + 4) h in
    at_text b' (c :: r) ∧ member_of j = Some (k, v) ∧
    object_loop may_allocate (S fuel) head b =
      if c =? 44 then object_loop may_allocate fuel (head ++ [j]) b' else Ok (true, head ++ [j], b').
Proof using enough_memory.
  intros Hk Hw1 Hw2 Ht Hrun Hb Hw0 Hw Hc Hd Hf. cbn [object_loop]. destruct (new_item_enough (bheap b)) as (a0 & h0 & ->).
  set (item := CJSON a0 cJSON_Invalid None 0 (S754_zero false) None []).
  assert (at_text (advance 1 (set_heap h0 b)) (w0 ++ 34 :: kt ++ 34 :: w1 ++ 58 :: w2 ++ t ++ w ++ c :: r)) as Hb1
    by (by apply (at_text_app (set_heap h0 b) [x])).
  destruct (name_padded k kt w0 w1 _ _ item Hk Hw0 Hw1 Hb1) as (a & h1 & b1 & -> & Hs1 & Hcolon & Hb2).
  cbn [mbind outcome_bind]. rewrite Hs1, Hcolon. cbn [mbind outcome_bind negb].
  destruct (value_padded v t w2 w c r _ fuel (swap_name (set_string item cJSON_String (Some (CStr a k)))) Ht Hrun Hb2 Hw2 Hw)
    as (j & h & b3 & -> & Hskip & Hat & Hv & Hname); [naive_solver|done|done|].
  match type of Hat with at_text ?b' _ => assert (b' = moved b (length w0 + length kt + length w1 + length w2 + length t + length w + 4) h) as E
    by (unfold moved; cbn; f_equal; lia) end.
  rewrite E in *. exists j, h. cbn [mbind outcome_bind]. rewrite Hskip, !(next_is_at _ _ _ _ Hat). cbn [mbind outcome_bind].
  split_and!; [done| |by destruct Hc as [-> | ->]]. unfold member_of. rewrite Hname, Hv. done.
Qed.

Lemma members_run_one k v kt w1 w2 t w :
  str_text kt k → white w1 → white w2 → value_text 63 v t → value_run v t → white w →
  members_run [(k, v)] (34 :: kt ++ 34 :: w1 ++ 58 :: w2 ++ t ++ w).
Proof using enough_memory.
  intros Hk Hw1 Hw2 Ht Hrun Hw fuel head b x w0 r Hb Hw0 Hd Hf. cbn in Hd.
  repeat first [rewrite length_app in Hf|progress cbn [length] in Hf].
  destruct fuel as [|fuel]; [lia|]. repeat first [rewrite <-app_assoc in Hb|progress cbn [app] in Hb].
  destruct (object_loop_elem fuel head b x w0 k kt w1 w2 v t w 125 r) as (j & h & _ & Hv & ->); auto; [lia..|].
  exists [j], h. cbn [Z.eqb Pos.eqb]. split; [|cbn; by rewrite Hv]. do 2 f_equal. f_equal.
  repeat first [rewrite length_app|progress cbn [length]]. lia.
Qed.

Lemma members_run_more k v l kt w1 w2 t w w' t' :
  str_text kt k → white w1 → white w2 → value_text 63 v t → value_run v t → white w → white w' → members_run l t' →
  members_run ((k, v) :: l) (34 :: kt ++ 34 :: w1 ++ 58 :: w2 ++ t ++ w ++ 44 :: w' ++ t').
Proof using enough_memory.
  intros Hk Hw1 Hw2 Ht Hrun Hw Hw' Hl fuel head b x w0 r Hb Hw0 Hd Hf.
  repeat first [rewrite length_app in Hf|progress cbn [length] in Hf]. cbn [depth_members foldr snd] in Hd. fold (depth_members l) in Hd.
  destruct fuel as [|fuel]; [lia|]. repeat first [rewrite <-app_assoc in Hb|progress cbn [app] in Hb].
  destruct (object_loop_elem fuel head b x w0 k kt w1 w2 v t w 44 (w' ++ t' ++ 125 :: r)) as (j & h & Hat & Hv & ->); auto; [lia..|].
  cbn [Z.eqb Pos.eqb].
  destruct (Hl fuel (head ++ [j]) _ 44 w' r Hat Hw') as (js & h' & -> & Hjs); [cbn; lia|lia|].
  exists (j :: js), h'. split; [|by cbn; rewrite Hv; cbn; rewrite Hjs].
  rewrite <-app_assoc. cbn [app]. do 2 f_equal. unfold moved. cbn [content offset depth]. f_equal.
  repeat first [rewrite length_app|progress cbn [length]]. lia.
Qed.

(** Every text of a value is parsed to a tree of that value. *)
Lemma grammar_runs :
  (∀ v t, value_text 63 v t → value_text 63 v t ∧ value_run v t) ∧
  (∀ l t, elems_text 63 l t → elems_text 63 l t ∧ elems_run l t) ∧
  (∀ l t, members_text 63 l t → members_text 63 l t ∧ members_run l t).
Proof using enough_memory.
  apply grammar_ind.
  - split; [constructor|apply value_run_null].
  - split; [constructor|apply value_run_false].
  - split; [constructor|apply value_run_true].
  - intros d t Ht. split; [by constructor|by apply value_run_num].
  - intros s t Ht. split; [by constructor|by apply value_run_str].
  - intros w Hw. split; [by constructor|]. eapply (value_run_empty 91 93); [by left|done].
  - intros l w t Hw _ [Ht Hrun]. split; [by constructor|]. eapply (value_run_filled 91 93); [left; by exists l|done].
  - intros w Hw. split; [by constructor|]. eapply (value_run_empty 123 125); [by right|done].
  - intros l w t Hw _ [Ht Hrun]. split; [by constructor|]. eapply (value_run_filled 123 125); [right; by exists l|done].
  - intros v t w _ [Ht Hrun] Hw. split; [by constructor|by apply elems_run_one].
  - intros v l t w w' t' _ [Ht Hrun] Hw Hw' _ [Htl Hl]. split; [by constructor|by apply elems_run_more].
  - intros k v kt w1 w2 t w Hk Hw1 Hw2 _ [Ht Hrun] Hw. split; [by constructor|by apply members_run_one].
  - intros k v l kt w1 w2 t w w' t' Hk Hw1 Hw2 _ [Ht Hrun] Hw Hw' _ [Htl Hl].
    split; [by constructor|by apply members_run_more].
Qed.

(** ** The entry point *)

Lemma skip_to_end b w : at_text b (w ++ [0]) → white w → buffer_skip_whitespace b = moved b (length w) (bheap b).
Proof.
  intros Hb Hw. unfold buffer_skip_whitespace. cbv zeta. rewrite !Hb.
  assert (space_run (w ++ [0%Z]) = length w + 1)%nat as ->.
  { clear Hb. induction Hw as [|x w Hx _ IH]; [done|]. simpl. destruct (Z.leb_spec x 32); [by rewrite IH|lia]. }
  rewrite (at_text_length b _ Hb) by (by destruct w). rewrite length_app. cbn [length].
  rewrite Nat.eqb_refl. unfold moved, set_offset. f_equal. lia.
Qed.

Definition byte_order_mark : list Z := [0xEF; 0xBB; 0xBF].

Lemma skip_bom b bom c l :
  at_text b (bom ++ c :: l) → offset b = 0%nat → bom = [] ∨ bom = byte_order_mark → c < 128 → l ≠ [] →
  skip_utf8_bom b = Some (moved b (length bom) (bheap b)).
Proof.
  intros Hb Ho Hbom Hc Hl. unfold skip_utf8_bom. rewrite Ho. cbn [Nat.eqb negb].
  pose proof (at_text_length b _ Hb) as Hlen. rewrite length_app, Ho in Hlen. cbn [length] in Hlen.
  unfold at_text in Hb. rewrite Ho in Hb. rewrite Hb. destruct Hbom as [-> | ->].
  - rewrite bool_decide_eq_false_2, andb_false_r by (cbn; intros [= ]; lia). f_equal. destruct b. by unfold moved; cbn in *; subst.
  - specialize (Hlen ltac:(done)). destruct l; [done|]. cbn [length byte_order_mark] in Hlen.
    unfold can_access_at_index. rewrite Ho, (proj2 (Nat.ltb_lt _ _)) by lia.
    cbn. unfold moved, set_offset. by rewrite Ho.
Qed.

Lemma value_after_white v t w r : value_text 63 v t → white w → ∃ c l, w ++ t ++ r = c :: l ∧ c < 128 ∧ (r ≠ [] → l ≠ []).
Proof.
  intros Ht Hw. destruct (value_text_head _ _ Ht) as (c & t' & -> & _ & _ & _ & Hc).
  destruct Hw as [|x w Hx _]; cbn; eexists _, _; (split; [done|]); (split; [lia|]); intros Hr.
  - destruct r; [done|]. by destruct t'.
  - by destruct w.
Qed.

(** A text of [v] between white space, after an optional byte order mark. *)
Lemma ParseWithOpts_accepts bom w1 t w2 v req h :
  bom = [] ∨ bom = byte_order_mark → white w1 → white w2 → value_text 63 v t →
  Z.of_nat (json_depth v) <= CJSON_NESTING_LIMIT →
  let text := bom ++ w1 ++ t ++ w2 in
  ∃ j h', cJSON_ParseWithOpts may_allocate (Some text) req h =
      Ok (ParseResult (Some j) (if req : bool then length text else length (bom ++ w1 ++ t)) None h') ∧
    contents_of j = Some v.
Proof using enough_memory.
  intros Hbom Hw1 Hw2 Ht Hd text. unfold cJSON_ParseWithOpts. destruct (new_item_enough h) as (a & h0 & ->).
  set (b0 := ParseBuffer (text ++ [0]) 0 0 h0).
  assert (at_text b0 (bom ++ w1 ++ t ++ w2 ++ [0])) as Hb0.
  { unfold at_text. change (text ++ [0] = bom ++ w1 ++ t ++ w2 ++ [0]). unfold text. by rewrite <-!app_assoc. }
  destruct (value_after_white v t w1 (w2 ++ [0]) Ht Hw1) as (c & l & Ec & Hc & Hl).
  assert (at_text b0 (bom ++ c :: l)) as Hbc by (by rewrite <-Ec).
  rewrite (skip_bom b0 bom c l) by (done || apply Hl; by destruct w2).
  set (b1 := moved b0 (length bom) (bheap b0)). assert (at_text b1 (w1 ++ t ++ w2 ++ [0])) as Hb1 by (by eapply moved_at).
  destruct (value_text_head _ _ Ht) as (x & t' & Et & Hx & _).
  destruct (skip_to_value b1 w1 x (t' ++ w2 ++ [0])) as [-> Hat]; [by rewrite Et in Hb1|done|done|].
  set (b2 := moved b1 (length w1) (bheap b1)) in *.
  destruct (proj2 (proj1 grammar_runs v t Ht) (parse_fuel text) (CJSON a cJSON_Invalid None 0 (S754_zero false) None []) b2 (w2 ++ [0]))
    as (j & h' & -> & Hv & _); [by rewrite Et|by apply stops_white|exact Hd| |].
  { unfold parse_fuel, text. rewrite !length_app. lia. }
  cbn [mbind outcome_bind]. exists j, h'. split; [|done]. destruct req.
  - assert (at_text (moved b2 (length t) h') (w2 ++ [0])) as Hend by (apply (moved_at b2 t); [by rewrite Et|done]).
    rewrite (skip_to_end _ w2 Hend Hw2). pose proof (at_text_length _ _ Hend ltac:(by destruct w2)) as Hlen.
    assert (at_text (moved (moved b2 (length t) h') (length w2) h') [0]) as Hz by (by eapply moved_at).
    destruct (at_text_cons _ _ _ Hz) as (_ & _ & Hbyte). rewrite length_app in Hlen. cbn [bheap moved] in *.
    rewrite (proj2 (Nat.leb_gt _ _)) by (cbn in Hlen |- *; lia). rewrite Hbyte. cbn [mbind outcome_bind Z.eqb negb].
    do 2 f_equal. cbn. unfold text. rewrite !length_app. lia.
  - do 2 f_equal. cbn. rewrite !length_app. lia.
Qed.
End accept.

(** ** Simple texts *)

Definition plain_check (s : list Z) : bool :=
  forallb (λ c, (0 <? c) && (c <? 256) && negb (c =? 34) && negb (c =? 92)) s.

Lemma plain_str s : plain_check s = true → str_text s s.
Proof.
  induction s as [|c s IH]; [constructor|]. cbn [plain_check forallb].
  intros [[[[H1 H2]%andb_true_iff H3]%andb_true_iff H4]%andb_true_iff Hs]%andb_true_iff.
  constructor; [lia|by intros ->|by intros ->|by apply IH].
Qed.

Lemma digits_num n ds :
  forallb is_digit ds = true → ds ≠ [] → (length ds <= n)%nat → num_text n ds (dec_to_double false (dec_value ds) 0).
Proof.
  intros Hd Hn Hl. rewrite forallb_forall in Hd.
  pose proof (nt_intro (n := n) [] false ds [] [] [] 0) as Ht. cbn [app] in Ht. rewrite !app_nil_r in Ht.
  apply Ht; [by left|apply Forall_forall; intros c Hc; by apply Hd, list_elem_of_In|done|by left|constructor|done].
Qed.

(** An array of one integer is a JSON text. *)
Lemma digits_json ds :
  digits ds → (0 < length ds)%nat → json_text (JArr [JNum (dec_to_double false (dec_value ds) 0)]) (91 :: ds ++ [93]).
Proof.
  intros Hd Hl. exists (length ds). change (91 :: ds ++ [93]) with (91 :: [] ++ ds ++ [93]). apply vt_array; [constructor|].
  pose proof (el_one (n := length ds) (JNum (dec_to_double false (dec_value ds) 0)) ds []) as Hone. rewrite app_nil_r in Hone.
  apply Hone; [|constructor]. apply vt_num, digits_num; [|destruct ds; [simpl in Hl; lia|done]|done].
  apply forallb_forall. intros c Hc%list_elem_of_In. unfold digits in Hd. rewrite Forall_forall in Hd. by apply Hd.
Qed.

(** ** Long numerals *)

Section reject.
Variable may_allocate : nat → Z → bool.

Lemma number_c_string_full t n : Forall (λ c, number_char c = true) t → (n <= length t)%nat → number_c_string n t = take n t.
Proof.
  revert n. induction t as [|c t IH]; intros [|n] Ht Hn; simpl in *; [done|lia|done|].
  apply Forall_cons in Ht as [-> Ht]. by rewrite IH by (done || lia).
Qed.

Lemma number_c_string_app n t r : (n <= length t)%nat → number_c_string n (t ++ r) = number_c_string n t.
Proof. revert n. induction t as [|c t IH]; intros [|n] Hn; simpl in *; try lia; [done..|]. by rewrite IH by lia. Qed.

(** The parser stops inside a numeral of more than 63 digits. *)
Lemma parse_number_long item b ds r :
  digits ds → (63 < length ds)%nat → at_text b (ds ++ r) →
  ∃ d, parse_number item b = (Some (set_number item d), moved b 63 (bheap b)).
Proof.
  intros Hd Hl Hb. unfold parse_number. rewrite Hb, number_c_string_app, number_c_string_full by (lia || by apply digits_number).
  assert (num_text 63 (take 63 ds) (dec_to_double false (dec_value (take 63 ds)) 0)) as Hn.
  { apply digits_num; [|destruct ds; [simpl in Hl; lia|done]|rewrite length_take; lia]. apply forallb_forall. intros c Hc%list_elem_of_In.
    rewrite <-(take_drop 63 ds) in Hd. apply Forall_app in Hd as [Hd _]. rewrite Forall_forall in Hd. by apply Hd. }
  destruct (num_text_strtod _ _ Hn) as (-> & _ & _). rewrite length_take, Nat.min_l by lia. by eexists.
Qed.

Lemma digit_head c : is_digit c = true → 48 <= c <= 57.
Proof. apply is_digit_spec. Qed.

Lemma array_loop_long fuel head b x ds r ok l b' :
  digits ds → (63 < length ds)%nat → at_text b (x :: ds ++ 93 :: r) →
  array_loop may_allocate fuel head b = Ok (ok, l, b') → ok = false.
Proof.
  intros Hd Hl Hb. destruct fuel as [|fuel]; [done|]. cbn [array_loop].
  destruct (cJSON_New_Item may_allocate (bheap b)) as [[item|] h]; [|by intros [= <- _ _]].
  assert (at_text (advance 1 (set_heap h b)) (ds ++ 93 :: r)) as Hb1 by (by apply (at_text_app (set_heap h b) [x])).
  destruct ds as [|c ds]; [simpl in Hl; lia|]. pose proof (digit_head c (Forall_inv Hd)) as Hc.
  destruct (skip_to_value _ [] c (ds ++ 93 :: r) Hb1) as [-> Hb2]; [constructor|lia|]. cbn [length] in Hb2 |- *.
  set (b2 := moved _ 0 _) in *. destruct fuel as [|fuel]; [done|]. cbn [parse_value].
  destruct (not_literal _ _ _ Hb2) as (-> & -> & ->); [lia..|]. destruct (at_text_cons _ _ _ Hb2) as (_ & -> & ->).
  cbn [mbind outcome_bind]. rewrite (proj2 (Z.eqb_neq c 34)) by lia.
  assert ((c =? 45) || ((48 <=? c) && (c <=? 57)) = true) as -> by lia.
  destruct (parse_number_long item b2 (c :: ds) (93 :: r) Hd Hl Hb2) as (d & ->). cbn [mbind outcome_bind].
  set (ds' := c :: ds) in *. assert (at_text (moved b2 63 (bheap b2)) (drop 63 ds' ++ 93 :: r)) as Hb3.
  { apply (moved_at b2 (take 63 ds')); [by rewrite app_assoc, take_drop|rewrite length_take; lia]. }
  destruct (drop 63 ds') as [|c' ds''] eqn:Hdrop.
  { assert (length (drop 63 ds') = 0%nat) as Hz by by rewrite Hdrop. rewrite length_drop in Hz. lia. }
  assert (48 <= c' <= 57) as Hc'.
  { apply digit_head. assert (digits (drop 63 ds')) as Hdd by by apply Forall_drop. rewrite Hdrop in Hdd. exact (Forall_inv Hdd). }
  destruct (skip_to_value _ [] c' (ds'' ++ 93 :: r) Hb3) as [-> Hb4]; [constructor|lia|].
  rewrite !(next_is_at _ _ _ _ Hb4), (proj2 (Z.eqb_neq c' 44)), (proj2 (Z.eqb_neq c' 93)) by lia.
  cbn [mbind outcome_bind]. by intros [= <- _ _].
Qed.

Lemma parse_array_long fuel item b ds r res b' :
  digits ds → (63 < length ds)%nat → at_text b (91 :: ds ++ 93 :: r) →
  parse_array may_allocate fuel item b = Ok (res, b') → res = None.
Proof.
  intros Hd Hl Hb. destruct fuel as [|fuel]; [done|]. cbn [parse_array]. destruct (_ <=? _); [by intros [= <- _]|].
  set (b1 := set_depth (depth b + 1) b). assert (at_text b1 (91 :: ds ++ 93 :: r)) as Hb1 by exact Hb.
  destruct (at_text_cons _ _ _ Hb1) as (_ & _ & ->). cbn [mbind outcome_bind Z.eqb Pos.eqb negb].
  destruct ds as [|c ds]; [simpl in Hl; lia|]. pose proof (digit_head c (Forall_inv Hd)) as Hc.
  assert (at_text (advance 1 b1) ((c :: ds) ++ 93 :: r)) as Hb2 by (by apply (at_text_app b1 [91])).
  destruct (skip_to_value _ [] c (ds ++ 93 :: r) Hb2) as [-> Hb3]; [constructor|lia|].
  rewrite (next_is_at _ _ _ _ Hb3), (proj2 (Z.eqb_neq c 93)) by lia. cbn [mbind outcome_bind].
  destruct (at_text_cons _ _ _ Hb3) as (_ & -> & _). cbn [negb].
  intros ([[ok l] b4] & Hloop & Hfin)%bind_Ok.
  assert (step_back (moved (advance 1 b1) (length (@nil Z)) (bheap (advance 1 b1))) = b1) as Hback.
  { unfold step_back, moved, advance, set_offset. cbn. replace (pred (offset b + 1 + 0)) with (offset b) by lia. by destruct b. }
  rewrite Hback in Hloop. rewrite (array_loop_long fuel [] b1 91 (c :: ds) r ok l b4 Hd Hl Hb1 Hloop) in Hfin.
  unfold finish in Hfin. apply bind_Ok in Hfin as (h & _ & Hfin). by injection Hfin as <- _.
Qed.

(** An array of one such numeral is not parsed. *)
Lemma ParseWithOpts_long ds req h r :
  digits ds → (63 < length ds)%nat →
  cJSON_ParseWithOpts may_allocate (Some (91 :: ds ++ [93])) req h = Ok r → parsed r = None.
Proof.
  intros Hd Hl. assert (∀ item b res, parse_fail item b = Ok res → parsed res = None) as Hfail.
  { intros item b res. unfold parse_fail. intros (h' & _ & [= <-])%bind_Ok. done. }
  unfold cJSON_ParseWithOpts. destruct (cJSON_New_Item may_allocate h) as [[item|] h0]; [|apply Hfail].
  set (b0 := ParseBuffer _ 0 0 h0). assert (at_text b0 ([] ++ 91 :: ds ++ 93 :: [0])) as Hb0.
  { unfold at_text. cbn. by rewrite <-app_assoc. }
  rewrite (skip_bom b0 [] 91 (ds ++ 93 :: [0]) Hb0) by (done || by left || by destruct ds). cbn [length].
  assert (at_text (moved b0 0 (bheap b0)) ([] ++ 91 :: ds ++ 93 :: [0])) as Hb1 by (by apply (moved_at b0 [])).
  destruct (skip_to_value _ [] 91 (ds ++ 93 :: [0]) Hb1) as [-> Hb2]; [constructor|lia|].
  set (b2 := moved _ _ _) in *. intros ([res b3] & Hval & Hr)%bind_Ok. destruct res as [j|]; [|by eapply Hfail].
  exfalso. change (parse_fuel (91 :: ds ++ [93])) with (S (pred (parse_fuel (91 :: ds ++ [93])))) in Hval. cbn [parse_value] in Hval.
  destruct (not_literal _ _ _ Hb2) as (E1 & E2 & E3); [lia..|]. rewrite E1, E2, E3 in Hval.
  destruct (at_text_cons _ _ _ Hb2) as (_ & E4 & E5). rewrite E4, E5 in Hval. cbn [mbind outcome_bind Z.eqb Pos.eqb Z.leb Z.compare Pos.compare Pos.compare_cont orb andb] in Hval.
  by apply (parse_array_long _ _ _ ds [0]) in Hval.
Qed.
End reject.
