(* ===== verification/CJsonDepth.v ===== *)
(** * cJSON: the nesting limit

    Every tree the parser returns is nested at most [CJSON_NESTING_LIMIT]
    deep: the recursion of the parser, and that of [cJSON_Delete] on its
    result, is bounded whatever the text. *)
From S2P Require Import Prelude CJsonData CJsonText CJsonNumber CJsonParse.

(** Levels of children below an item. *)
Fixpoint nesting (j : cJSON) : nat := foldr (λ c n, S (nesting c) `max` n)%nat 0%nat (child j).

(** An item at depth [d] is within the limit. *)
Definition bounded (d : Z) (j : cJSON) : Prop := d + Z.of_nat (nesting j) <= CJSON_NESTING_LIMIT.

Lemma nesting_unfold j : nesting j = foldr (λ c n, S (nesting c) `max` n)%nat 0%nat (child j).
Proof. by destruct j. Qed.

Lemma bounded_leaf d j : child j = [] → d <= CJSON_NESTING_LIMIT → bounded d j.
Proof. intros Hc Hd. unfold bounded. rewrite nesting_unfold, Hc. cbn. lia. Qed.

Lemma bounded_node d j : d <= CJSON_NESTING_LIMIT → Forall (bounded (d + 1)) (child j) → bounded d j.
Proof.
  intros Hd Hc. unfold bounded. rewrite nesting_unfold. induction Hc as [|c l Hc _ IH]; cbn; [lia|].
  unfold bounded in Hc. lia.
Qed.

Section depth.
Variable may_allocate : nat → Z → bool.

Lemma parse_string_depth item b j b' :
  parse_string may_allocate item b = Ok (Some j, b') → depth b' = depth b ∧ child j = child item.
Proof.
  unfold parse_string. intros (c & _ & H)%bind_Ok. case_match; [done|]. destruct (scan_string_end _ _ _) as [[e k]|]; [|done].
  destruct (allocate _ _ _) as [[a|] h]; [|done]. apply bind_Ok in H as ([[out|] ip] & _ & H).
  - apply bind_Ok in H as (_ & _ & [= <- <-]). done.
  - by apply bind_Ok in H as (? & _ & ?).
Qed.

(** What a parser of values guarantees, and what the loops do. *)
Definition value_depth (p : cJSON → parse_buffer → outcome (option cJSON * parse_buffer)) : Prop :=
  ∀ item b j b', child item = [] → depth b <= CJSON_NESTING_LIMIT → p item b = Ok (Some j, b') →
    depth b' = depth b ∧ bounded (depth b) j.

Definition loop_depth (loop : list cJSON → parse_buffer → outcome (bool * list cJSON * parse_buffer)) : Prop :=
  ∀ head b l b', depth b <= CJSON_NESTING_LIMIT → Forall (bounded (depth b)) head → loop head b = Ok (true, l, b') →
    depth b' = depth b ∧ Forall (bounded (depth b)) l.

Lemma finish_depth ty item r j b' d :
  d <= CJSON_NESTING_LIMIT → finish ty item r = Ok (Some j, b') →
  (∀ l b, r = (true, l, b) → depth b = d + 1 ∧ Forall (bounded (d + 1)) l) → depth b' = d ∧ bounded d j.
Proof.
  intros Hd. destruct r as [[[] l] b]; cbn; [|by intros (? & _ & ?)%bind_Ok]. intros [= <- <-] Hr.
  destruct (Hr l b eq_refl) as [Hb Hl]. split; [cbn; lia|by apply bounded_node].
Qed.

Lemma parse_array_depth fuel :
  loop_depth (array_loop may_allocate fuel) → value_depth (parse_array may_allocate (S fuel)).
Proof.
  intros Hloop item b j b' Hi Hd. cbn [parse_array]. destruct (Z.leb_spec CJSON_NESTING_LIMIT (depth b)); [done|].
  intros (c & _ & H1)%bind_Ok. case_match; [eapply finish_depth; [done..|by intros]|].
  apply bind_Ok in H1 as (closed & _ & H1). destruct closed.
  { eapply finish_depth; [done..|]. by intros l b0 [= <- <-]. }
  case_match; [eapply finish_depth; [done..|by intros]|]. apply bind_Ok in H1 as (r & Hr & H1).
  eapply finish_depth; [done..|]. intros l b0 ->. eapply Hloop in Hr; [done|cbn; lia|constructor].
Qed.

Lemma parse_object_depth fuel :
  loop_depth (object_loop may_allocate fuel) → value_depth (parse_object may_allocate (S fuel)).
Proof.
  intros Hloop item b j b' Hi Hd. cbn [parse_object]. destruct (Z.leb_spec CJSON_NESTING_LIMIT (depth b)); [done|].
  intros (opened & _ & H1)%bind_Ok. case_match; [eapply finish_depth; [done..|by intros]|].
  apply bind_Ok in H1 as (closed & _ & H1). destruct closed.
  { eapply finish_depth; [done..|]. by intros l b0 [= <- <-]. }
  case_match; [eapply finish_depth; [done..|by intros]|]. apply bind_Ok in H1 as (r & Hr & H1).
  eapply finish_depth; [done..|]. intros l b0 ->. eapply Hloop in Hr; [done|cbn; lia|constructor].
Qed.

Lemma new_item_leaf h j h' : cJSON_New_Item may_allocate h = (Some j, h') → child j = [].
Proof. unfold cJSON_New_Item. destruct (allocate _ _ _) as [[a|] h0]; [|done]. by intros [= <- <-]. Qed.

Lemma array_loop_depth fuel :
  value_depth (parse_value may_allocate fuel) → loop_depth (array_loop may_allocate fuel) →
  loop_depth (array_loop may_allocate (S fuel)).
Proof.
  intros Hval Hloop head b l b' Hd Hh. cbn [array_loop]. destruct (cJSON_New_Item _ _) as [[j|] h] eqn:Hn; [|done].
  intros ([[j'|] b1] & Hp & H1)%bind_Ok; [|done]. apply Hval in Hp as [Hb1 Hj]; [|by eapply new_item_leaf|done].
  cbn [depth advance set_heap set_offset buffer_skip_whitespace] in Hb1, Hj.
  assert (Forall (bounded (depth b)) (head ++ [j'])) as Hl by (apply Forall_app; by repeat constructor).
  apply bind_Ok in H1 as (more & _ & H1). destruct more.
  - apply Hloop in H1; [|cbn; by rewrite Hb1..]. cbn in H1. by rewrite Hb1 in H1.
  - apply bind_Ok in H1 as (closed & _ & [= -> <- <-]). done.
Qed.

Lemma object_loop_depth fuel :
  value_depth (parse_value may_allocate fuel) → loop_depth (object_loop may_allocate fuel) →
  loop_depth (object_loop may_allocate (S fuel)).
Proof.
  intros Hval Hloop head b l b' Hd Hh. cbn [object_loop]. destruct (cJSON_New_Item _ _) as [[j|] h] eqn:Hn; [|done].
  intros ([[named|] b0] & Hs & H1)%bind_Ok; [|done]. apply parse_string_depth in Hs as [Hb0 Hc].
  rewrite (new_item_leaf _ _ _ Hn) in Hc. apply bind_Ok in H1 as (colon & _ & H1). case_match; [done|].
  apply bind_Ok in H1 as ([[j'|] b1] & Hp & H1); [|done].
  cbn [depth advance set_heap set_offset buffer_skip_whitespace] in Hb0.
  apply Hval in Hp as [Hb1 Hj]; [|done|cbn; by rewrite Hb0].
  cbn [depth advance set_heap set_offset buffer_skip_whitespace] in Hb1, Hj. rewrite Hb0 in Hb1, Hj.
  assert (Forall (bounded (depth b)) (head ++ [j'])) as Hl by (apply Forall_app; by repeat constructor).
  apply bind_Ok in H1 as (more & _ & H1). destruct more.
  - apply Hloop in H1; [|cbn; by rewrite Hb1..]. cbn in H1. by rewrite Hb1 in H1.
  - apply bind_Ok in H1 as (closed & _ & [= -> <- <-]). done.
Qed.

Lemma parse_value_depth fuel :
  value_depth (parse_array may_allocate fuel) → value_depth (parse_object may_allocate fuel) →
  value_depth (parse_value may_allocate (S fuel)).
Proof.
  intros Ha Ho item b j b' Hi Hd. cbn [parse_value].
  destruct (starts_with b lit_null); [intros [= <- <-]; by split; [|apply bounded_leaf]|].
  destruct (starts_with b lit_false); [intros [= <- <-]; by split; [|apply bounded_leaf]|].
  destruct (starts_with b lit_true); [intros [= <- <-]; by split; [|apply bounded_leaf]|].
  destruct (can_access_at_index b 0); [|done]. intros (c & _ & H1)%bind_Ok.
  destruct (c =? 34); [apply parse_string_depth in H1 as [? Hc]; split; [done|by apply bounded_leaf; [rewrite Hc|]]|].
  destruct ((c =? 45) || _); [|by repeat case_match; eauto].
  injection H1 as H1. unfold parse_number in H1. destruct (strtod _) as [[n k]|]; [|done]. injection H1 as <- <-.
  by split; [|apply bounded_leaf].
Qed.

Lemma parser_depth fuel :
  value_depth (parse_value may_allocate fuel) ∧ value_depth (parse_array may_allocate fuel) ∧
  loop_depth (array_loop may_allocate fuel) ∧ value_depth (parse_object may_allocate fuel) ∧
  loop_depth (object_loop may_allocate fuel).
Proof.
  induction fuel as [|fuel (Hv & Ha & Hal & Ho & Hol)]; [by split_and!|].
  split_and!; [by apply parse_value_depth|by apply parse_array_depth|by apply array_loop_depth
    |by apply parse_object_depth|by apply object_loop_depth].
Qed.

Lemma parse_fail_parsed item b r : parse_fail item b = Ok r → parsed r = None.
Proof. unfold parse_fail. by intros (h' & _ & [= <-])%bind_Ok. Qed.

Lemma ParseWithOpts_depth text req h r j :
  cJSON_ParseWithOpts may_allocate (Some text) req h = Ok r → parsed r = Some j →
  Z.of_nat (nesting j) <= CJSON_NESTING_LIMIT.
Proof.
  unfold cJSON_ParseWithOpts. destruct (cJSON_New_Item _ _) as [[item|] h0] eqn:Hn;
    [|by intros ->%parse_fail_parsed].
  intros ([[j'|] b] & Hp & H1)%bind_Ok Hj.
  2: { apply parse_fail_parsed in H1. congruence. }
  assert (bounded 0 j') as Hb.
  { destruct (skip_utf8_bom _) as [b0|] eqn:Hbom; [|done].
    assert (depth b0 = 0) as Hd0 by (revert Hbom; unfold skip_utf8_bom; repeat case_match; by intros [= <-]).
    assert (depth (buffer_skip_whitespace b0) <= CJSON_NESTING_LIMIT) as Hd by (cbn; by rewrite Hd0).
    destruct (proj1 (parser_depth (parse_fuel text)) _ _ _ _ (new_item_leaf _ _ _ Hn) Hd Hp) as [_ Hj'].
    cbn in Hj'. by rewrite Hd0 in Hj'. }
  assert (j = j') as ->; [|exact Hb]. destruct req; [|by injection H1 as <-; injection Hj].
  apply bind_Ok in H1 as (c & _ & H1). case_match; [apply parse_fail_parsed in H1; congruence|].
  by injection H1 as <-; injection Hj.
Qed.
End depth.
