(* ===== verification/CJsonQuery.v ===== *)
(** * cJSON: queries on item trees

    Name comparison, lookup of object members and array elements, and the type
    predicates of [engine/thirdparty/cJSON.c]. *)
From S2P Require Import Prelude CJsonData.

(** ** Name comparison *)

(** [tolower] in the C locale, on [unsigned char] values. *)
Definition tolower (c : Z) : Z := if (65 <=? c) && (c <=? 90) then c + 32 else c.

(** The loop over two C strings; the end of a list is its terminating NUL. *)
Fixpoint ci_loop (s1 s2 : list Z) : Z :=
  match s1, s2 with
  | c1 :: s1', c2 :: s2' =>
      if tolower c1 =? tolower c2 then (if c1 =? 0 then 0 else ci_loop s1' s2')
      else tolower c1 - tolower c2
  | _, _ => tolower (hd 0 s1) - tolower (hd 0 s2)
  end.

(** [None] is a null pointer.  Equal pointers compare equal, as their
    contents do. *)
Definition case_insensitive_strcmp (string1 string2 : option (list Z)) : Z :=
  match string1, string2 with
  | Some s1, Some s2 => ci_loop s1 s2
  | _, _ => 1
  end.

(** ** Arrays and objects *)

Definition cJSON_GetArraySize (array : option cJSON) : Z :=
  match array with None => 0 | Some a => to_int (zlen (child a)) end.

Definition get_array_item (array : option cJSON) (index : nat) : option cJSON :=
  match array with None => None | Some a => head (drop index (child a)) end.

Definition cJSON_GetArrayItem (array : option cJSON) (index : Z) : option cJSON :=
  if index <? 0 then None else get_array_item array (Z.to_nat index).

(** The name of a member as the C string functions read it. *)
Definition item_name (j : cJSON) : option (list Z) := (λ s, cstring (c_bytes s)) <$> item_string j.

(** The two search loops, which stop at the first element that is not
    skipped. *)
Fixpoint skip_elements (skip : cJSON → bool) (l : list cJSON) : list cJSON :=
  match l with
  | [] => []
  | j :: l' => if skip j then skip_elements skip l' else j :: l'
  end.

Definition get_object_item (object : option cJSON) (name : option (list Z)) (case_sensitive : bool) : option cJSON :=
  match object, name with
  | Some o, Some n =>
      let rest :=
        if case_sensitive then
          skip_elements (λ j, match item_name j with Some s => negb (bool_decide (n = s)) | None => false end) (child o)
        else
          skip_elements (λ j, negb (case_insensitive_strcmp name (item_name j) =? 0)) (child o) in
      match rest with
      | [] => None
      | current_element :: _ => if item_string current_element then Some current_element else None
      end
  | _, _ => None
  end.

Definition cJSON_GetObjectItem (object : option cJSON) (string : option (list Z)) : option cJSON :=
  get_object_item object string false.
Definition cJSON_GetObjectItemCaseSensitive (object : option cJSON) (string : option (list Z)) : option cJSON :=
  get_object_item object string true.
Definition cJSON_HasObjectItem (object : option cJSON) (string : option (list Z)) : Z :=
  if cJSON_GetObjectItem object string then 1 else 0.

(** ** Type predicates *)
Definition has_type (mask t : Z) (item : option cJSON) : bool :=
  match item with None => false | Some j => Z.land (type j) mask =? t end.

Definition cJSON_IsInvalid := has_type 0xFF cJSON_Invalid.
Definition cJSON_IsFalse := has_type 0xFF cJSON_False.
Definition cJSON_IsTrue := has_type 0xff cJSON_True.
Definition cJSON_IsBool (item : option cJSON) : bool :=
  match item with
  | None => false
  | Some j => negb (Z.land (type j) (Z.lor cJSON_True cJSON_False) =? 0)
  end.
Definition cJSON_IsNull := has_type 0xFF cJSON_NULL.
Definition cJSON_IsNumber := has_type 0xFF cJSON_Number.
Definition cJSON_IsString := has_type 0xFF cJSON_String.
Definition cJSON_IsArray := has_type 0xFF cJSON_Array.
Definition cJSON_IsObject := has_type 0xFF cJSON_Object.
Definition cJSON_IsRaw := has_type 0xFF cJSON_Raw.

Definition cJSON_GetStringValue (item : option cJSON) : option cstr :=
  match item with
  | Some j => if cJSON_IsString item then valuestring j else None
  | None => None
  end.

(** ** Lemmas *)

(** A C string: the bytes before the terminating NUL. *)
Definition is_cstring (s : list Z) : Prop := Forall (λ c, 0 < c < 256) s.

Lemma tolower_pos c : 0 < c → 0 < tolower c.
Proof. unfold tolower. case_match; lia. Qed.

Lemma ci_loop_spec s1 s2 :
  is_cstring s1 → is_cstring s2 → ci_loop s1 s2 = 0 ↔ tolower <$> s1 = tolower <$> s2.
Proof.
  intros H1. revert s2. induction H1 as [|c1 s1 Hc1 H1 IH]; intros s2 H2.
  - destruct H2 as [|c2 s2 Hc2 _]; cbn; [done|].
    pose proof (tolower_pos c2 ltac:(lia)). change (tolower 0) with 0. split; [lia|done].
  - destruct H2 as [|c2 s2 Hc2 H2]; cbn.
    + pose proof (tolower_pos c1 ltac:(lia)). change (tolower 0) with 0. split; [lia|done].
    + destruct (Z.eqb_spec (tolower c1) (tolower c2)) as [E|]; [|split; [lia|by intros [= ??]]].
      destruct (Z.eqb_spec c1 0); [lia|]. rewrite IH by done. rewrite E. split; [by intros ->|by intros [= ?]].
Qed.

Lemma skip_elements_first skip l j r :
  skip_elements skip l = j :: r ↔ ∃ l1, l = l1 ++ j :: r ∧ Forall (λ k, skip k = true) l1 ∧ skip j = false.
Proof.
  split.
  - induction l as [|k l IH]; cbn; [done|]. destruct (skip k) eqn:E.
    + intros (l1 & -> & Hl1 & Hj)%IH. exists (k :: l1). split_and!; [done|by constructor|done].
    + intros [= -> ->]. exists []. by split_and!.
  - intros (l1 & -> & Hl1 & Hj). induction Hl1 as [|k l1 Hk _ IH]; cbn; [by rewrite Hj|by rewrite Hk].
Qed.

Lemma skip_elements_nil skip l : skip_elements skip l = [] ↔ Forall (λ k, skip k = true) l.
Proof.
  induction l as [|k l IH]; cbn; [by split|]. rewrite Forall_cons, <-IH. destruct (skip k); naive_solver.
Qed.

(** Member [j] answers to [name], ignoring case. *)
Definition answers (name : list Z) (j : cJSON) : Prop :=
  ∃ s, item_name j = Some s ∧ tolower <$> s = tolower <$> name.

(** Names are C strings. *)
Definition named_ok (j : cJSON) : Prop := ∀ s, item_name j = Some s → is_cstring s.

Lemma ci_skip name j :
  is_cstring name → named_ok j →
  negb (case_insensitive_strcmp (Some name) (item_name j) =? 0) = false ↔ answers name j.
Proof.
  intros Hn Hj. unfold answers, case_insensitive_strcmp. destruct (item_name j) as [s|] eqn:E; [|naive_solver].
  rewrite negb_false_iff, Z.eqb_eq, ci_loop_spec by (done || by apply Hj).
  split; [intros ->; eauto|]. by intros (s' & [= <-] & ->).
Qed.

(** [cJSON_GetObjectItem] returns the first member that answers to the name. *)
Lemma GetObjectItem_first o name j :
  is_cstring name → Forall named_ok (child o) →
  cJSON_GetObjectItem (Some o) (Some name) = Some j ↔
  ∃ l1 l2, child o = l1 ++ j :: l2 ∧ answers name j ∧ Forall (λ k, ¬ answers name k) l1.
Proof.
  intros Hn Hall. unfold cJSON_GetObjectItem, get_object_item.
  destruct (skip_elements _ (child o)) as [|k r] eqn:E.
  - split; [done|]. intros (l1 & l2 & Hc & Ha & _). apply skip_elements_nil in E.
    rewrite Hc, Forall_app, Forall_cons in E, Hall. destruct E as (_ & E & _), Hall as (_ & Hj & _).
    apply ci_skip in Ha; [|done..]. congruence.
  - apply skip_elements_first in E as (l1 & Hc & Hl1 & Hk).
    rewrite Hc, Forall_app, Forall_cons in Hall. destruct Hall as (Hall & Hkn & _).
    apply ci_skip in Hk; [|done..]. destruct Hk as (s & Hs & Hlow).
    assert (Forall (λ k, ¬ answers name k) l1) as Hno.
    { rewrite Forall_forall in *. intros x Hx Ha. apply ci_skip in Ha; [|done|by apply Hall].
      rewrite Hl1 in Ha by done. done. }
    destruct (item_string k) as [nm|] eqn:Ek; [|by unfold item_name in Hs; rewrite Ek in Hs].
    split.
    + intros [= <-]. exists l1, r. split_and!; [done|by exists s|done].
    + intros (l1' & l2' & Hc' & Ha' & Hno'). f_equal. rewrite Hc in Hc'.
      assert (answers name k) as Hak by (by exists s). clear -Hc' Ha' Hno' Hno Hak.
      revert l1' Hc' Hno'. induction Hno as [|x l1 Hx _ IH]; intros [|y l1'] Hc' Hno'; injection Hc' as ??; subst.
      * done.
      * by apply Forall_cons in Hno' as [? _].
      * done.
      * apply Forall_cons in Hno' as [_ Hno']. by eapply IH.
Qed.

Lemma cstring_ok l : Forall is_byte l → is_cstring (cstring l).
Proof.
  induction 1 as [|c l Hc _ IH]; cbn; [constructor|]. unfold is_byte in Hc.
  destruct (Z.eqb_spec c 0); [constructor|]. constructor; [lia|done].
Qed.
