(* ===== verification/CJsonProps.v ===== *)
(** * cJSON: properties of the parser and of the queries *)
From S2P Require Import Prelude Stdio CJsonData CJsonText CJsonTextSafe CJsonNumber CJsonParse CJsonParseSafe CJsonGrammar CJsonDepth.
From S2P Require Import CJsonQuery.

(** A text with single quotes for double quotes. *)
Definition quoted (s : string) : list Z := (λ c, if c =? 39 then 34 else c) <$> bytes_of_string s.

Definition always : nat → Z → bool := λ _ _, true.
Definition empty_heap : heap := Heap 0 ∅.

Lemma empty_heap_ok : heap_ok empty_heap.
Proof. intros a Ha. by apply elem_of_empty in Ha. Defined.

(** C13: on every C string and for every behaviour of the allocator,
    [cJSON_ParseWithOpts] returns without reading outside of the text, without
    writing outside of an allocated block, without a double free and within the
    fuel; on failure the live blocks are those it started from, on success the
    new live blocks are exactly those of the returned tree, each owned once,
    and with [require_null_terminated] the parse ends at the NUL. *)
Theorem parser_memory_safe may_allocate text req h :
  heap_ok h → ∃ r, cJSON_ParseWithOpts may_allocate (Some text) req h = Ok r ∧ parse_post text req h r.
Proof. apply ParseWithOpts_spec. Qed.

Lemma parser_memory_safe_witness :
  ∃ r, cJSON_ParseWithOpts (λ n _, (n <? 5)%nat) (Some (quoted "[1, {'a': [true, null]}, 'x']")) true empty_heap = Ok r ∧
    parse_post (quoted "[1, {'a': [true, null]}, 'x']") true empty_heap r.
Proof. apply (parser_memory_safe (λ n _, (n <? 5)%nat)). apply empty_heap_ok. Defined.

(** C14: the parser accepts JSON: a text that denotes a value (white space,
    escapes and every form of numeral included) and whose numerals have at most 63
    characters is parsed to an item tree of exactly that value, when it is nested
    within the limit and memory suffices; an optional byte order mark and white
    space around it do not matter, and the end position is reported.  A string with
    an escaped NUL is read as a C string, up to the NUL. *)
Theorem json_text_parsed may_allocate bom w1 t w2 v req h :
  (∀ n size, may_allocate n size = true) → bom = [] ∨ bom = byte_order_mark → white w1 → white w2 → value_text 63 v t →
  Z.of_nat (json_depth v) <= CJSON_NESTING_LIMIT →
  let text := bom ++ w1 ++ t ++ w2 in
  ∃ j h', cJSON_ParseWithOpts may_allocate (Some text) req h =
      Ok (ParseResult (Some j) (if req : bool then length text else length (bom ++ w1 ++ t)) None h') ∧
    value_of j = Some (c_value v).
Proof.
  intros Hm Hbom Hw1 Hw2 Ht Hd text.
  destruct (ParseWithOpts_accepts may_allocate Hm bom w1 t w2 v req h Hbom Hw1 Hw2 Ht Hd) as (j & h' & Hrun & Hv).
  exists j, h'. split; [exact Hrun|by apply contents_value].
Qed.

(** A value and a text of it: an array of a number with an exponent, a string
    with escapes, and an object. *)
Definition sample_value : json :=
  JArr [JNum (dec_to_double true 125 (-1)); JStr [97; 10; 0xE2; 0x82; 0xAC]; JObj [([107], JBool true)]].
Definition sample_text : list Z := quoted "[-1.25e1, 'a\n\u20AC' ,{'k' : true}]".

Lemma sample_text_ok : value_text 63 sample_value sample_text.
Proof.
  change sample_text with (91 :: [] ++ (([45] ++ [49] ++ [46; 50; 53] ++ [101; 49]) ++ [] ++ 44 :: [32] ++
    ((34 :: [97; 92; 110; 92; 117; 50; 48; 65; 67] ++ [34]) ++ [32] ++ 44 :: [] ++
    ((123 :: [] ++ (34 :: [107] ++ 34 :: [32] ++ 58 :: [32] ++ lit_true ++ []) ++ [125]) ++ []))) ++ [93]).
  apply vt_array; [constructor|]. apply el_more; [|constructor|by repeat constructor|apply el_more; [|by repeat constructor|constructor|apply el_one; [|constructor]]].
  - apply vt_num. apply (nt_intro [45] true [49] [46; 50; 53] [50; 53] [101; 49] 1); [by right|by repeat constructor|done| | |cbn; lia].
    + right. split; [done|by repeat constructor].
    + apply (et_plain 101 [49]); [by left|by repeat constructor|done].
  - apply vt_str. apply st_plain; [lia..|]. apply (st_escape 110 10); [done|].
    apply (st_unicode 50 48 65 67 0x20AC [] []); [done|lia|constructor].
  - apply vt_object; [constructor|]. apply me_one; [by apply plain_str|by repeat constructor|by repeat constructor|constructor|constructor].
Qed.

Lemma json_text_parsed_witness :
  ∃ j h', cJSON_ParseWithOpts always (Some (byte_order_mark ++ [32] ++ sample_text ++ [10])) true empty_heap =
    Ok (ParseResult (Some j) (length (byte_order_mark ++ [32] ++ sample_text ++ [10])) None h') ∧
    value_of j = Some sample_value.
Proof.
  apply (json_text_parsed always byte_order_mark [32] sample_text [10] sample_value true empty_heap);
    [done|by right|by repeat constructor|by repeat constructor|exact sample_text_ok|vm_compute; discriminate].
Defined.

(** C31: JSON does not limit the length of numerals, the parser does: an
    array of one integer of more than 63 digits is a JSON text, and is rejected,
    whatever the allocator; [parse_number] copies 63 characters and the loop over
    the elements goes on inside the numeral.  Nothing is leaked. *)
Theorem long_numeral_rejected may_allocate ds req h :
  heap_ok h → digits ds → (63 < length ds)%nat →
  json_text (JArr [JNum (dec_to_double false (dec_value ds) 0)]) (91 :: ds ++ [93]) ∧
  ∃ r, cJSON_ParseWithOpts may_allocate (Some (91 :: ds ++ [93])) req h = Ok r ∧ parsed r = None ∧ live (rheap r) = live h.
Proof.
  intros Hok Hd Hl. split; [apply digits_json; [done|lia]|].
  destruct (ParseWithOpts_spec may_allocate (91 :: ds ++ [93]) req h Hok) as (r & Hr & _ & _ & Hpost). exists r.
  pose proof (ParseWithOpts_long may_allocate ds req h r Hd Hl Hr) as Hnone. rewrite Hnone in Hpost. destruct Hpost as [Hlive _]. by split_and!.
Qed.

Lemma long_numeral_rejected_witness :
  json_text (JArr [JNum (dec_to_double false (dec_value (replicate 64 49)) 0)]) (91 :: replicate 64 49 ++ [93]) ∧
  ∃ r, cJSON_ParseWithOpts always (Some (91 :: replicate 64 49 ++ [93])) true empty_heap = Ok r ∧ parsed r = None ∧
    live (rheap r) = live empty_heap.
Proof.
  apply (long_numeral_rejected always (replicate 64 49) true empty_heap empty_heap_ok);
    [by apply Forall_replicate|rewrite length_replicate; lia].
Defined.

(** C27: whatever the text and the allocator, a tree that the parser returns
    is nested at most [CJSON_NESTING_LIMIT] deep. *)
Theorem parsed_nesting_bounded may_allocate text req h r j :
  cJSON_ParseWithOpts may_allocate (Some text) req h = Ok r → parsed r = Some j →
  Z.of_nat (nesting j) <= CJSON_NESTING_LIMIT.
Proof. apply ParseWithOpts_depth. Qed.

Lemma parsed_nesting_bounded_witness :
  ∃ r j, cJSON_ParseWithOpts always (Some (quoted "[[{'a': 1}]]")) false empty_heap = Ok r ∧ parsed r = Some j ∧
    nesting j = 3%nat ∧ Z.of_nat (nesting j) <= CJSON_NESTING_LIMIT.
Proof.
  do 2 eexists. split; [vm_compute; reflexivity|]. split; [reflexivity|]. split; [reflexivity|].
  eapply (parsed_nesting_bounded always (quoted "[[{'a': 1}]]") false empty_heap); [vm_compute; reflexivity|reflexivity].
Defined.

(** C26: deleting the tree that a successful parse returned restores the
    set of live blocks: parse and delete neither leak nor free foreign blocks. *)
Theorem parse_delete_restores may_allocate text h j h' :
  heap_ok h → cJSON_Parse may_allocate (Some text) h = Ok (Some j, h') →
  ∃ h'', cJSON_Delete [j] h' = Ok h'' ∧ live h'' = live h.
Proof.
  intros Hok Hparse. unfold cJSON_Parse in Hparse. apply bind_Ok in Hparse as (r & Hr & [= Hj Hh]).
  destruct (ParseWithOpts_spec may_allocate text false h Hok) as (r' & Hr' & _ & _ & Hpost).
  rewrite Hr in Hr'. injection Hr' as <-. rewrite Hj in Hpost.
  destruct Hpost as (Hown & _ & Hnd & Hdisj & Hlive & _). rewrite Hh in Hlive.
  eexists. split.
  - apply cJSON_Delete_spec; [by constructor|by rewrite chain_blocks_singleton|].
    rewrite chain_blocks_singleton, Hlive. set_solver.
  - cbn [live]. rewrite chain_blocks_singleton, Hlive. set_solver.
Qed.

Lemma parse_delete_restores_witness :
  ∃ j h' h'', cJSON_Parse always (Some (quoted "{'a': [1, 'b']}")) empty_heap = Ok (Some j, h') ∧
    cJSON_Delete [j] h' = Ok h'' ∧ live h'' = live empty_heap.
Proof.
  do 2 eexists.
  edestruct (parse_delete_restores always (quoted "{'a': [1, 'b']}") empty_heap) as (h'' & Hd & Hl);
    [apply empty_heap_ok|vm_compute; reflexivity|].
  exists h''. split; [vm_compute; reflexivity|]. split; [exact Hd|exact Hl].
Defined.

(** An escape of the Basic Multilingual Plane is decoded to the UTF-8
    form of its code point; four characters that are not hexadecimal digits
    count as code point 0, so they are accepted and produce a NUL byte. *)
Theorem utf16_escape_decodes s p e a b c d :
  s !! (p + 2)%nat = Some a → s !! (p + 3)%nat = Some b → s !! (p + 4)%nat = Some c → s !! (p + 5)%nat = Some d →
  (p + 6 <= e)%nat →
  let v := default 0 (hex4_value a b c d) in
  ¬ (0xD800 <= v <= 0xDFFF) → utf16_literal_to_utf8 s p e = Ok (6%nat, utf8_form v).
Proof. apply utf16_escape_run. Qed.

Lemma utf16_escape_decodes_witness :
  utf16_literal_to_utf8 (bytes_of_string "\u20AC") 0 6 = Ok (6%nat, [0xE2; 0x82; 0xAC]) ∧
  utf16_literal_to_utf8 (bytes_of_string "\uZZZZ") 0 6 = Ok (6%nat, [0]).
Proof.
  split.
  - apply (utf16_escape_decodes _ 0 6 50 48 65 67); try reflexivity. vm_compute. intros [H _]. by apply H.
  - apply (utf16_escape_decodes _ 0 6 90 90 90 90); try reflexivity. vm_compute. intros [H _]. by apply H.
Defined.

(** A surrogate pair is decoded to the UTF-8 form of the code point it
    encodes. *)
Theorem utf16_pair_decodes s p e a b c d a' b' c' d' v w :
  s !! (p + 2)%nat = Some a → s !! (p + 3)%nat = Some b → s !! (p + 4)%nat = Some c → s !! (p + 5)%nat = Some d →
  s !! (p + 6)%nat = Some 92 → s !! (p + 7)%nat = Some 117 →
  s !! (p + 8)%nat = Some a' → s !! (p + 9)%nat = Some b' → s !! (p + 10)%nat = Some c' → s !! (p + 11)%nat = Some d' →
  (p + 12 <= e)%nat →
  hex4_value a b c d = Some v → hex4_value a' b' c' d' = Some w → 0xD800 <= v <= 0xDBFF → 0xDC00 <= w <= 0xDFFF →
  utf16_literal_to_utf8 s p e = Ok (12%nat, utf8_form (0x10000 + (v - 0xD800) * 1024 + (w - 0xDC00))).
Proof. apply utf16_pair_run. Qed.

Lemma utf16_pair_decodes_witness :
  utf16_literal_to_utf8 (bytes_of_string "\uD83D\uDE00") 0 12 = Ok (12%nat, [0xF0; 0x9F; 0x98; 0x80]).
Proof.
  apply (utf16_pair_decodes _ 0 12 68 56 51 68 68 69 48 48 0xD83D 0xDE00); try reflexivity; try lia.
Defined.

(** A decimal numeral below 2^31 that is followed by a character
    outside of the number alphabet is read to exactly its value: the detour
    through a rounded double and the saturating conversion lose nothing. *)
Theorem integer_roundtrip item b n r :
  0 <= n < 2 ^ 31 → (∀ c r', r = c :: r' → number_char c = false) →
  drop (offset b) (content b) = print_u n ++ r →
  ∃ j b', parse_number item b = (Some j, b') ∧ valueint j = n ∧ type j = cJSON_Number ∧
    offset b' = (offset b + length (print_u n))%nat.
Proof.
  intros Hn Hr Hb. destruct (parse_number_print_u item b n r Hn Hr Hb) as (d & -> & Hv).
  do 2 eexists. by split_and!.
Qed.

Lemma integer_roundtrip_witness :
  ∃ j b', parse_number (CJSON 0 0 None 0 (S754_zero false) None [])
            (ParseBuffer (bytes_of_string "2147483647,") 0 0 empty_heap) = (Some j, b') ∧
    valueint j = 2147483647 ∧ type j = cJSON_Number ∧ offset b' = 10%nat.
Proof.
  apply (integer_roundtrip _ (ParseBuffer (bytes_of_string "2147483647,") 0 0 empty_heap) 2147483647 [44]);
    [lia|by intros c r' [= <- <-]|vm_compute; reflexivity].
Defined.

(** [cJSON_GetObjectItem] returns an item exactly when it is the first
    member of the object whose name equals the requested one up to the case of
    ASCII letters. *)
Theorem get_object_item_first o name j :
  is_cstring name → Forall named_ok (child o) →
  cJSON_GetObjectItem (Some o) (Some name) = Some j ↔
  ∃ l1 l2, child o = l1 ++ j :: l2 ∧ answers name j ∧ Forall (λ k, ¬ answers name k) l1.
Proof. apply GetObjectItem_first. Qed.

Definition member (a : nat) (name : string) : cJSON :=
  CJSON a cJSON_NULL None 0 (S754_zero false) (Some (CStr (S a) (bytes_of_string name))) [].

Lemma get_object_item_first_witness :
  let o := CJSON 0 cJSON_Object None 0 (S754_zero false) None [member 1 "x"; member 3 "Depth"; member 5 "depth"] in
  cJSON_GetObjectItem (Some o) (Some (bytes_of_string "depth")) = Some (member 3 "Depth") ↔
  ∃ l1 l2, child o = l1 ++ member 3 "Depth" :: l2 ∧ answers (bytes_of_string "depth") (member 3 "Depth") ∧
    Forall (λ k, ¬ answers (bytes_of_string "depth") k) l1.
Proof.
  apply get_object_item_first.
  - repeat constructor; lia.
  - repeat constructor; intros s [= <-]; repeat constructor; lia.
Defined.
