(* ===== verification/Switch.v ===== *)
(** * The packet switch ([engine/switch.c], [engine/switch.h])

    The fast path moves packets from the virtual ports into the receive rings
    of the coprocessors and from the coprocessors' transmit rings to the
    virtual ports; each coprocessor runs its network function between the
    two rings.  Descriptors are staged in temporary buffers of
    [PKT_BURST_SZ] entries and flushed in bulk. *)
From S2P Require Import Prelude Dpdk Config.

(** Structures of [switch.h]: 64-bit counters. *)
Record kni_interface_stats := KniStats {
  k_rx_packets : Z; k_parse_err : Z; k_tx_packets : Z; k_tx_dropped : Z }.
Record coprocessor_stats := NfStats {
  n_rx_packets : Z; n_rx_dropped : Z; n_tx_packets : Z; n_tx_dropped : Z }.

(** What the switch asks of the code that processes a packet on a coprocessor
    ([process_packet] of [coprocessor.c]): it reads and updates state of its
    own and returns [0] for a packet to be forwarded. *)
Class NetworkFunction (F : Type) := process_packet : F → mbuf → outcome (Z * F).

Section switch.
Context `{ByteOrder, RteRing, RteKni}.

(** The state of the data plane: the globals of [init.c], the counters of
    [switch.c] and the log of descriptors given to [rte_pktmbuf_free]. *)
Record switch := Switch {
  sw : globals;
  kni_stats : list kni_interface_stats;
  nf_stats : list coprocessor_stats;
  freed : list mbuf }.

(** ** Access to the parts of the state *)

Definition set_sw (g : globals) (s : switch) : switch :=
  Switch g (kni_stats s) (nf_stats s) (freed s).

Definition get_tx_buf (i : Z) (s : switch) : outcome packet_buf :=
  tx ← deref (qm_tx (tx_mgr (sw s))); arr_get tx i.
Definition put_tx_buf (i : Z) (b : packet_buf) (s : switch) : switch :=
  match qm_tx (tx_mgr (sw s)) with
  | Live tx =>
      set_sw (set_tx_mgr (set_qm_tx (Live (<[Z.to_nat i := b]> tx)) (tx_mgr (sw s))) (sw s)) s
  | _ => s
  end.

Definition get_nf (i : Z) (s : switch) : outcome coprocessor_mgr := arr_get (nf (sw s)) i.
Definition put_nf (i : Z) (c : coprocessor_mgr) (s : switch) : switch :=
  set_sw (set_nf (<[Z.to_nat i := c]> (nf (sw s))) (sw s)) s.

Definition get_kni (i : Z) (s : switch) : outcome kni :=
  p ← arr_get (kni_list (sw s)) i; or_fault NullDereference p.
Definition put_kni (i : Z) (k : kni) (s : switch) : switch :=
  set_sw (set_kni_list (<[Z.to_nat i := Some k]> (kni_list (sw s))) (sw s)) s.

Definition add_kni_stats (i rx err tx drop : Z) (s : switch) : outcome switch :=
  c ← arr_get (kni_stats s) i;
  let c' := KniStats (u64 (k_rx_packets c + rx)) (u64 (k_parse_err c + err))
                     (u64 (k_tx_packets c + tx)) (u64 (k_tx_dropped c + drop)) in
  Ok (Switch (sw s) (<[Z.to_nat i := c']> (kni_stats s)) (nf_stats s) (freed s)).

Definition add_nf_stats (i rx rxd tx txd : Z) (s : switch) : outcome switch :=
  c ← arr_get (nf_stats s) i;
  let c' := NfStats (u64 (n_rx_packets c + rx)) (u64 (n_rx_dropped c + rxd))
                    (u64 (n_tx_packets c + tx)) (u64 (n_tx_dropped c + txd)) in
  Ok (Switch (sw s) (kni_stats s) (<[Z.to_nat i := c']> (nf_stats s)) (freed s)).

(** Freeing a null descriptor has no effect. *)
Definition rte_pktmbuf_free (p : option mbuf) (s : switch) : switch :=
  match p with
  | Some m => Switch (sw s) (kni_stats s) (nf_stats s) (freed s ++ [m])
  | None => s
  end.

(** ** Temporary buffers *)

(** [buf->buffer[buf->count++] = pkt] *)
Definition buf_push (b : packet_buf) (pkt : mbuf) : outcome packet_buf :=
  arr ← arr_set (buffer b) (count b) (Some pkt);
  Ok (PacketBuf arr (u16 (count b + 1))).

(** The descriptors a bulk operation reads from the first [count] entries. *)
Definition burst_args (b : packet_buf) : outcome (list mbuf) :=
  mapM (λ i, p ← arr_get (buffer b) i; or_fault NullDereference p) (seqZ 0 (count b)).

(** The loop that frees the entries [sent .. count - 1]. *)
Definition free_unsent (b : packet_buf) (sent : Z) (s : switch) : outcome switch :=
  foldM (λ packet_idx s, p ← arr_get (buffer b) packet_idx; Ok (rte_pktmbuf_free p s))
    (seqZ sent (count b - sent)) s.

(** ** Operations of [switch.c] *)

(** [print_stats] prints one row per port and per coprocessor, and clears the
    counters; the rows are its result. *)
Definition print_stats (s : switch) :
    (list kni_interface_stats * list coprocessor_stats) * switch :=
  ((kni_stats s, nf_stats s),
   Switch (sw s) (replicate (length (kni_stats s)) (KniStats 0 0 0 0))
          (replicate (length (nf_stats s)) (NfStats 0 0 0 0)) (freed s)).

Definition get_next_hop (pkt : mbuf) (s : switch) : outcome Z :=
  ether_type ← (v ← load16 pkt off_ether_type; Ok (rte_be_to_cpu_16 v));
  if negb (ether_type =? ETHER_TYPE_IPv4) then Ok UNKNOWN_PORT
  else
    let ipdata_offset := sizeof_ether_hdr in
    ip_dst ← (v ← load32 pkt (ipdata_offset + off_dst_addr); Ok (rte_be_to_cpu_32 v));
    Ok (route (routing_table (tx_mgr (sw s))) (Z.land ip_dst 0xFFFF)).

Definition flush_port_queue (kni_idx : Z) (s : switch) : outcome switch :=
  if nb_active_kni (tx_mgr (sw s)) <=? kni_idx then Ok s
  else
    port_buf ← get_tx_buf kni_idx s;
    if count port_buf =? 0 then Ok s
    else
      k ← get_kni kni_idx s;
      pkts ← burst_args port_buf;
      let '(n, k') := rte_kni_tx_burst k pkts in
      let sent := u16 n in
      let s := put_kni kni_idx k' s in
      s ← (if sent <? count port_buf then free_unsent port_buf sent s else Ok s);
      s ← add_kni_stats kni_idx 0 0 sent (count port_buf - sent) s;
      Ok (put_tx_buf kni_idx (PacketBuf (buffer port_buf) 0) s).

Definition flush_nf_rx_queue (coproc_idx : Z) (s : switch) : outcome switch :=
  if nb_active_kni (tx_mgr (sw s)) <=? coproc_idx then Ok s
  else
    c ← get_nf coproc_idx s;
    let nf_buf := nf_rx c in
    if count nf_buf =? 0 then Ok s
    else
      r ← or_fault NullDereference (rx_q c);
      pkts ← burst_args nf_buf;
      let '(n, r') := rte_ring_enqueue_bulk r pkts in
      let sent := u16 n in
      s ← (if sent <? count nf_buf then free_unsent nf_buf sent s else Ok s);
      s ← add_nf_stats coproc_idx sent (count nf_buf - sent) 0 0 s;
      Ok (put_nf coproc_idx
            (CoprocessorMgr (Some r') (tx_q c) (PacketBuf (buffer nf_buf) 0) (nf_tx c)) s).

Definition flush_nf_tx_queue (coproc_idx : Z) (s : switch) : outcome switch :=
  if nb_active_kni (tx_mgr (sw s)) <=? coproc_idx then Ok s
  else
    c ← get_nf coproc_idx s;
    let nf_buf := nf_tx c in
    if count nf_buf =? 0 then Ok s
    else
      r ← or_fault NullDereference (tx_q c);
      pkts ← burst_args nf_buf;
      let '(n, r') := rte_ring_enqueue_bulk r pkts in
      let sent := u16 n in
      s ← (if sent <? count nf_buf then free_unsent nf_buf sent s else Ok s);
      s ← add_nf_stats coproc_idx 0 0 sent (count nf_buf - sent) s;
      Ok (put_nf coproc_idx
            (CoprocessorMgr (rx_q c) (Some r') (nf_rx c) (PacketBuf (buffer nf_buf) 0)) s).

Definition enqueue_port (pkt : mbuf) (kni_port_index : Z) (s : switch) : outcome switch :=
  if nb_active_kni (tx_mgr (sw s)) <=? kni_port_index then Ok s
  else
    port_buf ← get_tx_buf kni_port_index s;
    port_buf ← buf_push port_buf pkt;
    let s := put_tx_buf kni_port_index port_buf s in
    if count port_buf =? PKT_BURST_SZ then flush_port_queue kni_port_index s else Ok s.

Definition enqueue_nf_rx (pkt : mbuf) (coprocessor_index : Z) (s : switch) : outcome switch :=
  if nb_active_kni (tx_mgr (sw s)) <=? coprocessor_index then Ok s
  else
    c ← get_nf coprocessor_index s;
    nf_buf ← buf_push (nf_rx c) pkt;
    let s := put_nf coprocessor_index (CoprocessorMgr (rx_q c) (tx_q c) nf_buf (nf_tx c)) s in
    if count nf_buf =? PKT_BURST_SZ then flush_nf_rx_queue coprocessor_index s else Ok s.

Definition enqueue_nf_tx (pkt : mbuf) (coprocessor_index : Z) (s : switch) : outcome switch :=
  if nb_active_kni (tx_mgr (sw s)) <=? coprocessor_index then Ok s
  else
    c ← get_nf coprocessor_index s;
    nf_buf ← buf_push (nf_tx c) pkt;
    let s := put_nf coprocessor_index (CoprocessorMgr (rx_q c) (tx_q c) (nf_rx c) nf_buf) s in
    if count nf_buf =? PKT_BURST_SZ then flush_nf_tx_queue coprocessor_index s else Ok s.

Definition flush_all (nb_kni nb_coproc : Z) (s : switch) : outcome switch :=
  s ← foldM flush_port_queue (seqZ 0 nb_kni) s;
  foldM flush_nf_rx_queue (seqZ 0 nb_coproc) s.

(** The build option [DISABLE_NF] bypasses the coprocessors. *)
Section build.
Variable DISABLE_NF : bool.

(** Body of the loop over the packets received from port [kni_idx]. *)
Definition rx_packet (kni_idx : Z) (pkt : mbuf) (s : switch) : outcome switch :=
  kni_egress_port ← get_next_hop pkt s;
  if kni_egress_port =? UNKNOWN_PORT then
    add_kni_stats kni_idx 0 1 0 0 (rte_pktmbuf_free (Some pkt) s)
  else if DISABLE_NF then enqueue_port pkt kni_egress_port s
  else enqueue_nf_rx pkt kni_egress_port s.

(** Body of the loop over the virtual ports: a burst is received, ... *)
Definition rx_poll (kni_idx : Z) (s : switch) : outcome (list mbuf * switch) :=
  k ← get_kni kni_idx s;
  let '(pkts_burst, k') := rte_kni_rx_burst k PKT_BURST_SZ in
  let n_pkts_recvd := u16 (zlen pkts_burst) in
  let s := put_kni kni_idx k' s in
  s ← add_kni_stats kni_idx n_pkts_recvd 0 0 0 s;
  Ok (take (Z.to_nat n_pkts_recvd) pkts_burst, s).

(** ... and requests of the kernel are handled after its packets. *)
Definition handle_request (kni_idx : Z) (s : switch) : outcome switch :=
  k ← get_kni kni_idx s;
  Ok (put_kni kni_idx (rte_kni_handle_request k) s).

Definition rx_port (kni_idx : Z) (s : switch) : outcome switch :=
  '(pkts, s) ← rx_poll kni_idx s;
  s ← foldM (rx_packet kni_idx) pkts s;
  handle_request kni_idx s.

(** Body of the loop over the coprocessors' transmit rings. *)
Definition drain_poll (coproc_idx : Z) (s : switch) : outcome (list mbuf * switch) :=
  c ← get_nf coproc_idx s;
  r ← or_fault NullDereference (tx_q c);
  let '(pkts_burst, r') := rte_ring_dequeue_burst r PKT_BURST_SZ in
  let n_pkts_recvd := u16 (zlen pkts_burst) in
  let s := put_nf coproc_idx (CoprocessorMgr (rx_q c) (Some r') (nf_rx c) (nf_tx c)) s in
  Ok (take (Z.to_nat n_pkts_recvd) pkts_burst, s).

Definition drain_coprocessor (coproc_idx : Z) (s : switch) : outcome switch :=
  '(pkts, s) ← drain_poll coproc_idx s;
  foldM (λ pkt s, enqueue_port pkt coproc_idx s) pkts s.

Definition fastpath (nb_kni nb_coproc : Z) (s : switch) : outcome switch :=
  s ← foldM rx_port (seqZ 0 nb_kni) s;
  s ← flush_all nb_kni nb_coproc s;
  if DISABLE_NF then Ok s
  else
    s ← foldM drain_coprocessor (seqZ 0 nb_coproc) s;
    flush_all nb_kni nb_coproc s.
End build.

(** What a coprocessor takes from its receive ring. *)
Definition coprocessor_poll (lcore_id : Z) (s : switch) : outcome (list mbuf * switch) :=
  c ← get_nf lcore_id s;
  r ← or_fault NullDereference (rx_q c);
  let '(pkts_burst, r') := rte_ring_dequeue_burst r PKT_BURST_SZ in
  let packets_dequeued := u32 (zlen pkts_burst) in
  let s := put_nf lcore_id (CoprocessorMgr (Some r') (tx_q c) (nf_rx c) (nf_tx c)) s in
  Ok (take (Z.to_nat packets_dequeued) pkts_burst, s).

Section coprocessor.
Context {F : Type} `{NetworkFunction F}.

(** Body of the loop over the packets of one burst on coprocessor [lcore_id]. *)
Definition coprocessor_packet (lcore_id : Z) (pkt : mbuf) (sf : switch * F) : outcome (switch * F) :=
  let '(s, f) := sf in
  '(ret, f) ← process_packet f pkt;
  if ret =? 0 then s ← enqueue_nf_tx pkt lcore_id s; Ok (s, f)
  else Ok (rte_pktmbuf_free (Some pkt) s, f).

Definition coprocessor (lcore_id : Z) (sf : switch * F) : outcome (switch * F) :=
  let '(s, f) := sf in
  '(pkts, s) ← coprocessor_poll lcore_id s;
  '(s, f) ← foldM (coprocessor_packet lcore_id) pkts (s, f);
  s ← flush_nf_tx_queue lcore_id s;
  Ok (s, f).
End coprocessor.

End switch.
