(* ===== verification/SwitchFrame.v ===== *)
(** * What all operations of the switch have in common

    A relation between states that is a preorder and contains the elementary
    updates of the state (a staging buffer, a manager, a port, the counters, the
    log of freed packets) contains every operation of the switch.  Two uses: the
    stop flag, which no operation writes, and the ranges of the counters. *)
From S2P Require Import Prelude Dpdk Config Switch.

Class Frame `{RteRing, RteKni} (R : relation switch) := {
  frame_preorder : PreOrder R;
  frame_put_tx i b s : R s (put_tx_buf i b s);
  frame_put_nf i c s : R s (put_nf i c s);
  frame_put_kni i k s : R s (put_kni i k s);
  frame_kni_stats i a b c d s s' : add_kni_stats i a b c d s = Ok s' → R s s';
  frame_nf_stats i a b c d s s' : add_nf_stats i a b c d s = Ok s' → R s s';
  frame_free p s : R s (rte_pktmbuf_free p s);
}.
#[global] Existing Instance frame_preorder.

Create HintDb frame.

Section frame.
Context `{ByteOrder, RteRing, RteKni} (R : relation switch) `{!Frame R}.
Implicit Types s : switch.

(** Take a run apart, replace the calls by what is known of them, and chain
    these facts from the final state back to the first one. *)
Ltac frame_run :=
  repeat match goal with
    | H : Ok (_, _) = Ok (_, _) |- _ => injection H as <- <-
    | H : Ok _ = Ok _ |- _ => injection H as <-
    | H : _ ≫= _ = Ok _ |- _ => apply bind_Ok in H as (? & ? & H)
    | H : (if ?b then _ else _) = Ok _ |- _ => destruct b
    | H : (let '(_, _) := ?p in _) = Ok _ |- _ => destruct p
    | H : _ = Ok ?u |- _ => let Hk := fresh "Hk" in eassert (Hk : R _ u) by eauto with frame; clear H
    end;
  cbn [fst snd id];
  repeat match goal with
    | |- R ?s ?s => reflexivity
    | |- R _ (put_tx_buf _ _ _) => etrans; [|apply frame_put_tx]
    | |- R _ (put_nf _ _ _) => etrans; [|apply frame_put_nf]
    | |- R _ (put_kni _ _ _) => etrans; [|apply frame_put_kni]
    | |- R _ (rte_pktmbuf_free _ _) => etrans; [|apply frame_free]
    | |- R _ (Switch (sw ?u) _ _ (_ ++ [?p])) => etrans; [|exact (frame_free (Some p) u)]
    | Hk : R _ ?u |- R _ ?u => etrans; [|exact Hk]; clear Hk
    end.

Lemma foldM_frame {A St} (proj : St → switch) (f : A → St → outcome St) l u u' :
  (∀ a u u', f a u = Ok u' → R (proj u) (proj u')) → foldM f l u = Ok u' → R (proj u) (proj u').
Proof.
  intros Hf. revert u. induction l as [|a l IH]; intros u; cbn [foldM]; [by intros [= ->]|].
  intros (u1 & Hu1%Hf & Hu2%IH)%bind_Ok. by etrans.
Qed.

Lemma free_unsent_frame b sent s s' : free_unsent b sent s = Ok s' → R s s'.
Proof. apply (foldM_frame id). intros a u u' Hrun. frame_run. Qed.

Lemma kni_stats_frame i a b c d s s' : add_kni_stats i a b c d s = Ok s' → R s s'.
Proof. apply frame_kni_stats. Qed.

Lemma nf_stats_frame i a b c d s s' : add_nf_stats i a b c d s = Ok s' → R s s'.
Proof. apply frame_nf_stats. Qed.

#[local] Hint Resolve kni_stats_frame nf_stats_frame free_unsent_frame : frame.

Lemma flush_port_frame i s s' : flush_port_queue i s = Ok s' → R s s'.
Proof. unfold flush_port_queue. intros Hrun. frame_run. Qed.

Lemma flush_nf_rx_frame i s s' : flush_nf_rx_queue i s = Ok s' → R s s'.
Proof. unfold flush_nf_rx_queue. intros Hrun. frame_run. Qed.

Lemma flush_nf_tx_frame i s s' : flush_nf_tx_queue i s = Ok s' → R s s'.
Proof. unfold flush_nf_tx_queue. intros Hrun. frame_run. Qed.

#[local] Hint Resolve flush_port_frame flush_nf_rx_frame flush_nf_tx_frame : frame.

Lemma enqueue_port_frame pkt i s s' : enqueue_port pkt i s = Ok s' → R s s'.
Proof. unfold enqueue_port. intros Hrun. frame_run. Qed.

Lemma enqueue_nf_rx_frame pkt i s s' : enqueue_nf_rx pkt i s = Ok s' → R s s'.
Proof. unfold enqueue_nf_rx. intros Hrun. frame_run. Qed.

Lemma enqueue_nf_tx_frame pkt i s s' : enqueue_nf_tx pkt i s = Ok s' → R s s'.
Proof. unfold enqueue_nf_tx. intros Hrun. frame_run. Qed.

#[local] Hint Resolve enqueue_port_frame enqueue_nf_rx_frame enqueue_nf_tx_frame : frame.

Lemma rx_packet_frame D i pkt s s' : rx_packet D i pkt s = Ok s' → R s s'.
Proof. unfold rx_packet. intros Hrun. frame_run. Qed.

Lemma rx_poll_frame i s l s' : rx_poll i s = Ok (l, s') → R s s'.
Proof. unfold rx_poll. intros Hrun. frame_run. Qed.

Lemma handle_request_frame i s s' : handle_request i s = Ok s' → R s s'.
Proof. unfold handle_request. intros Hrun. frame_run. Qed.

Lemma drain_poll_frame i s l s' : drain_poll i s = Ok (l, s') → R s s'.
Proof. unfold drain_poll. intros Hrun. frame_run. Qed.

Lemma coprocessor_poll_frame i s l s' : coprocessor_poll i s = Ok (l, s') → R s s'.
Proof. unfold coprocessor_poll. intros Hrun. frame_run. Qed.

Section coprocessor.
Context `{NetworkFunction F}.

Lemma coprocessor_packet_frame i pkt s (f : F) s' f' :
  coprocessor_packet i pkt (s, f) = Ok (s', f') → R s s'.
Proof. unfold coprocessor_packet. intros Hrun. frame_run. Qed.
End coprocessor.
End frame.

(** ** The stop flag *)
Section stop.
Context `{RteRing, RteKni}.

Definition keeps_stop (s s' : switch) : Prop := kni_stop (sw s') = kni_stop (sw s).

#[export] Instance keeps_stop_frame : Frame keeps_stop.
Proof.
  split; unfold keeps_stop.
  - split; [by intros s|]. intros s1 s2 s3 E1 E2. congruence.
  - intros i b s. unfold put_tx_buf. by destruct (qm_tx (tx_mgr (sw s))).
  - done.
  - done.
  - intros i a b c d s s'. unfold add_kni_stats. by intros (? & _ & [= <-])%bind_Ok.
  - intros i a b c d s s'. unfold add_nf_stats. by intros (? & _ & [= <-])%bind_Ok.
  - by intros [p|] s.
Qed.
End stop.

(** ** The counters are 64-bit integers *)
Section counters.
Context `{RteRing, RteKni}.

Definition is_u64 (z : Z) : Prop := 0 <= z < 2 ^ 64.
Definition kni_stats_typed (c : kni_interface_stats) : Prop :=
  is_u64 (k_rx_packets c) ∧ is_u64 (k_parse_err c) ∧ is_u64 (k_tx_packets c) ∧ is_u64 (k_tx_dropped c).
Definition nf_stats_typed (c : coprocessor_stats) : Prop :=
  is_u64 (n_rx_packets c) ∧ is_u64 (n_rx_dropped c) ∧ is_u64 (n_tx_packets c) ∧ is_u64 (n_tx_dropped c).

(** One row per port and per coprocessor. *)
Definition counters_typed (s : switch) : Prop :=
  length (kni_stats s) = 5%nat ∧ Forall kni_stats_typed (kni_stats s) ∧
  length (nf_stats s) = 5%nat ∧ Forall nf_stats_typed (nf_stats s).

Definition keeps_typed (s s' : switch) : Prop := counters_typed s → counters_typed s'.

#[export] Instance keeps_typed_frame : Frame keeps_typed.
Proof.
  split; unfold keeps_typed.
  - split; [by intros s|]. intros s1 s2 s3 E1 E2. auto.
  - intros i b s. unfold put_tx_buf. by destruct (qm_tx (tx_mgr (sw s))).
  - done.
  - done.
  - intros i a b c d s s'. unfold add_kni_stats. intros (st & _ & [= <-])%bind_Ok (Hl & Hall & Hrest).
    split; cbn; [by rewrite length_insert|]. split; [|done]. apply Forall_insert; [done|].
    repeat split; apply u64_range.
  - intros i a b c d s s'. unfold add_nf_stats. intros (st & _ & [= <-])%bind_Ok (Hl & Hall & Hl' & Hall').
    split_and!; cbn; [done..|by rewrite length_insert|]. apply Forall_insert; [done|].
    repeat split; apply u64_range.
  - by intros [p|] s.
Qed.
End counters.
