(* ===== verification/SwitchInv.v ===== *)
(** * Invariant of the switch and conservation of packets

    [wf_but] is the representation invariant of the data plane; [bal] is the
    ledger that compares the packets received from the virtual ports with
    those delivered, freed, or still held in buffers and rings.  The lemmas
    of this file give the effect of every operation of [Switch] on both. *)
From S2P Require Import Prelude Dpdk Config Switch.

(** ** Temporary buffers *)

(** Buffer [b] holds exactly the packets [l], in order. *)
Definition holds (b : packet_buf) (l : list mbuf) : Prop :=
  length (buffer b) = 32%nat ∧ count b = zlen l ∧ zlen l <= 32 ∧
  take (length l) (buffer b) = Some <$> l.

Definition contents (b : packet_buf) : list mbuf :=
  omap id (take (Z.to_nat (count b)) (buffer b)).

#[global] Arguments contents : simpl never.

(** At most [n] packets, all of which satisfy [Q]. *)
Definition wf_buf (Q : mbuf → Prop) (n : Z) (b : packet_buf) : Prop :=
  ∃ l, holds b l ∧ zlen l <= n ∧ Forall Q l.

Lemma omap_id_Some {A} (l : list A) : omap id (Some <$> l) = l.
Proof. induction l; f_equal/=; done. Qed.

Lemma holds_contents b l : holds b l → contents b = l.
Proof.
  intros (_ & Hc & _ & Ht). unfold contents. rewrite Hc. unfold zlen.
  by rewrite Nat2Z.id, Ht, omap_id_Some.
Qed.

Lemma wf_buf_contents Q n b : wf_buf Q n b → holds b (contents b) ∧ zlen (contents b) <= n ∧ Forall Q (contents b).
Proof. intros (l & Hl & ? & ?). by rewrite (holds_contents b l). Qed.

Lemma wf_buf_mono Q n m b : n <= m → wf_buf Q n b → wf_buf Q m b.
Proof. intros ? (l & ? & ? & ?). exists l. split_and!; [done|lia|done]. Qed.

Lemma wf_buf_empty Q n b : 0 <= n → length (buffer b) = 32%nat → wf_buf Q n (PacketBuf (buffer b) 0).
Proof. intros ??. exists []. unfold holds, zlen. simpl. rewrite take_0. split_and!; auto; lia. Qed.

Lemma contents_reset arr : contents (PacketBuf arr 0) = [].
Proof. unfold contents. by rewrite take_0. Qed.

Lemma holds_lookup b l i :
  holds b l → (i < length l)%nat → buffer b !! i = Some <$> l !! i.
Proof.
  intros (_ & _ & _ & Ht) Hi. rewrite <-(lookup_take_lt _ (length l)) by done.
  by rewrite Ht, list_lookup_fmap.
Qed.

Lemma buf_push_spec b l pkt :
  holds b l → zlen l < 32 → ∃ b', buf_push b pkt = Ok b' ∧ holds b' (l ++ [pkt]).
Proof.
  intros (Hlen & Hc & _ & Ht) Hl. unfold buf_push, zlen in *.
  rewrite arr_set_total by (unfold zlen; lia). simpl. eexists. split; [done|].
  unfold holds, zlen. simpl. rewrite length_insert, length_app. simpl.
  rewrite u16_id by lia. split_and!; [done|lia|lia|].
  rewrite Hc, Nat2Z.id, fmap_app, <-Ht. simpl.
  rewrite Nat.add_1_r, (take_S_r _ _ (Some pkt)) by (rewrite list_lookup_insert_eq; [done|lia]).
  by rewrite take_insert_ge by lia.
Qed.

(** Reading [n] entries starting at the [j]-th. *)
Lemma burst_args_from b l j n :
  holds b l → (j + n <= length l)%nat →
  mapM (λ i, p ← arr_get (buffer b) i; or_fault NullDereference p) (seqZ (Z.of_nat j) (Z.of_nat n))
  = Ok (take n (drop j l)).
Proof.
  intros Hb. revert j. induction n as [|n IH]; intros j Hj; [done|].
  rewrite seqZ_cons by lia. cbn [mapM].
  destruct (lookup_lt_is_Some_2 l j) as [m Hm]; [lia|].
  assert (arr_get (buffer b) (Z.of_nat j) = Ok (Some m)) as ->.
  { apply arr_get_Ok. split; [lia|]. by rewrite Nat2Z.id, (holds_lookup b l), Hm by (done || lia). }
  cbn [mbind outcome_bind or_fault].
  replace (Z.succ (Z.of_nat j)) with (Z.of_nat (S j)) by lia.
  replace (Z.pred (Z.of_nat (S n))) with (Z.of_nat n) by lia.
  rewrite IH by lia. cbn. f_equal. by rewrite (drop_S l m j).
Qed.

Lemma burst_args_spec b l : holds b l → burst_args b = Ok l.
Proof.
  intros Hb. unfold burst_args. destruct (Hb) as (_ & -> & _ & _).
  etrans; [exact (burst_args_from b l 0 (length l) Hb (le_n _))|]. by rewrite drop_0, firstn_all.
Qed.

(** ** The invariant *)

(** The forwarding policy the invariant tracks: the routing table and the
    packets the network function lets through. *)
Class Policy := { pol_table : gmap Z Z; pol_accepts : mbuf → Prop }.

(** The next hop as a function of the packet: the routing table entry of the
    last two bytes of the destination address of an IPv4 packet. *)
Definition next_hop (t : gmap Z Z) (pkt : mbuf) : Z :=
  if be16_at pkt 12 =? ETHER_TYPE_IPv4 then route t (be16_at pkt 32) else UNKNOWN_PORT.

(** A packet on its way to virtual port [i], and one that is also accepted by
    the network function. *)
Definition routed `{Policy} (i : nat) (pkt : mbuf) : Prop :=
  wf_mbuf pkt ∧ next_hop pol_table pkt = Z.of_nat i.
Definition cleared `{Policy} (i : nat) (pkt : mbuf) : Prop := routed i pkt ∧ pol_accepts pkt.

Section invariant.
Context `{RteRingLaws, RteKniLaws, Policy}.

(** The places where packets are staged. *)
Inductive site := PortTx (i : nat) | NfRx (i : nat) | NfTx (i : nat).
Global Instance site_eq_dec : EqDecision site.
Proof. solve_decision. Defined.

(** Every staging buffer has room for one more packet, except possibly the
    site [x], which may be full: the state between a push and its flush. *)
Definition cap (x : option site) (y : site) : Z := if decide (x = Some y) then 32 else 31.

Definition tx_of (s : switch) : list packet_buf :=
  match qm_tx (tx_mgr (sw s)) with Live tx => tx | _ => [] end.

Definition wf_queue (Q : mbuf → Prop) (q : option ring) : Prop :=
  ∃ r, q = Some r ∧ Forall Q (ring_items r).

Definition wf_mgr (x : option site) (i : nat) (c : coprocessor_mgr) : Prop :=
  wf_queue (routed i) (rx_q c) ∧ wf_queue (cleared i) (tx_q c) ∧
  wf_buf (routed i) (cap x (NfRx i)) (nf_rx c) ∧ wf_buf (cleared i) (cap x (NfTx i)) (nf_tx c).

(** Port [i] is allocated, and only packets cleared for it were sent to it. *)
Definition wf_port (i : nat) (p : option kni) : Prop :=
  ∃ k, p = Some k ∧ Forall (cleared i) (kni_sent k).

Record wf_but (x : option site) (s : switch) : Prop := {
  wf_nb : nb_active_kni (tx_mgr (sw s)) = 5;
  wf_tx_live : qm_tx (tx_mgr (sw s)) = Live (tx_of s);
  wf_tx_len : length (tx_of s) = 5%nat;
  wf_tx i b : tx_of s !! i = Some b → wf_buf (cleared i) (cap x (PortTx i)) b;
  wf_nf_len : length (nf (sw s)) = 5%nat;
  wf_nf i c : nf (sw s) !! i = Some c → wf_mgr x i c;
  wf_kni_len : length (kni_list (sw s)) = 5%nat;
  wf_kni i p : kni_list (sw s) !! i = Some p → wf_port i p;
  wf_kstats : length (kni_stats s) = 5%nat;
  wf_nstats : length (nf_stats s) = 5%nat;
  wf_table : routing_table (tx_mgr (sw s)) = pol_table;
  wf_routes i : 0 <= i < 65536 → let r := route pol_table i in r = UNKNOWN_PORT ∨ 0 <= r < 5;
}.

Abbreviation wf := (wf_but None).

(** ** The ledger *)

Definition q_held (x : mbuf) (q : option ring) : Z :=
  match q with Some r => occ x (ring_items r) | None => 0 end.
Definition mgr_held (x : mbuf) (c : coprocessor_mgr) : Z :=
  occ x (contents (nf_rx c)) + occ x (contents (nf_tx c)) + q_held x (rx_q c) + q_held x (tx_q c).
Definition tx_held (x : mbuf) (b : packet_buf) : Z := occ x (contents b).
Definition port_recvd (x : mbuf) (p : option kni) : Z :=
  match p with Some k => occ x (kni_recvd k) | None => 0 end.
Definition port_sent (x : mbuf) (p : option kni) : Z :=
  match p with Some k => occ x (kni_sent k) | None => 0 end.

(** How often packet [x] was received from, and delivered to, virtual ports,
    and how often it sits in a buffer or ring. *)
Definition received (x : mbuf) (s : switch) : Z := zsum (port_recvd x) (kni_list (sw s)).
Definition delivered (x : mbuf) (s : switch) : Z := zsum (port_sent x) (kni_list (sw s)).
Definition held (x : mbuf) (s : switch) : Z :=
  zsum (tx_held x) (tx_of s) + zsum (mgr_held x) (nf (sw s)).

Definition bal (x : mbuf) (s : switch) : Z :=
  received x s - delivered x s - occ x (freed s) - held x s.

Lemma q_held_nonneg x q : 0 <= q_held x q.
Proof. unfold q_held. destruct q; [apply occ_nonneg|lia]. Qed.

Lemma mgr_held_nonneg x c : 0 <= mgr_held x c.
Proof.
  unfold mgr_held. pose proof (occ_nonneg x (contents (nf_rx c))). pose proof (occ_nonneg x (contents (nf_tx c))).
  pose proof (q_held_nonneg x (rx_q c)). pose proof (q_held_nonneg x (tx_q c)). lia.
Qed.

Lemma delivered_nonneg x s : 0 <= delivered x s.
Proof. apply zsum_nonneg. intros [k|]; simpl; [apply occ_nonneg|lia]. Qed.

Lemma held_nonneg x s : 0 <= held x s.
Proof.
  unfold held. pose proof (zsum_nonneg (tx_held x) (tx_of s) ltac:(intros; apply occ_nonneg)).
  pose proof (zsum_nonneg (mgr_held x) (nf (sw s)) (mgr_held_nonneg x)). lia.
Qed.

(** [gives m s l]: the call [m] in state [s], whose caller hands over the
    packets [l], returns, keeps the invariant, and books every packet of
    [l] exactly once. *)
Definition gives (m : outcome switch) (s : switch) (l : list mbuf) : Prop :=
  ∃ s', m = Ok s' ∧ wf s' ∧ ∀ x, bal x s' = bal x s - occ x l.

Lemma gives_ret s : wf s → gives (Ok s) s [].
Proof. intros. exists s. split_and!; auto. intros x. rewrite occ_nil. lia. Qed.

Lemma gives_bind m k s l1 l2 :
  gives m s l1 → (∀ s', wf s' → gives (k s') s' l2) → gives (m ≫= k) s (l1 ++ l2).
Proof.
  intros (s1 & -> & Hwf & Hb) Hk. destruct (Hk s1 Hwf) as (s2 & Hs2 & ? & Hb2).
  exists s2. split_and!; [done..|]. intros x. rewrite Hb2, Hb, occ_app. lia.
Qed.

Lemma gives_foldM {A} (f : A → switch → outcome switch) (g : A → list mbuf) l s :
  wf s → (∀ a s, a ∈ l → wf s → gives (f a s) s (g a)) → gives (foldM f l s) s (l ≫= g).
Proof.
  revert s. induction l as [|a l IH]; intros s Hs Hf; simpl; [by apply gives_ret|].
  apply gives_bind; [apply Hf; [left|done]|]. intros s' Hs'. apply IH; [done|].
  intros a' s'' ? ?. apply Hf; [by right|done].
Qed.

(** Loops whose body hands over nothing. *)
Lemma gives_loop {A} (f : A → switch → outcome switch) l s :
  wf s → (∀ a s, a ∈ l → wf s → gives (f a s) s []) → gives (foldM f l s) s [].
Proof.
  intros Hs Hf. replace (@nil mbuf) with (l ≫= λ _, @nil mbuf); [by apply gives_foldM|].
  clear. induction l; auto.
Qed.

Lemma gives_packets (f : mbuf → switch → outcome switch) l s :
  wf s → (∀ p s, p ∈ l → wf s → gives (f p s) s [p]) → gives (foldM f l s) s l.
Proof.
  intros Hs Hf.
  replace l with (l ≫= λ p, [p]) at 2; [by apply gives_foldM|].
  clear. induction l; f_equal/=; done.
Qed.

(** ** Elementary updates *)

Lemma cap_range x y : 31 <= cap x y <= 32.
Proof. unfold cap. case_decide; lia. Qed.

Lemma cap_None z : cap None z = 31.
Proof. done. Qed.

Lemma cap_mono y z : cap None z <= cap (Some y) z.
Proof. rewrite cap_None. apply cap_range. Qed.

(** Moving the exempted site: the new state may exempt [y] provided every
    other site already satisfied the strict bound. *)
Definition focus (x : option site) (y : site) : Prop := x = None ∨ x = Some y.

Lemma focus_cap x y z : focus x y → z ≠ y → cap x z = 31.
Proof. intros [-> | ->] ?; unfold cap; case_decide; congruence. Qed.

Lemma wf_focus s y : wf s → wf_but (Some y) s.
Proof.
  intros []. split; auto.
  - intros i b Hb. eapply wf_buf_mono; [apply cap_mono|by eapply wf_tx0].
  - intros i c Hc. destruct (wf_nf0 i c Hc) as (?&?&?&?). split_and!; auto;
      (eapply wf_buf_mono; [apply cap_mono|done]).
Qed.

Lemma put_tx_run x s i b :
  wf_but x s →
  put_tx_buf i b s = set_sw (set_tx_mgr (set_qm_tx (Live (<[Z.to_nat i := b]> (tx_of s)))
    (tx_mgr (sw s))) (sw s)) s.
Proof. intros []. unfold put_tx_buf. by rewrite wf_tx_live0. Qed.

Lemma tx_of_put x s i b : wf_but x s → tx_of (put_tx_buf i b s) = <[Z.to_nat i := b]> (tx_of s).
Proof. intros Hs. by rewrite (put_tx_run x). Qed.

Lemma wf_put_tx x y s i b :
  focus x (PortTx (Z.to_nat i)) → focus y (PortTx (Z.to_nat i)) → wf_but x s →
  wf_buf (cleared (Z.to_nat i)) (cap y (PortTx (Z.to_nat i))) b → wf_but y (put_tx_buf i b s).
Proof.
  intros Hx Hy Hs Hb. pose proof (tx_of_put x s i b Hs) as Htx.
  rewrite (put_tx_run x) in * by done. destruct Hs. split; auto.
  - by rewrite Htx, length_insert.
  - rewrite Htx. intros j b' Hj. destruct (decide (j = Z.to_nat i)) as [->|].
    + apply list_lookup_insert_Some in Hj as [(_ & <- & _)|(? & _)]; done.
    + rewrite list_lookup_insert_ne in Hj by done.
      rewrite (focus_cap y (PortTx (Z.to_nat i))) by (done || congruence).
      rewrite <-(focus_cap x (PortTx (Z.to_nat i)) (PortTx j)) by (done || congruence). eauto.
  - intros j c Hj. destruct (wf_nf0 j c Hj) as (?&?&Hr&Ht). unfold wf_mgr.
    rewrite (focus_cap x (PortTx (Z.to_nat i))) in Hr, Ht by (done || congruence).
    rewrite !(focus_cap y (PortTx (Z.to_nat i))) by (done || congruence). auto.
Qed.

Lemma bal_put_tx p x s i b b' :
  wf_but p s → tx_of s !! Z.to_nat i = Some b →
  bal x (put_tx_buf i b' s) = bal x s + occ x (contents b) - occ x (contents b').
Proof.
  intros Hs Hb. unfold bal, held. rewrite (tx_of_put p), (zsum_insert _ _ _ b) by done.
  rewrite (put_tx_run p) by done. unfold received, delivered, tx_held. simpl. lia.
Qed.

Lemma wf_put_nf x y z s i c :
  (z = NfRx (Z.to_nat i) ∨ z = NfTx (Z.to_nat i)) →
  focus x z → focus y z → wf_but x s →
  wf_mgr y (Z.to_nat i) c → wf_but y (put_nf i c s).
Proof.
  intros Hz Hx Hy [] Hc. split; simpl; auto; try (by rewrite length_insert).
  - intros j b' Hj. rewrite (focus_cap y z) by (done || naive_solver congruence).
    rewrite <-(focus_cap x z (PortTx j)) by (done || naive_solver congruence). eauto.
  - intros j c' Hj. destruct (decide (j = Z.to_nat i)) as [->|].
    + apply list_lookup_insert_Some in Hj as [(_ & <- & _)|(? & _)]; done.
    + rewrite list_lookup_insert_ne in Hj by done. destruct (wf_nf0 j c' Hj) as (?&?&Hr&Ht).
      rewrite (focus_cap x z) in Hr, Ht by (done || naive_solver congruence). unfold wf_mgr.
      rewrite !(focus_cap y z) by (done || naive_solver congruence). auto.
Qed.

Lemma bal_put_nf x s i c c' :
  nf (sw s) !! Z.to_nat i = Some c →
  bal x (put_nf i c' s) = bal x s + mgr_held x c - mgr_held x c'.
Proof.
  intros Hc. unfold bal, held, received, delivered, tx_of. simpl.
  rewrite (zsum_insert _ _ _ c) by done. lia.
Qed.

Lemma wf_put_kni x s i k :
  Forall (cleared (Z.to_nat i)) (kni_sent k) → wf_but x s → wf_but x (put_kni i k s).
Proof.
  intros Hk []. split; simpl; auto; try (by rewrite length_insert).
  intros j p Hj. apply list_lookup_insert_Some in Hj as [(<- & <- & _)|(_ & ?)]; [by exists k|eauto].
Qed.

Lemma bal_put_kni x s i k k' :
  kni_list (sw s) !! Z.to_nat i = Some (Some k) →
  bal x (put_kni i k' s) = bal x s - (occ x (kni_recvd k) - occ x (kni_sent k))
    + (occ x (kni_recvd k') - occ x (kni_sent k')).
Proof.
  intros Hk. unfold bal, held, received, delivered, tx_of. simpl.
  rewrite !(zsum_insert _ _ _ (Some k)) by done. simpl. lia.
Qed.

Lemma get_kni_spec x s i :
  wf_but x s → 0 <= i < 5 →
  ∃ k, get_kni i s = Ok k ∧ kni_list (sw s) !! Z.to_nat i = Some (Some k) ∧
       Forall (cleared (Z.to_nat i)) (kni_sent k).
Proof.
  intros [] Hi. unfold get_kni.
  destruct (arr_get_total (kni_list (sw s)) i) as (p & -> & Hp); [unfold zlen; lia|].
  destruct (wf_kni0 _ _ Hp) as (k & -> & ?). simpl. eauto.
Qed.

Lemma get_nf_spec x s i :
  wf_but x s → 0 <= i < 5 →
  ∃ c, get_nf i s = Ok c ∧ nf (sw s) !! Z.to_nat i = Some c ∧ wf_mgr x (Z.to_nat i) c.
Proof.
  intros [] Hi. unfold get_nf.
  destruct (arr_get_total (nf (sw s)) i) as (c & -> & Hc); [unfold zlen; lia|]. eauto.
Qed.

Lemma get_tx_buf_spec x s i :
  wf_but x s → 0 <= i < 5 →
  ∃ b, get_tx_buf i s = Ok b ∧ tx_of s !! Z.to_nat i = Some b ∧
       wf_buf (cleared (Z.to_nat i)) (cap x (PortTx (Z.to_nat i))) b.
Proof.
  intros [] Hi. unfold get_tx_buf. rewrite wf_tx_live0. simpl.
  destruct (arr_get_total (tx_of s) i) as (b & -> & Hb); [unfold zlen; lia|]. eauto.
Qed.

(** Two states that agree on everything but the counters. *)
Definition same_data (s s' : switch) : Prop := sw s' = sw s ∧ freed s' = freed s.

Lemma add_kni_stats_spec x s i a b c d :
  wf_but x s → 0 <= i < 5 →
  ∃ s', add_kni_stats i a b c d s = Ok s' ∧ wf_but x s' ∧ same_data s s' ∧ nf_stats s' = nf_stats s.
Proof.
  intros [] Hi. unfold add_kni_stats.
  destruct (arr_get_total (kni_stats s) i) as (st & -> & _); [unfold zlen; lia|].
  simpl. eexists. split; [done|]. split; [|done].
  split; simpl; auto. by rewrite length_insert.
Qed.

Lemma add_nf_stats_spec x s i a b c d :
  wf_but x s → 0 <= i < 5 →
  ∃ s', add_nf_stats i a b c d s = Ok s' ∧ wf_but x s' ∧ same_data s s' ∧ kni_stats s' = kni_stats s.
Proof.
  intros [] Hi. unfold add_nf_stats.
  destruct (arr_get_total (nf_stats s) i) as (st & -> & _); [unfold zlen; lia|].
  simpl. eexists. split; [done|]. split; [|done].
  split; simpl; auto. by rewrite length_insert.
Qed.

Lemma same_data_bal x s s' : same_data s s' → bal x s' = bal x s.
Proof. intros [Hs Hf]. unfold bal, held, received, delivered, tx_of. by rewrite Hs, Hf. Qed.

(** [log_free l s] is [s] after freeing the packets [l] in order. *)
Definition log_free (l : list mbuf) (s : switch) : switch :=
  Switch (sw s) (kni_stats s) (nf_stats s) (freed s ++ l).

Lemma wf_log_free x l s : wf_but x s → wf_but x (log_free l s).
Proof. intros []. by split. Qed.

Lemma bal_log_free x l s : bal x (log_free l s) = bal x s - occ x l.
Proof. unfold bal, held, received, delivered, tx_of. simpl. rewrite occ_app. lia. Qed.

Lemma free_from_spec b l j n s :
  holds b l → (j + n <= length l)%nat →
  foldM (λ packet_idx s, p ← arr_get (buffer b) packet_idx; Ok (rte_pktmbuf_free p s))
    (seqZ (Z.of_nat j) (Z.of_nat n)) s = Ok (log_free (take n (drop j l)) s).
Proof.
  intros Hb. revert j s. induction n as [|n IH]; intros j s Hj.
  { simpl. unfold log_free. rewrite take_0, app_nil_r. by destruct s. }
  rewrite seqZ_cons by lia. cbn [foldM].
  destruct (lookup_lt_is_Some_2 l j) as [m Hm]; [lia|].
  assert (arr_get (buffer b) (Z.of_nat j) = Ok (Some m)) as ->.
  { apply arr_get_Ok. split; [lia|]. by rewrite Nat2Z.id, (holds_lookup b l), Hm by (done || lia). }
  cbn [mbind outcome_bind rte_pktmbuf_free].
  replace (Z.succ (Z.of_nat j)) with (Z.of_nat (S j)) by lia.
  replace (Z.pred (Z.of_nat (S n))) with (Z.of_nat n) by lia.
  rewrite IH by lia. unfold log_free. simpl. by rewrite (drop_S l m j), <-app_assoc.
Qed.

Lemma free_unsent_spec b l sent s :
  holds b l → 0 <= sent <= zlen l →
  free_unsent b sent s = Ok (log_free (drop (Z.to_nat sent) l) s).
Proof.
  intros Hb Hs. unfold free_unsent. destruct (Hb) as (_ & -> & _ & _). unfold zlen in *.
  replace sent with (Z.of_nat (Z.to_nat sent)) by lia.
  replace (Z.of_nat (length l) - Z.of_nat (Z.to_nat sent))
    with (Z.of_nat (length l - Z.to_nat sent)) by lia.
  rewrite (free_from_spec b l) by (done || lia).
  rewrite Nat2Z.id, take_ge by (rewrite length_drop; lia). done.
Qed.

(** The conditional free loop of the three flush functions. *)
Lemma free_rest_spec b l sent s :
  holds b l → 0 <= sent <= zlen l →
  (if sent <? count b then free_unsent b sent s else Ok s)
  = Ok (log_free (drop (Z.to_nat sent) l) s).
Proof.
  intros Hb Hs. destruct (Z.ltb_spec sent (count b)) as [|Hge]; [by apply free_unsent_spec|].
  destruct (Hb) as (_ & Hc & _ & _). unfold zlen in *.
  rewrite drop_ge by lia. unfold log_free. rewrite app_nil_r. by destruct s.
Qed.

End invariant.
