(* ===== verification/SwitchSpec.v ===== *)
(** * Correctness of the switch operations

    Every flush and enqueue operation, the fast path and the coprocessor loop
    return without undefined behaviour on well-formed states, preserve the
    invariant of [SwitchInv] and account for every packet exactly once. *)
From S2P Require Import Prelude Dpdk Config Switch SwitchInv.

Section spec.
Context `{ByteOrderLaws, RteRingLaws, RteKniLaws, Policy}.

Abbreviation wf := (wf_but None).

Lemma seqZ_range i n : i ∈ seqZ 0 n → 0 <= i < n.
Proof. rewrite elem_of_seqZ. lia. Qed.

(** A full or partial staging buffer of the switch holds its contents. *)
Lemma cap_buf Q x y b : wf_buf Q (cap x y) b → ∃ l, holds b l ∧ contents b = l ∧ Forall Q l ∧ zlen l <= 32.
Proof.
  intros (l & Hl & Hn & Hw). exists l. split_and!; [done|by apply holds_contents|done|].
  pose proof (cap_range x y). lia.
Qed.

Lemma holds_count_0 b l : holds b l → (count b =? 0) = bool_decide (l = []).
Proof.
  intros (_ & -> & _ & _). unfold zlen. destruct l; [done|].
  rewrite bool_decide_eq_false_2 by done. simpl. lia.
Qed.

Lemma wf_buf_nil Q n m b : 0 <= m → wf_buf Q n b → contents b = [] → wf_buf Q m b.
Proof.
  intros ? (Hh & _ & Hw)%wf_buf_contents E. rewrite E in *. exists []. auto.
Qed.

Lemma wf_unfocus x y s :
  focus x y → wf_but x s →
  match y with
  | PortTx i => ∀ b, tx_of s !! i = Some b → contents b = []
  | NfRx i => ∀ c, nf (sw s) !! i = Some c → contents (nf_rx c) = []
  | NfTx i => ∀ c, nf (sw s) !! i = Some c → contents (nf_tx c) = []
  end → wf s.
Proof.
  intros [-> | ->] Hs Hempty; [done|]. destruct Hs. split; auto.
  - intros i b Hb. specialize (wf_tx i b Hb). unfold cap in wf_tx. case_decide as E; [|done].
    injection E as ->. eapply wf_buf_nil; eauto. done.
  - intros i c Hc. destruct (wf_nf i c Hc) as (?&?&Hr&Ht). split_and!; [done..| |].
    + unfold cap in Hr. case_decide as E; [|done]. injection E as ->. eapply wf_buf_nil; eauto. done.
    + unfold cap in Ht. case_decide as E; [|done]. injection E as ->. eapply wf_buf_nil; eauto. done.
Qed.

(** ** Flushing *)

(** Sending a prefix of cleared packets keeps the port's record cleared. *)
Lemma sent_cleared Q k l n k' :
  kni_sent k' = kni_sent k ++ take n l → Forall Q l → Forall Q (kni_sent k) → Forall Q (kni_sent k').
Proof. intros -> ??. apply Forall_app. split; [done|by apply Forall_take]. Qed.

(** The run of [flush_port_queue] on a port whose buffer holds [l]. *)
Lemma flush_port_run x s i :
  wf_but x s → 0 <= i < 5 →
  ∃ b l k, tx_of s !! Z.to_nat i = Some b ∧ holds b l ∧ Forall (cleared (Z.to_nat i)) l ∧
    kni_list (sw s) !! Z.to_nat i = Some (Some k) ∧ Forall (cleared (Z.to_nat i)) (kni_sent k) ∧
    if bool_decide (l = []) then flush_port_queue i s = Ok s
    else ∃ n k' s1, rte_kni_tx_burst k l = (n, k') ∧ 0 <= n <= zlen l ∧
      add_kni_stats i 0 0 n (zlen l - n)
        (log_free (drop (Z.to_nat n) l) (put_kni i k' s)) = Ok s1 ∧
      flush_port_queue i s = Ok (put_tx_buf i (PacketBuf (buffer b) 0) s1).
Proof.
  intros Hs Hi. destruct (get_tx_buf_spec x s i Hs Hi) as (b & Hget & Hb & Hwb).
  destruct (cap_buf _ _ _ _ Hwb) as (l & Hl & _ & Hlw & Hl32).
  destruct (get_kni_spec x s i Hs Hi) as (k & Hk & Hkl & Hks).
  exists b, l, k. split_and!; [done..|].
  unfold flush_port_queue. rewrite (wf_nb x s Hs), Hget.
  destruct (Z.leb_spec 5 i); [lia|]. cbn [mbind outcome_bind].
  rewrite (holds_count_0 b l Hl), Hk, (burst_args_spec b l Hl). case_bool_decide; [done|].
  cbn [mbind outcome_bind].
  destruct (rte_kni_tx_burst k l) as [n k'] eqn:Htx.
  destruct (kni_tx_spec _ _ _ _ Htx) as (Hn & Hsent & _).
  rewrite u16_id, (free_rest_spec b l) by (done || lia).
  destruct Hl as (_ & Hc & _ & _). rewrite Hc. cbn [mbind outcome_bind].
  destruct (add_kni_stats_spec x (log_free (drop (Z.to_nat n) l) (put_kni i k' s)) i 0 0 n (zlen l - n))
    as (s1 & Hs1 & _); [apply wf_log_free, wf_put_kni; [by eapply sent_cleared; [exact Hsent|..]|done]|done|].
  exists n, k', s1. rewrite Hs1. auto.
Qed.

(** The runs of the two ring flushes. *)
Lemma ring_enqueue_range r l n r' : rte_ring_enqueue_bulk r l = (n, r') → 0 <= n <= zlen l.
Proof.
  intros Htx. unfold zlen. destruct (ring_enqueue_spec _ _ _ _ Htx) as [[-> _]|[-> _]]; unfold zlen; lia.
Qed.

Lemma flush_nf_rx_run x s i :
  wf_but x s → 0 <= i < 5 →
  ∃ c l r, nf (sw s) !! Z.to_nat i = Some c ∧ wf_mgr x (Z.to_nat i) c ∧ holds (nf_rx c) l ∧
    Forall (routed (Z.to_nat i)) l ∧ rx_q c = Some r ∧
    if bool_decide (l = []) then flush_nf_rx_queue i s = Ok s
    else ∃ n r' s1, rte_ring_enqueue_bulk r l = (n, r') ∧ 0 <= n <= zlen l ∧
      add_nf_stats i n (zlen l - n) 0 0 (log_free (drop (Z.to_nat n) l) s) = Ok s1 ∧
      flush_nf_rx_queue i s = Ok (put_nf i
        (CoprocessorMgr (Some r') (tx_q c) (PacketBuf (buffer (nf_rx c)) 0) (nf_tx c)) s1).
Proof.
  intros Hs Hi. destruct (get_nf_spec x s i Hs Hi) as (c & Hget & Hc & Hwc).
  destruct (Hwc) as ((r & Hr & _) & _ & Hwb & _).
  destruct (cap_buf _ _ _ _ Hwb) as (l & Hl & _ & Hlw & Hl32).
  exists c, l, r. split_and!; [done..|].
  unfold flush_nf_rx_queue. rewrite (wf_nb x s Hs), Hget.
  destruct (Z.leb_spec 5 i); [lia|]. cbn [mbind outcome_bind].
  rewrite Hr, (burst_args_spec _ l Hl), (holds_count_0 _ l Hl). case_bool_decide; [done|].
  cbn [mbind outcome_bind or_fault].
  destruct (rte_ring_enqueue_bulk r l) as [n r'] eqn:Htx.
  pose proof (ring_enqueue_range _ _ _ _ Htx) as Hn.
  rewrite u16_id, (free_rest_spec _ l) by (done || lia).
  destruct Hl as (_ & Hcnt & _ & _). rewrite Hcnt. cbn [mbind outcome_bind].
  destruct (add_nf_stats_spec x (log_free (drop (Z.to_nat n) l) s) i n (zlen l - n) 0 0)
    as (s1 & Hs1 & _); [by apply wf_log_free|done|].
  exists n, r', s1. rewrite Hs1. auto.
Qed.

Lemma flush_nf_tx_run x s i :
  wf_but x s → 0 <= i < 5 →
  ∃ c l r, nf (sw s) !! Z.to_nat i = Some c ∧ wf_mgr x (Z.to_nat i) c ∧ holds (nf_tx c) l ∧
    Forall (cleared (Z.to_nat i)) l ∧ tx_q c = Some r ∧
    if bool_decide (l = []) then flush_nf_tx_queue i s = Ok s
    else ∃ n r' s1, rte_ring_enqueue_bulk r l = (n, r') ∧ 0 <= n <= zlen l ∧
      add_nf_stats i 0 0 n (zlen l - n) (log_free (drop (Z.to_nat n) l) s) = Ok s1 ∧
      flush_nf_tx_queue i s = Ok (put_nf i
        (CoprocessorMgr (rx_q c) (Some r') (nf_rx c) (PacketBuf (buffer (nf_tx c)) 0)) s1).
Proof.
  intros Hs Hi. destruct (get_nf_spec x s i Hs Hi) as (c & Hget & Hc & Hwc).
  destruct (Hwc) as (_ & (r & Hr & _) & _ & Hwb).
  destruct (cap_buf _ _ _ _ Hwb) as (l & Hl & _ & Hlw & Hl32).
  exists c, l, r. split_and!; [done..|].
  unfold flush_nf_tx_queue. rewrite (wf_nb x s Hs), Hget.
  destruct (Z.leb_spec 5 i); [lia|]. cbn [mbind outcome_bind].
  rewrite Hr, (burst_args_spec _ l Hl), (holds_count_0 _ l Hl). case_bool_decide; [done|].
  cbn [mbind outcome_bind or_fault].
  destruct (rte_ring_enqueue_bulk r l) as [n r'] eqn:Htx.
  pose proof (ring_enqueue_range _ _ _ _ Htx) as Hn.
  rewrite u16_id, (free_rest_spec _ l) by (done || lia).
  destruct Hl as (_ & Hcnt & _ & _). rewrite Hcnt. cbn [mbind outcome_bind].
  destruct (add_nf_stats_spec x (log_free (drop (Z.to_nat n) l) s) i 0 0 n (zlen l - n))
    as (s1 & Hs1 & _); [by apply wf_log_free|done|].
  exists n, r', s1. rewrite Hs1. auto.
Qed.

(** Emptiness of the staging buffer of port, respectively coprocessor, [j]. *)
Definition empty_tx (j : nat) (s : switch) : Prop := ∀ b, tx_of s !! j = Some b → contents b = [].
Definition empty_rx (j : nat) (s : switch) : Prop := ∀ c, nf (sw s) !! j = Some c → contents (nf_rx c) = [].

Lemma flush_port_spec x s i :
  focus x (PortTx (Z.to_nat i)) → wf_but x s → 0 <= i < 5 →
  ∃ s', flush_port_queue i s = Ok s' ∧ wf s' ∧ (∀ m, bal m s' = bal m s) ∧
    (∀ j, j = Z.to_nat i ∨ empty_tx j s → empty_tx j s') ∧ (∀ j, empty_rx j s → empty_rx j s').
Proof.
  intros Hx Hs Hi. destruct (flush_port_run x s i Hs Hi) as (b & l & k & Hb & Hl & Hlw & Hk & Hks & Hrun).
  case_bool_decide as E.
  { exists s. assert (empty_tx (Z.to_nat i) s) as He.
    { intros b' Hb'. simplify_eq. by apply holds_contents. }
    split_and!; [done|by eapply wf_unfocus|done|naive_solver|done]. }
  destruct Hrun as (n & k' & s1 & Htx & Hn & Hstats & Hrun).
  destruct (kni_tx_spec _ _ _ _ Htx) as (_ & Hsent & Hrecvd).
  assert (wf_but x (log_free (drop (Z.to_nat n) l) (put_kni i k' s))) as Hw
    by (apply wf_log_free, wf_put_kni; [by eapply sent_cleared; [exact Hsent|..]|done]).
  destruct (add_kni_stats_spec x _ i 0 0 n (zlen l - n) Hw Hi) as (s1' & E1 & Hw1 & Hsame & _).
  rewrite Hstats in E1. injection E1 as <-.
  assert (tx_of s1 = tx_of s) as Htx1 by (destruct Hsame as [Hsw _]; unfold tx_of; by rewrite Hsw).
  exists (put_tx_buf i (PacketBuf (buffer b) 0) s1). split_and!; [done|..].
  - eapply wf_put_tx; [exact Hx|by left|done|]. apply wf_buf_empty; [|apply Hl].
    pose proof (cap_range None (PortTx (Z.to_nat i))). lia.
  - intros m. rewrite (bal_put_tx x _ _ _ b) by (by rewrite ?Htx1).
    rewrite contents_reset, occ_nil, (same_data_bal m _ _ Hsame), bal_log_free, (bal_put_kni _ _ _ k) by done.
    rewrite Hsent, Hrecvd, occ_app, (holds_contents b l) by done.
    pose proof (occ_take_drop m (Z.to_nat n) l). lia.
  - intros j Hj b' Hb'. rewrite (tx_of_put x), Htx1 in Hb' by done.
    apply list_lookup_insert_Some in Hb' as [(_ & <- & _)|(? & Hb')]; [apply contents_reset|].
    destruct Hj as [-> |Hj]; [done|by eapply Hj].
  - intros j Hj c Hc. rewrite (put_tx_run x) in Hc by done. simpl in Hc.
    destruct Hsame as [Hsw _]. rewrite Hsw in Hc. by eapply Hj.
Qed.

Lemma wf_queue_enqueue Q r l n r' :
  rte_ring_enqueue_bulk r l = (n, r') → Forall Q (ring_items r) → Forall Q l →
  wf_queue Q (Some r').
Proof.
  intros Hq ??. exists r'. split; [done|].
  destruct (ring_enqueue_spec _ _ _ _ Hq) as [[_ ->]|[_ ->]]; [by apply Forall_app|done].
Qed.

(** A bulk enqueue and the free of what was not enqueued book [l] once. *)
Lemma ring_enqueue_occ m r l n r' :
  rte_ring_enqueue_bulk r l = (n, r') →
  occ m (ring_items r') + occ m (drop (Z.to_nat n) l) = occ m (ring_items r) + occ m l.
Proof.
  intros Hq. destruct (ring_enqueue_spec _ _ _ _ Hq) as [[-> ->]|[-> ->]].
  - unfold zlen. rewrite Nat2Z.id, drop_all, occ_app, occ_nil. lia.
  - rewrite drop_0. lia.
Qed.

Lemma flush_nf_rx_spec x s i :
  focus x (NfRx (Z.to_nat i)) → wf_but x s → 0 <= i < 5 →
  ∃ s', flush_nf_rx_queue i s = Ok s' ∧ wf s' ∧ (∀ m, bal m s' = bal m s) ∧
    (∀ j, empty_tx j s → empty_tx j s') ∧ (∀ j, j = Z.to_nat i ∨ empty_rx j s → empty_rx j s').
Proof.
  intros Hx Hs Hi. destruct (flush_nf_rx_run x s i Hs Hi) as (c & l & r & Hc & Hwc & Hl & Hlw & Hr & Hrun).
  destruct (Hwc) as ((r0 & Hr0 & Hrw) & Hwt & Hwr & Hwtx). simplify_eq.
  case_bool_decide as E.
  { exists s. assert (empty_rx (Z.to_nat i) s) as He.
    { intros c' Hc'. simplify_eq. by apply holds_contents. }
    split_and!; [done|by eapply wf_unfocus|done|done|naive_solver]. }
  destruct Hrun as (n & r' & s1 & Hq & Hn & Hstats & Hrun).
  destruct (add_nf_stats_spec x _ i n (zlen l - n) 0 0 (wf_log_free x (drop (Z.to_nat n) l) s Hs) Hi)
    as (s1' & E1 & Hw1 & Hsame & _).
  rewrite Hstats in E1. injection E1 as <-. destruct (Hsame) as [Hsw _].
  eexists. split_and!; [done|..].
  - eapply (wf_put_nf x None (NfRx (Z.to_nat i))); [by left|exact Hx|by left|done|].
    split_and!; [by eapply wf_queue_enqueue|done|apply wf_buf_empty; [done|apply Hl]|].
    simpl. by rewrite (focus_cap x (NfRx (Z.to_nat i))) in Hwtx.
  - intros m. rewrite (bal_put_nf _ _ _ c) by (by rewrite Hsw).
    rewrite (same_data_bal m _ _ Hsame), bal_log_free. unfold mgr_held. simpl.
    rewrite Hr, contents_reset, occ_nil, (holds_contents _ l) by done. simpl.
    pose proof (ring_enqueue_occ m _ _ _ _ Hq). lia.
  - intros j Hj b Hb. unfold tx_of in Hb. simpl in Hb. rewrite Hsw in Hb. by apply Hj.
  - intros j Hj c' Hc'. simpl in Hc'. rewrite Hsw in Hc'.
    apply list_lookup_insert_Some in Hc' as [(_ & <- & _)|(? & Hc')]; [apply contents_reset|].
    destruct Hj as [-> |Hj]; [done|by eapply Hj].
Qed.

Lemma flush_nf_tx_gives x s i :
  focus x (NfTx (Z.to_nat i)) → wf_but x s → 0 <= i < 5 → gives (flush_nf_tx_queue i s) s [].
Proof.
  intros Hx Hs Hi. destruct (flush_nf_tx_run x s i Hs Hi) as (c & l & r & Hc & Hwc & Hl & Hlw & Hr & Hrun).
  destruct (Hwc) as (Hwt & (r0 & Hr0 & Hrw) & Hwrx & Hwtx). simplify_eq.
  case_bool_decide as E.
  { rewrite Hrun. apply gives_ret. eapply wf_unfocus; [done..|]. simpl.
    intros c' Hc'. simplify_eq. by apply holds_contents. }
  destruct Hrun as (n & r' & s1 & Hq & Hn & Hstats & Hrun).
  destruct (add_nf_stats_spec x _ i 0 0 n (zlen l - n) (wf_log_free x (drop (Z.to_nat n) l) s Hs) Hi)
    as (s1' & E1 & Hw1 & Hsame & _).
  rewrite Hstats in E1. injection E1 as <-. destruct (Hsame) as [Hsw _].
  eexists. split_and!; [done|..].
  - eapply (wf_put_nf x None (NfTx (Z.to_nat i))); [by right|exact Hx|by left|done|].
    split_and!; [done|by eapply wf_queue_enqueue| |apply wf_buf_empty; [done|apply Hl]].
    simpl. by rewrite (focus_cap x (NfTx (Z.to_nat i))) in Hwrx.
  - intros m. rewrite (bal_put_nf _ _ _ c) by (by rewrite Hsw).
    rewrite (same_data_bal m _ _ Hsame), bal_log_free. unfold mgr_held. simpl.
    rewrite Hr, contents_reset, !occ_nil, (holds_contents (nf_tx c) l) by done. simpl.
    pose proof (ring_enqueue_occ m _ _ _ _ Hq). lia.
Qed.

(** ** Enqueueing *)

Lemma gives_of_spec s (m : outcome switch) (P : switch → Prop) s0 l :
  (∃ s', m = Ok s' ∧ wf s' ∧ (∀ y, bal y s' = bal y s) ∧ P s') →
  (∀ y, bal y s = bal y s0 - occ y l) → gives m s0 l.
Proof. intros (s' & -> & ? & Hb & _) Hl. exists s'. split_and!; [done..|]. intros y. by rewrite Hb. Qed.

Lemma push_room (Q : mbuf → Prop) z b pkt :
  wf_buf Q (cap None z) b → Q pkt →
  ∃ b', buf_push b pkt = Ok b' ∧ (∀ m, occ m (contents b') = occ m (contents b) + occ m [pkt]) ∧
    wf_buf Q 32 b' ∧ (count b' ≠ 32 → wf_buf Q 31 b').
Proof.
  intros (l & Hl & Hn & Hw) Hp. rewrite cap_None in Hn.
  destruct (buf_push_spec b l pkt Hl) as (b' & -> & Hb'); [lia|].
  assert (zlen (l ++ [pkt]) = zlen l + 1) as Hlen by (unfold zlen; rewrite length_app; simpl; lia).
  exists b'. split_and!; [done|..].
  - intros m. by rewrite (holds_contents b' _ Hb'), (holds_contents b _ Hl), occ_app.
  - exists (l ++ [pkt]). rewrite Hlen, Forall_app. auto with lia.
  - destruct (Hb') as (_ & Hc & _ & _). rewrite Hc, Hlen. intros ?.
    exists (l ++ [pkt]). rewrite Hlen, Forall_app. auto with lia.
Qed.

Lemma enqueue_port_gives s i pkt :
  wf s → 0 <= i < 5 → cleared (Z.to_nat i) pkt → gives (enqueue_port pkt i s) s [pkt].
Proof.
  intros Hs Hi Hp. destruct (get_tx_buf_spec None s i Hs Hi) as (b & Hget & Hb & Hwb).
  unfold enqueue_port. rewrite (wf_nb _ _ Hs), Hget. destruct (Z.leb_spec 5 i); [lia|].
  destruct (push_room _ (PortTx (Z.to_nat i)) b pkt Hwb Hp)
    as (b' & Hpush & Hocc & Hw32 & Hw31).
  cbn [mbind outcome_bind]. rewrite Hpush. cbn [mbind outcome_bind].
  assert (∀ m, bal m (put_tx_buf i b' s) = bal m s - occ m [pkt]) as Hbal.
  { intros m. rewrite (bal_put_tx None _ _ _ b) by done. rewrite Hocc. lia. }
  destruct (Z.eqb_spec (count b') PKT_BURST_SZ).
  - assert (wf_but (Some (PortTx (Z.to_nat i))) (put_tx_buf i b' s)) as Hw.
    { eapply wf_put_tx; [by left|by right|done|]. unfold cap. by rewrite decide_True. }
    eapply gives_of_spec; [eapply flush_port_spec; [by right|exact Hw|done]|done].
  - exists (put_tx_buf i b' s). split_and!; [done| |done].
    eapply wf_put_tx; [by left|by left|done|]. by apply Hw31.
Qed.

Lemma enqueue_nf_rx_gives s i pkt :
  wf s → 0 <= i < 5 → routed (Z.to_nat i) pkt → gives (enqueue_nf_rx pkt i s) s [pkt].
Proof.
  intros Hs Hi Hp. destruct (get_nf_spec None s i Hs Hi) as (c & Hget & Hc & (Hrq & Htq & Hwb & Hwt)).
  unfold enqueue_nf_rx. rewrite (wf_nb _ _ Hs), Hget. destruct (Z.leb_spec 5 i); [lia|].
  destruct (push_room _ (NfRx (Z.to_nat i)) _ pkt Hwb Hp)
    as (b' & Hpush & Hocc & Hw32 & Hw31).
  cbn [mbind outcome_bind]. rewrite Hpush. cbn [mbind outcome_bind].
  set (c' := CoprocessorMgr (rx_q c) (tx_q c) b' (nf_tx c)).
  assert (∀ m, bal m (put_nf i c' s) = bal m s - occ m [pkt]) as Hbal.
  { intros m. rewrite (bal_put_nf _ _ _ c) by done. unfold mgr_held. simpl. rewrite Hocc. lia. }
  destruct (Z.eqb_spec (count b') PKT_BURST_SZ).
  - assert (wf_but (Some (NfRx (Z.to_nat i))) (put_nf i c' s)) as Hw.
    { eapply (wf_put_nf None _ (NfRx (Z.to_nat i))); [by left|by left|by right|done|].
      split_and!; [done..| |]; unfold cap; [by rewrite decide_True|by rewrite decide_False]. }
    eapply gives_of_spec; [eapply flush_nf_rx_spec; [by right|exact Hw|done]|done].
  - exists (put_nf i c' s). split_and!; [done| |done].
    eapply (wf_put_nf None None (NfRx (Z.to_nat i))); [by left|by left|by left|done|].
    split_and!; [done..|by apply Hw31|done].
Qed.

Lemma enqueue_nf_tx_gives s i pkt :
  wf s → 0 <= i < 5 → cleared (Z.to_nat i) pkt → gives (enqueue_nf_tx pkt i s) s [pkt].
Proof.
  intros Hs Hi Hp. destruct (get_nf_spec None s i Hs Hi) as (c & Hget & Hc & (Hrq & Htq & Hwr & Hwb)).
  unfold enqueue_nf_tx. rewrite (wf_nb _ _ Hs), Hget. destruct (Z.leb_spec 5 i); [lia|].
  destruct (push_room _ (NfTx (Z.to_nat i)) _ pkt Hwb Hp)
    as (b' & Hpush & Hocc & Hw32 & Hw31).
  cbn [mbind outcome_bind]. rewrite Hpush. cbn [mbind outcome_bind].
  set (c' := CoprocessorMgr (rx_q c) (tx_q c) (nf_rx c) b').
  assert (∀ m, bal m (put_nf i c' s) = bal m s - occ m [pkt]) as Hbal.
  { intros m. rewrite (bal_put_nf _ _ _ c) by done. unfold mgr_held. simpl. rewrite Hocc. lia. }
  destruct (Z.eqb_spec (count b') PKT_BURST_SZ).
  - assert (wf_but (Some (NfTx (Z.to_nat i))) (put_nf i c' s)) as Hw.
    { eapply (wf_put_nf None _ (NfTx (Z.to_nat i))); [by right|by left|by right|done|].
      split_and!; [done..| |]; unfold cap; [by rewrite decide_False|by rewrite decide_True]. }
    destruct (flush_nf_tx_gives (Some (NfTx (Z.to_nat i))) _ i (or_intror eq_refl) Hw Hi) as (s' & -> & ? & Hb').
    exists s'. split_and!; [done..|]. intros m. rewrite Hb', Hbal, occ_nil. lia.
  - exists (put_nf i c' s). split_and!; [done| |done].
    eapply (wf_put_nf None None (NfTx (Z.to_nat i))); [by right|by left|by left|done|].
    split_and!; [done..|by apply Hw31].
Qed.

(** ** Routing *)

Lemma get_next_hop_spec pkt s :
  wf_mbuf pkt →
  get_next_hop pkt s = Ok (next_hop (routing_table (tx_mgr (sw s))) pkt).
Proof.
  intros Hp. unfold get_next_hop, next_hop, off_ether_type, sizeof_ether_hdr, off_dst_addr.
  rewrite load_be16 by (done || lia). cbn [mbind outcome_bind].
  change (Z.to_nat 12) with 12%nat. destruct (be16_at pkt 12 =? ETHER_TYPE_IPv4); simpl negb; [|done].
  rewrite load_be32 by (done || lia). cbn [mbind outcome_bind].
  change (Z.to_nat (14 + 16)) with 30%nat. do 2 f_equal.
  pose proof (byte_at_range pkt Hp 30 ltac:(lia)). pose proof (byte_at_range pkt Hp 31 ltac:(lia)).
  pose proof (byte_at_range pkt Hp 32 ltac:(lia)). pose proof (byte_at_range pkt Hp 33 ltac:(lia)).
  change 0xFFFF with (Z.ones 16). rewrite Z.land_ones by lia. unfold be32_at, be16_at. simpl Nat.add.
  words.
Qed.

Lemma be16_at_range pkt i : wf_mbuf pkt → (i < 33)%nat → 0 <= be16_at pkt i < 65536.
Proof.
  intros Hp Hi. pose proof (byte_at_range pkt Hp i ltac:(lia)).
  pose proof (byte_at_range pkt Hp (1 + i) ltac:(lia)). unfold be16_at, is_byte in *. lia.
Qed.

Lemma get_next_hop_wf pkt s :
  wf s → wf_mbuf pkt →
  ∃ p, get_next_hop pkt s = Ok p ∧ (p = UNKNOWN_PORT ∨ 0 <= p < 5 ∧ routed (Z.to_nat p) pkt).
Proof.
  intros Hs Hp. eexists. split; [by apply get_next_hop_spec|]. rewrite (wf_table _ _ Hs).
  assert (next_hop pol_table pkt = UNKNOWN_PORT ∨ 0 <= next_hop pol_table pkt < 5) as [?|Hr]; [|by left|].
  - unfold next_hop. destruct (_ =? _); [|by left]. apply (wf_routes _ _ Hs). by apply be16_at_range; [|lia].
  - right. split; [done|]. split; [done|]. lia.
Qed.

End spec.
