(* ===== verification/FastPath.v ===== *)
(** * The two packet loops of the engine

    Theorems about one iteration of the fast path ([fastpath]) and of a
    coprocessor thread ([coprocessor]): memory safety, conservation of
    packets, and emptiness of the staging buffers. *)
From S2P Require Import Prelude Dpdk Config Switch SwitchInv SwitchSpec.

Section fastpath.
Context `{ByteOrderLaws, RteRingLaws, RteKniLaws, Policy}.

Abbreviation wf := (wf_but None).

(** ** Receiving *)

(** Without a network function every packet counts as accepted. *)
Definition bypass_ok (D : bool) : Prop := D = true → ∀ pkt, pol_accepts pkt.

Lemma rx_packet_gives D i pkt s :
  bypass_ok D → wf s → 0 <= i < 5 → wf_mbuf pkt → gives (rx_packet D i pkt s) s [pkt].
Proof.
  intros HD Hs Hi Hp. unfold rx_packet. destruct (get_next_hop_wf pkt s Hs Hp) as (p & -> & Hr).
  cbn [mbind outcome_bind]. destruct (Z.eqb_spec p UNKNOWN_PORT) as [|Hne].
  - destruct (add_kni_stats_spec None (log_free [pkt] s) i 0 1 0 0) as (s' & Hs' & ? & Hsame & _);
      [by apply wf_log_free|done|].
    exists s'. split_and!; [exact Hs'|done|]. intros x. by rewrite (same_data_bal _ _ _ Hsame), bal_log_free.
  - destruct Hr as [|[Hr Hrt]]; [done|].
    destruct D; [|by apply enqueue_nf_rx_gives]. apply enqueue_port_gives; [done..|]. split; [done|by apply HD].
Qed.

(** A burst is at most [PKT_BURST_SZ] long, so the 16- and 32-bit counters of
    the loops index all of it. *)
Lemma burst_take16 (l : list mbuf) : zlen l <= Z.max 0 PKT_BURST_SZ → take (Z.to_nat (u16 (zlen l))) l = l.
Proof.
  unfold zlen, PKT_BURST_SZ. intros Hl. rewrite u16_id, Nat2Z.id by lia. apply firstn_all.
Qed.
Lemma burst_take32 (l : list mbuf) : zlen l <= Z.max 0 PKT_BURST_SZ → take (Z.to_nat (u32 (zlen l))) l = l.
Proof.
  unfold zlen, PKT_BURST_SZ. intros Hl. rewrite u32_id, Nat2Z.id by lia. apply firstn_all.
Qed.

(** A burst is received from port [i]. *)
Lemma rx_poll_spec i s :
  wf s → 0 <= i < 5 →
  ∃ k l k' s', kni_list (sw s) !! Z.to_nat i = Some (Some k) ∧ rte_kni_rx_burst k PKT_BURST_SZ = (l, k') ∧
    rx_poll i s = Ok (l, s') ∧ zlen l <= PKT_BURST_SZ ∧ Forall wf_mbuf l ∧ same_data (put_kni i k' s) s' ∧ wf s' ∧
    ∀ x, bal x s' = bal x s + occ x l.
Proof.
  intros Hs Hi. unfold rx_poll. destruct (get_kni_spec None s i Hs Hi) as (k & -> & Hk & Hks).
  cbn [mbind outcome_bind]. destruct (rte_kni_rx_burst k PKT_BURST_SZ) as [l k'] eqn:Hrx.
  destruct (kni_rx_spec _ _ _ _ Hrx) as (Hlen & Hlw & Hrecvd & Hsent). rewrite burst_take16 by done.
  destruct (add_kni_stats_spec None (put_kni i k' s) i (u16 (zlen l)) 0 0 0) as (s1 & -> & Hs1 & Hsame & _);
    [apply wf_put_kni; [by rewrite Hsent|done]|done|]. exists k, l, k', s1. split_and!; try done.
  intros x. rewrite (same_data_bal _ _ _ Hsame), (bal_put_kni _ _ _ k) by done. rewrite Hrecvd, Hsent, occ_app. lia.
Qed.

Lemma handle_request_spec i s :
  wf s → 0 <= i < 5 →
  ∃ k, kni_list (sw s) !! Z.to_nat i = Some (Some k) ∧
    let s' := put_kni i (rte_kni_handle_request k) s in
    handle_request i s = Ok s' ∧ wf s' ∧ ∀ x, bal x s' = bal x s.
Proof.
  intros Hs Hi. unfold handle_request. destruct (get_kni_spec None s i Hs Hi) as (k & -> & Hk & Hks).
  destruct (kni_handle_request_spec k) as [Hr Ht]. exists k. split_and!; [done..|apply wf_put_kni; [by rewrite Ht|done]|].
  intros x. rewrite (bal_put_kni _ _ _ k) by done. rewrite Hr, Ht. lia.
Qed.

Lemma rx_port_gives D i s : bypass_ok D → wf s → 0 <= i < 5 → gives (rx_port D i s) s [].
Proof.
  intros HD Hs Hi. unfold rx_port.
  destruct (rx_poll_spec i s Hs Hi) as (k & l & k' & s1 & _ & _ & -> & _ & Hlw & _ & Hs1 & Hb1). cbn [mbind outcome_bind].
  destruct (gives_packets (rx_packet D i) l s1 Hs1) as (s2 & -> & Hs2 & Hb2).
  { intros p s' Hp Hs'. apply rx_packet_gives; [done..|]. rewrite Forall_forall in Hlw. by apply Hlw. }
  cbn [mbind outcome_bind]. destruct (handle_request_spec i s2 Hs2 Hi) as (k2 & _ & -> & Hs3 & Hb3).
  eexists. split_and!; [done..|]. intros x. rewrite Hb3, Hb2, Hb1, occ_nil. lia.
Qed.

(** ** Draining the coprocessors *)

(** A burst is taken from the transmit ring of coprocessor [i]. *)
Lemma drain_poll_spec i s :
  wf s → 0 <= i < 5 →
  ∃ c r l r', nf (sw s) !! Z.to_nat i = Some c ∧ tx_q c = Some r ∧ rte_ring_dequeue_burst r PKT_BURST_SZ = (l, r') ∧
    ring_items r = l ++ ring_items r' ∧ zlen l <= PKT_BURST_SZ ∧ Forall (cleared (Z.to_nat i)) l ∧
    let s' := put_nf i (CoprocessorMgr (rx_q c) (Some r') (nf_rx c) (nf_tx c)) s in
    drain_poll i s = Ok (l, s') ∧ wf s' ∧ ∀ x, bal x s' = bal x s + occ x l.
Proof.
  intros Hs Hi. unfold drain_poll.
  destruct (get_nf_spec None s i Hs Hi) as (c & -> & Hc & (Hrq & (r & Hr & Hrw) & Hwr & Hwt)).
  cbn [mbind outcome_bind]. rewrite Hr. cbn [mbind outcome_bind or_fault].
  destruct (rte_ring_dequeue_burst r PKT_BURST_SZ) as [l r'] eqn:Hdq.
  destruct (ring_dequeue_spec _ _ _ _ Hdq) as (Hitems & Hlen). rewrite Hitems in Hrw.
  apply Forall_app in Hrw as [Hlw Hrw']. rewrite burst_take16 by done. exists c, r, l, r'. split_and!; try done.
  - eapply (wf_put_nf None None (NfTx (Z.to_nat i))); [by right|by left|by left|done|].
    split_and!; [done| |done..]. by exists r'.
  - intros x. rewrite (bal_put_nf _ _ _ c) by done. unfold mgr_held. simpl. rewrite Hr. simpl. rewrite Hitems, occ_app. lia.
Qed.

Lemma drain_coprocessor_gives i s : wf s → 0 <= i < 5 → gives (drain_coprocessor i s) s [].
Proof.
  intros Hs Hi. unfold drain_coprocessor.
  destruct (drain_poll_spec i s Hs Hi) as (c & r & l & r' & _ & _ & _ & _ & _ & Hlw & -> & Hw & Hb). cbn [mbind outcome_bind].
  destruct (gives_packets (λ pkt s, enqueue_port pkt i s) l _ Hw) as (s2 & Hs2 & Hw2 & Hb2).
  { intros p s' Hp Hs'. apply enqueue_port_gives; [done..|]. rewrite Forall_forall in Hlw. by apply Hlw. }
  exists s2. split_and!; [done..|]. intros x. rewrite Hb2, Hb, occ_nil. lia.
Qed.

(** ** Flushing everything *)

Lemma flush_all_spec s :
  wf s →
  ∃ s', flush_all 5 5 s = Ok s' ∧ wf s' ∧ (∀ x, bal x s' = bal x s) ∧
    ∀ j, empty_tx j s' ∧ empty_rx j s'.
Proof.
  intros Hs. unfold flush_all.
  destruct (foldM_total flush_port_queue (λ todo s1, todo ⊆ seqZ 0 5 ∧ wf s1 ∧
    (∀ x, bal x s1 = bal x s) ∧ ∀ j, (j < 5)%nat → Z.of_nat j ∉ todo → empty_tx j s1) (seqZ 0 5) s)
    as (s1 & Hrun1 & _ & Hw1 & Hb1 & He1).
  { split_and!; [done..|]. intros j Hj Hnj. exfalso. apply Hnj, elem_of_seqZ. lia. }
  { intros i l s1 (Hsub & Hw1 & Hb1 & He1).
    assert (0 <= i < 5) as Hi by (apply seqZ_range, Hsub; left).
    destruct (flush_port_spec None s1 i) as (s2 & -> & Hw2 & Hb2 & He2 & _); [by left|done..|].
    eexists; split_and!; [done|set_solver|done|intros; by rewrite Hb2|].
    intros j Hj Hjl. apply He2. destruct (decide (j = Z.to_nat i)) as [|Hne]; [by left|right].
    apply He1; [done|]. apply not_elem_of_cons. split; [lia|done]. }
  rewrite Hrun1. cbn [mbind outcome_bind].
  destruct (foldM_total flush_nf_rx_queue (λ todo s2, todo ⊆ seqZ 0 5 ∧ wf s2 ∧
    (∀ x, bal x s2 = bal x s) ∧ (∀ j, (j < 5)%nat → empty_tx j s2) ∧
    ∀ j, (j < 5)%nat → Z.of_nat j ∉ todo → empty_rx j s2) (seqZ 0 5) s1)
    as (s2 & Hrun2 & _ & Hw2 & Hb2 & Het & Her).
  { split_and!; [done|done|done| |].
    - intros j Hj. apply He1; [done|]. apply not_elem_of_nil.
    - intros j Hj Hnj. exfalso. apply Hnj, elem_of_seqZ. lia. }
  { intros i l s2 (Hsub & Hw2 & Hb2 & Het & Her).
    assert (0 <= i < 5) as Hi by (apply seqZ_range, Hsub; left).
    destruct (flush_nf_rx_spec None s2 i) as (s3 & -> & Hw3 & Hb3 & Het3 & Her3); [by left|done..|].
    eexists; split_and!; [done|set_solver|done|intros; by rewrite Hb3|auto|].
    intros j Hj Hjl. apply Her3. destruct (decide (j = Z.to_nat i)) as [|Hne]; [by left|right].
    apply Her; [done|]. apply not_elem_of_cons. split; [lia|done]. }
  exists s2. split_and!; [done..|]. intros j. split.
  - intros b Hb. apply (Het j); [|done]. apply lookup_lt_Some in Hb. by rewrite (wf_tx_len _ _ Hw2) in Hb.
  - intros c Hc. apply (Her j); [|apply not_elem_of_nil|done].
    apply lookup_lt_Some in Hc. by rewrite (wf_nf_len _ _ Hw2) in Hc.
Qed.

Lemma fastpath_spec D s :
  bypass_ok D → wf s →
  ∃ s', fastpath D 5 5 s = Ok s' ∧ wf s' ∧ (∀ x, bal x s' = bal x s) ∧
    ∀ j, empty_tx j s' ∧ empty_rx j s'.
Proof.
  intros HD Hs. unfold fastpath.
  destruct (gives_loop (rx_port D) (seqZ 0 5) s Hs) as (s1 & -> & Hw1 & Hb1).
  { intros i s' Hi Hs'. apply rx_port_gives; [done|done|by apply seqZ_range]. }
  cbn [mbind outcome_bind]. destruct (flush_all_spec s1 Hw1) as (s2 & -> & Hw2 & Hb2 & He2).
  cbn [mbind outcome_bind].
  assert (∀ x, bal x s2 = bal x s) as Hb by (intros x; rewrite Hb2, Hb1, occ_nil; lia).
  destruct D; [by exists s2|].
  destruct (gives_loop drain_coprocessor (seqZ 0 5) s2 Hw2) as (s3 & -> & Hw3 & Hb3).
  { intros i s' Hi Hs'. apply drain_coprocessor_gives; [done|by apply seqZ_range]. }
  cbn [mbind outcome_bind]. destruct (flush_all_spec s3 Hw3) as (s4 & -> & Hw4 & Hb4 & He4).
  exists s4. split_and!; [done..| |done]. intros x. rewrite Hb4, Hb3, Hb, occ_nil. lia.
Qed.

(** ** The coprocessor loop *)

(** A burst is taken from the receive ring of coprocessor [i]. *)
Lemma coprocessor_poll_spec i s :
  wf s → 0 <= i < 5 →
  ∃ c r l r', nf (sw s) !! Z.to_nat i = Some c ∧ rx_q c = Some r ∧ rte_ring_dequeue_burst r PKT_BURST_SZ = (l, r') ∧
    ring_items r = l ++ ring_items r' ∧ zlen l <= PKT_BURST_SZ ∧ Forall (routed (Z.to_nat i)) l ∧
    let s' := put_nf i (CoprocessorMgr (Some r') (tx_q c) (nf_rx c) (nf_tx c)) s in
    coprocessor_poll i s = Ok (l, s') ∧ wf s' ∧ ∀ x, bal x s' = bal x s + occ x l.
Proof.
  intros Hs Hi. unfold coprocessor_poll.
  destruct (get_nf_spec None s i Hs Hi) as (c & -> & Hc & ((r & Hr & Hrw) & Htq & Hwr & Hwt)).
  cbn [mbind outcome_bind]. rewrite Hr. cbn [mbind outcome_bind or_fault].
  destruct (rte_ring_dequeue_burst r PKT_BURST_SZ) as [l r'] eqn:Hdq.
  destruct (ring_dequeue_spec _ _ _ _ Hdq) as (Hitems & Hlen). rewrite Hitems in Hrw.
  apply Forall_app in Hrw as [Hlw Hrw']. rewrite burst_take32 by done. exists c, r, l, r'. split_and!; try done.
  - eapply (wf_put_nf None None (NfTx (Z.to_nat i))); [by right|by left|by left|done|].
    split_and!; [by exists r'|done..].
  - intros x. rewrite (bal_put_nf _ _ _ c) by done. unfold mgr_held. simpl. rewrite Hr. simpl. rewrite Hitems, occ_app. lia.
Qed.

Section coprocessor.
Context {F : Type} `{NetworkFunction F}.

(** ** The interface to the network function

    What the coprocessor loop relies on: in the states [nf_state_ok] the
    function processes every well-formed packet it admits, keeps its state in
    this set, and forwards only packets the policy accepts. *)
Class NetworkFunctionSpec := {
  nf_state_ok : F → Prop;
  nf_admits : mbuf → Prop;
  nf_total f pkt : nf_state_ok f → wf_mbuf pkt → nf_admits pkt → ∃ ret f', process_packet f pkt = Ok (ret, f');
  nf_sound f pkt ret f' : nf_state_ok f → wf_mbuf pkt → process_packet f pkt = Ok (ret, f') →
    nf_state_ok f' ∧ (ret = 0 → pol_accepts pkt);
}.

Context {nf_spec : NetworkFunctionSpec}.

(** A packet is passed on or freed. *)
Lemma coprocessor_packet_run i p s f s' f' :
  nf_state_ok f → routed (Z.to_nat i) p → coprocessor_packet i p (s, f) = Ok (s', f') →
  nf_state_ok f' ∧
  (cleared (Z.to_nat i) p ∧ enqueue_nf_tx p i s = Ok s' ∨ s' = log_free [p] s).
Proof.
  intros Hf Hp. unfold coprocessor_packet. intros ([ret f1] & Hproc & Hrun)%bind_Ok.
  destruct (nf_sound f p ret f1 Hf (proj1 Hp) Hproc) as [Hf1 Hacc]. destruct (Z.eqb_spec ret 0) as [->|].
  - apply bind_Ok in Hrun as (s1 & Hen & [= -> ->]). split; [done|left]. split; [|done]. split; [done|by apply Hacc].
  - injection Hrun as <- <-. split; [done|by right].
Qed.

(** It returns with the invariant intact unless the network function does not
    admit the packet. *)
Lemma coprocessor_packet_spec i p s f :
  nf_state_ok f → wf s → 0 <= i < 5 → routed (Z.to_nat i) p →
  match coprocessor_packet i p (s, f) with
  | Ok (s', f') => nf_state_ok f' ∧ wf s' ∧ ∀ x, bal x s' = bal x s - occ x [p]
  | _ => ¬ nf_admits p
  end.
Proof.
  intros Hf Hs Hi Hp. destruct (coprocessor_packet i p (s, f)) as [[s' f']| |] eqn:Hrun.
  { destruct (coprocessor_packet_run i p s f s' f' Hf Hp Hrun) as [Hf' [[Hcl Hen]| ->]]; (split; [done|]).
    + destruct (enqueue_nf_tx_gives s i p) as (s1 & Hen' & Hw & Hb); [done..|]. assert (s1 = s') as -> by congruence. done.
    + split; [by apply wf_log_free|]. intros x. apply bal_log_free. }
  all: intros (ret & f1 & Hproc)%(nf_total f p Hf (proj1 Hp)); revert Hrun; unfold coprocessor_packet; rewrite Hproc.
  all: cbn [mbind outcome_bind]; destruct (Z.eqb_spec ret 0) as [->|]; [|done].
  all: assert (cleared (Z.to_nat i) p) as Hcl by (split; [done|by apply (nf_sound f p 0 f1 Hf (proj1 Hp) Hproc)]).
  all: by destruct (enqueue_nf_tx_gives s i p Hs Hi Hcl) as (s1 & -> & _).
Qed.

(** The loop over a burst. *)
Lemma coprocessor_packets i l s f :
  nf_state_ok f → wf s → 0 <= i < 5 → Forall (routed (Z.to_nat i)) l →
  match foldM (coprocessor_packet i) l (s, f) with
  | Ok (s', f') => nf_state_ok f' ∧ wf s' ∧ ∀ x, bal x s' = bal x s - occ x l
  | _ => ∃ p, p ∈ l ∧ ¬ nf_admits p
  end.
Proof.
  revert s f. induction l as [|p l IH]; intros s f Hf Hs Hi Hl.
  { cbn. split_and!; [done..|]. intros x. rewrite occ_nil. lia. }
  apply Forall_cons in Hl as [Hp Hl]. cbn [foldM]. pose proof (coprocessor_packet_spec i p s f Hf Hs Hi Hp) as Hone.
  destruct (coprocessor_packet i p (s, f)) as [[s1 f1]| |]; cbn [mbind outcome_bind]; [|exists p; by split; [left|]..].
  destruct Hone as (Hf1 & Hw1 & Hb1). specialize (IH s1 f1 Hf1 Hw1 Hi Hl).
  destruct (foldM (coprocessor_packet i) l (s1, f1)) as [[s2 f2]| |].
  - destruct IH as (? & ? & Hb2). split_and!; [done..|]. intros x. rewrite Hb2, Hb1, (occ_cons x p l). lia.
  - destruct IH as (q & ? & ?). exists q. split; [by right|done].
  - destruct IH as (q & ? & ?). exists q. split; [by right|done].
Qed.

Lemma coprocessor_spec i s f c r :
  nf_state_ok f → wf s → 0 <= i < 5 → nf (sw s) !! Z.to_nat i = Some c → rx_q c = Some r →
  match coprocessor i (s, f) with
  | Ok (s', f') => nf_state_ok f' ∧ wf s' ∧ ∀ x, bal x s' = bal x s
  | _ => ∃ p, p ∈ ring_items r ∧ ¬ nf_admits p
  end.
Proof.
  intros Hf Hs Hi Hc Hr. unfold coprocessor.
  destruct (coprocessor_poll_spec i s Hs Hi) as (c' & r0 & l & r' & Hc' & Hr0 & _ & Hitems & _ & Hlw & -> & Hw & Hb). simplify_eq.
  cbn [mbind outcome_bind]. set (s1 := put_nf _ _ _) in *. pose proof (coprocessor_packets i l s1 f Hf Hw Hi Hlw) as Hrun.
  destruct (foldM (coprocessor_packet i) l (s1, f)) as [[s2 f2]| |]; cbn [mbind outcome_bind];
    [|destruct Hrun as (p & ? & ?); exists p; rewrite Hitems, elem_of_app; auto..].
  destruct Hrun as (Hf2 & Hw2 & Hb2).
  destruct (flush_nf_tx_gives None s2 i (or_introl eq_refl) Hw2 Hi) as (s3 & -> & Hw3 & Hb3).
  cbn [mbind outcome_bind]. split_and!; [done..|]. intros x. rewrite Hb3, Hb2, Hb, occ_nil. lia.
Qed.
End coprocessor.

End fastpath.
