(* ===== verification/SwitchOrder.v ===== *)
(** * Order of packets through the switch

    The packets on their way to port [i] form one stream: those sent to the
    port, then those staged for it, those in the transmit ring and buffer of
    coprocessor [i], and those in its receive ring and buffer, oldest first.
    Every operation of the switch only drops packets of a stream or appends
    newly received ones at its end. *)
From S2P Require Import Prelude Dpdk Config Switch SwitchInv SwitchSpec FastPath.

Section order.
Context `{ByteOrderLaws, RteRingLaws, RteKniLaws, Policy}.
Implicit Types (s : switch) (l h : list mbuf).

Abbreviation wf := (wf_but None).

Definition q_items (q : option ring) : list mbuf := match q with Some r => ring_items r | None => [] end.

Definition sent_of s (i : nat) : list mbuf :=
  match kni_list (sw s) !! i with Some (Some k) => kni_sent k | _ => [] end.
Definition recvd_of s (i : nat) : list mbuf :=
  match kni_list (sw s) !! i with Some (Some k) => kni_recvd k | _ => [] end.
Definition staged_of s (i : nat) : list mbuf := match tx_of s !! i with Some b => contents b | None => [] end.

(** What coprocessor [i] holds; [h]: the packets of the burst that it has
    taken from its receive ring and not yet judged. *)
Definition mgr_items (c : coprocessor_mgr) h : list mbuf :=
  q_items (tx_q c) ++ contents (nf_tx c) ++ h ++ q_items (rx_q c) ++ contents (nf_rx c).
Definition coproc_of s (i : nat) h : list mbuf :=
  match nf (sw s) !! i with Some c => mgr_items c h | None => [] end.

(** The stream of port [i]; [h1]: the packets of the burst that the fast path
    has taken from the transmit ring and not yet staged. *)
Definition stream s (i : nat) h1 h2 : list mbuf := sent_of s i ++ staged_of s i ++ h1 ++ coproc_of s i h2.

(** [s'] has the streams of [s], less some packets. *)
Definition thins s s' : Prop := ∀ j h1 h2, stream s' j h1 h2 `sublist_of` stream s j h1 h2.

Definition same_recvd s s' : Prop := ∀ j, recvd_of s' j = recvd_of s j.

(** The same, for all ports at once. *)
Definition arrived (p : option kni) : list mbuf := match p with Some k => kni_recvd k | None => [] end.

Lemma same_arrived s s' : arrived <$> kni_list (sw s') = arrived <$> kni_list (sw s) → same_recvd s s'.
Proof.
  intros E j. apply (f_equal (.!! j)) in E. rewrite !list_lookup_fmap in E. unfold recvd_of, arrived in *.
  destruct (kni_list (sw s') !! j) as [[|]|], (kni_list (sw s) !! j) as [[|]|]; by simplify_eq/=.
Qed.

(** ** Updates *)

Lemma same_data_stream s s' : same_data s s' → thins s s' ∧ same_recvd s s'.
Proof.
  intros [Hsw _]. split; [intros j h1 h2|intros j]; unfold stream, sent_of, staged_of, coproc_of, recvd_of, tx_of; by rewrite Hsw.
Qed.

Lemma thins_same s : thins s s ∧ same_recvd s s.
Proof. split; [intros j h1 h2|intros j]; done. Qed.

Lemma thins_trans s1 s2 s3 : thins s1 s2 → thins s2 s3 → thins s1 s3.
Proof. intros H12 H23 j h1 h2. etrans; [apply H23|apply H12]. Qed.

Lemma same_recvd_trans s1 s2 s3 : same_recvd s1 s2 → same_recvd s2 s3 → same_recvd s1 s3.
Proof. intros H12 H23 j. by rewrite H23, H12. Qed.

Lemma lookup_put_kni i k s j p :
  kni_list (sw s) !! Z.to_nat i = Some p →
  kni_list (sw (put_kni i k s)) !! j = if decide (j = Z.to_nat i) then Some (Some k) else kni_list (sw s) !! j.
Proof.
  intros Hp. cbn. case_decide as Hj; [subst j|by rewrite list_lookup_insert_ne].
  by apply list_lookup_insert_eq, (lookup_lt_Some _ _ _ Hp).
Qed.

Lemma lookup_put_nf i c c' s j :
  nf (sw s) !! Z.to_nat i = Some c →
  nf (sw (put_nf i c' s)) !! j = if decide (j = Z.to_nat i) then Some c' else nf (sw s) !! j.
Proof.
  intros Hc. cbn. case_decide as Hj; [subst j|by rewrite list_lookup_insert_ne].
  by apply list_lookup_insert_eq, (lookup_lt_Some _ _ _ Hc).
Qed.

Lemma lookup_put_tx x i b b' s j :
  wf_but x s → tx_of s !! Z.to_nat i = Some b →
  tx_of (put_tx_buf i b' s) !! j = if decide (j = Z.to_nat i) then Some b' else tx_of s !! j.
Proof.
  intros Hs Hb. rewrite (tx_of_put x) by done. case_decide as Hj; [subst j|by rewrite list_lookup_insert_ne].
  by apply list_lookup_insert_eq, (lookup_lt_Some _ _ _ Hb).
Qed.

(** Replacing the manager of coprocessor [i]. *)
Lemma stream_put_nf i c c' s j h1 h2 :
  nf (sw s) !! Z.to_nat i = Some c →
  stream (put_nf i c' s) j h1 h2 =
    if decide (j = Z.to_nat i) then sent_of s j ++ staged_of s j ++ h1 ++ mgr_items c' h2 else stream s j h1 h2.
Proof.
  intros Hc. unfold stream, coproc_of. rewrite (lookup_put_nf i c) by done. by case_decide.
Qed.

(** Replacing the staging buffer of port [i]. *)
Lemma stream_put_tx x i b b' s j h1 h2 :
  wf_but x s → tx_of s !! Z.to_nat i = Some b →
  stream (put_tx_buf i b' s) j h1 h2 =
    if decide (j = Z.to_nat i) then sent_of s j ++ contents b' ++ h1 ++ coproc_of s j h2 else stream s j h1 h2.
Proof.
  intros Hs Hb. unfold stream, staged_of. rewrite (lookup_put_tx x i b) by done.
  rewrite (put_tx_run x) by done. by case_decide.
Qed.

Lemma recvd_put_tx x i b s : wf_but x s → same_recvd s (put_tx_buf i b s).
Proof. intros Hs j. by rewrite (put_tx_run x). Qed.

(** ** Flushing *)

Lemma flush_port_thins x s i s' :
  wf_but x s → 0 <= i < 5 → flush_port_queue i s = Ok s' → thins s s' ∧ same_recvd s s'.
Proof.
  intros Hs Hi Hrun. destruct (flush_port_run x s i Hs Hi) as (b & l & k & Hb & Hl & Hlw & Hk & Hks & Hcase).
  case_bool_decide as E; [rewrite Hcase in Hrun; injection Hrun as <-; apply thins_same|].
  destruct Hcase as (n & k' & s1 & Htx & Hn & Hstats & Hrun'). rewrite Hrun' in Hrun. injection Hrun as <-.
  destruct (kni_tx_spec _ _ _ _ Htx) as (_ & Hsent & Hrecvd).
  assert (wf_but x (log_free (drop (Z.to_nat n) l) (put_kni i k' s))) as Hw
    by (apply wf_log_free, wf_put_kni; [by eapply sent_cleared; [exact Hsent|..]|done]).
  destruct (add_kni_stats_spec x _ i 0 0 n (zlen l - n) Hw Hi) as (s1' & E1 & Hw1 & Hsame & _).
  rewrite Hstats in E1. injection E1 as <-. destruct (Hsame) as [Hsw _].
  assert (tx_of s1 = tx_of s) as Htx1 by (unfold tx_of; by rewrite Hsw).
  assert (∀ j, kni_list (sw s1) !! j = if decide (j = Z.to_nat i) then Some (Some k') else kni_list (sw s) !! j) as Hkl.
  { intros j. rewrite Hsw. cbn [log_free sw]. by apply (lookup_put_kni _ _ _ _ (Some k)). }
  assert (∀ j h, coproc_of s1 j h = coproc_of s j h) as Hco by (intros j h; unfold coproc_of; by rewrite Hsw).
  split.
  - intros j h1 h2. rewrite (stream_put_tx x i b) by (by rewrite ?Htx1).
    unfold stream, staged_of, sent_of. rewrite Hkl, Htx1, Hco. case_decide as Hj; [|done]. subst j.
    rewrite Hk, Hb, (holds_contents b l Hl), Hsent, contents_reset, <-app_assoc. cbn.
    apply sublist_app; [done|]. apply sublist_app; [apply sublist_take|done].
  - intros j. rewrite (recvd_put_tx x i _ s1 Hw1). unfold recvd_of. rewrite Hkl. case_decide as Hj; [|done]. subst j.
    by rewrite Hk, Hrecvd.
Qed.

(** A bulk enqueue appends or does nothing. *)
Lemma ring_enqueue_thins r l n r' : rte_ring_enqueue_bulk r l = (n, r') → ring_items r' `sublist_of` ring_items r ++ l.
Proof.
  intros Hq. destruct (ring_enqueue_spec _ _ _ _ Hq) as [[_ ->]|[_ ->]]; [done|by apply sublist_inserts_r].
Qed.

Lemma flush_nf_rx_thins x s i s' :
  wf_but x s → 0 <= i < 5 → flush_nf_rx_queue i s = Ok s' → thins s s' ∧ same_recvd s s'.
Proof.
  intros Hs Hi Hrun. destruct (flush_nf_rx_run x s i Hs Hi) as (c & l & r & Hc & Hwc & Hl & Hlw & Hr & Hcase).
  case_bool_decide as E; [rewrite Hcase in Hrun; injection Hrun as <-; apply thins_same|].
  destruct Hcase as (n & r' & s1 & Hq & Hn & Hstats & Hrun'). rewrite Hrun' in Hrun. injection Hrun as <-.
  destruct (add_nf_stats_spec x _ i n (zlen l - n) 0 0 (wf_log_free x (drop (Z.to_nat n) l) s Hs) Hi)
    as (s1' & E1 & _ & Hsame & _). rewrite Hstats in E1. injection E1 as <-.
  destruct (Hsame) as [Hsw _]. cbn [log_free sw] in Hsw. split; [|intros j; unfold recvd_of; cbn; by rewrite Hsw].
  intros j h1 h2. rewrite (stream_put_nf i c) by (by rewrite Hsw).
  unfold stream, staged_of, sent_of, coproc_of, tx_of. rewrite Hsw. case_decide as Hj; [|done]. subst j.
  rewrite Hc. unfold mgr_items. cbn. rewrite Hr, contents_reset, (holds_contents _ l Hl), app_nil_r. cbn.
  repeat (apply sublist_app; [done|]). by eapply ring_enqueue_thins.
Qed.

Lemma flush_nf_tx_thins x s i s' :
  wf_but x s → 0 <= i < 5 → flush_nf_tx_queue i s = Ok s' → thins s s' ∧ same_recvd s s'.
Proof.
  intros Hs Hi Hrun. destruct (flush_nf_tx_run x s i Hs Hi) as (c & l & r & Hc & Hwc & Hl & Hlw & Hr & Hcase).
  case_bool_decide as E; [rewrite Hcase in Hrun; injection Hrun as <-; apply thins_same|].
  destruct Hcase as (n & r' & s1 & Hq & Hn & Hstats & Hrun'). rewrite Hrun' in Hrun. injection Hrun as <-.
  destruct (add_nf_stats_spec x _ i 0 0 n (zlen l - n) (wf_log_free x (drop (Z.to_nat n) l) s Hs) Hi)
    as (s1' & E1 & _ & Hsame & _). rewrite Hstats in E1. injection E1 as <-.
  destruct (Hsame) as [Hsw _]. cbn [log_free sw] in Hsw. split; [|intros j; unfold recvd_of; cbn; by rewrite Hsw].
  intros j h1 h2. rewrite (stream_put_nf i c) by (by rewrite Hsw).
  unfold stream, staged_of, sent_of, coproc_of, tx_of. rewrite Hsw. case_decide as Hj; [|done]. subst j.
  rewrite Hc. unfold mgr_items. cbn. rewrite Hr, contents_reset, (holds_contents _ l Hl). cbn.
  do 3 (apply sublist_app; [done|]). rewrite (app_assoc (ring_items r)). apply sublist_app; [|done]. by eapply ring_enqueue_thins.
Qed.

(** ** Enqueueing

    A packet that is enqueued moves from the burst in hand to the end of a
    staging buffer. *)

Definition with_head (i : nat) pkt (j : nat) h : list mbuf := if decide (j = i) then pkt :: h else h.

Lemma push_contents Q z b pkt b' :
  wf_buf Q (cap None z) b → buf_push b pkt = Ok b' → contents b' = contents b ++ [pkt].
Proof.
  intros (l & Hl & Hn & _) Hpush. rewrite cap_None in Hn.
  destruct (buf_push_spec b l pkt Hl) as (b'' & Hpush' & Hb'); [lia|]. rewrite Hpush' in Hpush. injection Hpush as ->.
  by rewrite (holds_contents _ _ Hb'), (holds_contents _ _ Hl).
Qed.

(** The conditional flush at the end of the three enqueue functions. *)
Lemma maybe_flush (full : bool) (flush : switch → outcome switch) s s' :
  (∀ s', flush s = Ok s' → thins s s' ∧ same_recvd s s') → (if full then flush s else Ok s) = Ok s' →
  thins s s' ∧ same_recvd s s'.
Proof. intros Hf. destruct full; [by apply Hf|]. intros [= <-]. apply thins_same. Qed.

Lemma enqueue_port_order s i pkt s' :
  wf s → 0 <= i < 5 → cleared (Z.to_nat i) pkt → enqueue_port pkt i s = Ok s' →
  same_recvd s s' ∧ ∀ j h1 h2, stream s' j h1 h2 `sublist_of` stream s j (with_head (Z.to_nat i) pkt j h1) h2.
Proof.
  intros Hs Hi Hp. destruct (get_tx_buf_spec None s i Hs Hi) as (b & Hget & Hb & Hwb).
  unfold enqueue_port. rewrite (wf_nb _ _ Hs), Hget. destruct (Z.leb_spec 5 i); [lia|]. cbn [mbind outcome_bind].
  destruct (push_room _ (PortTx (Z.to_nat i)) b pkt Hwb Hp) as (b' & Hpush & _ & Hw32 & _).
  rewrite Hpush. cbn [mbind outcome_bind]. intros Hrun.
  assert (wf_but (Some (PortTx (Z.to_nat i))) (put_tx_buf i b' s)) as Hw.
  { eapply (wf_put_tx None); [by left|by right|done|]. unfold cap. by rewrite decide_True. }
  apply maybe_flush in Hrun as [Ht Hr]; [|intros s1; by apply (flush_port_thins _ _ _ _ Hw Hi)].
  split; [by eapply same_recvd_trans; [apply (recvd_put_tx None)|]|].
  intros j h1 h2. etrans; [apply Ht|]. rewrite (stream_put_tx None i b) by done. unfold with_head.
  case_decide as Hj; [|done]. subst j. unfold stream, staged_of.
  rewrite Hb, (push_contents _ _ _ _ _ Hwb Hpush), <-app_assoc. done.
Qed.

Lemma enqueue_nf_tx_order s i pkt s' :
  wf s → 0 <= i < 5 → cleared (Z.to_nat i) pkt → enqueue_nf_tx pkt i s = Ok s' →
  same_recvd s s' ∧ ∀ j h1 h2, stream s' j h1 h2 `sublist_of` stream s j h1 (with_head (Z.to_nat i) pkt j h2).
Proof.
  intros Hs Hi Hp. destruct (get_nf_spec None s i Hs Hi) as (c & Hget & Hc & (Hrq & Htq & Hwr & Hwt)).
  unfold enqueue_nf_tx. rewrite (wf_nb _ _ Hs), Hget. destruct (Z.leb_spec 5 i); [lia|]. cbn [mbind outcome_bind].
  destruct (push_room _ (NfTx (Z.to_nat i)) (nf_tx c) pkt Hwt Hp) as (b' & Hpush & _ & Hw32 & _).
  rewrite Hpush. cbn [mbind outcome_bind]. intros Hrun. set (c' := CoprocessorMgr _ _ _ _) in *.
  assert (wf_but (Some (NfTx (Z.to_nat i))) (put_nf i c' s)) as Hw.
  { eapply (wf_put_nf None _ (NfTx (Z.to_nat i))); [by right|by left|by right|done|].
    split_and!; [done..| |]; unfold cap; [by rewrite decide_False|by rewrite decide_True]. }
  apply maybe_flush in Hrun as [Ht Hr]; [|intros s1; by apply (flush_nf_tx_thins _ _ _ _ Hw Hi)].
  split; [done|]. intros j h1 h2. etrans; [apply Ht|]. rewrite (stream_put_nf i c) by done. unfold with_head.
  case_decide as Hj; [|done]. subst j. unfold stream, coproc_of. rewrite Hc. unfold mgr_items. cbn.
  rewrite (push_contents _ _ _ _ _ Hwt Hpush), <-app_assoc. done.
Qed.

(** A received packet is appended to the stream. *)
Lemma enqueue_nf_rx_order s i pkt s' :
  wf s → 0 <= i < 5 → routed (Z.to_nat i) pkt → enqueue_nf_rx pkt i s = Ok s' →
  same_recvd s s' ∧
  ∀ j h1 h2, stream s' j h1 h2 `sublist_of` stream s j h1 h2 ++ (if decide (j = Z.to_nat i) then [pkt] else []).
Proof.
  intros Hs Hi Hp. destruct (get_nf_spec None s i Hs Hi) as (c & Hget & Hc & (Hrq & Htq & Hwr & Hwt)).
  unfold enqueue_nf_rx. rewrite (wf_nb _ _ Hs), Hget. destruct (Z.leb_spec 5 i); [lia|]. cbn [mbind outcome_bind].
  destruct (push_room _ (NfRx (Z.to_nat i)) (nf_rx c) pkt Hwr Hp) as (b' & Hpush & _ & Hw32 & _).
  rewrite Hpush. cbn [mbind outcome_bind]. intros Hrun. set (c' := CoprocessorMgr _ _ _ _) in *.
  assert (wf_but (Some (NfRx (Z.to_nat i))) (put_nf i c' s)) as Hw.
  { eapply (wf_put_nf None _ (NfRx (Z.to_nat i))); [by left|by left|by right|done|].
    split_and!; [done..| |]; unfold cap; [by rewrite decide_True|by rewrite decide_False]. }
  apply maybe_flush in Hrun as [Ht Hr]; [|intros s1; by apply (flush_nf_rx_thins _ _ _ _ Hw Hi)].
  split; [done|]. intros j h1 h2. etrans; [apply Ht|]. rewrite (stream_put_nf i c) by done.
  case_decide as Hj; [|by rewrite app_nil_r]. subst j. unfold stream, coproc_of. rewrite Hc. unfold mgr_items. cbn.
  rewrite (push_contents _ _ _ _ _ Hwr Hpush), <-!app_assoc. done.
Qed.

(** ** The steps of the fast path *)

(** The packets of [l] that are routed to port [j]. *)
Definition bound_for (j : nat) l : list mbuf := filter (λ pkt, next_hop pol_table pkt = Z.of_nat j) l.

(** [s'] has the streams of [s], less some packets, with the packets of [l] appended. *)
Definition appends s l s' : Prop := ∀ j h1 h2, stream s' j h1 h2 `sublist_of` stream s j h1 h2 ++ bound_for j l.

Lemma rx_packet_order i pkt s s' :
  wf s → 0 <= i < 5 → wf_mbuf pkt → rx_packet false i pkt s = Ok s' → same_recvd s s' ∧ appends s [pkt] s'.
Proof.
  intros Hs Hi Hp. unfold rx_packet. rewrite (get_next_hop_spec pkt s Hp), (wf_table _ _ Hs). cbn [mbind outcome_bind].
  destruct (get_next_hop_wf pkt s Hs Hp) as (p & Hhop & Hr).
  rewrite (get_next_hop_spec pkt s Hp), (wf_table _ _ Hs) in Hhop. injection Hhop as Hhop. rewrite Hhop.
  destruct (Z.eqb_spec p UNKNOWN_PORT) as [|Hne].
  - destruct (add_kni_stats_spec None (log_free [pkt] s) i 0 1 0 0 (wf_log_free _ _ _ Hs) Hi) as (s1 & Hrun & _ & Hsame & _).
    intros Hrun'. change (add_kni_stats i 0 1 0 0 (log_free [pkt] s) = Ok s') in Hrun'. assert (s' = s1) as -> by congruence. destruct Hsame as [Hsw _]. cbn [log_free sw] in Hsw.
    assert (same_data s (Switch (sw s1) (kni_stats s1) (nf_stats s1) (freed s))) as [Ht Hr']%same_data_stream by done.
    split; [exact Hr'|]. intros j h1 h2. apply sublist_inserts_r. exact (Ht j h1 h2).
  - destruct Hr as [|[Hr Hrt]]; [done|]. intros [Hrec Hst]%enqueue_nf_rx_order; [|done..]. split; [done|].
    intros j h1 h2. etrans; [apply Hst|]. unfold bound_for. rewrite filter_cons, filter_nil, Hhop.
    case_decide as Hj; [|by case_decide; [apply sublist_app; [done|apply sublist_nil_l]|]].
    subst j. by rewrite decide_True by lia.
Qed.

Lemma stream_put_kni i k k' s j h1 h2 :
  kni_list (sw s) !! Z.to_nat i = Some (Some k) → kni_sent k' = kni_sent k →
  stream (put_kni i k' s) j h1 h2 = stream s j h1 h2.
Proof.
  intros Hk Hsent. unfold stream, sent_of. rewrite (lookup_put_kni _ _ _ _ (Some k)) by done.
  case_decide as Hj; [|done]. subst j. by rewrite Hk, Hsent.
Qed.

Lemma recvd_put_kni i k k' s j l :
  kni_list (sw s) !! Z.to_nat i = Some (Some k) → kni_recvd k' = kni_recvd k ++ l →
  recvd_of (put_kni i k' s) j = recvd_of s j ++ (if decide (j = Z.to_nat i) then l else []).
Proof.
  intros Hk Hrecvd. unfold recvd_of. rewrite (lookup_put_kni _ _ _ _ (Some k)) by done.
  case_decide as Hj; [|by rewrite app_nil_r]. subst j. by rewrite Hk, Hrecvd.
Qed.

(** A burst is received from port [i]. *)
Lemma rx_poll_order i s l s' :
  wf s → 0 <= i < 5 → rx_poll i s = Ok (l, s') →
  thins s s' ∧ ∀ j, recvd_of s' j = recvd_of s j ++ (if decide (j = Z.to_nat i) then l else []).
Proof.
  intros Hs Hi Hrun. destruct (rx_poll_spec i s Hs Hi) as (k & l' & k' & s1 & Hk & Hrx & Hrun' & _ & _ & Hsame & _).
  rewrite Hrun' in Hrun. injection Hrun as -> ->. destruct (kni_rx_spec _ _ _ _ Hrx) as (_ & _ & Hrecvd & Hsent).
  destruct (same_data_stream _ _ Hsame) as [Hst Hrc]. split.
  - intros j h1 h2. etrans; [apply Hst|]. by rewrite (stream_put_kni i k).
  - intros j. by rewrite Hrc, (recvd_put_kni i k _ s j l).
Qed.

Lemma handle_request_order i s s' :
  wf s → 0 <= i < 5 → handle_request i s = Ok s' → thins s s' ∧ same_recvd s s'.
Proof.
  intros Hs Hi Hrun. destruct (handle_request_spec i s Hs Hi) as (k & Hk & Hrun' & _).
  rewrite Hrun' in Hrun. injection Hrun as <-. destruct (kni_handle_request_spec k) as [Hr Ht]. split.
  - intros j h1 h2. by rewrite (stream_put_kni i k).
  - intros j. rewrite (recvd_put_kni i k _ s j []) by (by rewrite ?app_nil_r). by destruct (decide _); rewrite app_nil_r.
Qed.

(** A burst of port [i] that is taken in hand, after what is there. *)
Definition with_burst (i : nat) l (j : nat) h : list mbuf := if decide (j = i) then h ++ l else h.

Lemma drain_poll_order i s l s' :
  wf s → 0 <= i < 5 → drain_poll i s = Ok (l, s') →
  same_recvd s s' ∧ ∀ j h1 h2, stream s' j (with_burst (Z.to_nat i) l j h1) h2 = stream s j h1 h2.
Proof.
  intros Hs Hi Hrun. destruct (drain_poll_spec i s Hs Hi) as (c & r & l' & r' & Hc & Hr & _ & Hitems & _ & _ & Hrun' & _).
  rewrite Hrun' in Hrun. injection Hrun as -> <-. split; [done|]. intros j h1 h2. rewrite (stream_put_nf i c) by done.
  unfold with_burst. case_decide as Hj; [|done]. subst j. unfold stream, coproc_of. rewrite Hc. unfold mgr_items. cbn.
  rewrite Hr. cbn. by rewrite Hitems, <-!app_assoc.
Qed.

(** ** The coprocessor *)

Lemma coprocessor_poll_order i s l s' :
  wf s → 0 <= i < 5 → coprocessor_poll i s = Ok (l, s') →
  same_recvd s s' ∧ ∀ j h1 h2, stream s' j h1 (with_burst (Z.to_nat i) l j h2) = stream s j h1 h2.
Proof.
  intros Hs Hi Hrun. destruct (coprocessor_poll_spec i s Hs Hi) as (c & r & l' & r' & Hc & Hr & _ & Hitems & _ & _ & Hrun' & _).
  rewrite Hrun' in Hrun. injection Hrun as -> <-. split; [done|]. intros j h1 h2. rewrite (stream_put_nf i c) by done.
  unfold with_burst. case_decide as Hj; [|done]. subst j. unfold stream, coproc_of. rewrite Hc. unfold mgr_items. cbn.
  rewrite Hr. cbn. by rewrite Hitems, <-!app_assoc.
Qed.

Lemma coprocessor_packet_order {F} `{NetworkFunction F} {nf_spec : NetworkFunctionSpec} i p s f s' f' :
  nf_state_ok f → wf s → 0 <= i < 5 → routed (Z.to_nat i) p → coprocessor_packet i p (s, f) = Ok (s', f') →
  same_recvd s s' ∧ ∀ j h1 h2, stream s' j h1 h2 `sublist_of` stream s j h1 (with_head (Z.to_nat i) p j h2).
Proof.
  intros Hf Hs Hi Hp Hrun. destruct (coprocessor_packet_run i p s f s' f' Hf Hp Hrun) as [_ [[Hcl Hen]| ->]].
  - by apply (enqueue_nf_tx_order s i p s').
  - split; [done|]. intros j h1 h2. unfold stream, with_head. case_decide; [|done]. do 3 (apply sublist_app; [done|]).
    unfold coproc_of. cbn. destruct (nf (sw s) !! j) as [c|]; [|done]. unfold mgr_items.
    do 2 (apply sublist_app; [done|]). by apply sublist_cons.
Qed.

End order.
