(* ===== verification/SwitchDrain.v ===== *)
(** * Packets move on

    The stages that packets pass on their way to port [i], the last one first:
    the staging buffer of the port, the burst that the fast path has in hand,
    the transmit ring of coprocessor [i], its transmit buffer, the burst it has
    in hand, its receive ring and its receive buffer.  [work] adds up how far
    the packets still have to go.  An operation of the switch leaves the stages
    of all other ports as they are; those of its own port change only by making
    [work] smaller, which happens whenever the stage it takes from is not
    empty. *)
From S2P Require Import Prelude Dpdk Config Switch SwitchInv SwitchSpec FastPath SwitchOrder.

(** The weight of a stage is its distance from the port. *)
Fixpoint weigh (k : nat) (l : list (list mbuf)) : nat :=
  match l with [] => 0 | x :: l => k * length x + weigh (S k) l end.

Section drain.
Context `{ByteOrderLaws, RteRingProgress, RteKniLaws, Policy}.
Implicit Types (s : switch) (l h : list mbuf) (i j : nat).

Abbreviation wf := (wf_but None).

Definition mgr_stages (c : coprocessor_mgr) h : list (list mbuf) :=
  [q_items (tx_q c); contents (nf_tx c); h; q_items (rx_q c); contents (nf_rx c)].

Definition stages s i h1 h2 : list (list mbuf) :=
  staged_of s i :: h1 :: match nf (sw s) !! i with Some c => mgr_stages c h2 | None => [] end.

Definition work s i h1 h2 : nat := weigh 1 (stages s i h1 h2).

(** Nothing changes for the ports other than [i]. *)
Definition only i s s' : Prop := ∀ j h1 h2, j ≠ i → stages s' j h1 h2 = stages s j h1 h2.

(** The operation has moved packets of port [i], or there were none in stage [n]. *)
Definition progress i (n : nat) s s' : Prop :=
  only i s s' ∧ ∀ h1 h2,
  stages s' i h1 h2 = stages s i h1 h2 ∧ stages s i h1 h2 !! n = Some [] ∨ (work s' i h1 h2 < work s i h1 h2)%nat.

Lemma only_trans i s1 s2 s3 : only i s1 s2 → only i s2 s3 → only i s1 s3.
Proof. intros H12 H23 j h1 h2 Hj. by rewrite H23, H12. Qed.

(** ** Updates *)

Lemma stages_sw s s' : sw s' = sw s → ∀ j h1 h2, stages s' j h1 h2 = stages s j h1 h2.
Proof. intros Hsw j h1 h2. unfold stages, staged_of, tx_of. by rewrite Hsw. Qed.

Lemma stages_put_kni (i : Z) k s j h1 h2 : stages (put_kni i k s) j h1 h2 = stages s j h1 h2.
Proof. done. Qed.

Lemma stages_put_nf (i : Z) c c' s j h1 h2 :
  nf (sw s) !! Z.to_nat i = Some c →
  stages (put_nf i c' s) j h1 h2 =
    if decide (j = Z.to_nat i) then staged_of s j :: h1 :: mgr_stages c' h2 else stages s j h1 h2.
Proof. intros Hc. unfold stages. rewrite (lookup_put_nf i c) by done. by case_decide. Qed.

Lemma stages_put_tx x (i : Z) b b' s j h1 h2 :
  wf_but x s → tx_of s !! Z.to_nat i = Some b →
  stages (put_tx_buf i b' s) j h1 h2 =
    if decide (j = Z.to_nat i) then contents b' :: tail (stages s j h1 h2) else stages s j h1 h2.
Proof.
  intros Hs Hb. unfold stages, staged_of. rewrite (lookup_put_tx x i b) by done.
  rewrite (put_tx_run x) by done. by case_decide.
Qed.

(** ** Flushing *)

(** The staging buffer of the port is emptied. *)
Lemma flush_port_stages x s (i : Z) s' :
  wf_but x s → 0 <= i < 5 → flush_port_queue i s = Ok s' →
  ∀ j h1 h2, stages s' j h1 h2 = if decide (j = Z.to_nat i) then [] :: tail (stages s j h1 h2) else stages s j h1 h2.
Proof.
  intros Hs Hi Hrun j h1 h2. destruct (flush_port_run x s i Hs Hi) as (b & l & k & Hb & Hl & Hlw & Hk & Hks & Hcase).
  case_bool_decide as E.
  { rewrite Hcase in Hrun. injection Hrun as <-. case_decide as Hj; [subst j|done].
    unfold stages, staged_of. by rewrite Hb, (holds_contents _ _ Hl), E. }
  destruct Hcase as (n & k' & s1 & Htx & Hn & Hstats & Hrun'). rewrite Hrun' in Hrun. injection Hrun as <-.
  destruct (kni_tx_spec _ _ _ _ Htx) as (_ & Hsent & _).
  assert (wf_but x (log_free (drop (Z.to_nat n) l) (put_kni i k' s))) as Hw
    by (apply wf_log_free, wf_put_kni; [by eapply sent_cleared; [exact Hsent|..]|done]).
  destruct (add_kni_stats_spec x _ i 0 0 n (zlen l - n) Hw Hi) as (s1' & E1 & Hw1 & [Hsw _] & _).
  rewrite Hstats in E1. injection E1 as <-.
  rewrite (stages_put_tx x i b) by (unfold tx_of; by rewrite ?Hsw). rewrite contents_reset.
  by rewrite (stages_sw _ _ Hsw).
Qed.

(** The receive buffer is emptied into the ring, or dropped. *)
Lemma flush_nf_rx_stages x s (i : Z) s' :
  wf_but x s → 0 <= i < 5 → flush_nf_rx_queue i s = Ok s' →
  ∃ c r', nf (sw s) !! Z.to_nat i = Some c ∧
    (length (q_items r') <= length (q_items (rx_q c)) + length (contents (nf_rx c)))%nat ∧
    (contents (nf_rx c) = [] → q_items r' = q_items (rx_q c)) ∧
    ∀ j h1 h2, stages s' j h1 h2 = if decide (j = Z.to_nat i)
      then [staged_of s j; h1; q_items (tx_q c); contents (nf_tx c); h2; q_items r'; []] else stages s j h1 h2.
Proof.
  intros Hs Hi Hrun. destruct (flush_nf_rx_run x s i Hs Hi) as (c & l & r & Hc & Hwc & Hl & Hlw & Hr & Hcase).
  exists c. rewrite (holds_contents _ _ Hl). case_bool_decide as E.
  { rewrite Hcase in Hrun. injection Hrun as <-. exists (rx_q c). split_and!; [done|lia|done|].
    intros j h1 h2. case_decide as Hj; [subst j|done]. unfold stages. by rewrite Hc, <-E, <-(holds_contents _ _ Hl). }
  destruct Hcase as (n & r' & s1 & Hq & Hn & Hstats & Hrun'). rewrite Hrun' in Hrun. injection Hrun as <-.
  destruct (add_nf_stats_spec x _ i n (zlen l - n) 0 0 (wf_log_free x (drop (Z.to_nat n) l) s Hs) Hi)
    as (s1' & E1 & _ & [Hsw _] & _). rewrite Hstats in E1. injection E1 as <-. cbn [log_free sw] in Hsw.
  exists (Some r'). rewrite Hr. cbn. split_and!; [done| |done|].
  - pose proof (sublist_length _ _ (ring_enqueue_thins _ _ _ _ Hq)) as Hlen. by rewrite length_app in Hlen.
  - intros j h1 h2. rewrite (stages_put_nf i c) by (by rewrite Hsw). case_decide as Hj; [|by apply stages_sw].
    unfold staged_of, tx_of. rewrite Hsw. unfold mgr_stages. cbn. by rewrite contents_reset.
Qed.

Lemma flush_nf_tx_stages x s (i : Z) s' :
  wf_but x s → 0 <= i < 5 → flush_nf_tx_queue i s = Ok s' →
  ∃ c r', nf (sw s) !! Z.to_nat i = Some c ∧
    (length (q_items r') <= length (q_items (tx_q c)) + length (contents (nf_tx c)))%nat ∧
    (contents (nf_tx c) = [] → q_items r' = q_items (tx_q c)) ∧
    ∀ j h1 h2, stages s' j h1 h2 = if decide (j = Z.to_nat i)
      then [staged_of s j; h1; q_items r'; []; h2; q_items (rx_q c); contents (nf_rx c)] else stages s j h1 h2.
Proof.
  intros Hs Hi Hrun. destruct (flush_nf_tx_run x s i Hs Hi) as (c & l & r & Hc & Hwc & Hl & Hlw & Hr & Hcase).
  exists c. rewrite (holds_contents _ _ Hl). case_bool_decide as E.
  { rewrite Hcase in Hrun. injection Hrun as <-. exists (tx_q c). split_and!; [done|lia|done|].
    intros j h1 h2. case_decide as Hj; [subst j|done]. unfold stages. by rewrite Hc, <-E, <-(holds_contents _ _ Hl). }
  destruct Hcase as (n & r' & s1 & Hq & Hn & Hstats & Hrun'). rewrite Hrun' in Hrun. injection Hrun as <-.
  destruct (add_nf_stats_spec x _ i 0 0 n (zlen l - n) (wf_log_free x (drop (Z.to_nat n) l) s Hs) Hi)
    as (s1' & E1 & _ & [Hsw _] & _). rewrite Hstats in E1. injection E1 as <-. cbn [log_free sw] in Hsw.
  exists (Some r'). rewrite Hr. cbn. split_and!; [done| |done|].
  - pose proof (sublist_length _ _ (ring_enqueue_thins _ _ _ _ Hq)) as Hlen. by rewrite length_app in Hlen.
  - intros j h1 h2. rewrite (stages_put_nf i c) by (by rewrite Hsw). case_decide as Hj; [|by apply stages_sw].
    unfold staged_of, tx_of. rewrite Hsw. unfold mgr_stages. cbn. by rewrite contents_reset.
Qed.

Lemma work_cons s i h1 h2 :
  work s i h1 h2 = (length (staged_of s i) + 2 * length h1 +
    match nf (sw s) !! i with Some c => weigh 3 (mgr_stages c h2) | None => 0 end)%nat.
Proof. unfold work, stages. cbn. destruct (nf (sw s) !! i); cbn; lia. Qed.

Lemma length_zero {A} (l : list A) : length l = 0%nat → l = [].
Proof. apply length_zero_iff_nil. Qed.

Lemma flush_port_progress s (i : Z) s' :
  wf s → 0 <= i < 5 → flush_port_queue i s = Ok s' → progress (Z.to_nat i) 0 s s'.
Proof.
  intros Hs Hi Hrun. pose proof (flush_port_stages None s i s' Hs Hi Hrun) as Hst. split.
  - intros j h1 h2 Hj. by rewrite Hst, decide_False.
  - intros h1 h2. unfold work. rewrite Hst, decide_True by done. unfold stages. cbn.
    destruct (staged_of s (Z.to_nat i)) eqn:E; cbn; [by left|right; lia].
Qed.

Lemma flush_nf_rx_progress s (i : Z) s' :
  wf s → 0 <= i < 5 → flush_nf_rx_queue i s = Ok s' → progress (Z.to_nat i) 6 s s'.
Proof.
  intros Hs Hi Hrun. destruct (flush_nf_rx_stages None s i s' Hs Hi Hrun) as (c & r' & Hc & Hlen & Hsame & Hst). split.
  - intros j h1 h2 Hj. by rewrite Hst, decide_False.
  - intros h1 h2. unfold work. rewrite Hst, decide_True by done. unfold stages. rewrite Hc. unfold mgr_stages. cbn.
    destruct (contents (nf_rx c)) eqn:E; cbn in *; [left; by rewrite Hsame|right; lia].
Qed.

Lemma flush_nf_tx_progress s (i : Z) s' :
  wf s → 0 <= i < 5 → flush_nf_tx_queue i s = Ok s' → progress (Z.to_nat i) 3 s s'.
Proof.
  intros Hs Hi Hrun. destruct (flush_nf_tx_stages None s i s' Hs Hi Hrun) as (c & r' & Hc & Hlen & Hsame & Hst). split.
  - intros j h1 h2 Hj. by rewrite Hst, decide_False.
  - intros h1 h2. unfold work. rewrite Hst, decide_True by done. unfold stages. rewrite Hc. unfold mgr_stages. cbn.
    destruct (contents (nf_tx c)) eqn:E; cbn in *; [left; by rewrite Hsame|right; lia].
Qed.

(** ** Enqueueing *)

(** The packet in hand goes to the staging buffer of the port. *)
Lemma enqueue_port_work s (i : Z) pkt s' :
  wf s → 0 <= i < 5 → cleared (Z.to_nat i) pkt → enqueue_port pkt i s = Ok s' →
  only (Z.to_nat i) s s' ∧
  ∀ h1 h2, (work s' (Z.to_nat i) h1 h2 < work s (Z.to_nat i) (pkt :: h1) h2)%nat.
Proof.
  intros Hs Hi Hp. destruct (get_tx_buf_spec None s i Hs Hi) as (b & Hget & Hb & Hwb).
  unfold enqueue_port. rewrite (wf_nb _ _ Hs), Hget. destruct (Z.leb_spec 5 i); [lia|]. cbn [mbind outcome_bind].
  destruct (push_room _ (PortTx (Z.to_nat i)) b pkt Hwb Hp) as (b' & Hpush & _ & Hw32 & _).
  rewrite Hpush. cbn [mbind outcome_bind]. intros Hrun.
  assert (wf_but (Some (PortTx (Z.to_nat i))) (put_tx_buf i b' s)) as Hw.
  { eapply (wf_put_tx None); [by left|by right|done|]. unfold cap. by rewrite decide_True. }
  pose proof (push_contents _ _ _ _ _ Hwb Hpush) as Hpc.
  assert (∀ j h1 h2, stages (put_tx_buf i b' s) j h1 h2 = if decide (j = Z.to_nat i)
    then (staged_of s j ++ [pkt]) :: tail (stages s j h1 h2) else stages s j h1 h2) as Hst.
  { intros j h1 h2. rewrite (stages_put_tx None i b) by done. case_decide as Hj; [subst j|done].
    unfold staged_of. by rewrite Hb, Hpc. }
  destruct (count b' =? PKT_BURST_SZ).
  - pose proof (flush_port_stages _ _ _ _ Hw Hi Hrun) as Hfl. split.
    + intros j h1 h2 Hj. by rewrite Hfl, Hst, !decide_False.
    + intros h1 h2. unfold work. rewrite Hfl, Hst, !decide_True by done. unfold stages. cbn. lia.
  - injection Hrun as <-. split.
    + intros j h1 h2 Hj. by rewrite Hst, decide_False.
    + intros h1 h2. unfold work. rewrite Hst, decide_True by done. unfold stages. cbn. rewrite length_app. cbn. lia.
Qed.

(** The packet in hand goes to the transmit buffer of the coprocessor. *)
Lemma enqueue_nf_tx_work s (i : Z) pkt s' :
  wf s → 0 <= i < 5 → cleared (Z.to_nat i) pkt → enqueue_nf_tx pkt i s = Ok s' →
  only (Z.to_nat i) s s' ∧
  ∀ h1 h2, (work s' (Z.to_nat i) h1 h2 < work s (Z.to_nat i) h1 (pkt :: h2))%nat.
Proof.
  intros Hs Hi Hp. destruct (get_nf_spec None s i Hs Hi) as (c & Hget & Hc & (Hrq & Htq & Hwr & Hwt)).
  unfold enqueue_nf_tx. rewrite (wf_nb _ _ Hs), Hget. destruct (Z.leb_spec 5 i); [lia|]. cbn [mbind outcome_bind].
  destruct (push_room _ (NfTx (Z.to_nat i)) (nf_tx c) pkt Hwt Hp) as (b' & Hpush & _ & Hw32 & _).
  rewrite Hpush. cbn [mbind outcome_bind]. intros Hrun. set (c' := CoprocessorMgr _ _ _ _) in *.
  assert (wf_but (Some (NfTx (Z.to_nat i))) (put_nf i c' s)) as Hw.
  { eapply (wf_put_nf None _ (NfTx (Z.to_nat i))); [by right|by left|by right|done|].
    split_and!; [done..| |]; unfold cap; [by rewrite decide_False|by rewrite decide_True]. }
  pose proof (push_contents _ _ _ _ _ Hwt Hpush) as Hpc.
  pose proof (λ j h1 h2, stages_put_nf i c c' s j h1 h2 Hc) as Hst.
  assert (nf (sw (put_nf i c' s)) !! Z.to_nat i = Some c') as Hc'.
  { rewrite (lookup_put_nf i c) by done. by rewrite decide_True. }
  destruct (count b' =? PKT_BURST_SZ).
  - destruct (flush_nf_tx_stages _ _ _ _ Hw Hi Hrun) as (c1 & r' & Hc1 & Hlen & _ & Hfl).
    assert (c1 = c') as -> by congruence. cbn in Hlen. rewrite Hpc, length_app in Hlen. cbn in Hlen. split.
    + intros j h1 h2 Hj. by rewrite Hfl, Hst, !decide_False.
    + intros h1 h2. unfold work. rewrite Hfl, decide_True by done. unfold stages. rewrite Hc. cbn.
      change (staged_of (put_nf i c' s)) with (staged_of s). lia.
  - injection Hrun as <-. split.
    + intros j h1 h2 Hj. by rewrite Hst, decide_False.
    + intros h1 h2. unfold work. rewrite Hst, decide_True by done. unfold stages. rewrite Hc. cbn.
      rewrite Hpc, length_app. cbn. lia.
Qed.

(** A received packet goes to the receive buffer of the coprocessor. *)
Lemma enqueue_nf_rx_work s (i : Z) pkt s' :
  wf s → 0 <= i < 5 → routed (Z.to_nat i) pkt → enqueue_nf_rx pkt i s = Ok s' →
  only (Z.to_nat i) s s' ∧
  ∀ h1 h2, (work s' (Z.to_nat i) h1 h2 <= work s (Z.to_nat i) h1 h2 + 7)%nat.
Proof.
  intros Hs Hi Hp. destruct (get_nf_spec None s i Hs Hi) as (c & Hget & Hc & (Hrq & Htq & Hwr & Hwt)).
  unfold enqueue_nf_rx. rewrite (wf_nb _ _ Hs), Hget. destruct (Z.leb_spec 5 i); [lia|]. cbn [mbind outcome_bind].
  destruct (push_room _ (NfRx (Z.to_nat i)) (nf_rx c) pkt Hwr Hp) as (b' & Hpush & _ & Hw32 & _).
  rewrite Hpush. cbn [mbind outcome_bind]. intros Hrun. set (c' := CoprocessorMgr _ _ _ _) in *.
  assert (wf_but (Some (NfRx (Z.to_nat i))) (put_nf i c' s)) as Hw.
  { eapply (wf_put_nf None _ (NfRx (Z.to_nat i))); [by left|by left|by right|done|].
    split_and!; [done..| |]; unfold cap; [by rewrite decide_True|by rewrite decide_False]. }
  pose proof (push_contents _ _ _ _ _ Hwr Hpush) as Hpc.
  pose proof (λ j h1 h2, stages_put_nf i c c' s j h1 h2 Hc) as Hst.
  assert (nf (sw (put_nf i c' s)) !! Z.to_nat i = Some c') as Hc'.
  { rewrite (lookup_put_nf i c) by done. by rewrite decide_True. }
  destruct (count b' =? PKT_BURST_SZ).
  - destruct (flush_nf_rx_stages _ _ _ _ Hw Hi Hrun) as (c1 & r' & Hc1 & Hlen & _ & Hfl).
    assert (c1 = c') as -> by congruence. cbn in Hlen. rewrite Hpc, length_app in Hlen. cbn in Hlen. split.
    + intros j h1 h2 Hj. by rewrite Hfl, Hst, !decide_False.
    + intros h1 h2. unfold work. rewrite Hfl, decide_True by done. unfold stages. rewrite Hc. cbn.
      change (staged_of (put_nf i c' s)) with (staged_of s). lia.
  - injection Hrun as <-. split.
    + intros j h1 h2 Hj. by rewrite Hst, decide_False.
    + intros h1 h2. unfold work. rewrite Hst, decide_True by done. unfold stages. rewrite Hc. cbn.
      rewrite Hpc, length_app. cbn. lia.
Qed.

Lemma rx_packet_work s (i : Z) pkt s' :
  wf s → 0 <= i < 5 → wf_mbuf pkt → rx_packet false i pkt s = Ok s' →
  ∀ j h1 h2, (work s' j h1 h2 <= work s j h1 h2 + 7)%nat.
Proof.
  intros Hs Hi Hp. unfold rx_packet. destruct (get_next_hop_wf pkt s Hs Hp) as (p & -> & Hr).
  cbn [mbind outcome_bind]. destruct (Z.eqb_spec p UNKNOWN_PORT) as [|Hne].
  - destruct (add_kni_stats_spec None (log_free [pkt] s) i 0 1 0 0 (wf_log_free _ _ _ Hs) Hi) as (s1 & Hrun & _ & [Hsw _] & _).
    intros Hrun' j h1 h2. change (add_kni_stats i 0 1 0 0 (log_free [pkt] s) = Ok s') in Hrun'.
    assert (s' = s1) as -> by congruence. unfold work. rewrite (stages_sw s s1) by done. lia.
  - destruct Hr as [|[Hr Hrt]]; [done|]. intros [Ho Hw]%enqueue_nf_rx_work; [|done..]. intros j h1 h2.
    destruct (decide (j = Z.to_nat p)) as [->|Hj]; [apply Hw|]. unfold work. rewrite (Ho j) by done. lia.
Qed.

(** A packet in the hand of a coprocessor is passed on or freed. *)
Lemma coprocessor_packet_work {F} `{NetworkFunction F} {nf_spec : NetworkFunctionSpec} (i : Z) p s f s' f' :
  nf_state_ok f → wf s → 0 <= i < 5 → routed (Z.to_nat i) p → coprocessor_packet i p (s, f) = Ok (s', f') →
  only (Z.to_nat i) s s' ∧
  ∀ h1 h2, (work s' (Z.to_nat i) h1 h2 < work s (Z.to_nat i) h1 (p :: h2))%nat.
Proof.
  intros Hf Hs Hi Hp Hrun. destruct (coprocessor_packet_run i p s f s' f' Hf Hp Hrun) as [_ [[Hcl Hen]| ->]].
  - by apply (enqueue_nf_tx_work s i p s').
  - split; [done|]. intros h1 h2. destruct (get_nf_spec None s i Hs Hi) as (c & _ & Hc & _).
    unfold work, stages. cbn. rewrite Hc. cbn. change (staged_of (log_free [p] s)) with (staged_of s). lia.
Qed.

(** ** Bursts *)

(** A port from which nothing is received. *)
Lemma rx_poll_quiet s (i : Z) l s' :
  wf s → 0 <= i < 5 → rx_poll i s = Ok (l, s') → same_recvd s s' →
  l = [] ∧ ∀ j h1 h2, stages s' j h1 h2 = stages s j h1 h2.
Proof.
  intros Hs Hi Hrun Hq. destruct (rx_poll_order i s l s' Hs Hi Hrun) as [_ Hrecvd].
  destruct (rx_poll_spec i s Hs Hi) as (k & l' & k' & s1 & _ & _ & Hrun' & _ & _ & [Hsw _] & _).
  rewrite Hrun' in Hrun. injection Hrun as -> ->. split; [|intros j h1 h2; by rewrite (stages_sw _ _ Hsw)].
  specialize (Hq (Z.to_nat i)). rewrite Hrecvd, decide_True in Hq by done.
  apply (f_equal length) in Hq. rewrite length_app in Hq. apply length_zero. lia.
Qed.

Lemma handle_request_stages s (i : Z) s' :
  handle_request i s = Ok s' → ∀ j h1 h2, stages s' j h1 h2 = stages s j h1 h2.
Proof. unfold handle_request. by intros (k & _ & [= <-])%bind_Ok. Qed.

(** A burst is taken from the transmit ring, or it is empty. *)
Lemma drain_poll_work s (i : Z) l s' :
  wf s → 0 <= i < 5 → drain_poll i s = Ok (l, s') →
  only (Z.to_nat i) s s' ∧ ∀ h2,
  l = [] ∧ stages s' (Z.to_nat i) [] h2 = stages s (Z.to_nat i) [] h2 ∧ stages s (Z.to_nat i) [] h2 !! 2%nat = Some [] ∨
  (work s' (Z.to_nat i) l h2 < work s (Z.to_nat i) [] h2)%nat.
Proof.
  intros Hs Hi Hrun. destruct (drain_poll_spec i s Hs Hi) as (c & r & l' & r' & Hc & Hr & Hdq & Hitems & _ & _ & Hrun' & _).
  rewrite Hrun' in Hrun. injection Hrun as -> <-. pose proof (λ c' j h1 h2, stages_put_nf i c c' s j h1 h2 Hc) as Hst.
  split; [intros j h1 h2 Hj; by rewrite Hst, decide_False|]. intros h2. unfold work. rewrite !Hst, !decide_True by done.
  unfold stages. rewrite Hc. unfold mgr_stages. cbn. rewrite Hr. cbn. rewrite Hitems. destruct l as [|p l]; [left|right].
  - pose proof (ring_dequeue_progress r PKT_BURST_SZ r' ltac:(done) Hdq) as Hnil. rewrite Hitems in Hnil. cbn in Hnil.
    by rewrite Hnil.
  - cbn. rewrite length_app. lia.
Qed.

(** A burst is taken from the receive ring, or it is empty. *)
Lemma coprocessor_poll_work s (i : Z) l s' :
  wf s → 0 <= i < 5 → coprocessor_poll i s = Ok (l, s') →
  only (Z.to_nat i) s s' ∧ ∀ h1,
  l = [] ∧ stages s' (Z.to_nat i) h1 [] = stages s (Z.to_nat i) h1 [] ∧ stages s (Z.to_nat i) h1 [] !! 5%nat = Some [] ∨
  (work s' (Z.to_nat i) h1 l < work s (Z.to_nat i) h1 [])%nat.
Proof.
  intros Hs Hi Hrun. destruct (coprocessor_poll_spec i s Hs Hi) as (c & r & l' & r' & Hc & Hr & Hdq & Hitems & _ & _ & Hrun' & _).
  rewrite Hrun' in Hrun. injection Hrun as -> <-. pose proof (λ c' j h1 h2, stages_put_nf i c c' s j h1 h2 Hc) as Hst.
  split; [intros j h1 h2 Hj; by rewrite Hst, decide_False|]. intros h1. unfold work. rewrite !Hst, !decide_True by done.
  unfold stages. rewrite Hc. unfold mgr_stages. cbn. rewrite Hr. cbn. rewrite Hitems. destruct l as [|p l]; [left|right].
  - pose proof (ring_dequeue_progress r PKT_BURST_SZ r' ltac:(done) Hdq) as Hnil. rewrite Hitems in Hnil. cbn in Hnil.
    by rewrite Hnil.
  - cbn. rewrite length_app. lia.
Qed.

End drain.
