(* ===== verification/Firewall.v ===== *)
(** * The firewall network function ([engine/nfs/firewall/firewall.{h,c}])

    Source addresses are matched against a longest-prefix table filled from a
    JSON rule file.  The functions that set the table up are composed of the
    parts between which other threads may run. *)
From S2P Require Import Prelude Dpdk Stdio Config CJsonData CJsonText CJsonParse CJsonQuery.

(** ** Data of [firewall.h] *)

(** A rule block on the heap; [src_ip] is [None] while indeterminate. *)
Record fw_rule := FwRule { r_addr : nat; src_ip : option Z; r_depth : Z; r_action : Z }.

Record firewall_pkt_stats := FwStats {
  pkt_drop : Z; pkt_accept : Z; pkt_not_ipv4 : Z; pkt_total : Z }.

Inductive FW_ACTION := FW_FORWARD | FW_DROP.

Global Instance FW_ACTION_eq_dec : EqDecision FW_ACTION.
Proof. solve_decision. Defined.

(** The array of rule pointers: its block and its elements, [None] for a
    slot that was not written yet. *)
Record rule_array := RuleArray { ra_addr : nat; ra_slots : list (option fw_rule) }.

(** ** Addresses as text *)

(** The characters written to [ip_str], without the terminating NUL. *)
Definition fw_pkt_parse_char_ip (ipv4 : Z) : list Z :=
  snprintf_store 16
    (print_u (Z.land (Z.shiftr ipv4 24) 0xFF) ++ [46] ++
     print_u (Z.land (Z.shiftr ipv4 16) 0xFF) ++ [46] ++
     print_u (Z.land (Z.shiftr ipv4 8) 0xFF) ++ [46] ++
     print_u (Z.land ipv4 0xFF)).

(** [sscanf(s, "%u.%u.%u.%u", ...)], when all four conversions succeed. *)
Definition scan_ip (s : list Z) : option (Z * Z * Z * Z) :=
  '(a, s) ← scan_u s; s ← scan_char 46 s;
  '(b, s) ← scan_u s; s ← scan_char 46 s;
  '(c, s) ← scan_u s; s ← scan_char 46 s;
  '(d, _) ← scan_u s; Some (a, b, c, d).

(** Return code, and the value stored through [dest] if one is stored. *)
Definition fw_pkt_parse_ip (ip_str : option (list Z)) : Z * option Z :=
  match ip_str with
  | None => (-1, None)
  | Some s =>
      match scan_ip s with
      | None => (-1, None)
      | Some (a, b, c, d) => (0, Some (RTE_IPV4 a b c d))
      end
  end.

(** ** The rule file *)

(** Up to [k] characters, stopping behind a newline. *)
Fixpoint fgets_line (k : nat) (s : list Z) : list Z * list Z :=
  match k, s with
  | S k, c :: s' =>
      if c =? 10 then ([c], s') else let '(l, r) := fgets_line k s' in (c :: l, r)
  | _, _ => ([], s)
  end.

(** [fgets(buf, n, fp)] of glibc with [s] the rest of the file: the line read
    and what is left, [None] for a null result. *)
Definition fgets (n : Z) (s : list Z) : option (list Z * list Z) :=
  if n <=? 0 then None
  else if n =? 1 then Some ([], s)
  else match s with [] => None | _ => Some (fgets_line (Z.to_nat (n - 1)) s) end.

Definition temp_buf_size : Z := 255.

(** The loop that appends the lines to [json_str], a block of [room] bytes. *)
Fixpoint read_lines (fuel : nat) (n room : Z) (s json_str : list Z) : outcome (list Z) :=
  match fuel with
  | O => Fault OutOfFuel
  | S fuel =>
      match fgets n s with
      | None => Ok json_str
      | Some (line, s) =>
          if temp_buf_size <? zlen line + 1 then Fault OutOfBounds
          else
            let line := cstring line in
            if room <? zlen json_str + zlen line then Fault OutOfBounds
            else read_lines fuel n room s (json_str ++ line)
      end
  end.

Section firewall.
Context `{ByteOrder, RteLpm}.
(** The allocator, and the contents of the files that can be opened. *)
Variable may_allocate : nat → Z → bool.
Variable files : string → option (list Z).

Definition fw_config_parse_file (filename : option string) (h : heap) : outcome (option cJSON * heap) :=
  match filename with
  | None => Ok (None, h)
  | Some name =>
      if String.eqb name "" then Ok (None, h)
      else
        match files name with
        | None => Ok (None, h)
        | Some file =>
            let file_length := to_int (zlen file) in
            let '(p, h) := allocate may_allocate (u64 (file_length + 1)) h in
            match p with
            | None => Ok (None, h)
            | Some _ =>
                json_str ← read_lines (S (length file)) file_length (file_length + 1) file [];
                if file_length <? 0 then Fault OutOfBounds
                else if zlen json_str <? file_length then Fault Uninitialised
                else cJSON_Parse may_allocate (Some (cstring (take (Z.to_nat file_length) json_str))) h
            end
        end
  end.

Definition fw_config_get_item_count (config : option cJSON) : Z :=
  match config with None => 0 | Some c => to_int (zlen (child c)) end.

(** ** Packets *)

(** Offset of the IPv4 header, [None] for the null pointer. *)
Definition fw_pkt_ipv4_hdr (pkt : mbuf) : outcome (option Z) :=
  let ip_hdr := sizeof_ether_hdr in
  version_ihl ← load8 pkt (ip_hdr + off_version_ihl);
  let version := Z.land (Z.shiftr version_ihl 4) 0xF in
  if negb (version =? 4) then Ok None else Ok (Some ip_hdr).

Definition fw_pkt_is_ipv4 (pkt : mbuf) : outcome bool :=
  p ← fw_pkt_ipv4_hdr pkt; Ok (match p with Some _ => true | None => false end).

(** The globals of [firewall.h] and [coprocessor.h] that the firewall uses, the
    heap, and the rule arrays that [rules] has pointed to before: all threads
    share the globals, so one may still use an array that another one replaced. *)
Record firewall := Firewall {
  stats : firewall_pkt_stats;
  lpm_tbl : option lpm;
  rules : option rule_array;
  num_rules : Z;
  fw_heap : heap;
  old_arrays : list rule_array }.

Definition count_total (f : firewall) : firewall :=
  let s := stats f in
  Firewall (FwStats (pkt_drop s) (pkt_accept s) (pkt_not_ipv4 s) (u64 (pkt_total s + 1)))
    (lpm_tbl f) (rules f) (num_rules f) (fw_heap f) (old_arrays f).
Definition count_not_ipv4 (f : firewall) : firewall :=
  let s := stats f in
  Firewall (FwStats (pkt_drop s) (pkt_accept s) (u64 (pkt_not_ipv4 s + 1)) (pkt_total s))
    (lpm_tbl f) (rules f) (num_rules f) (fw_heap f) (old_arrays f).
Definition set_lpm_tbl (t : option lpm) (f : firewall) : firewall :=
  Firewall (stats f) t (rules f) (num_rules f) (fw_heap f) (old_arrays f).
Definition set_rules (r : option rule_array) (f : firewall) : firewall :=
  Firewall (stats f) (lpm_tbl f) r (num_rules f) (fw_heap f) (old_arrays f).
Definition set_num_rules (n : Z) (f : firewall) : firewall :=
  Firewall (stats f) (lpm_tbl f) (rules f) n (fw_heap f) (old_arrays f).
Definition set_fw_heap (h : heap) (f : firewall) : firewall :=
  Firewall (stats f) (lpm_tbl f) (rules f) (num_rules f) h (old_arrays f).

(** The pointer [rules] is assigned a new array. *)
Definition replace_rules (r : option rule_array) (f : firewall) : firewall :=
  Firewall (stats f) (lpm_tbl f) r (num_rules f) (fw_heap f) (option_list (rules f) ++ old_arrays f).

(** [action] is [None] while the local variable is not assigned. *)
Definition fw_packet_handler (pkt : mbuf) (f : firewall) : outcome (FW_ACTION * firewall) :=
  let rule := 0 in
  let action : option FW_ACTION := None in
  let f := count_total f in
  is_ipv4 ← fw_pkt_is_ipv4 pkt;
  let '(f, action) := if negb is_ipv4 then (count_not_ipv4 f, Some FW_DROP) else (f, action) in
  p ← fw_pkt_ipv4_hdr pkt;
  ip_hdr ← or_fault NullDereference p;
  src_addr ← load32 pkt (ip_hdr + off_src_addr);
  let '(ret, rule) := rte_lpm_lookup (lpm_tbl f) (rte_be_to_cpu_32 src_addr) rule in
  let action := if ret <? 0 then Some FW_DROP else action in
  let action := if rule =? 0 then Some FW_FORWARD else Some FW_DROP in
  action ← or_fault Uninitialised action;
  Ok (action, f).

(** ** The rule table *)

(** The array a pointer points to must be live. *)
Definition live_array (rules : option rule_array) (h : heap) : outcome rule_array :=
  ra ← or_fault NullDereference rules;
  if decide (ra_addr ra ∈ live h) then Ok ra else Fault UseAfterFree.

(** [rules[rule_idx]]: the slot must be written. *)
Definition get_rule (rules : option rule_array) (rule_idx : Z) (h : heap) : outcome fw_rule :=
  ra ← live_array rules h;
  p ← arr_get (ra_slots ra) rule_idx; or_fault Uninitialised p.

(** Reading a field of the rule block. *)
Definition read_rule (r : fw_rule) (h : heap) : outcome fw_rule :=
  if decide (r_addr r ∈ live h) then Ok r else Fault UseAfterFree.

(** One iteration of the loop of [lpm_setup]; the result of [rte_lpm_add]. *)
Definition lpm_add_rule (rules : option rule_array) (rule_idx : Z) (f : firewall) : outcome (Z * firewall) :=
  r ← get_rule rules rule_idx (fw_heap f);
  r ← read_rule r (fw_heap f);
  ip ← or_fault Uninitialised (src_ip r);
  let '(ret, t) := rte_lpm_add (lpm_tbl f) ip (r_depth r) (r_action r) in
  Ok (ret, set_lpm_tbl t f).

(** The loop from [rule_idx] on, [n] iterations. *)
Fixpoint lpm_add_rules (rules : option rule_array) (n : nat) (rule_idx : Z) (f : firewall) : outcome (Z * firewall) :=
  match n with
  | O => Ok (0, f)
  | S n =>
      '(ret, f) ← lpm_add_rule rules rule_idx f;
      if ret <? 0 then Ok (1, f) else lpm_add_rules rules n (rule_idx + 1) f
  end.

(** [name] is the table name built from the core id and the cycle counter. *)
Definition lpm_setup (name : string) (rules : option rule_array) (num_rules : Z) (f : firewall) : outcome (Z * firewall) :=
  let f := set_lpm_tbl (rte_lpm_create name 1024 24) f in
  lpm_add_rules rules (Z.to_nat num_rules) 0 f.

(** One iteration of [lpm_teardown]. *)
Definition free_rule (rules : rule_array) (rule_idx : Z) (h : heap) : outcome heap :=
  r ← get_rule (Some rules) rule_idx h;
  deallocate (r_addr r) h.

Definition lpm_teardown (rules : option rule_array) (num_rules : Z) (f : firewall) : outcome firewall :=
  match rules with
  | None => Ok f
  | Some ra =>
      h ← foldM (free_rule ra) (seqZ 0 num_rules) (fw_heap f);
      h ← deallocate (ra_addr ra) h;
      Ok (set_fw_heap h f)
  end.

(** ** Reading the rules *)

Definition sizeof_fw_rule : Z := 8.
Definition sizeof_pointer : Z := 8.

Definition name_ip : list Z := bytes_of_string "ip".
Definition name_depth : list Z := bytes_of_string "depth".
Definition name_action : list Z := bytes_of_string "action".

(** One iteration over the children: the rule is stored in slot [rule_idx]. *)
Definition setup_rule (rule_idx : Z) (rules_json : cJSON) (f : firewall) : outcome firewall :=
  let rules_ip := cJSON_GetObjectItem (Some rules_json) (Some name_ip) in
  let depth := cJSON_GetObjectItem (Some rules_json) (Some name_depth) in
  let action := cJSON_GetObjectItem (Some rules_json) (Some name_action) in
  match rules_ip, depth, action with
  | None, _, _ => Exit "IP not found/invalid"
  | _, None, _ => Exit "Depth not found/invalid"
  | _, _, None => Exit "Action not found/invalid"
  | Some rules_ip, Some depth, Some action =>
      let '(p, h) := allocate may_allocate sizeof_fw_rule (fw_heap f) in
      let f := set_fw_heap h f in
      ra ← live_array (rules f) (fw_heap f);
      a ← or_fault NullDereference p;
      let ip_str := (λ s, cstring (c_bytes s)) <$> valuestring rules_ip in
      let r := FwRule a (fw_pkt_parse_ip ip_str).2 (u8 (valueint depth)) (u8 (valueint action)) in
      slots ← arr_set (ra_slots ra) rule_idx (Some r);
      Ok (set_rules (Some (RuleArray (ra_addr ra) slots)) f)
  end.

Fixpoint setup_rule_loop (rule_idx : Z) (l : list cJSON) (f : firewall) : outcome firewall :=
  match l with
  | [] => Ok f
  | j :: l => f ← setup_rule rule_idx j f; setup_rule_loop (rule_idx + 1) l f
  end.

(** [setup_rules] up to the assignment of [*total_rules]. *)
Definition setup_parse (rules_file : option string) (f : firewall) : outcome (cJSON * firewall) :=
  '(rules_json, h) ← fw_config_parse_file rules_file (fw_heap f);
  let f := set_fw_heap h f in
  match rules_json with
  | None => Exit "file could not be parsed/not found"
  | Some j => Ok (j, set_num_rules (fw_config_get_item_count (Some j)) f)
  end.

(** The allocation of the array of pointers. *)
Definition setup_alloc (rules_json : cJSON) (f : firewall) : firewall :=
  let n := fw_config_get_item_count (Some rules_json) in
  let '(p, h) := allocate may_allocate (u64 (n * sizeof_pointer)) (fw_heap f) in
  let f := set_fw_heap h f in
  replace_rules ((λ a, RuleArray a (replicate (Z.to_nat n) None)) <$> p) f.

Definition setup_rules (rules_file : option string) (f : firewall) : outcome (option rule_array * firewall) :=
  '(j, f) ← setup_parse rules_file f;
  f ← setup_rule_loop 0 (child j) (setup_alloc j f);
  (* the cursor has run off the chain: [cJSON_Delete(NULL)] *)
  h ← cJSON_Delete [] (fw_heap f);
  let f := set_fw_heap h f in
  Ok (rules f, f).
End firewall.
