(* ===== verification/FirewallSpec.v ===== *)
(** * The firewall: what its operations compute

    Address text, the rule file, the packet verdict, and the life of the rule
    table. *)
From S2P Require Import Prelude Dpdk Stdio Config CJsonData CJsonText CJsonTextSafe CJsonParse CJsonParseSafe.
From S2P Require Import CJsonQuery Firewall.

(** ** Addresses *)

(** Octet [i] of an address, 0 the least significant. *)
Definition octet (ip i : Z) : Z := (ip / 256 ^ i) mod 256.

Lemma land_octet x : Z.land x 0xFF = x mod 256.
Proof. change 0xFF with (Z.ones 8). rewrite Z.land_ones by lia. done. Qed.

Lemma octet_range ip i : 0 <= octet ip i < 256.
Proof. apply Z.mod_pos_bound. lia. Qed.

Lemma print_octet_length x : 0 <= x < 256 → (length (print_u x) <= 3)%nat.
Proof.
  intros Hx. apply Nat.leb_le.
  exact (byte_cases (λ x, (length (print_u x) <=? 3)%nat) ltac:(vm_compute; reflexivity) x Hx).
Qed.

Definition dotted (a b c d : Z) : list Z :=
  print_u a ++ [46] ++ print_u b ++ [46] ++ print_u c ++ [46] ++ print_u d.

Lemma parse_char_ip_dotted ip :
  fw_pkt_parse_char_ip ip = dotted (octet ip 3) (octet ip 2) (octet ip 1) (octet ip 0).
Proof.
  unfold fw_pkt_parse_char_ip, snprintf_store, dotted, octet. rewrite !land_octet, !Z.shiftr_div_pow2 by lia.
  change (256 ^ 3) with (2 ^ 24). change (256 ^ 2) with (2 ^ 16). change (256 ^ 1) with (2 ^ 8).
  change (256 ^ 0) with 1. rewrite Z.div_1_r. apply take_ge. rewrite !length_app. simpl length.
  pose proof (print_octet_length ((ip / 2 ^ 24) mod 256) ltac:(apply Z.mod_pos_bound; lia)).
  pose proof (print_octet_length ((ip / 2 ^ 16) mod 256) ltac:(apply Z.mod_pos_bound; lia)).
  pose proof (print_octet_length ((ip / 2 ^ 8) mod 256) ltac:(apply Z.mod_pos_bound; lia)).
  pose proof (print_octet_length (ip mod 256) ltac:(apply Z.mod_pos_bound; lia)). lia.
Qed.

Lemma RTE_IPV4_value a b c d :
  RTE_IPV4 a b c d = 16777216 * (a mod 256) + 65536 * (b mod 256) + 256 * (c mod 256) + d mod 256.
Proof.
  unfold RTE_IPV4. change 0xff with 0xFF. rewrite !land_octet.
  pose proof (Z.mod_pos_bound a 256). pose proof (Z.mod_pos_bound b 256).
  pose proof (Z.mod_pos_bound c 256). pose proof (Z.mod_pos_bound d 256).
  rewrite u32_id by (rewrite Z.shiftl_mul_pow2 by lia; lia).
  rewrite <-!Z.lor_assoc. rewrite (Z.lor_comm (Z.shiftl (c mod 256) 8)), lor_shiftl_add by lia.
  rewrite (Z.lor_comm (Z.shiftl (b mod 256) 16)), lor_shiftl_add by lia.
  rewrite (Z.lor_comm (Z.shiftl (a mod 256) 24)), lor_shiftl_add by lia. lia.
Qed.

(** Reading dotted numbers of any size below 2^32. *)
Lemma parse_ip_dotted a b c d :
  0 <= a < 2 ^ 32 → 0 <= b < 2 ^ 32 → 0 <= c < 2 ^ 32 → 0 <= d < 2 ^ 32 →
  fw_pkt_parse_ip (Some (dotted a b c d)) = (0, Some (RTE_IPV4 a b c d)).
Proof.
  intros Ha Hb Hc Hd. unfold fw_pkt_parse_ip, scan_ip, dotted.
  assert (∀ s c r', 46 :: s = c :: r' → is_digit c = false) as Hdot by (by intros ??? [= <- _]).
  rewrite scan_u_print_u by (done || apply Hdot). cbn [mbind option_bind scan_char Z.eqb Pos.eqb app].
  rewrite scan_u_print_u by (done || apply Hdot). cbn [mbind option_bind scan_char Z.eqb Pos.eqb app].
  rewrite scan_u_print_u by (done || apply Hdot). cbn [mbind option_bind scan_char Z.eqb Pos.eqb app].
  rewrite <-(app_nil_r (print_u d)), scan_u_print_u by done. done.
Qed.

Lemma ip_roundtrip ip :
  0 <= ip < 2 ^ 32 → fw_pkt_parse_ip (Some (fw_pkt_parse_char_ip ip)) = (0, Some ip).
Proof.
  intros Hip. rewrite parse_char_ip_dotted.
  pose proof (octet_range ip 0). pose proof (octet_range ip 1). pose proof (octet_range ip 2). pose proof (octet_range ip 3).
  rewrite parse_ip_dotted by lia. do 2 f_equal. rewrite RTE_IPV4_value. unfold octet.
  change (256 ^ 3) with 16777216. change (256 ^ 2) with 65536. change (256 ^ 1) with 256. change (256 ^ 0) with 1.
  rewrite !Zmod_mod. Z.to_euclidean_division_equations. lia.
Qed.

(** ** The rule file *)

(** Every line, its newline included, is shorter than [temp_buf]; [room] is
    what the current line may still use. *)
Fixpoint short_lines (room : nat) (s : list Z) : bool :=
  match s with
  | [] => true
  | c :: s' =>
      match room with
      | O => false
      | S room => short_lines (if c =? 10 then 254 else room) s'
      end
  end.

Lemma short_lines_mono r r' s : (r <= r')%nat → short_lines r s = true → short_lines r' s = true.
Proof.
  revert r r'. induction s as [|c s IH]; intros [|r] [|r'] Hr; cbn; try done; try lia.
  destruct (c =? 10); [done|]. apply IH. lia.
Qed.

Lemma fgets_line_spec k r s :
  (r <= 254)%nat → short_lines r s = true →
  ∃ l s', fgets_line k s = (l, s') ∧ s = l ++ s' ∧ (length l <= r)%nat ∧ short_lines 254 s' = true ∧
    ((1 <= k)%nat → s ≠ [] → (1 <= length l)%nat).
Proof.
  revert k r. induction s as [|c s IH]; intros [|k] r Hr Hs; cbn [fgets_line].
  1,2: exists [], []; split_and!; [done|done|simpl; lia|done|by intros _ []].
  { exists [], (c :: s). split_and!; [done|done|simpl; lia|by apply (short_lines_mono r)|lia]. }
  destruct r as [|r]; [done|]. cbn [short_lines] in Hs. destruct (c =? 10) eqn:E.
  { exists [c], s. split_and!; auto; simpl; lia. }
  destruct (IH k r) as (l & s' & -> & -> & ? & ? & _); [lia|done|].
  exists (c :: l), s'. split_and!; auto; simpl; lia.
Qed.

Lemma cstring_id s : Forall (λ c, c ≠ 0) s → cstring s = s.
Proof. induction 1 as [|c s Hc _ IH]; cbn; [done|]. destruct (Z.eqb_spec c 0); [done|]. by rewrite IH. Qed.

(** The loop copies the rest of a text file with short lines. *)
Lemma read_lines_spec fuel n room s acc :
  2 <= n → (length s < fuel)%nat → Forall (λ c, c ≠ 0) s → short_lines 254 s = true →
  zlen acc + zlen s <= room → read_lines fuel n room s acc = Ok (acc ++ s).
Proof.
  intros Hn. revert s acc. induction fuel as [|fuel IH]; intros s acc Hf Hz Hs Hroom; [lia|].
  cbn [read_lines]. unfold fgets. destruct (Z.leb_spec n 0); [lia|]. destruct (Z.eqb_spec n 1); [lia|].
  destruct s as [|c s]; [by rewrite app_nil_r|].
  destruct (fgets_line_spec (Z.to_nat (n - 1)) 254 (c :: s)) as (l & s' & -> & Heq & Hl & Hs' & Hlen); [done..|].
  rewrite Heq in Hz, Hf, Hroom |- *. apply Forall_app in Hz as [Hzl Hzs]. rewrite cstring_id by done.
  unfold zlen, temp_buf_size in *. rewrite length_app in Hroom, Hf. specialize (Hlen ltac:(lia) ltac:(done)).
  destruct (Z.ltb_spec 255 (Z.of_nat (length l) + 1)); [lia|].
  destruct (Z.ltb_spec room (Z.of_nat (length acc) + Z.of_nat (length l))); [lia|].
  rewrite IH; [by rewrite <-app_assoc|lia|done|done|rewrite length_app; lia].
Qed.

(** A first line that does not fit into [temp_buf]. *)
Lemma fgets_line_long k s :
  (255 <= k)%nat → (255 <= length s)%nat → Forall (λ c, c ≠ 10) (take 255 s) →
  (255 <= length (fgets_line k s).1)%nat.
Proof.
  intros Hk Hs Hno. assert (∀ m k s, (m <= k)%nat → (m <= length s)%nat → Forall (λ c, c ≠ 10) (take m s) →
    (m <= length (fgets_line k s).1)%nat) as Hgen; [|by apply Hgen].
  clear. induction m as [|m IH]; intros [|k] [|c s] Hk Hs Hno; simpl in *; try lia.
  apply Forall_cons in Hno as [Hc Hno]. destruct (Z.eqb_spec c 10); [done|].
  specialize (IH k s ltac:(lia) ltac:(lia) Hno). destruct (fgets_line k s). simpl in *. lia.
Qed.

Section file.
Variable may_allocate : nat → Z → bool.
Variable files : string → option (list Z).

(** A text file the loader handles: no NUL, lines shorter than [temp_buf],
    length other than 1 and within [int]. *)
Definition loadable (file : list Z) : Prop :=
  Forall (λ c, c ≠ 0) file ∧ short_lines 254 file = true ∧ length file ≠ 1%nat ∧ zlen file < 2 ^ 31.

Lemma parse_file_loads name file h a h1 :
  name ≠ ""%string → files name = Some file → loadable file →
  allocate may_allocate (zlen file + 1) h = (Some a, h1) →
  fw_config_parse_file may_allocate files (Some name) h = cJSON_Parse may_allocate (Some file) h1.
Proof.
  intros Hname Hfile (Hz & Hs & Hone & Hl) Ha. unfold fw_config_parse_file.
  rewrite (proj2 (String.eqb_neq _ _) Hname), Hfile. cbn [mbind outcome_bind].
  assert (0 <= zlen file) as Hnn by (unfold zlen; lia). rewrite to_int_small by done.
  unfold u64. rewrite Z.mod_small, Ha by lia.
  assert (read_lines (S (length file)) (zlen file) (zlen file + 1) file [] = Ok file) as ->.
  { destruct file as [|c file]; [done|]. apply (read_lines_spec _ _ _ (c :: file) []); auto.
    - unfold zlen in *. simpl in *. lia.
    - unfold zlen. simpl length. lia. }
  cbn [mbind outcome_bind]. destruct (Z.ltb_spec (zlen file) 0); [lia|].
  rewrite Z.ltb_irrefl. unfold zlen. rewrite Nat2Z.id, firstn_all, cstring_id by done. done.
Qed.

End file.

Section spec.
Context `{ByteOrderLaws, RteLpmLaws}.

(** ** Verdicts *)

(** Version nibble and source address of a packet. *)
Definition ip_version (pkt : mbuf) : Z := byte_at pkt 14 / 16.
Definition ip_src (pkt : mbuf) : Z := be32_at pkt 26.

Lemma ipv4_hdr_spec pkt :
  wf_mbuf pkt → fw_pkt_ipv4_hdr pkt = Ok (if ip_version pkt =? 4 then Some 14 else None).
Proof.
  intros Hp. unfold fw_pkt_ipv4_hdr, sizeof_ether_hdr, off_version_ihl, ip_version.
  rewrite (load8_spec pkt Hp) by lia. cbn [mbind outcome_bind]. change (Z.to_nat (14 + 0)) with 14%nat.
  pose proof (byte_at_range pkt Hp 14 ltac:(lia)) as Hb. unfold is_byte in Hb.
  rewrite Z.shiftr_div_pow2 by lia. change 0xF with (Z.ones 4). rewrite Z.land_ones by lia.
  change (2 ^ 4) with 16. rewrite Z.mod_small by (Z.to_euclidean_division_equations; lia).
  by destruct (byte_at pkt 14 / 16 =? 4).
Qed.

(** The verdict is the stored next hop: the return code of the lookup plays
    no part in it. *)
Definition verdict (rule : Z) : FW_ACTION := if rule =? 0 then FW_FORWARD else FW_DROP.

Lemma handler_spec pkt f :
  wf_mbuf pkt →
  fw_packet_handler pkt f =
    if ip_version pkt =? 4
    then Ok (verdict (rte_lpm_lookup (lpm_tbl f) (ip_src pkt) 0).2, count_total f)
    else Fault NullDereference.
Proof.
  intros Hp. unfold fw_packet_handler, fw_pkt_is_ipv4. rewrite ipv4_hdr_spec by done. cbn [mbind outcome_bind].
  destruct (ip_version pkt =? 4); cbn [negb mbind outcome_bind or_fault]; [|done].
  pose proof (load_be32 pkt Hp (14 + off_src_addr) ltac:(unfold off_src_addr; lia)) as Hsrc.
  destruct (load32 pkt (14 + off_src_addr)) as [v| |]; [|done..].
  cbn [mbind outcome_bind] in *. injection Hsrc as ->.
  change (be32_at pkt (Z.to_nat (14 + off_src_addr))) with (ip_src pkt).
  change (lpm_tbl (count_total f)) with (lpm_tbl f).
  destruct (rte_lpm_lookup _ _ _) as [ret rule]. unfold verdict. simpl. by destruct (rule =? 0).
Qed.

(** A packet whose source matches a rule gets the action of the most specific
    one. *)
Lemma handler_longest pkt f t action :
  wf_mbuf pkt → ip_version pkt = 4 → lpm_tbl f = Some t → lpm_longest (lpm_rules t) (ip_src pkt) = Some action →
  fw_packet_handler pkt f = Ok (verdict action, count_total f).
Proof.
  intros Hp Hv Ht Hl. rewrite handler_spec, Hv, Ht by done. cbn [Z.eqb Pos.eqb].
  destruct (rte_lpm_lookup _ _ _) as [ret rule] eqn:E. apply lpm_lookup_spec in E. rewrite Hl in E.
  by destruct E as [_ ->].
Qed.

End spec.

(** ** Filling the table *)

Section table.
Context `{RteLpmLaws}.

(** A rule with an initialised address, as the table sees it. *)
Record rule_spec := RuleSpec { rs_ip : Z; rs_depth : Z; rs_action : Z }.

Definition insert_rule (m : gmap (Z * Z) Z) (r : rule_spec) : gmap (Z * Z) Z :=
  <[(lpm_prefix (rs_ip r) (rs_depth r), rs_depth r) := rs_action r]> m.

(** The rules a heap array holds from slot [i] on. *)
Definition array_holds (ra : rule_array) (h : heap) (i : nat) (l : list rule_spec) : Prop :=
  ra_addr ra ∈ live h ∧
  ∀ k r, l !! k = Some r → ∃ a, a ∈ live h ∧
    ra_slots ra !! (i + k)%nat = Some (Some (FwRule a (Some (rs_ip r)) (rs_depth r) (rs_action r))).

Lemma array_holds_cons ra h i r l :
  array_holds ra h i (r :: l) →
  (∃ a, a ∈ live h ∧ ra_slots ra !! i = Some (Some (FwRule a (Some (rs_ip r)) (rs_depth r) (rs_action r)))) ∧
  array_holds ra h (S i) l.
Proof.
  intros [Hlive Hall]. split.
  - destruct (Hall 0%nat r eq_refl) as (a & ? & Ha). rewrite Nat.add_0_r in Ha. eauto.
  - split; [done|]. intros k r' Hr'. destruct (Hall (S k) r' Hr') as (a & ? & Ha).
    exists a. split; [done|]. by replace (S i + k)%nat with (i + S k)%nat by lia.
Qed.

Lemma get_rule_spec ra h i a r :
  ra_addr ra ∈ live h → a ∈ live h → ra_slots ra !! i = Some (Some (FwRule a (Some (rs_ip r)) (rs_depth r) (rs_action r))) →
  get_rule (Some ra) (Z.of_nat i) h = Ok (FwRule a (Some (rs_ip r)) (rs_depth r) (rs_action r)).
Proof.
  intros Hra Ha Hs. unfold get_rule, live_array. cbn [or_fault mbind outcome_bind]. rewrite decide_True by done. cbn [mbind outcome_bind].
  rewrite (proj2 (arr_get_Ok (ra_slots ra) (Z.of_nat i) (Some _))) by (rewrite Nat2Z.id; split; [lia|exact Hs]).
  done.
Qed.

(** Table [t] refuses one of the rules when they are added in order. *)
Fixpoint refuses (t : lpm) (l : list rule_spec) : bool :=
  match l with
  | [] => false
  | r :: l =>
      let '(ret, p) := rte_lpm_add (Some t) (rs_ip r) (rs_depth r) (rs_action r) in
      (ret <? 0) || match p with Some t' => refuses t' l | None => false end
  end.

(** [lpm_add_rules] runs through; it stops early only when the table refuses
    a rule, and otherwise has inserted all of them in order. *)
Lemma lpm_add_rules_spec ra l i f t :
  array_holds ra (fw_heap f) i l → lpm_tbl f = Some t →
  ∃ code t', lpm_add_rules (Some ra) (length l) (Z.of_nat i) f = Ok (code, set_lpm_tbl (Some t') f) ∧
    (code = 0 ∧ refuses t l = false ∧ lpm_rules t' = foldl insert_rule (lpm_rules t) l ∧ Forall (λ r, 1 <= rs_depth r <= 32) l ∨
     code = 1 ∧ refuses t l = true ∧ ∃ k, (k < length l)%nat ∧ lpm_rules t' = foldl insert_rule (lpm_rules t) (take k l)).
Proof.
  revert i f t. induction l as [|r l IH]; intros i f t Hh Ht.
  { exists 0, t. split; [by destruct f; simpl in *; subst|]. left. auto. }
  apply array_holds_cons in Hh as [(a & Ha & Hs) Hh]. pose proof (proj1 Hh) as Hra.
  cbn [lpm_add_rules length]. unfold lpm_add_rule. rewrite (get_rule_spec _ _ _ _ _ Hra Ha Hs). cbn [mbind outcome_bind].
  unfold read_rule. cbn [r_addr]. rewrite decide_True by done. cbn [mbind outcome_bind src_ip or_fault r_depth r_action].
  destruct (rte_lpm_add _ _ _ _) as [ret p] eqn:Hadd. rewrite Ht in Hadd.
  destruct (lpm_add_spec _ _ _ _ _ _ Hadd) as (t1 & -> & Hret).
  destruct Hret as [(-> & Hd & Ht1)|(Hneg & Ht1)]; cbn [mbind outcome_bind].
  - cbn [Z.ltb Z.compare]. replace (Z.of_nat i + 1) with (Z.of_nat (S i)) by lia.
    destruct (IH (S i) (set_lpm_tbl (Some t1) f) t1 Hh eq_refl) as (code & t' & -> & Hres).
    exists code, t'. split; [done|]. cbn [refuses]. rewrite Hadd.
    destruct Hres as [(-> & Href & Hm & Hall)|(-> & Href & k & Hk & Hm)]; [left|right].
    + split_and!; [done|done| |by constructor]. simpl. unfold insert_rule at 2. by rewrite <-Ht1.
    + split_and!; [done|done|]. exists (S k). split; [simpl; lia|]. simpl. unfold insert_rule at 2. by rewrite <-Ht1.
  - destruct (Z.ltb_spec ret 0); [|lia]. exists 1, t1. split; [done|]. right.
    split_and!; [done|cbn [refuses]; rewrite Hadd; by rewrite (proj2 (Z.ltb_lt _ _))|].
    exists 0%nat. split; [simpl; lia|]. done.
Qed.

End table.

(** ** The life of the rule array *)

Section array.
Context `{RteLpm}.

(** The array and its rules are distinct live blocks. *)
Definition array_owns (ra : rule_array) (l : list fw_rule) (h : heap) : Prop :=
  ra_slots ra = Some <$> l ∧ NoDup (ra_addr ra :: (r_addr <$> l)) ∧
  list_to_set (ra_addr ra :: (r_addr <$> l)) ⊆ live h.

Lemma free_rules_run ra l1 l2 h :
  ra_slots ra = Some <$> l1 ++ l2 → NoDup (ra_addr ra :: (r_addr <$> l2)) →
  list_to_set (ra_addr ra :: (r_addr <$> l2)) ⊆ live h →
  foldM (free_rule ra) (seqZ (zlen l1) (zlen l2)) h = Ok (Heap (reqs h) (live h ∖ list_to_set (r_addr <$> l2))).
Proof.
  unfold zlen. revert l1 h. induction l2 as [|r l2 IH]; intros l1 h Hs Hnd Hsub.
  { simpl. destruct h. do 2 f_equal. simpl. set_solver. }
  rewrite seqZ_cons by (simpl; lia). cbn [foldM].
  apply NoDup_cons in Hnd as [Hra Hnd]. pose proof Hnd as Hnd'. apply NoDup_cons in Hnd as [Hr Hnd]. cbn [fmap list_fmap] in *.
  assert (free_rule ra (Z.of_nat (length l1)) h = Ok (Heap (reqs h) (live h ∖ {[r_addr r]}))) as ->.
  { unfold free_rule, get_rule, live_array. cbn [or_fault mbind outcome_bind]. rewrite decide_True by set_solver.
    cbn [mbind outcome_bind].
    rewrite (proj2 (arr_get_Ok (ra_slots ra) (Z.of_nat (length l1)) (Some r))).
    - cbn [or_fault mbind outcome_bind]. unfold deallocate. by rewrite decide_True by set_solver.
    - split; [lia|]. rewrite Nat2Z.id, Hs, fmap_app, lookup_app_r by (by rewrite length_fmap).
      by rewrite length_fmap, Nat.sub_diag. }
  cbn [mbind outcome_bind].
  replace (Z.succ (Z.of_nat (length l1))) with (Z.of_nat (length (l1 ++ [r]))) by (rewrite length_app; simpl; lia).
  replace (Z.pred (Z.of_nat (length (r :: l2)))) with (Z.of_nat (length l2)) by (simpl; lia).
  rewrite IH; simpl.
  - do 2 f_equal. set_solver.
  - rewrite Hs. by rewrite <-app_assoc.
  - apply NoDup_cons. split; [set_solver|done].
  - apply union_subseteq. split.
    + apply singleton_subseteq_l. set_solver.
    + intros x Hx. apply elem_of_difference. split; [set_solver|]. set_solver.
Qed.

Lemma teardown_spec ra l f :
  array_owns ra l (fw_heap f) →
  lpm_teardown (Some ra) (zlen l) f =
    Ok (set_fw_heap (Heap (reqs (fw_heap f)) (live (fw_heap f) ∖ list_to_set (ra_addr ra :: (r_addr <$> l)))) f).
Proof.
  intros (Hs & Hnd & Hsub). unfold lpm_teardown.
  rewrite (free_rules_run ra [] l) by done. cbn [mbind outcome_bind].
  apply NoDup_cons in Hnd as [Hra _].
  unfold deallocate. cbn [live]. rewrite decide_True by set_solver. cbn [mbind outcome_bind reqs].
  do 3 f_equal. set_solver.
Qed.

(** Tearing down an array that is already freed. *)
Lemma teardown_freed ra n f :
  ra_addr ra ∉ live (fw_heap f) →
  lpm_teardown (Some ra) n f = Fault (if 0 <? n then UseAfterFree else DoubleFree).
Proof.
  intros Hra. unfold lpm_teardown. destruct (Z.ltb_spec 0 n).
  - rewrite seqZ_cons by lia. cbn [foldM].
    assert (free_rule ra 0 (fw_heap f) = Fault UseAfterFree) as ->; [|done].
    unfold free_rule, get_rule, live_array. cbn [or_fault mbind outcome_bind]. by rewrite decide_False.
  - rewrite seqZ_nil by lia. cbn [foldM mbind outcome_bind]. unfold deallocate. by rewrite decide_False.
Qed.
End array.

(** ** From the JSON tree to the array *)

(** What the three members of a rule object say: address (if the text is
    one), depth and action. *)
Definition item_fields (j : cJSON) : option (option Z * Z * Z) :=
  rules_ip ← cJSON_GetObjectItem (Some j) (Some name_ip);
  depth ← cJSON_GetObjectItem (Some j) (Some name_depth);
  action ← cJSON_GetObjectItem (Some j) (Some name_action);
  Some ((fw_pkt_parse_ip ((λ s, cstring (c_bytes s)) <$> valuestring rules_ip)).2,
        u8 (valueint depth), u8 (valueint action)).

(** Rules in consecutive blocks starting at [a]. *)
Fixpoint mk_rules (a : nat) (l : list (option Z * Z * Z)) : list fw_rule :=
  match l with
  | [] => []
  | (ip, d, act) :: l => FwRule a ip d act :: mk_rules (S a) l
  end.

Lemma mk_rules_addr a l : r_addr <$> mk_rules a l = seq a (length l).
Proof. revert a. induction l as [|[[??]?] l IH]; intros a; cbn; [done|]. by rewrite IH. Qed.

Lemma mk_rules_length a l : length (mk_rules a l) = length l.
Proof. revert a. induction l as [|[[??]?] l IH]; intros a; cbn; [done|]. by rewrite IH. Qed.

(** The heap after [n] more successful requests. *)
Definition alloc_n (n : nat) (h : heap) : heap := Heap (reqs h + n) (list_to_set (seq (reqs h) n) ∪ live h).

Lemma alloc_n_S n h : alloc_n n (Heap (S (reqs h)) ({[reqs h]} ∪ live h)) = alloc_n (S n) h.
Proof. unfold alloc_n. cbn. f_equal; [lia|set_solver]. Qed.

Section malloc.
Context `{RteLpm}.
Variable may_allocate : nat → Z → bool.
Variable files : string → option (list Z).
Hypothesis malloc_ok : ∀ n size, may_allocate n size = true.

Lemma allocate_ok size h :
  allocate may_allocate size h = (Some (reqs h), Heap (S (reqs h)) ({[reqs h]} ∪ live h)).
Proof. unfold allocate. by rewrite malloc_ok. Qed.

Lemma setup_rule_run a done n i j f x :
  item_fields j = Some x → rules f = Some (RuleArray a ((Some <$> done) ++ replicate (S n) None)) →
  a ∈ live (fw_heap f) → i = zlen done →
  setup_rule may_allocate i j f = Ok (set_rules
    (Some (RuleArray a ((Some <$> done ++ mk_rules (reqs (fw_heap f)) [x]) ++ replicate n None)))
    (set_fw_heap (alloc_n 1 (fw_heap f)) f)).
Proof using malloc_ok.
  intros Hx Hr Ha ->. unfold setup_rule. unfold item_fields in Hx.
  destruct (cJSON_GetObjectItem (Some j) (Some name_ip)) as [ji|]; [|done].
  destruct (cJSON_GetObjectItem (Some j) (Some name_depth)) as [jd|]; [|done].
  destruct (cJSON_GetObjectItem (Some j) (Some name_action)) as [ja|]; [|done]. cbn in Hx. injection Hx as <-.
  rewrite allocate_ok. unfold live_array. cbn [mbind outcome_bind rules fw_heap set_fw_heap]. rewrite Hr.
  cbn [or_fault mbind outcome_bind ra_slots ra_addr live]. rewrite decide_True by set_solver. cbn [mbind outcome_bind ra_slots].
  rewrite arr_set_total by (unfold zlen; rewrite length_app, length_fmap, length_replicate; lia).
  cbn [mbind outcome_bind]. f_equal. unfold zlen. rewrite Nat2Z.id, insert_app_r_alt by (by rewrite length_fmap).
  rewrite length_fmap, Nat.sub_diag. cbn [replicate mk_rules ra_addr].
  unfold set_rules, set_fw_heap, alloc_n. cbn. rewrite fmap_app, <-app_assoc. cbn.
  repeat (f_equal; try lia). set_solver.
Qed.

Lemma setup_rule_loop_run a done l xs f :
  mapM item_fields l = Some xs → rules f = Some (RuleArray a ((Some <$> done) ++ replicate (length l) None)) →
  a ∈ live (fw_heap f) →
  setup_rule_loop may_allocate (zlen done) l f = Ok (set_rules
    (Some (RuleArray a (Some <$> done ++ mk_rules (reqs (fw_heap f)) xs)))
    (set_fw_heap (alloc_n (length l) (fw_heap f)) f)).
Proof using malloc_ok.
  revert done xs f. induction l as [|j l IH]; intros done xs f Hm Hr Ha.
  { injection Hm as <-. cbn [setup_rule_loop mk_rules length replicate] in *. f_equal.
    rewrite !app_nil_r in *. destruct f as [? ? ? ? [n L] ?]. cbn in *. unfold set_rules, set_fw_heap, alloc_n. cbn.
    rewrite Hr. repeat (f_equal; try lia). set_solver. }
  cbn [mapM] in Hm. apply bind_Some in Hm as (x & Hx & Hm). apply bind_Some in Hm as (xs' & Hm & [= <-]).
  cbn [setup_rule_loop length]. rewrite (setup_rule_run a done (length l) _ j f x Hx Hr Ha eq_refl).
  cbn [mbind outcome_bind].
  replace (zlen done + 1) with (zlen (done ++ mk_rules (reqs (fw_heap f)) [x])).
  2: { unfold zlen. rewrite length_app, mk_rules_length. simpl. lia. }
  rewrite (IH _ xs') by (done || cbn; set_solver). f_equal. unfold set_rules, set_fw_heap. cbn.
  destruct x as [[ip d] act]. cbn. rewrite <-app_assoc. cbn.
  replace (reqs (fw_heap f) + 1)%nat with (S (reqs (fw_heap f))) by lia. f_equal. 
  unfold alloc_n. cbn. f_equal; [lia|]. rewrite Nat.add_1_r. cbn. set_solver.
Qed.

(** [setup_rules] on a readable file whose JSON has all members. *)
Lemma setup_rules_run name f j h1 xs :
  fw_config_parse_file may_allocate files (Some name) (fw_heap f) = Ok (Some j, h1) →
  mapM item_fields (child j) = Some xs → zlen xs < 2 ^ 31 →
  let ra := RuleArray (reqs h1) (Some <$> mk_rules (S (reqs h1)) xs) in
  setup_rules may_allocate files (Some name) f =
    Ok (Some ra, Firewall (stats f) (lpm_tbl f) (Some ra) (zlen xs) (alloc_n (S (length xs)) h1)
                   (option_list (rules f) ++ old_arrays f)).
Proof using malloc_ok.
  intros Hp Hm Hn ra. unfold setup_rules, setup_parse, setup_alloc. rewrite Hp. cbn [mbind outcome_bind].
  pose proof (length_mapM _ _ _ Hm) as Hl.
  assert (fw_config_get_item_count (Some j) = zlen xs) as Hcount.
  { cbn. unfold zlen in *. rewrite Hl. apply to_int_small. lia. }
  rewrite Hcount, allocate_ok. cbn [fw_heap set_num_rules set_fw_heap fmap option_fmap].
  rewrite (setup_rule_loop_run (reqs h1) [] (child j) xs) by (done || (cbn; unfold zlen; by rewrite Nat2Z.id, Hl) || (cbn; set_solver)).
  cbn [mbind outcome_bind cJSON_Delete set_rules replace_rules set_fw_heap set_num_rules fw_heap rules stats lpm_tbl num_rules old_arrays].
  rewrite alloc_n_S, Hl. done.
Qed.

(** A rule object without one of its members ends the process. *)
Lemma setup_rule_missing i j f : item_fields j = None → ∃ msg, setup_rule may_allocate i j f = Exit msg.
Proof.
  unfold item_fields, setup_rule.
  destruct (cJSON_GetObjectItem (Some j) (Some name_ip)); [|eauto].
  destruct (cJSON_GetObjectItem (Some j) (Some name_depth)); [|eauto].
  destruct (cJSON_GetObjectItem (Some j) (Some name_action)); [done|eauto].
Qed.

Lemma setup_rule_loop_missing a done l f :
  mapM item_fields l = None → rules f = Some (RuleArray a ((Some <$> done) ++ replicate (length l) None)) →
  a ∈ live (fw_heap f) →
  ∃ msg, setup_rule_loop may_allocate (zlen done) l f = Exit msg.
Proof using malloc_ok.
  revert done f. induction l as [|j l IH]; intros done f Hm Hr Ha; [discriminate Hm|].
  cbn [setup_rule_loop]. destruct (item_fields j) as [x|] eqn:Hx.
  - rewrite (setup_rule_run a done (length l) _ j f x Hx Hr Ha eq_refl). cbn [mbind outcome_bind].
    replace (zlen done + 1) with (zlen (done ++ mk_rules (reqs (fw_heap f)) [x])).
    2: { unfold zlen. rewrite length_app, mk_rules_length. simpl. lia. }
    apply IH; [|done|cbn; set_solver]. cbn [mapM] in Hm. rewrite Hx in Hm. cbn in Hm. by destruct (mapM item_fields l).
  - destruct (setup_rule_missing (zlen done) j f Hx) as [msg ->]. by exists msg.
Qed.

Lemma setup_rules_missing name f j h1 :
  fw_config_parse_file may_allocate files (Some name) (fw_heap f) = Ok (Some j, h1) →
  mapM item_fields (child j) = None → zlen (child j) < 2 ^ 31 →
  ∃ msg, setup_rules may_allocate files (Some name) f = Exit msg.
Proof using malloc_ok.
  intros Hp Hm Hn. unfold setup_rules, setup_parse, setup_alloc. rewrite Hp. cbn [mbind outcome_bind].
  assert (fw_config_get_item_count (Some j) = zlen (child j)) as Hcount.
  { cbn. unfold zlen in *. apply to_int_small. lia. }
  rewrite Hcount, allocate_ok. cbn [fw_heap set_num_rules set_fw_heap fmap option_fmap].
  edestruct (setup_rule_loop_missing (reqs h1) [] (child j)) as [msg Hexit]; [exact Hm| | |].
  3: { change (zlen (@nil fw_rule)) with 0 in Hexit. rewrite Hexit. by exists msg. }
  - cbn. unfold zlen. by rewrite Nat2Z.id.
  - cbn. set_solver.
Qed.
End malloc.
