(* ===== verification/Coprocessor.v ===== *)
(** * Coprocessor glue ([engine/coprocessor.{h,c}])

    The coprocessor runs the firewall: [process_packet] is the network
    function the switch calls, [coprocessor_setup] and [coprocessor_teardown]
    are run by every coprocessor thread on the shared firewall state. *)
From S2P Require Import Prelude Dpdk Stdio Config CJsonData CJsonText CJsonParse CJsonQuery Switch SwitchInv.
From S2P Require Import FastPath Firewall FirewallSpec.

Definition rule_file : string := "./nfs/firewall/rules.json".

Section coprocessor.
Context `{ByteOrder, RteLpm}.
Variable may_allocate : nat → Z → bool.
Variable files : string → option (list Z).

(** The local variable [rules] holds the result of [setup_rules]; the code
    returned by [lpm_setup] is ignored. *)
Definition coprocessor_setup (name : string) (f : firewall) : outcome (Z * firewall) :=
  '(rules, f) ← setup_rules may_allocate files (Some rule_file) f;
  '(_, f) ← lpm_setup name rules (num_rules f) f;
  Ok (0, f).

(** Here [rules] is the global variable. *)
Definition coprocessor_teardown (f : firewall) : outcome (Z * firewall) :=
  f ← lpm_teardown (rules f) (num_rules f) f;
  Ok (0, f).

Definition fw_process_packet (f : firewall) (pkt : mbuf) : outcome (Z * firewall) :=
  '(action, f) ← fw_packet_handler pkt f;
  if bool_decide (action ≠ FW_FORWARD) then Ok (-1, f) else Ok (0, f).

#[global] Instance firewall_function : NetworkFunction firewall := fw_process_packet.
End coprocessor.

Section spec.
Context `{ByteOrderLaws, RteLpmLaws, Policy}.

Lemma process_packet_spec f pkt :
  wf_mbuf pkt →
  fw_process_packet f pkt =
    if ip_version pkt =? 4
    then Ok (if (rte_lpm_lookup (lpm_tbl f) (ip_src pkt) 0).2 =? 0 then 0 else -1, count_total f)
    else Fault NullDereference.
Proof.
  intros Hp. unfold fw_process_packet. rewrite handler_spec by done.
  destruct (ip_version pkt =? 4); cbn [mbind outcome_bind]; [|done].
  unfold verdict. by destruct (_ =? 0).
Qed.

(** Two firewall states that differ in the counters only. *)
Definition same_config (f0 f : firewall) : Prop :=
  lpm_tbl f = lpm_tbl f0 ∧ rules f = rules f0 ∧ num_rules f = num_rules f0 ∧ fw_heap f = fw_heap f0.

(** The firewall in configuration [f0] implements the interface of the switch,
    for a policy that accepts what its table lets through; it admits packets
    whose version field is 4. *)
Program Definition firewall_spec (f0 : firewall)
    (Hpol : ∀ pkt, (rte_lpm_lookup (lpm_tbl f0) (ip_src pkt) 0).2 = 0 → pol_accepts pkt) :
    NetworkFunctionSpec (F := firewall) := {|
  nf_state_ok f := same_config f0 f;
  nf_admits pkt := ip_version pkt = 4;
|}.
Next Obligation.
  intros f0 _ f pkt _ Hp Hv. unfold process_packet, firewall_function.
  rewrite process_packet_spec, Hv by done. cbn [Z.eqb Pos.eqb]. eauto.
Qed.
Next Obligation.
  intros f0 Hpol f pkt ret f' Hf Hp. unfold process_packet, firewall_function.
  rewrite process_packet_spec by done. destruct (ip_version pkt =? 4); [|done]. intros [= <- <-].
  destruct (Hf) as (Ht & _). split; [exact Hf|]. rewrite Ht.
  destruct (Z.eqb_spec (rte_lpm_lookup (lpm_tbl f0) (ip_src pkt) 0).2 0); [by auto|done].
Qed.
End spec.

(** ** Set-up and tear-down of the firewall *)

(** The fields of a rule object that has an address. *)
Definition rule_fields (r : rule_spec) : option Z * Z * Z := (Some (rs_ip r), rs_depth r, rs_action r).

(** The array that [setup_rules] builds in fresh blocks. *)
Definition fresh_array (h : heap) (rs : list rule_spec) : rule_array :=
  RuleArray (reqs h) (Some <$> mk_rules (S (reqs h)) (rule_fields <$> rs)).

Lemma mk_rules_lookup a rs k r :
  rs !! k = Some r →
  mk_rules a (rule_fields <$> rs) !! k = Some (FwRule (a + k) (Some (rs_ip r)) (rs_depth r) (rs_action r)).
Proof.
  revert a k. induction rs as [|r' rs IH]; intros a k; [done|].
  rewrite fmap_cons. cbn [mk_rules rule_fields]. destruct k as [|k].
  - intros [= ->]. cbn. by rewrite Nat.add_0_r.
  - intros Hk. etrans; [exact (IH (S a) k Hk)|]. by replace (S a + k)%nat with (a + S k)%nat by lia.
Qed.

Lemma elem_of_seq_set x a n : x ∈ (list_to_set (seq a n) : gset nat) ↔ (a <= x < a + n)%nat.
Proof. rewrite elem_of_list_to_set, elem_of_seq. done. Qed.

Lemma fresh_array_holds h rs : array_holds (fresh_array h rs) (alloc_n (S (length rs)) h) 0 rs.
Proof.
  split; [unfold alloc_n; cbn; set_solver|]. intros k r Hk. exists (S (reqs h) + k)%nat. split.
  - apply lookup_lt_Some in Hk. unfold alloc_n. cbn [live]. apply elem_of_union. left. apply elem_of_seq_set. lia.
  - cbn [fresh_array ra_slots Nat.add]. by rewrite list_lookup_fmap, (mk_rules_lookup _ _ _ r Hk).
Qed.

Lemma fresh_array_owns h rs :
  array_owns (fresh_array h rs) (mk_rules (S (reqs h)) (rule_fields <$> rs)) (alloc_n (S (length rs)) h).
Proof.
  split_and!; [done| |].
  - cbn [fresh_array ra_addr]. rewrite mk_rules_addr. apply (NoDup_seq (reqs h) (S (length (rule_fields <$> rs)))).
  - cbn [fresh_array ra_addr]. rewrite mk_rules_addr, length_fmap. unfold alloc_n. cbn [live].
    intros x Hx. apply elem_of_union. left. exact Hx.
Qed.

Section setup.
Context `{RteLpmLaws}.
Variable may_allocate : nat → Z → bool.
Variable files : string → option (list Z).
Hypothesis malloc_ok : ∀ n size, may_allocate n size = true.

(** The rule file is readable, parses to [j], and its members are the rules
    [rs]. *)
Definition rule_file_says (f : firewall) (h1 : heap) (rs : list rule_spec) : Prop :=
  ∃ j, fw_config_parse_file may_allocate files (Some rule_file) (fw_heap f) = Ok (Some j, h1) ∧
    mapM item_fields (child j) = Some (rule_fields <$> rs) ∧ zlen rs < 2 ^ 31.

Lemma coprocessor_setup_spec name f h1 rs t :
  rule_file_says f h1 rs → rte_lpm_create name 1024 24 = Some t →
  ∃ t', coprocessor_setup may_allocate files name f =
      Ok (0, Firewall (stats f) (Some t') (Some (fresh_array h1 rs)) (zlen rs) (alloc_n (S (length rs)) h1)
               (option_list (rules f) ++ old_arrays f)) ∧
    ∃ k, lpm_rules t' = foldl insert_rule ∅ (take k rs) ∧
      ((k = length rs ∧ refuses t rs = false ∧ Forall (λ r, 1 <= rs_depth r <= 32) rs) ∨ (k < length rs)%nat ∧ refuses t rs = true).
Proof using malloc_ok.
  intros (j & Hp & Hm & Hn) Ht. unfold coprocessor_setup.
  assert (zlen (rule_fields <$> rs) = zlen rs) as Hz by (unfold zlen; by rewrite length_fmap).
  rewrite (setup_rules_run may_allocate files malloc_ok rule_file f j h1 (rule_fields <$> rs)) by (done || by rewrite Hz).
  cbn [mbind outcome_bind num_rules]. rewrite Hz, length_fmap. unfold lpm_setup. rewrite Ht.
  unfold zlen. rewrite Nat2Z.id. cbn [set_lpm_tbl].
  destruct (lpm_add_rules_spec (fresh_array h1 rs) rs 0
    (Firewall (stats f) (Some t) (Some (fresh_array h1 rs)) (Z.of_nat (length rs)) (alloc_n (S (length rs)) h1)
      (option_list (rules f) ++ old_arrays f)) t)
    as (code & t' & Hadd & Hres); [apply fresh_array_holds|done|].
  change (Z.of_nat 0) with 0 in Hadd. change (RuleArray (reqs h1) _) with (fresh_array h1 rs).
  unfold set_lpm_tbl at 1. cbn [stats rules num_rules fw_heap old_arrays].
  rewrite Hadd. cbn [mbind outcome_bind]. exists t'. split; [done|].
  pose proof (lpm_create_spec _ _ _ _ Ht) as Hempty. rewrite Hempty in Hres.
  destruct Hres as [(_ & Href & Hm' & Hd)|(_ & Href & k & Hk & Hm')].
  - exists (length rs). rewrite firstn_all. auto.
  - exists k. auto.
Qed.

End setup.

(** After a set-up the first tear-down frees the array and its rules; any
    later one faults on the freed array. *)
Lemma teardown_twice `{RteLpm} f rs h1 :
  rules f = Some (fresh_array h1 rs) → num_rules f = zlen rs → fw_heap f = alloc_n (S (length rs)) h1 →
  ∃ f', coprocessor_teardown f = Ok (0, f') ∧
    live (fw_heap f') = live (fw_heap f) ∖ list_to_set (seq (reqs h1) (S (length rs))) ∧
    coprocessor_teardown f' = Fault (if 0 <? zlen rs then UseAfterFree else DoubleFree).
Proof.
  intros Hr Hn Hh. unfold coprocessor_teardown at 1. rewrite Hr, Hn.
  pose proof (fresh_array_owns h1 rs) as Hown. rewrite <-Hh in Hown.
  pose proof (teardown_spec _ _ _ Hown) as Htd. unfold zlen in Htd. rewrite mk_rules_length, length_fmap in Htd.
  unfold zlen at 1. rewrite Htd. cbn [mbind outcome_bind]. eexists. split; [done|]. split.
  - cbn [set_fw_heap fw_heap live fresh_array ra_addr]. by rewrite mk_rules_addr, length_fmap.
  - unfold coprocessor_teardown. cbn [rules set_fw_heap num_rules]. rewrite Hr, Hn, teardown_freed; [done|].
    cbn [fw_heap set_fw_heap live fresh_array ra_addr]. set_solver.
Qed.
