(* ===== verification/SetupSteps.v ===== *)
(** * The set-up of a coprocessor, step by step ([coprocessor_setup])

    Every coprocessor thread runs [coprocessor_setup], without a lock, on the
    globals [rules], [num_rules] and [lpm_tbl].  A step of the set-up accesses at
    most one of them; between two steps other threads run.  Alone, the steps
    compute [coprocessor_setup]. *)
From S2P Require Import Prelude Dpdk Stdio Config CJsonData CJsonText CJsonParse CJsonQuery Switch Firewall FirewallSpec Coprocessor.

(** Where the set-up is, with its local variables.  A pointer to an array of
    rules is the address of the array. *)
Inductive setup_pc :=
  | SetupParse
  | SetupAlloc (rules_json : cJSON)
  | SetupRules (rule_idx : Z) (rules_json : list cJSON)
  | SetupCall (rules : option nat)
  | SetupTable (rules : option nat) (num_rules : Z)
  | SetupAdd (rules : option nat) (n : nat) (rule_idx : Z)
  | SetupReturned (ret : Z).

Definition setup_done (c : setup_pc) : bool := match c with SetupReturned _ => true | _ => false end.

Section setup.
Context `{RteLpm}.
Variable may_allocate : nat → Z → bool.
Variable files : string → option (list Z).

(** The array a pointer points to. *)
Definition pointee (p : option nat) (f : firewall) : option rule_array :=
  a ← p; head (filter (λ ra, ra_addr ra = a) (option_list (rules f) ++ old_arrays f)).

(** In [setup_rules]: parsing the file and storing the number of rules;
    allocating the array; one iteration of the loop over the JSON items; reading
    the pointer [rules] that is returned.  In [coprocessor_setup]: reading the
    number of rules.  In [lpm_setup]: creating the table; one iteration of the
    loop over the rules. *)
Definition setup_step (name : string) (c : setup_pc) (f : firewall) : outcome (setup_pc * firewall) :=
  match c with
  | SetupParse => '(j, f) ← setup_parse may_allocate files (Some rule_file) f; Ok (SetupAlloc j, f)
  | SetupAlloc j => Ok (SetupRules 0 (child j), setup_alloc may_allocate j f)
  | SetupRules rule_idx (j :: l) => f ← setup_rule may_allocate rule_idx j f; Ok (SetupRules (rule_idx + 1) l, f)
  | SetupRules _ [] =>
      h ← cJSON_Delete [] (fw_heap f);
      let f := set_fw_heap h f in
      Ok (SetupCall (ra_addr <$> rules f), f)
  | SetupCall p => Ok (SetupTable p (num_rules f), f)
  | SetupTable p n => Ok (SetupAdd p (Z.to_nat n) 0, set_lpm_tbl (rte_lpm_create name 1024 24) f)
  | SetupAdd p (S n) rule_idx =>
      '(ret, f) ← lpm_add_rule (pointee p f) rule_idx f;
      Ok (if ret <? 0 then SetupReturned 0 else SetupAdd p n (rule_idx + 1), f)
  | SetupAdd _ O _ => Ok (SetupReturned 0, f)
  | SetupReturned _ => Ok (c, f)
  end.

(** ** What is left of the set-up *)

Definition setup_rest (name : string) (c : setup_pc) (f : firewall) : outcome (Z * firewall) :=
  match c with
  | SetupParse => coprocessor_setup may_allocate files name f
  | SetupAlloc j =>
      f ← setup_rule_loop may_allocate 0 (child j) (setup_alloc may_allocate j f);
      h ← cJSON_Delete [] (fw_heap f);
      let f := set_fw_heap h f in
      '(_, f) ← lpm_setup name (rules f) (num_rules f) f; Ok (0, f)
  | SetupRules rule_idx l =>
      f ← setup_rule_loop may_allocate rule_idx l f;
      h ← cJSON_Delete [] (fw_heap f);
      let f := set_fw_heap h f in
      '(_, f) ← lpm_setup name (rules f) (num_rules f) f; Ok (0, f)
  | SetupCall p => '(_, f) ← lpm_setup name (pointee p f) (num_rules f) f; Ok (0, f)
  | SetupTable p n => '(_, f) ← lpm_setup name (pointee p f) n f; Ok (0, f)
  | SetupAdd p n rule_idx => '(_, f) ← lpm_add_rules (pointee p f) n rule_idx f; Ok (0, f)
  | SetupReturned ret => Ok (ret, f)
  end.

Lemma pointee_rules f : pointee (ra_addr <$> rules f) f = rules f.
Proof. unfold pointee. destruct (rules f) as [ra|]; cbn; [|done]. by rewrite decide_True. Qed.

(** A step does the first part of it. *)
Lemma setup_rest_step name c f :
  setup_done c = false → setup_rest name c f = '(c, f) ← setup_step name c f; setup_rest name c f.
Proof.
  destruct c as [|j|i [|j l]|p|p n|p [|n] i|ret]; intros Hd; cbn [setup_rest setup_step]; try done.
  - unfold coprocessor_setup, setup_rules. rewrite !bind_assoc.
    destruct (setup_parse may_allocate files (Some rule_file) f) as [[j f1]| |]; cbn [mbind outcome_bind setup_rest]; [|done..].
    rewrite !bind_assoc. destruct (setup_rule_loop _ _ _ _) as [f2| |]; cbn [mbind outcome_bind]; [|done..].
    rewrite !bind_assoc. done.
  - cbn [setup_rule_loop mbind outcome_bind]. destruct (cJSON_Delete [] (fw_heap f)) as [h| |]; cbn [mbind outcome_bind]; [|done..].
    cbn [setup_rest]. by rewrite pointee_rules.
  - cbn [setup_rule_loop]. rewrite !bind_assoc. by destruct (setup_rule may_allocate i j f).
  - cbn [lpm_add_rules]. destruct (lpm_add_rule (pointee p f) i f) as [[ret f1]| |] eqn:Hadd; cbn [mbind outcome_bind]; [|done..].
    assert (pointee p f1 = pointee p f) as Hp.
    { unfold lpm_add_rule in Hadd. apply bind_Ok in Hadd as (r & _ & (r' & _ & (ip & _ & Hadd)%bind_Ok)%bind_Ok).
      destruct (rte_lpm_add _ _ _ _). by injection Hadd as _ <-. }
    destruct (ret <? 0); [done|]. cbn [setup_rest]. by rewrite Hp.
Qed.

(** Only the creation of the table depends on its name. *)
Lemma setup_step_name name name' c f c' f' :
  setup_step name c f = Ok (c', f') → setup_rest name c' f' = setup_rest name' c' f' ∨ setup_step name' c f = Ok (c', f').
Proof. destruct c as [|j|i [|j l]|p|p n|p [|n] i|ret]; cbn [setup_step]; try by right. intros [= <- <-]. by left. Qed.

(** ** Termination *)

Abbreviation setup_completes name := (completes setup_done (setup_step name)).
Abbreviation state_of m := ('(_, f) ← m; Ok f).

Lemma setup_completes_step name c f :
  setup_done c = false →
  (∀ c' f', setup_step name c f = Ok (c', f') → setup_completes name c' f' (state_of (setup_rest name c' f'))) →
  setup_completes name c f (state_of (setup_rest name c f)).
Proof.
  intros Hd Hk. rewrite setup_rest_step, bind_assoc by done.
  eapply (completes_bind _ _ _ _ (setup_step name c f) id); [done|by destruct (setup_step name c f)|].
  intros [c' f'] Hs. by apply Hk.
Qed.

Lemma setup_completes_add name p n i f : setup_completes name (SetupAdd p n i) f (state_of (setup_rest name (SetupAdd p n i) f)).
Proof.
  revert i f. induction n as [|n IH]; intros i f; (apply setup_completes_step; [done|]); intros c' f'; cbn [setup_step].
  - intros [= <- <-]. by constructor.
  - intros ([ret f1] & _ & [= <- <-])%bind_Ok. destruct (ret <? 0); [by constructor|apply IH].
Qed.

Lemma setup_completes_rules name l i f : setup_completes name (SetupRules i l) f (state_of (setup_rest name (SetupRules i l) f)).
Proof.
  revert i f. induction l as [|j l IH]; intros i f; (apply setup_completes_step; [done|]); intros c' f'; cbn [setup_step].
  - intros (h & _ & [= <- <-])%bind_Ok. do 2 (apply setup_completes_step; [done|]; intros ? ? [= <- <-]). apply setup_completes_add.
  - intros (f1 & _ & [= <- <-])%bind_Ok. apply IH.
Qed.

(** Alone, the steps of a set-up compute [coprocessor_setup]. *)
Lemma setup_completes_iff name f m :
  setup_completes name SetupParse f m ↔ m = state_of (coprocessor_setup may_allocate files name f).
Proof.
  assert (setup_completes name SetupParse f (state_of (setup_rest name SetupParse f))) as Hrun.
  { apply setup_completes_step; [done|]. intros c' f' ([j f1] & _ & [= <- <-])%bind_Ok.
    apply setup_completes_step; [done|]. intros ? ? [= <- <-]. apply setup_completes_rules. }
  split; [|by intros ->]. intros Hm. by eapply completes_functional.
Qed.
End setup.
