(* ===== verification/RuleFile.v ===== *)
(** * From the text of the rule file to the rules

    What a JSON object says about firewall rules, and the proof that the
    firewall reads exactly that from every text of the object. *)
From S2P Require Import Prelude Dpdk Stdio CJsonData CJsonText CJsonTextSafe CJsonNumber CJsonParse.
From S2P Require Import CJsonGrammar CJsonQuery Firewall FirewallSpec Coprocessor.

(** The value of the first member with this name, ignoring ASCII case. *)
Fixpoint json_find (name : list Z) (l : list (list Z * json)) : option json :=
  match l with
  | [] => None
  | (k, v) :: l => if decide (tolower <$> cstring k = tolower <$> name) then Some v else json_find name l
  end.

(** The rule an object states: an address text and two numbers. *)
Definition json_rule (v : json) : option rule_spec :=
  match v with
  | JObj l =>
      match json_find name_ip l, json_find name_depth l, json_find name_action l with
      | Some (JStr s), Some (JNum d), Some (JNum a) =>
          ip ← (fw_pkt_parse_ip (Some (cstring s))).2;
          Some (RuleSpec ip (u8 (saturate_int d)) (u8 (saturate_int a)))
      | _, _, _ => None
      end
  | _ => None
  end.

(** The rules of a rule file, one per member. *)
Definition json_rules (v : json) : option (list rule_spec) :=
  match v with JObj l => mapM (λ m, json_rule m.2) l | _ => None end.

(** ** Properties of texts *)

Lemma value_text_members l t : value_text 63 (JObj l) t → l = [] ∨ ∃ t', members_text 63 l t' ∧ (length t' <= length t)%nat.
Proof.
  intros Ht. inversion Ht; simplify_eq; [by left|right]. eexists. split; [done|].
  cbn [length]. rewrite !length_app. lia.
Qed.

Lemma members_text_values l t :
  members_text 63 l t → Forall (λ m, ∃ t', value_text 63 m.2 t') l ∧ (length l <= length t)%nat.
Proof.
  intros Ht. revert l t Ht. apply (members_text_mut 63 (λ _ _, True) (λ _ _, True)
    (λ l t, Forall (λ m, ∃ t', value_text 63 m.2 t') l ∧ (length l <= length t)%nat)); try done.
  - intros. split; [by repeat econstructor|]. cbn [length]. lia.
  - intros k v l kt w1 w2 t w w' t' _ _ _ Hv _ _ _ _ [Hl Hn]. split; [constructor; [by eexists|done]|].
    repeat first [rewrite length_app|progress cbn [length]]. lia.
Qed.

Lemma object_keys l t : value_text 63 (JObj l) t → Forall (λ m, Forall is_byte m.1) l.
Proof. intros [-> |(t' & Ht & _)]%value_text_members; [constructor|]. by eapply members_text_keys. Qed.

(** ** Lookup in the tree and in the object *)

Lemma member_of_inv c m :
  member_of c = Some m → (∃ a, item_string c = Some (CStr a m.1)) ∧ contents_of c = Some m.2.
Proof.
  unfold member_of. destruct (item_string c) as [[a k]|]; [|done]. cbn. destruct (contents_of c); [|done].
  intros [= <-]. cbn. split; [by exists a|done].
Qed.

Lemma member_answers name c m : member_of c = Some m → answers name c ↔ tolower <$> cstring m.1 = tolower <$> name.
Proof.
  intros [[a Hs] _]%member_of_inv. unfold answers, item_name. rewrite Hs. cbn. split; [by intros (s & [= <-] & E)|eauto].
Qed.

Lemma member_named_ok c m : member_of c = Some m → Forall is_byte m.1 → named_ok c.
Proof. intros [[a Hs] _]%member_of_inv Hb s. unfold item_name. rewrite Hs. intros [= <-]. by apply cstring_ok. Qed.

Lemma find_split name cs l v :
  Forall2 (λ c m, member_of c = Some m) cs l → json_find name l = Some v →
  ∃ l1 c l2, cs = l1 ++ c :: l2 ∧ contents_of c = Some v ∧ answers name c ∧ Forall (λ k, ¬ answers name k) l1.
Proof.
  intros Hcs. induction Hcs as [|c m cs l Hm _ IH]; [done|]. destruct m as [k v']. cbn [json_find]. intros Hf.
  pose proof (member_answers name c _ Hm) as Ha. case_decide as Hk.
  - injection Hf as ->. exists [], c, cs. split_and!; [done|by apply member_of_inv in Hm as [_ ?]|by apply Ha|constructor].
  - destruct (IH Hf) as (l1 & c' & l2 & -> & Hv & Hc & Hl1). exists (c :: l1), c', l2. split_and!; [done..|].
    constructor; [by rewrite Ha|done].
Qed.

Lemma find_item j l t name v :
  contents_of j = Some (JObj l) → value_text 63 (JObj l) t → is_cstring name → json_find name l = Some v →
  ∃ c, cJSON_GetObjectItem (Some j) (Some name) = Some c ∧ contents_of c = Some v.
Proof.
  intros Hj%contents_of_object_inv%mapM_Some Ht Hn Hf. pose proof (object_keys _ _ Ht) as Hk.
  assert (Forall named_ok (child j)) as Hok.
  { apply Forall_lookup. intros i c Hc. destruct (Forall2_lookup_l _ _ _ _ _ Hj Hc) as (m & Hm & Hcm).
    apply (member_named_ok c m Hcm). exact (proj1 (Forall_lookup _ _) Hk _ _ Hm). }
  destruct (find_split name (child j) l v) as (l1 & c & l2 & Hc & Hv & Ha & Hl1); [done..|].
  exists c. split; [|done]. apply GetObjectItem_first; [done..|]. by exists l1, l2.
Qed.

Lemma rule_names_ok : is_cstring name_ip ∧ is_cstring name_depth ∧ is_cstring name_action.
Proof. vm_compute. split_and!; repeat constructor. Qed.

(** A tree of a rule object yields the fields of the rule. *)
Lemma item_fields_rule c v t r :
  contents_of c = Some v → value_text 63 v t → json_rule v = Some r → item_fields c = Some (rule_fields r).
Proof.
  destruct v as [| | | | |l]; try done. cbn [json_rule]. intros Hc Ht.
  destruct (json_find name_ip l) as [[| | |s| |]|] eqn:Hip; try done.
  destruct (json_find name_depth l) as [[| |d| | |]|] eqn:Hd; try done.
  destruct (json_find name_action l) as [[| |a| | |]|] eqn:Ha; try done.
  destruct (find_item c l t name_ip _ Hc Ht (proj1 rule_names_ok) Hip) as (ci & Hci & Hvi).
  destruct (find_item c l t name_depth _ Hc Ht (proj1 (proj2 rule_names_ok)) Hd) as (cd & Hcd & Hvd).
  destruct (find_item c l t name_action _ Hc Ht (proj2 (proj2 rule_names_ok)) Ha) as (ca & Hca & Hva).
  apply contents_of_string_inv in Hvi as [x Hvi]. apply contents_of_number_inv in Hvd, Hva.
  unfold item_fields. rewrite Hci, Hcd, Hca. cbn [mbind option_bind]. rewrite Hvi, Hvd, Hva. cbn [fmap option_fmap option_map c_bytes].
  destruct (fw_pkt_parse_ip _).2; [|done]. cbn. by intros [= <-].
Qed.

Lemma tree_rules j l t rs :
  contents_of j = Some (JObj l) → value_text 63 (JObj l) t → json_rules (JObj l) = Some rs →
  mapM item_fields (child j) = Some (rule_fields <$> rs) ∧ (length rs <= length t)%nat.
Proof.
  intros Hj%contents_of_object_inv%mapM_Some Ht Hrs%mapM_Some.
  destruct (value_text_members _ _ Ht) as [-> |(t' & Hm & Hlen)].
  { inversion Hj as [E|]. inversion Hrs. subst. split; [done|cbn; lia]. }
  destruct (members_text_values _ _ Hm) as [Hvals Hlen'].
  split; [|by rewrite <-(Forall2_length _ _ _ Hrs); lia]. apply mapM_Some, Forall2_fmap_r.
  clear -Hj Hrs Hvals. revert rs Hrs. induction Hj as [|c m cs l Hm _ IH]; intros rs Hrs; inversion Hrs as [|? r ? rs' Hr Hrs']; subst; constructor.
  - apply Forall_inv in Hvals as [t Ht]. apply member_of_inv in Hm as [_ Hv]. by eapply item_fields_rule.
  - apply IH; [by inversion Hvals|done].
Qed.

(** ** The file *)

(** The text of the file: a JSON object that states the rules [rs]. *)
Inductive rule_text (rs : list rule_spec) : list Z → Prop :=
  | rule_text_intro bom w1 v t w2 :
      bom = [] ∨ bom = byte_order_mark → white w1 → white w2 → value_text 63 v t →
      Z.of_nat (json_depth v) <= CJSON_NESTING_LIMIT → json_rules v = Some rs →
      rule_text rs (bom ++ w1 ++ t ++ w2).

Lemma rule_text_says `{RteLpm} may_allocate files f rs file :
  (∀ n size, may_allocate n size = true) → files rule_file = Some file → loadable file → rule_text rs file →
  ∃ h1, rule_file_says may_allocate files f h1 rs.
Proof.
  intros Hm Hfile Hload Htext. revert Hfile Hload. destruct Htext as [bom w1 v t w2 Hbom Hw1 Hw2 Ht Hd Hrs]. intros Hfile Hload.
  pose proof (proj2 (proj2 (proj2 Hload))) as Hlen. set (file0 := bom ++ w1 ++ t ++ w2) in *.
  destruct (allocate may_allocate (zlen file0 + 1) (fw_heap f)) as [p h0] eqn:Ha.
  assert (p = Some (reqs (fw_heap f))) as -> by (unfold allocate in Ha; rewrite Hm in Ha; by injection Ha as <- <-).
  destruct (ParseWithOpts_accepts may_allocate Hm bom w1 t w2 v false h0 Hbom Hw1 Hw2 Ht Hd) as (j & h1 & Hp & Hv).
  destruct v as [| | | | |l]; try done. destruct (tree_rules j l t rs Hv Ht Hrs) as [Hfields Hn].
  exists h1, j. split_and!; [|done|].
  - rewrite (parse_file_loads may_allocate files rule_file file0 _ _ h0 ltac:(done) Hfile Hload Ha).
    unfold cJSON_Parse, file0. by rewrite Hp.
  - unfold zlen, file0 in *. rewrite !length_app in Hlen. lia.
Qed.
