(* ===== verification/Interface.v ===== *)
(** * Ports ([engine/interface.{h,c}])

    Initialisation of the physical port, the link status poll, and allocation
    and release of the virtual (KNI) ports. *)
From S2P Require Import Prelude Dpdk Stdio Config.

(** ** The physical port *)

Definition NB_RXD : Z := 128.
Definition NB_TXD : Z := 512.
Definition RTE_ETHER_MAX_LEN : Z := 1518.

(** The members of [struct rte_eth_conf] that [port_conf] sets. *)
Record rte_eth_conf := EthConf {
  rx_mq_mode : Z; max_rx_pkt_len : Z; split_hdr_size : Z; rx_offloads : Z;
  rss_key : option (list Z); rss_hf : Z; tx_mq_mode : Z }.

(** The Ethernet device is outside of the repository: each call returns a code
    and changes a device state nothing is known about;
    [rte_eth_dev_adjust_nb_rx_tx_desc] also changes the two numbers of
    descriptors it is given.  The queues are set up with the default
    configuration ([NULL]) and the global mbuf pool, which are left out. *)
Class RteEth := {
  ETH_MQ_RX_RSS : Z; DEV_RX_OFFLOAD_CHECKSUM : Z; ETH_RSS_TCP : Z; ETH_MQ_TX_NONE : Z;
  eth : Type;
  rte_eth_dev_configure : Z → Z → Z → rte_eth_conf → eth → Z * eth;
  rte_eth_dev_adjust_nb_rx_tx_desc : Z → Z → Z → eth → Z * (Z * Z) * eth;
  rte_eth_dev_socket_id : Z → eth → Z * eth;
  rte_eth_rx_queue_setup : Z → Z → Z → Z → eth → Z * eth;
  rte_eth_tx_queue_setup : Z → Z → Z → Z → eth → Z * eth;
  rte_eth_dev_start : Z → eth → Z * eth;
  rte_eth_promiscuous_enable : Z → eth → eth;
}.

Section phy.
Context `{RteEth}.

Definition port_conf : rte_eth_conf :=
  EthConf ETH_MQ_RX_RSS RTE_ETHER_MAX_LEN 0 DEV_RX_OFFLOAD_CHECKSUM None ETH_RSS_TCP ETH_MQ_TX_NONE.

(** A negative result of a device call ends the process. *)
Definition checked {A} (ret : Z) (msg : string) (a : A) : outcome A :=
  if ret <? 0 then Exit msg else Ok a.

Definition init_phy_port (port : Z) (d : eth) : outcome eth :=
  let '(ret, d) := rte_eth_dev_configure port 1 1 port_conf d in
  d ← checked ret "Could not configure port" d;
  let '(ret, (nb_rxd, nb_txd), d) := rte_eth_dev_adjust_nb_rx_tx_desc port NB_RXD NB_TXD d in
  d ← checked ret "Could not adjust number of descriptors" d;
  let '(socket, d) := rte_eth_dev_socket_id port d in
  let '(ret, d) := rte_eth_rx_queue_setup port 0 nb_rxd socket d in
  d ← checked ret "Could not setup up RX queue" d;
  let '(socket, d) := rte_eth_dev_socket_id port d in
  let '(ret, d) := rte_eth_tx_queue_setup port 0 nb_txd socket d in
  d ← checked ret "Could not setup up TX queue" d;
  let '(ret, d) := rte_eth_dev_start port d in
  d ← checked ret "Could not start port" d;
  Ok (rte_eth_promiscuous_enable port d).

(** The port is started, or the process ends. *)
Lemma init_phy_port_no_fault port d : no_fault (init_phy_port port d).
Proof.
  unfold init_phy_port. destruct (rte_eth_dev_configure _ _ _ _ _) as [r1 d1].
  apply no_fault_bind; [unfold checked; by case_match|intros d2 _]. destruct (rte_eth_dev_adjust_nb_rx_tx_desc _ _ _ _) as [[r2 [n m]] d3].
  apply no_fault_bind; [unfold checked; by case_match|intros d4 _]. destruct (rte_eth_dev_socket_id _ _) as [k d5].
  destruct (rte_eth_rx_queue_setup _ _ _ _ _) as [r3 d6].
  apply no_fault_bind; [unfold checked; by case_match|intros d7 _]. destruct (rte_eth_dev_socket_id _ _) as [k' d8].
  destruct (rte_eth_tx_queue_setup _ _ _ _ _) as [r4 d9].
  apply no_fault_bind; [unfold checked; by case_match|intros d10 _]. destruct (rte_eth_dev_start _ _) as [r5 d11].
  by apply no_fault_bind; [unfold checked; by case_match|].
Qed.
End phy.

(** ** Link status

    [link k] is whether the link is up at the [k]-th poll. *)
Definition CHECK_INTERVAL : Z := 100.
Definition MAX_CHECK_TIME : Z := 90.

(** Polls made, pauses of [CHECK_INTERVAL] ms, the link status printed at the
    end, and whether the loop was left by [break]. *)
Record link_check := LinkCheck { lc_print : bool; lc_polls : nat; lc_delays : nat; lc_shown : option bool }.

(** The loop from [count] on; [n] bounds the iterations. *)
Fixpoint link_loop (link : nat → bool) (n : nat) (count : Z) (c : link_check) : link_check :=
  match n with
  | O => c
  | S n =>
      if MAX_CHECK_TIME <? count then c
      else
        let up := link (lc_polls c) in
        let c := LinkCheck (lc_print c) (S (lc_polls c)) (lc_delays c) (lc_shown c) in
        if lc_print c then LinkCheck true (lc_polls c) (lc_delays c) (Some up)
        else
          let port_up := up in
          let delays := if port_up then lc_delays c else S (lc_delays c) in
          let flag := port_up || (count =? MAX_CHECK_TIME - 1) in
          link_loop link n (u8 (count + 1)) (LinkCheck flag (lc_polls c) delays (lc_shown c))
  end.

Definition check_port_link_status (link : nat → bool) : link_check :=
  link_loop link 92 0 (LinkCheck false 0 0 None).

(** The poll after which the loop stops waiting: the first one that finds the
    link up, or the last before the limit. *)
Fixpoint first_up (link : nat → bool) (n k : nat) : nat :=
  match n with
  | O => k
  | S n => if link k then k else first_up link n (S k)
  end.

Lemma link_loop_run link n k :
  (k + n = 89)%nat →
  link_loop link (n + 3) (Z.of_nat k) (LinkCheck false k k None) =
    let w := first_up link n k in
    LinkCheck true (w + 2) (if link w then w else S w) (Some (link (S w))).
Proof.
  revert k. induction n as [|n IH]; intros k Hk.
  - assert (k = 89%nat) as -> by lia. cbn. by destruct (link 89%nat).
  - cbn [link_loop first_up Nat.add lc_polls lc_print lc_delays lc_shown].
    change MAX_CHECK_TIME with 90. destruct (Z.ltb_spec 90 (Z.of_nat k)); [lia|].
    rewrite u8_id by lia. destruct (link k) eqn:E; cbn [orb].
    + replace (n + 3)%nat with (S (n + 2)) by lia. cbn [link_loop lc_polls lc_print lc_delays lc_shown].
      change MAX_CHECK_TIME with 90. destruct (Z.ltb_spec 90 (Z.of_nat k + 1)); [lia|].
      cbn zeta. rewrite E. f_equal. lia.
    + destruct (Z.eqb_spec (Z.of_nat k) (90 - 1)); [lia|].
      replace (Z.of_nat k + 1) with (Z.of_nat (S k)) by lia. apply IH. lia.
Qed.

Lemma first_up_spec link n k :
  let w := first_up link n k in
  (k <= w <= k + n)%nat ∧ (∀ i, (k <= i < w)%nat → link i = false) ∧ (link w = true ∨ w = (k + n)%nat).
Proof.
  revert k. induction n as [|n IH]; intros k; cbn; [split_and!; auto with lia|].
  destruct (link k) eqn:E; [split_and!; auto with lia|].
  destruct (IH (S k)) as (? & Hf & Hw). split_and!; [lia|lia| |destruct Hw; [by left|right; lia]].
  intros i Hi. destruct (decide (i = k)) as [->|]; [done|]. apply Hf. lia.
Qed.

(** ** Virtual ports *)

Section kni.
Context `{RteRing, RteKni}.

Definition RTE_KNI_NAMESIZE : Z := 32.

Definition kni_name (port_id i : Z) : string :=
  string_of_bytes (snprintf_store RTE_KNI_NAMESIZE
    (bytes_of_string "vEth" ++ print_u port_id ++ [95] ++ print_u i)).

(** The callback for interfaces that the kernel takes up or down: result and
    standard output. *)
Definition kni_config_network_interface (port_id if_up : Z) : Z * list Z :=
  (0, bytes_of_string (if negb (if_up =? 0) then "IFUP " else "IFDOWN ") ++ print_u port_id ++ [10]).

(** The loop over the ports with its 8-bit index. *)
Fixpoint kni_alloc_loop (fuel : nat) (i nb_kni port_id : Z) (g : globals) : outcome globals :=
  match fuel with
  | O => Fault OutOfFuel
  | S fuel =>
      if i <? nb_kni then
        let conf := KniConf (kni_name port_id i) 1 port_id MAX_PACKET_SZ i i kni_config_network_interface in
        match rte_kni_alloc conf with
        | None => Exit "Fail to create kni"
        | Some k =>
            l ← arr_set (kni_list g) i (Some k);
            kni_alloc_loop fuel (u8 (i + 1)) nb_kni port_id (set_kni_list l g)
        end
      else Ok g
  end.

Definition kni_alloc (nb_kni port_id : Z) (g : globals) : outcome (Z * globals) :=
  g ← kni_alloc_loop 256 0 nb_kni port_id g;
  Ok (0, g).

(** The result of [rte_kni_init] is not used. *)
Definition init_kni_port (port_id : Z) (g : globals) : outcome globals :=
  let nb_kni := KNI_KTHREAD in
  let _ := rte_kni_init nb_kni in
  '(_, g) ← kni_alloc nb_kni port_id g;
  Ok g.

(** Release of port [i] and the count of failure messages; [None] is a null
    pointer, for which [rte_kni_release] reports an error. *)
Definition release_port (i : Z) (ng : Z * globals) : outcome (Z * globals) :=
  let '(failures, g) := ng in
  p ← arr_get (kni_list g) i;
  let ret := match p with Some k => rte_kni_release k | None => -1 end in
  l ← arr_set (kni_list g) i None;
  Ok (if negb (ret =? 0) then failures + 1 else failures, set_kni_list l g).

(** Return code, failure messages printed, globals. *)
Definition kni_free_kni (g : globals) : outcome (Z * Z * globals) :=
  '(failures, g) ← foldM release_port (seqZ 0 KNI_KTHREAD) (0, g);
  Ok (0, failures, g).

(** The configuration of virtual port [i]. *)
Definition kni_conf_of (port_id : Z) (i : nat) : rte_kni_conf :=
  KniConf (kni_name port_id (Z.of_nat i)) 1 port_id MAX_PACKET_SZ (Z.of_nat i) (Z.of_nat i) kni_config_network_interface.

(** The first [i] entries of [l] are allocated ports. *)
Definition allocated (port_id : Z) (i : nat) (l : list (option kni)) : Prop :=
  length l = 5%nat ∧
  ∀ k p, (k < i)%nat → l !! k = Some p → ∃ kn, p = Some kn ∧ rte_kni_alloc (kni_conf_of port_id k) = Some kn.

Lemma kni_alloc_loop_run port_id g fuel n i l :
  (i + n = 5)%nat → (n < fuel)%nat → allocated port_id i l →
  (∃ l', kni_alloc_loop fuel (Z.of_nat i) 5 port_id (set_kni_list l g) = Ok (set_kni_list l' g) ∧ allocated port_id 5 l') ∨
  kni_alloc_loop fuel (Z.of_nat i) 5 port_id (set_kni_list l g) = Exit "Fail to create kni" ∧
  ∃ k, (k < 5)%nat ∧ rte_kni_alloc (kni_conf_of port_id k) = None.
Proof.
  revert fuel i l. induction n as [|n IH]; intros [|fuel] i l Hi Hf [Hlen Hdone]; try lia; cbn [kni_alloc_loop].
  - left. assert (i = 5%nat) as -> by lia. by exists l.
  - destruct (Z.ltb_spec (Z.of_nat i) 5); [|lia]. fold (kni_conf_of port_id i).
    destruct (rte_kni_alloc (kni_conf_of port_id i)) as [kn|] eqn:Ea; [|right; split; [done|exists i; split; [lia|done]]].
    cbn [kni_list set_kni_list]. rewrite arr_set_total by (unfold zlen; lia). cbn [mbind outcome_bind].
    rewrite u8_id, Nat2Z.id by lia. replace (Z.of_nat i + 1) with (Z.of_nat (S i)) by lia.
    apply (IH fuel (S i) (<[i := Some kn]> l)); [lia|lia|]. split; [by rewrite length_insert|].
    intros k p Hk Hp. apply list_lookup_insert_Some in Hp as [(-> & <- & _)|(? & Hp)]; [eauto|].
    apply Hdone; [lia|done].
Qed.

(** All ports get allocated, or one cannot be and the process ends. *)
Lemma init_kni_port_run port_id g :
  length (kni_list g) = 5%nat →
  (∃ l, init_kni_port port_id g = Ok (set_kni_list l g) ∧ allocated port_id 5 l) ∨
  init_kni_port port_id g = Exit "Fail to create kni" ∧ ∃ k, (k < 5)%nat ∧ rte_kni_alloc (kni_conf_of port_id k) = None.
Proof.
  intros Hl. unfold init_kni_port, kni_alloc. change KNI_KTHREAD with 5.
  assert (set_kni_list (kni_list g) g = g) as Hg by (by destruct g).
  destruct (kni_alloc_loop_run port_id g 256 5 0 (kni_list g)) as [(l' & Hrun & Hall)|[Hrun Hnone]]; [lia..|by split; [|lia]| |];
    change (Z.of_nat 0) with 0 in Hrun; rewrite Hg in Hrun; cbv zeta; rewrite Hrun; [left|by right].
  exists l'. split; [done|done].
Qed.

(** How many releases of the ports in [l] fail. *)
Definition failed_releases (l : list (option kni)) : Z :=
  zsum (λ p, match p with Some k => if rte_kni_release k =? 0 then 0 else 1 | None => 1 end) l.

Lemma release_loop (l1 l2 : list (option kni)) n g :
  foldM release_port (seqZ (zlen l1) (zlen l2)) (n, set_kni_list (replicate (length l1) None ++ l2) g)
  = Ok (n + failed_releases l2, set_kni_list (replicate (length l1 + length l2) None) g).
Proof.
  unfold zlen. revert l1 n. induction l2 as [|p l2 IH]; intros l1 n.
  { cbn. by rewrite Z.add_0_r, Nat.add_0_r, app_nil_r. }
  rewrite seqZ_cons by (cbn; lia). cbn [foldM].
  assert (release_port (Z.of_nat (length l1)) (n, set_kni_list (replicate (length l1) None ++ p :: l2) g)
    = Ok (n + failed_releases [p], set_kni_list (replicate (S (length l1)) None ++ l2) g)) as ->.
  { unfold release_port. cbn [kni_list set_kni_list].
    rewrite (proj2 (arr_get_Ok _ _ p)).
    2: { split; [lia|]. by rewrite Nat2Z.id, lookup_app_r, length_replicate, Nat.sub_diag by (by rewrite length_replicate). }
    rewrite arr_set_total by (unfold zlen; rewrite length_app, length_replicate; cbn; lia).
    cbn [mbind outcome_bind]. rewrite Nat2Z.id, insert_app_r_alt, length_replicate, Nat.sub_diag by (by rewrite length_replicate).
    rewrite replicate_S_end, <-app_assoc. do 2 f_equal.
    unfold failed_releases. cbn. destruct p as [k|]; cbn; [destruct (rte_kni_release k =? 0)|]; cbn; lia. }
  cbn [mbind outcome_bind].
  replace (Z.succ (Z.of_nat (length l1))) with (Z.of_nat (length (None :: l1))) by (cbn; lia).
  replace (Z.pred (Z.of_nat (length (p :: l2)))) with (Z.of_nat (length l2)) by (cbn; lia).
  change (S (length l1)) with (length (@None kni :: l1)).
  rewrite IH. unfold failed_releases. unfold zsum. cbn. do 2 f_equal; [lia|].
  by replace (length l1 + S (length l2))%nat with (S (length l1 + length l2)) by lia.
Qed.

Lemma kni_free_run g :
  length (kni_list g) = 5%nat →
  kni_free_kni g = Ok (0, failed_releases (kni_list g), set_kni_list (replicate 5 None) g).
Proof.
  intros Hl. unfold kni_free_kni. pose proof (release_loop [] (kni_list g) 0 g) as Hrun.
  unfold zlen in Hrun. rewrite Hl in Hrun. cbn [length app replicate Nat.add] in Hrun.
  assert (set_kni_list (kni_list g) g = g) as Hg by (by destruct g). rewrite Hg in Hrun.
  change (seqZ 0 KNI_KTHREAD) with (seqZ (Z.of_nat 0) (Z.of_nat 5)). by rewrite Hrun.
Qed.
End kni.

(** ** Properties *)

(** The link status check always ends: it polls at intervals until the
    link is first seen up or 90 polls have failed, then polls once more and
    prints that status; it makes at most 91 polls and pauses 100 ms after every
    poll but the last that found the link down, at most 90 times. *)
Theorem link_status_check link :
  let w := first_up link 89 0 in
  check_port_link_status link = LinkCheck true (w + 2) (if link w then w else S w) (Some (link (S w))) ∧
  (w <= 89)%nat ∧ (∀ i, (i < w)%nat → link i = false) ∧ (link w = true ∨ w = 89%nat).
Proof.
  intros w. destruct (first_up_spec link 89 0) as (Hw & Hdown & Hend). fold w in Hw, Hdown, Hend.
  split_and!; [exact (link_loop_run link 89 0 eq_refl)|lia| |].
  - intros i Hi. apply Hdown. lia.
  - destruct Hend; [by left|right; lia].
Qed.

(** C40: the allocation of the virtual ports fills every entry of [kni_list]
    with the port of its own configuration, or one of the ports cannot be allocated
    and the process ends; releasing them clears every entry and reports one failure
    per failed release. *)
Theorem virtual_ports_lifecycle `{RteRing, RteKni} port_id g :
  length (kni_list g) = 5%nat →
  ((∃ l, init_kni_port port_id g = Ok (set_kni_list l g) ∧ allocated port_id 5 l) ∨
   init_kni_port port_id g = Exit "Fail to create kni" ∧
     ∃ k, (k < 5)%nat ∧ rte_kni_alloc (kni_conf_of port_id k) = None) ∧
  kni_free_kni g = Ok (0, failed_releases (kni_list g), set_kni_list (replicate 5 None) g).
Proof. intros Hl. split; [by apply init_kni_port_run|by apply kni_free_run]. Qed.

Lemma virtual_ports_lifecycle_witness :
  let g := @zero_globals Reference.rings (Reference.knis (λ _, [])) in
  (∃ l, init_kni_port 0 g = Ok (set_kni_list l g) ∧ allocated 0 5 l) ∧
  kni_free_kni g = Ok (0, failed_releases (kni_list g), set_kni_list (replicate 5 None) g).
Proof.
  intros g. destruct (@virtual_ports_lifecycle Reference.rings (Reference.knis (λ _, [])) 0 g eq_refl) as [[Hl|(_ & k & _ & Hk)] Hf].
  - split; [exact Hl|exact Hf].
  - discriminate Hk.
Defined.
