(* ===== verification/Engine.v ===== *)
(** * The engine: threads, start-up and shut-down ([engine/main.c], [main_loop] of [engine/switch.c])

    [main] initialises the engine and launches [main_loop] on every core: one
    receive thread runs the fast path, the others run a coprocessor each.
    The threads share the state; a run is an interleaving of their steps.  A
    step reads or writes at most one of the rings that two threads share: it
    takes one burst, treats one packet of the burst in hand, or flushes one
    staging buffer; the burst in hand is a local variable of its thread.  The
    set-up of a coprocessor goes by the steps of [SetupSteps]; its tear-down is
    one step. *)
From S2P Require Import Prelude Dpdk Stdio Config CJsonData CJsonText CJsonParse CJsonQuery Switch Firewall.
From S2P Require Import Coprocessor SetupSteps Interface.

Definition SIGINT : Z := 2.
Definition SIGRTMIN : Z := 34.

Record core_mapping := CoreMapping { rx_lcore : Z; coproc_lcore_first : Z; coproc_lcore_last : Z }.

(** What [main_loop] runs on a core. *)
Inductive role := RxRole | CoprocRole | IdleRole.

Definition main_loop_role (rsrc : core_mapping) (lcore_id : Z) : role :=
  if lcore_id =? rx_lcore rsrc then RxRole
  else if (coproc_lcore_first rsrc <=? lcore_id) && (lcore_id <=? coproc_lcore_last rsrc) then CoprocRole
  else IdleRole.

(** [nb_kni] and [nb_coproc] of [main_loop]. *)
Definition main_loop_nb_kni (rsrc : core_mapping) : Z :=
  u32 (coproc_lcore_last rsrc - coproc_lcore_first rsrc + 1).

(** The mapping [main] sets up. *)
Definition main_rsrc : core_mapping := CoreMapping KNI_KTHREAD 0 (KNI_KTHREAD - 1).

(** ** The receive thread *)


(** The calls of one pass of the fast path, in order. *)
Inductive rx_action :=
  | DoRxPort (i : Z) | DoFlushPort (i : Z) | DoFlushNfRx (i : Z) | DoDrain (i : Z).

Definition flush_program (nb_kni nb_coproc : Z) : list rx_action :=
  (DoFlushPort <$> seqZ 0 nb_kni) ++ (DoFlushNfRx <$> seqZ 0 nb_coproc).
Definition fastpath_program (nb_kni nb_coproc : Z) : list rx_action :=
  (DoRxPort <$> seqZ 0 nb_kni) ++ flush_program nb_kni nb_coproc ++
  (DoDrain <$> seqZ 0 nb_coproc) ++ flush_program nb_kni nb_coproc.

(** The burst that the receive thread has in hand, with the port it was
    received from or the coprocessor it comes from. *)
Inductive burst := NoBurst | RxBurst (i : Z) (pkts : list mbuf) | DrainBurst (i : Z) (pkts : list mbuf).

(** Where the receive thread is: at the stop test, inside the fast path with a
    burst in hand and calls to make, at the statistics timer, or finished. *)
Inductive rx_pc := RxTest | RxRun (c : burst * list rx_action) | RxTime | RxDone.

(** A coprocessor thread sets up; is at the stop test; is about to take a burst;
    has a burst in hand; has torn down. *)
Inductive phase := Setup (c : setup_pc) | Running | Polling | Busy (pkts : list mbuf) | Stopped.
Abbreviation Starting := (Setup SetupParse).

Global Instance stopped_dec (l : list phase) : Decision (Stopped ∈ l).
Proof.
  destruct (existsb (λ ph, match ph with Stopped => true | _ => false end) l) eqn:E; [left|right].
  - apply existsb_exists in E as ([] & Hin & ?); try done. by apply list_elem_of_In.
  - intros Hin%list_elem_of_In. apply not_true_iff_false in E. apply E, existsb_exists. by exists Stopped.
Defined.

(** The threads that [main_loop] starts on the cores. *)
Definition launch_rx (rsrc : core_mapping) (cores : list Z) : rx_pc :=
  if existsb (λ c, match main_loop_role rsrc c with RxRole => true | _ => false end) cores then RxTest else RxDone.
Definition launch_co (rsrc : core_mapping) (cores : list Z) : list phase :=
  omap (λ c, match main_loop_role rsrc c with CoprocRole => Some Starting | _ => None end) cores.

Section engine.
Context `{ByteOrder, RteRing, RteKni, RteLpm}.
Variable may_allocate : nat → Z → bool.
Variable files : string → option (list Z).

(** ** Inside the loops *)

(** The call [a] of the fast path, up to the loop over the packets of a burst. *)
Definition rx_call (a : rx_action) (s : switch) : outcome (burst * switch) :=
  match a with
  | DoRxPort i => '(pkts, s) ← rx_poll i s; Ok (RxBurst i pkts, s)
  | DoFlushPort i => s ← flush_port_queue i s; Ok (NoBurst, s)
  | DoFlushNfRx i => s ← flush_nf_rx_queue i s; Ok (NoBurst, s)
  | DoDrain i => '(pkts, s) ← drain_poll i s; Ok (DrainBurst i pkts, s)
  end.

(** The next thing the fast path does. *)
Definition fastpath_step (c : burst * list rx_action) (s : switch) : outcome ((burst * list rx_action) * switch) :=
  match c with
  | (RxBurst i (pkt :: pkts), todo) => s ← rx_packet false i pkt s; Ok ((RxBurst i pkts, todo), s)
  | (RxBurst i [], todo) => s ← handle_request i s; Ok ((NoBurst, todo), s)
  | (DrainBurst i (pkt :: pkts), todo) => s ← enqueue_port pkt i s; Ok ((DrainBurst i pkts, todo), s)
  | (DrainBurst i [], todo) => Ok ((NoBurst, todo), s)
  | (NoBurst, a :: todo) => '(b, s) ← rx_call a s; Ok ((b, todo), s)
  | (NoBurst, []) => Ok (c, s)
  end.

Definition fastpath_done (c : burst * list rx_action) : bool :=
  match c with (NoBurst, []) => true | _ => false end.

(** The next thing a coprocessor does inside its loop. *)
Definition coprocessor_step {F} `{NetworkFunction F} (lcore_id : Z) (ph : phase) (sf : switch * F) :
    outcome (phase * (switch * F)) :=
  match ph with
  | Polling => '(pkts, s) ← coprocessor_poll lcore_id sf.1; Ok (Busy pkts, (s, sf.2))
  | Busy (pkt :: pkts) => sf ← coprocessor_packet lcore_id pkt sf; Ok (Busy pkts, sf)
  | Busy [] => s ← flush_nf_tx_queue lcore_id sf.1; Ok (Running, (s, sf.2))
  | _ => Ok (ph, sf)
  end.

Record engine := Engine {
  e_sw : switch; e_fw : firewall; e_rx : rx_pc; e_co : list phase }.

(** ** Signals *)

Definition signal_handler (signum : Z) (g : globals) : globals :=
  if (signum =? SIGRTMIN) || (signum =? SIGINT) then set_kni_stop (to_int (kni_stop g + 1)) g else g.

(** ** Steps

    [LRx elapsed]: the receive thread moves, [elapsed] being whether more than
    [PRINT_DELAY] has passed when it looks at the clock; [LCo i name]: the
    thread of coprocessor [i] moves, [name] being the table name it would
    build; [LSignal n]: a signal is delivered. *)
Inductive label := LRx (elapsed : bool) | LCo (i : nat) (name : string) | LSignal (signum : Z).

Definition rx_step (elapsed : bool) (e : engine) : option (outcome engine) :=
  match e_rx e with
  | RxTest =>
      let nb := main_loop_nb_kni main_rsrc in
      Some (Ok (Engine (e_sw e) (e_fw e)
        (if negb (kni_stop (sw (e_sw e)) =? 0) then RxDone else RxRun (NoBurst, fastpath_program nb nb)) (e_co e)))
  | RxRun c => Some
      (if fastpath_done c then Ok (Engine (e_sw e) (e_fw e) RxTime (e_co e))
       else '(c, s) ← fastpath_step c (e_sw e); Ok (Engine s (e_fw e) (RxRun c) (e_co e)))
  | RxTime =>
      Some (Ok (Engine (if elapsed then (print_stats (e_sw e)).2 else e_sw e) (e_fw e) RxTest (e_co e)))
  | RxDone => None
  end.

Definition co_step (i : nat) (name : string) (e : engine) : option (outcome engine) :=
  match e_co e !! i with
  | Some (Setup (SetupReturned r)) => Some
      (if negb (r =? 0) then Exit "Coprocessor setup failed."
       else Ok (Engine (e_sw e) (e_fw e) (e_rx e) (<[i := Running]> (e_co e))))
  | Some (Setup c) => Some
      ('(c, f) ← setup_step may_allocate files name c (e_fw e);
       Ok (Engine (e_sw e) f (e_rx e) (<[i := Setup c]> (e_co e))))
  | Some Running =>
      if negb (kni_stop (sw (e_sw e)) =? 0) then Some
        ('(_, f) ← coprocessor_teardown (e_fw e);
         Ok (Engine (e_sw e) f (e_rx e) (<[i := Stopped]> (e_co e))))
      else Some (Ok (Engine (e_sw e) (e_fw e) (e_rx e) (<[i := Polling]> (e_co e))))
  | Some Stopped | None => None
  | Some ph => Some
      ('(ph, (s, f)) ← coprocessor_step (Z.of_nat i) ph (e_sw e, e_fw e);
       Ok (Engine s f (e_rx e) (<[i := ph]> (e_co e))))
  end.

(** The effect of a label, [None] when the thread cannot move. *)
Definition exec (l : label) (e : engine) : option (outcome engine) :=
  match l with
  | LRx elapsed => rx_step elapsed e
  | LCo i name => co_step i name e
  | LSignal n => Some (Ok (Engine (set_sw (signal_handler n (sw (e_sw e))) (e_sw e)) (e_fw e) (e_rx e) (e_co e)))
  end.

Inductive step (e e' : engine) : Prop :=
  | step_intro l : exec l e = Some (Ok e') → step e e'.

(** ** Start-up and shut-down *)

(** The counters and the firewall state in static storage. *)
Definition zero_firewall : firewall := Firewall (FwStats 0 0 0 0) None None 0 (Heap 0 ∅) [].
Definition zero_switch (g : globals) : switch :=
  Switch g (replicate 5 (KniStats 0 0 0 0)) (replicate 5 (NfStats 0 0 0 0)) [].

(** [main] up to the launch of the threads.  [eal] is the result of
    [rte_eal_init], [pool_ok] and [calloc_ok] those of the two allocations of
    [init]; [n_lcore] and [lcore_index] describe the cores. *)
Definition main (eal : Z) (pool_ok calloc_ok : bool) (n_lcore : Z) (lcore_index : Z → Z) : outcome engine :=
  if eal <? 0 then Exit "Could not initialise EAL"
  else
    '(r, g) ← init pool_ok calloc_ok zero_globals;
    if negb (r =? 0) then Exit "Initialization failed"
    else
      g ← init_kni_port 0 g;
      if negb (n_lcore =? KNI_KTHREAD + 1) then Exit "Number of lcores != KNI_KTHREAD + 1"
      else
        _ ← foldM (λ i (u : unit), if lcore_index i =? -1 then Exit "Unexpected index for for lcore" else Ok u)
              (seqZ 0 n_lcore) ();
        let cores := seqZ 0 n_lcore in
        Ok (Engine (zero_switch g) zero_firewall (launch_rx main_rsrc cores) (launch_co main_rsrc cores)).

(** The end of [main], once every thread has returned. *)
Definition main_exit (e : engine) : outcome engine :=
  '(_, _, g) ← kni_free_kni (sw (e_sw e));
  Ok (Engine (set_sw g (e_sw e)) (e_fw e) (e_rx e) (e_co e)).
End engine.
