(* ===== verification/EngineSteps.v ===== *)
(** * The steps of a thread make up its functions

    The interleaving semantics ([Engine]) breaks the fast path and a pass of a
    coprocessor up into steps.  Without interference the steps of a thread
    compute what the function computes, errors included, and they come to an
    end.  [move] lists the steps of the engine that return, for case analysis. *)
From S2P Require Import Prelude Dpdk Stdio Config CJsonData CJsonText CJsonParse CJsonQuery Switch SwitchFrame Firewall.
From S2P Require Import Coprocessor SetupSteps Interface Engine.

(** ** The fast path *)
Section fastpath.
Context `{ByteOrder, RteRing, RteKni}.

(** A whole call, and what is left of one with a burst in hand. *)
Definition do_rx (a : rx_action) (s : switch) : outcome switch :=
  match a with
  | DoRxPort i => rx_port false i s
  | DoFlushPort i => flush_port_queue i s
  | DoFlushNfRx i => flush_nf_rx_queue i s
  | DoDrain i => drain_coprocessor i s
  end.

Definition finish (b : burst) (s : switch) : outcome switch :=
  match b with
  | NoBurst => Ok s
  | RxBurst i pkts => s ← foldM (rx_packet false i) pkts s; handle_request i s
  | DrainBurst i pkts => foldM (λ pkt s, enqueue_port pkt i s) pkts s
  end.

Lemma do_rx_finish a s : do_rx a s = '(b, s) ← rx_call a s; finish b s.
Proof.
  destruct a as [i|i|i|i]; cbn; unfold rx_port, drain_coprocessor.
  - by destruct (rx_poll i s) as [[]| |].
  - by destruct (flush_port_queue i s).
  - by destruct (flush_nf_rx_queue i s).
  - by destruct (drain_poll i s) as [[]| |].
Qed.

Abbreviation fastpath_completes := (completes fastpath_done fastpath_step).

(** The burst in hand is finished before the next call. *)
Lemma burst_completes b todo (K : switch → outcome switch) s :
  (∀ s, fastpath_completes (NoBurst, todo) s (K s)) → fastpath_completes (b, todo) s (s ← finish b s; K s).
Proof.
  intros HK. destruct b as [|i pkts|i pkts]; [apply HK|..]; revert s; induction pkts as [|p pkts IH]; intros s; cbn [finish foldM].
  - by eapply (completes_bind _ _ _ _ (handle_request i s) (λ s, ((NoBurst, todo), s))).
  - rewrite !bind_assoc. eapply (completes_bind _ _ _ _ (rx_packet false i p s) (λ s, ((RxBurst i pkts, todo), s))); [done..|].
    intros s1 _. rewrite <-bind_assoc. apply IH.
  - by eapply completes_next; [done..|].
  - rewrite bind_assoc. by eapply (completes_bind _ _ _ _ (enqueue_port p i s) (λ s, ((DrainBurst i pkts, todo), s))).
Qed.

Lemma calls_complete todo s : fastpath_completes (NoBurst, todo) s (foldM do_rx todo s).
Proof.
  revert s. induction todo as [|a todo IH]; intros s; [by constructor|]. cbn [foldM]. rewrite do_rx_finish, bind_assoc.
  eapply (completes_bind _ _ _ _ (rx_call a s) (λ '(b, s), ((b, todo), s))); [done|cbn; by destruct (rx_call a s) as [[]| |]|].
  intros [b s1] _. cbn. by apply burst_completes.
Qed.

Lemma fastpath_as_program nb_kni nb_coproc s :
  foldM do_rx (fastpath_program nb_kni nb_coproc) s = fastpath false nb_kni nb_coproc s.
Proof.
  assert (∀ s, foldM do_rx (flush_program nb_kni nb_coproc) s = flush_all nb_kni nb_coproc s) as Hflush.
  { intros s'. unfold flush_program, flush_all. rewrite foldM_app, (foldM_fmap _ _ flush_port_queue) by done.
    destruct (foldM flush_port_queue _ s'); cbn [mbind outcome_bind]; [|done..]. by apply foldM_fmap. }
  unfold fastpath_program, fastpath. rewrite foldM_app, (foldM_fmap _ _ (rx_port false)) by done.
  destruct (foldM (rx_port false) _ s) as [s1| |]; cbn [mbind outcome_bind]; [|done..].
  rewrite foldM_app, Hflush. destruct (flush_all _ _ s1) as [s2| |]; cbn [mbind outcome_bind]; [|done..].
  rewrite foldM_app, (foldM_fmap _ _ drain_coprocessor) by done.
  destruct (foldM drain_coprocessor _ s2) as [s3| |]; cbn [mbind outcome_bind]; [|done..]. apply Hflush.
Qed.

Lemma fastpath_completes_iff nb_kni nb_coproc s m :
  fastpath_completes (NoBurst, fastpath_program nb_kni nb_coproc) s m ↔ m = fastpath false nb_kni nb_coproc s.
Proof.
  rewrite <-fastpath_as_program. split; [|intros ->; apply calls_complete].
  intros Hm. by eapply completes_functional; [apply calls_complete|].
Qed.
End fastpath.

(** ** A pass of a coprocessor *)
Section coprocessor.
Context `{ByteOrder, RteRing, RteKni} {F : Type} `{NetworkFunction F}.

Definition pass_done (ph : phase) : bool := match ph with Polling | Busy _ => false | _ => true end.
Abbreviation pass_completes i := (completes pass_done (coprocessor_step i)).

Lemma burst_pass_completes i pkts (sf : switch * F) :
  pass_completes i (Busy pkts) sf
    ('(s, f) ← foldM (coprocessor_packet i) pkts sf; s ← flush_nf_tx_queue i s; Ok (s, f)).
Proof.
  revert sf. induction pkts as [|p pkts IH]; intros sf; cbn [foldM].
  - destruct sf as [s f]. cbn.
    eapply (completes_bind _ _ _ _ (flush_nf_tx_queue i s) (λ s, (Running, (s, f)))); [done..|]. by constructor.
  - rewrite bind_assoc.
    by eapply (completes_bind _ _ _ _ (coprocessor_packet i p sf) (λ sf, (Busy pkts, sf))).
Qed.

Lemma coprocessor_completes_iff i (sf : switch * F) m : pass_completes i Polling sf m ↔ m = coprocessor i sf.
Proof.
  assert (pass_completes i Polling sf (coprocessor i sf)) as Hrun.
  { destruct sf as [s f]. unfold coprocessor.
    eapply (completes_bind _ _ _ _ (coprocessor_poll i s) (λ '(pkts, s), (Busy pkts, (s, f))));
      [done|cbn; by destruct (coprocessor_poll i s) as [[]| |]|].
    intros [pkts s1] _. apply burst_pass_completes. }
  split; [|by intros ->]. intros Hm. by eapply completes_functional.
Qed.
End coprocessor.

(** ** Frames *)
Section frames.
Context `{ByteOrder, RteRing, RteKni} (R : relation switch) `{!Frame R}.

Lemma rx_call_frame a s b s' : rx_call a s = Ok (b, s') → R s s'.
Proof.
  destruct a as [i|i|i|i]; cbn [rx_call]; intros (u & Hrun & Hu)%bind_Ok.
  - destruct u as [l s1]. injection Hu as _ <-. by eapply rx_poll_frame.
  - injection Hu as _ <-. by eapply flush_port_frame.
  - injection Hu as _ <-. by eapply flush_nf_rx_frame.
  - destruct u as [l s1]. injection Hu as _ <-. by eapply drain_poll_frame.
Qed.

Lemma fastpath_step_frame c s c' s' : fastpath_step c s = Ok (c', s') → R s s'.
Proof.
  destruct c as [[|i [|p l]|i [|p l]] todo]; cbn [fastpath_step].
  - destruct todo as [|a todo]; [by intros [= _ <-]|]. intros ([b s1] & Hrun & [= _ <-])%bind_Ok. by eapply rx_call_frame.
  - intros (s1 & Hrun & [= _ <-])%bind_Ok. by eapply handle_request_frame.
  - intros (s1 & Hrun & [= _ <-])%bind_Ok. by eapply rx_packet_frame.
  - by intros [= _ <-].
  - intros (s1 & Hrun & [= _ <-])%bind_Ok. by eapply enqueue_port_frame.
Qed.

Lemma coprocessor_step_frame {F} `{NetworkFunction F} i ph s (f : F) ph' s' f' :
  coprocessor_step i ph (s, f) = Ok (ph', (s', f')) → R s s'.
Proof.
  destruct ph as [| | |[|p l]|]; cbn [coprocessor_step fst snd]; [by intros [= _ <- _]..| | | |by intros [= _ <- _]].
  - intros ([l s1] & Hrun & [= _ <- _])%bind_Ok. by eapply coprocessor_poll_frame.
  - intros (s1 & Hrun & [= _ <- _])%bind_Ok. by eapply flush_nf_tx_frame.
  - intros ([s1 f1] & Hrun & [= _ <- _])%bind_Ok. by eapply coprocessor_packet_frame.
Qed.
End frames.

(** What the network function keeps, a step of the coprocessor keeps. *)
Lemma coprocessor_step_keeps `{ByteOrder, RteRing, RteKni} {F} `{NetworkFunction F} (P : F → Prop) i ph s f ph' s' f' :
  (∀ f pkt ret f', process_packet f pkt = Ok (ret, f') → P f → P f') →
  coprocessor_step i ph (s, f) = Ok (ph', (s', f')) → P f → P f'.
Proof.
  intros HP Hrun Hf. destruct ph as [| | |[|p l]|]; cbn [coprocessor_step fst snd] in Hrun; try by injection Hrun as _ _ <-.
  - apply bind_Ok in Hrun as ([l s1] & _ & [= _ _ <-]). done.
  - apply bind_Ok in Hrun as (s1 & _ & [= _ _ <-]). done.
  - apply bind_Ok in Hrun as ([s1 f1] & Hrun & [= _ _ <-]). unfold coprocessor_packet in Hrun.
    apply bind_Ok in Hrun as ([ret f2] & Hp%HP & Hrun); [|done].
    destruct (ret =? 0); [by apply bind_Ok in Hrun as (s2 & _ & [= _ <-])|by injection Hrun as _ <-].
Qed.

(** ** The steps that return *)
Section moves.
Context `{ByteOrder, RteRing, RteKni, RteLpm}.
Variable may_allocate : nat → Z → bool.
Variable files : string → option (list Z).

Inductive move (e : engine) : label → engine → Prop :=
  | move_test elapsed : e_rx e = RxTest →
      move e (LRx elapsed) (Engine (e_sw e) (e_fw e)
        (if negb (kni_stop (sw (e_sw e)) =? 0) then RxDone else RxRun (NoBurst, fastpath_program 5 5)) (e_co e))
  | move_fast elapsed c c' s : e_rx e = RxRun c → fastpath_done c = false → fastpath_step c (e_sw e) = Ok (c', s) →
      move e (LRx elapsed) (Engine s (e_fw e) (RxRun c') (e_co e))
  | move_end elapsed : e_rx e = RxRun (NoBurst, []) →
      move e (LRx elapsed) (Engine (e_sw e) (e_fw e) RxTime (e_co e))
  | move_time elapsed : e_rx e = RxTime →
      move e (LRx elapsed) (Engine (if elapsed then (print_stats (e_sw e)).2 else e_sw e) (e_fw e) RxTest (e_co e))
  | move_setup i name c c' f : e_co e !! i = Some (Setup c) → setup_done c = false →
      setup_step may_allocate files name c (e_fw e) = Ok (c', f) →
      move e (LCo i name) (Engine (e_sw e) f (e_rx e) (<[i := Setup c']> (e_co e)))
  | move_ready i name : e_co e !! i = Some (Setup (SetupReturned 0)) →
      move e (LCo i name) (Engine (e_sw e) (e_fw e) (e_rx e) (<[i := Running]> (e_co e)))
  | move_teardown i name r f : e_co e !! i = Some Running → kni_stop (sw (e_sw e)) ≠ 0 →
      coprocessor_teardown (e_fw e) = Ok (r, f) →
      move e (LCo i name) (Engine (e_sw e) f (e_rx e) (<[i := Stopped]> (e_co e)))
  | move_on i name : e_co e !! i = Some Running → kni_stop (sw (e_sw e)) = 0 →
      move e (LCo i name) (Engine (e_sw e) (e_fw e) (e_rx e) (<[i := Polling]> (e_co e)))
  | move_pass i name ph ph' s f : e_co e !! i = Some ph → pass_done ph = false →
      coprocessor_step (Z.of_nat i) ph (e_sw e, e_fw e) = Ok (ph', (s, f)) →
      move e (LCo i name) (Engine s f (e_rx e) (<[i := ph']> (e_co e)))
  | move_signal n :
      move e (LSignal n) (Engine (set_sw (signal_handler n (sw (e_sw e))) (e_sw e)) (e_fw e) (e_rx e) (e_co e)).

(** A coprocessor inside a pass. *)
Lemma co_step_pass i name e ph :
  e_co e !! i = Some ph → pass_done ph = false →
  co_step may_allocate files i name e = Some ('(ph, (s, f)) ← coprocessor_step (Z.of_nat i) ph (e_sw e, e_fw e);
    Ok (Engine s f (e_rx e) (<[i := ph]> (e_co e)))).
Proof. intros Hi Hph. unfold co_step. rewrite Hi. by destruct ph. Qed.

(** A coprocessor that sets up. *)
Lemma co_step_setup i name e c :
  e_co e !! i = Some (Setup c) → setup_done c = false →
  co_step may_allocate files i name e = Some ('(c, f) ← setup_step may_allocate files name c (e_fw e);
    Ok (Engine (e_sw e) f (e_rx e) (<[i := Setup c]> (e_co e)))).
Proof. intros Hi Hc. unfold co_step. rewrite Hi. by destruct c. Qed.

Lemma co_step_move i name e e' : co_step may_allocate files i name e = Some (Ok e') → move e (LCo i name) e'.
Proof.
  destruct (e_co e !! i) as [ph|] eqn:Hi; [|unfold co_step; by rewrite Hi]. destruct (pass_done ph) eqn:Hph.
  - destruct ph as [c| | |l|]; try done.
    + destruct (setup_done c) eqn:Hc.
      * destruct c as [| | | | | |r]; try done. unfold co_step. rewrite Hi. destruct (Z.eqb_spec r 0) as [->|]; [|done].
        intros [= <-]. by apply move_ready.
      * rewrite (co_step_setup i name e c Hi Hc). intros [= ([c' f] & Hrun & [= <-])%bind_Ok]. by eapply move_setup.
    + unfold co_step. rewrite Hi. destruct (Z.eqb_spec (kni_stop (sw (e_sw e))) 0) as [Hst|Hst]; cbn [negb].
      * intros [= <-]. by apply move_on.
      * intros [= ([r f] & Htd & [= <-])%bind_Ok]. by eapply move_teardown.
    + unfold co_step. by rewrite Hi.
  - rewrite (co_step_pass i name e ph Hi Hph). intros [= ([ph' [s f]] & Hrun & [= <-])%bind_Ok]. by eapply move_pass.
Qed.

Lemma exec_move l e e' : exec may_allocate files l e = Some (Ok e') → move e l e'.
Proof.
  destruct l as [elapsed|i name|n]; cbn [exec]; [|by apply co_step_move|intros [= <-]; apply move_signal].
  unfold rx_step. destruct (e_rx e) as [|c| |] eqn:Hrx; try done.
  - intros [= <-]. by apply move_test.
  - destruct (fastpath_done c) eqn:Hd.
    + intros [= <-]. apply move_end. rewrite Hrx. by destruct c as [[| |] []].
    + intros [= ([c' s] & Hrun & [= <-])%bind_Ok]. by eapply move_fast.
  - intros [= <-]. by apply move_time.
Qed.
End moves.
