(* ===== verification/EngineSpec.v ===== *)
(** * The engine: invariant of all interleavings

    The start-up establishes the invariant of the data plane and every step of
    every thread preserves it: buffers and rings are well formed, what they hold
    and what the threads have in hand is balanced against what was received, and
    packets are only where their route leads.  The invariant is stated for any
    policy that the firewall is sound for; the one that accepts every packet
    holds whatever the coprocessors do to its table ([EngineSafety] has the one
    of the rule file). *)
From S2P Require Import Prelude Dpdk Stdio Config CJsonData CJsonText CJsonTextSafe CJsonParse CJsonQuery.
From S2P Require Import Switch SwitchInv SwitchSpec FastPath Firewall FirewallSpec Coprocessor SetupSteps.
From S2P Require Import Interface Engine EngineSteps.

(** ** Roles *)

Lemma main_roles lcore :
  main_loop_role main_rsrc lcore =
    if lcore =? 5 then RxRole else if (0 <=? lcore) && (lcore <=? 4) then CoprocRole else IdleRole.
Proof. done. Qed.

Lemma main_nb : main_loop_nb_kni main_rsrc = 5.
Proof. done. Qed.

(** ** Start-up *)

Section startup.
Context `{ByteOrderLaws, RteRingLaws, RteKniLaws, RteLpmLaws}.

(** The rings of all coprocessors can be created.  [read_config] does not
    test this. *)
Definition rings_ok : Prop := ∀ i : nat, (i < 5)%nat →
  is_Some (rte_ring_create (string_of_bytes (get_rx_queue_name (Z.of_nat i))) NF_QUEUE_RINGSIZE) ∧
  is_Some (rte_ring_create (string_of_bytes (get_tx_queue_name (Z.of_nat i))) NF_QUEUE_RINGSIZE).

Lemma zero_buf_wf Q n : 0 <= n → wf_buf Q n zero_packet_buf.
Proof. intros. exists []. unfold holds, zlen. cbn. split_and!; auto; lia. Qed.

Lemma zero_buf_contents : contents zero_packet_buf = [].
Proof. done. Qed.

Lemma configured_mgr_wf `{Policy} i c :
  rings_ok → (i < 5)%nat → nf_rx c = zero_packet_buf → nf_tx c = zero_packet_buf →
  wf_mgr None i (configured_nf i c) ∧ ∀ x, mgr_held x (configured_nf i c) = 0.
Proof.
  intros Hrings Hi Hr Ht. destruct (Hrings i Hi) as [[r1 E1] [r2 E2]]. unfold configured_nf.
  rewrite E1, E2. apply ring_create_items in E1, E2. split.
  - split_and!; cbn; [exists r1; by rewrite E1|exists r2; by rewrite E2|rewrite Hr|rewrite Ht];
      by apply zero_buf_wf.
  - intros x. unfold mgr_held. cbn. by rewrite Hr, Ht, E1, E2.
Qed.

(** The globals after the allocation in [init], and after [read_config]. *)
Definition with_buffers : globals :=
  Globals true (replicate 5 None) (QueueMgr (Live (replicate 5 zero_packet_buf)) 0 (replicate 5 (KniConfig 0 0 0)) ∅)
    (replicate 5 zero_coprocessor_mgr) 0.
Definition configured (t : gmap Z Z) : globals :=
  Globals true (replicate 5 None) (QueueMgr (Live (replicate 5 zero_packet_buf)) KNI_KTHREAD configured_cnf t)
    (imap configured_nf (replicate 5 zero_coprocessor_mgr)) 0.

Lemma init_run pool_ok calloc_ok g :
  init pool_ok calloc_ok zero_globals = Ok (0, g) → ∃ t, g = configured t ∧ ∀ k, route t k = configured_route ∅ k.
Proof.
  unfold init. destruct pool_ok; [|done]. destruct calloc_ok; [|done].
  destruct (read_config_run with_buffers) as (t & Hrc & Ht); [by repeat split|].
  change (set_tx_mgr _ _) with with_buffers. cbn [negb pktmbuf_pool with_buffers tx_mgr qm_tx].
  rewrite Hrc. intros [= <-]. exists t. split; [done|exact Ht].
Qed.

(** [init] returns, fails with -1, or ends the process. *)
Lemma init_outcome pool_ok calloc_ok :
  (∃ r g, init pool_ok calloc_ok zero_globals = Ok (r, g)) ∨
  init pool_ok calloc_ok zero_globals = Exit "Could not initialise mbuf pool".
Proof.
  unfold init. destruct pool_ok; [|by right]. left. destruct calloc_ok; [|by do 2 eexists].
  destruct (read_config_run with_buffers) as (t & Hrc & _); [by repeat split|].
  change (set_tx_mgr _ _) with with_buffers. cbn [negb pktmbuf_pool with_buffers tx_mgr qm_tx].
  rewrite Hrc. by do 2 eexists.
Qed.

Lemma init_succeeds : ∃ g, init true true zero_globals = Ok (0, g).
Proof.
  unfold init. destruct (read_config_run with_buffers) as (t & Hrc & _); [by repeat split|].
  change (set_tx_mgr _ _) with with_buffers. cbn [negb pktmbuf_pool with_buffers tx_mgr qm_tx]. rewrite Hrc. by eexists.
Qed.

(** The state that [main] hands to the threads. *)
Definition started (e : engine) (t : gmap Z Z) (l : list (option kni)) : Prop :=
  e = Engine (zero_switch (set_kni_list l (configured t))) zero_firewall RxTest (replicate 5 Starting) ∧
  (∀ k, route t k = configured_route ∅ k) ∧ allocated 0 5 l.

Lemma main_started eal pool_ok calloc_ok n_lcore idx e :
  main eal pool_ok calloc_ok n_lcore idx = Ok e → ∃ t l, started e t l.
Proof.
  unfold main. destruct (eal <? 0); [done|].
  destruct (init pool_ok calloc_ok zero_globals) as [[r g]| |] eqn:Hinit; cbn [mbind outcome_bind]; [|done..].
  destruct (Z.eqb_spec r 0) as [->|]; cbn [negb]; [|done].
  destruct (init_run _ _ _ Hinit) as (t & -> & Ht).
  destruct (init_kni_port_run 0 (configured t)) as [(l & -> & Hl)|[-> _]]; [done| |done].
  cbn [mbind outcome_bind]. destruct (Z.eqb_spec n_lcore (KNI_KTHREAD + 1)) as [->|]; cbn [negb]; [|done].
  destruct (foldM _ (seqZ 0 (KNI_KTHREAD + 1)) ()); [|done..]. intros [= <-]. exists t, l. by split_and!.
Qed.

Lemma check_lcores_outcome (idx : Z → Z) l (u : unit) :
  let m := foldM (λ i (u : unit), if idx i =? -1 then Exit "Unexpected index for for lcore" else Ok u) l u in
  m = Ok () ∨ m = Exit "Unexpected index for for lcore".
Proof.
  cbv zeta. induction l as [|i l IH]; cbn; [destruct u; by left|]. destruct (idx i =? -1); [by right|]. exact IH.
Qed.

(** [main] starts the threads or ends the process: it never faults. *)
Lemma main_result eal pool_ok calloc_ok n_lcore idx :
  (∃ e, main eal pool_ok calloc_ok n_lcore idx = Ok e) ∨ (∃ msg, main eal pool_ok calloc_ok n_lcore idx = Exit msg).
Proof.
  unfold main. destruct (eal <? 0); [by right; eexists|].
  destruct (init pool_ok calloc_ok zero_globals) as [[r g]|msg|fl] eqn:Hinit; cbn [mbind outcome_bind].
  - destruct (Z.eqb_spec r 0) as [->|]; cbn [negb]; [|by right; eexists].
    destruct (init_run _ _ _ Hinit) as (t & -> & _).
    destruct (init_kni_port_run 0 (configured t)) as [(l & -> & _)|[-> _]]; [done| |by right; eexists].
    cbn [mbind outcome_bind]. destruct (negb _); [by right; eexists|].
    destruct (check_lcores_outcome idx (seqZ 0 n_lcore) ()) as [-> | ->]; [by left; eexists|by right; eexists].
  - right. by eexists.
  - exfalso. destruct (init_outcome pool_ok calloc_ok) as [(? & ? & E)|E]; rewrite E in Hinit; discriminate Hinit.
Qed.

(** [main] starts the threads when the calls it checks succeed; the creation of
    the rings is not among them. *)
Lemma main_starts eal n_lcore idx :
  0 <= eal → n_lcore = KNI_KTHREAD + 1 → (∀ i, 0 <= i < n_lcore → idx i ≠ -1) →
  (∀ k, (k < 5)%nat → is_Some (rte_kni_alloc (kni_conf_of 0 k))) →
  ∃ e, main eal true true n_lcore idx = Ok e.
Proof.
  intros Heal -> Hidx Hkni. unfold main. destruct (Z.ltb_spec eal 0); [lia|].
  destruct init_succeeds as (g & Hinit). rewrite Hinit. cbn [mbind outcome_bind Z.eqb negb].
  destruct (init_run _ _ _ Hinit) as (t & -> & _).
  destruct (init_kni_port_run 0 (configured t)) as [(l & -> & _)|(_ & k & Hk & Hnone)]; [done| |].
  - cbn [mbind outcome_bind]. rewrite Z.eqb_refl. cbn [negb].
    assert (foldM (λ i (u : unit), if idx i =? -1 then Exit "Unexpected index for for lcore" else Ok u)
      (seqZ 0 (KNI_KTHREAD + 1)) () = Ok ()) as ->; [|by eexists].
    assert (∀ i, i ∈ seqZ 0 (KNI_KTHREAD + 1) → idx i ≠ -1) as Hall by (intros i Hi%elem_of_seqZ; apply Hidx; lia).
    revert Hall. generalize (seqZ 0 (KNI_KTHREAD + 1)). intros cores Hall. induction cores as [|i cores IH]; [done|]. cbn [foldM].
    rewrite (proj2 (Z.eqb_neq _ _)) by (apply Hall; left). cbn [mbind outcome_bind]. apply IH. intros j Hj. apply Hall. by right.
  - destruct (Hkni k Hk). congruence.
Qed.

Lemma zsum_zero {A} (f : A → Z) l : (∀ i a, l !! i = Some a → f a = 0) → zsum f l = 0.
Proof.
  induction l as [|a l IH]; intros Hf; cbn; [done|]. rewrite (Hf 0%nat a eq_refl).
  apply IH. intros i b Hb. exact (Hf (S i) b Hb).
Qed.

Lemma configured_nf_lookup i c :
  imap configured_nf (replicate 5 zero_coprocessor_mgr) !! i = Some c →
  (i < 5)%nat ∧ c = configured_nf i zero_coprocessor_mgr.
Proof.
  rewrite list_lookup_imap. intros (c0 & [-> Hi]%lookup_replicate & <-)%fmap_Some. done.
Qed.

(** What [main] establishes. *)
Lemma started_wf `{Policy} e t l :
  started e t l → pol_table = t → rings_ok → wf_but None (e_sw e) ∧ ∀ x, bal x (e_sw e) = 0.
Proof.
  intros (-> & Ht & Hl & Hall) Hpol Hrings. split.
  - split; cbn [e_sw zero_switch sw kni_stats nf_stats set_kni_list configured nf kni_list tx_mgr
                nb_active_kni qm_tx routing_table tx_of length]; try done.
    + intros i b [-> _]%lookup_replicate. by apply zero_buf_wf.
    + intros i c [Hi ->]%configured_nf_lookup. by apply configured_mgr_wf.
    + intros i p Hp. destruct (Hall i p) as (k & -> & Hk); [|done|].
      { apply lookup_lt_Some in Hp. lia. }
      apply kni_alloc_spec in Hk as [_ Hs]. exists k. by rewrite Hs.
    + intros i Hi. rewrite Hpol, Ht. unfold configured_route, UNKNOWN_PORT, UINT16_MAX.
      repeat case_decide; [right; lia|by left|right]. unfold route. rewrite lookup_empty. cbn. lia.
  - intros x. unfold bal, received, delivered, held.
    cbn [e_sw zero_switch sw set_kni_list configured nf kni_list freed tx_mgr qm_tx tx_of].
    rewrite !zsum_zero; [by rewrite occ_nil| | | |].
    + intros i c [Hi ->]%configured_nf_lookup. by apply configured_mgr_wf.
    + intros i b [-> _]%lookup_replicate. done.
    + intros i p Hp. destruct (Hall i p) as (k & -> & Hk); [apply lookup_lt_Some in Hp; lia|done|].
      apply kni_alloc_spec in Hk as [_ Hs]. cbn. by rewrite Hs.
    + intros i p Hp. destruct (Hall i p) as (k & -> & Hk); [apply lookup_lt_Some in Hp; lia|done|].
      apply kni_alloc_spec in Hk as [Hs _]. cbn. by rewrite Hs.
Qed.
End startup.

(** ** The invariant of the data plane *)

Section data.
Context `{ByteOrderLaws, RteRingLaws, RteKniLaws, RteLpmLaws} `{pol : Policy}.
Variable may_allocate : nat → Z → bool.
Variable files : string → option (list Z).

Definition valid_action (a : rx_action) : Prop :=
  match a with DoRxPort i | DoFlushPort i | DoFlushNfRx i | DoDrain i => 0 <= i < 5 end.

(** The burst in hand: what was received is well formed; what comes from
    coprocessor [i] is routed to port [i] and accepted. *)
Definition burst_pkts (b : burst) : list mbuf :=
  match b with NoBurst => [] | RxBurst _ pkts | DrainBurst _ pkts => pkts end.
Definition burst_ok (b : burst) : Prop :=
  zlen (burst_pkts b) <= PKT_BURST_SZ ∧
  match b with
  | NoBurst => True
  | RxBurst i pkts => 0 <= i < 5 ∧ Forall wf_mbuf pkts
  | DrainBurst i pkts => 0 <= i < 5 ∧ Forall (cleared (Z.to_nat i)) pkts
  end.
Definition fastpath_ok (c : burst * list rx_action) : Prop := burst_ok c.1 ∧ Forall valid_action c.2.

Definition rx_pkts (pc : rx_pc) : list mbuf := match pc with RxRun c => burst_pkts c.1 | _ => [] end.
Definition co_pkts (ph : phase) : list mbuf := match ph with Busy pkts => pkts | _ => [] end.

Definition hand_ok (i : nat) (ph : phase) : Prop := zlen (co_pkts ph) <= PKT_BURST_SZ ∧ Forall (routed i) (co_pkts ph).

(** How often a packet is in the hands of the threads. *)
Definition in_hand (x : mbuf) (e : engine) : Z := occ x (rx_pkts (e_rx e)) + zsum (λ ph, occ x (co_pkts ph)) (e_co e).

(** A thread between set-up and tear-down. *)
Definition active (ph : phase) : Prop := match ph with Running | Polling | Busy _ => True | _ => False end.

Record data_inv (e : engine) : Prop := {
  inv_wf : wf_but None (e_sw e);
  inv_bal x : bal x (e_sw e) = in_hand x e;
  inv_co : length (e_co e) = 5%nat;
  inv_rx c : e_rx e = RxRun c → fastpath_ok c;
  inv_busy i ph : e_co e !! i = Some ph → hand_ok i ph;
}.

Lemma inv_co_lt e i ph : data_inv e → e_co e !! i = Some ph → (i < 5)%nat.
Proof. intros He Hi. rewrite <-(inv_co _ He). by eapply lookup_lt_Some. Qed.

Lemma in_hand_insert x s f rx co i ph ph' :
  co !! i = Some ph →
  in_hand x (Engine s f rx (<[i := ph']> co)) =
    occ x (rx_pkts rx) + zsum (λ ph, occ x (co_pkts ph)) co - occ x (co_pkts ph) + occ x (co_pkts ph').
Proof. intros Hi. unfold in_hand. cbn [e_rx e_co]. rewrite (zsum_insert _ _ _ ph) by done. lia. Qed.

(** A packet in the hands of a coprocessor was received. *)
Lemma busy_received e i ph x :
  data_inv e → e_co e !! i = Some ph → x ∈ co_pkts ph → 0 < received x (e_sw e).
Proof.
  intros He Hi Hx. pose proof (inv_bal _ He x) as Hb. unfold bal, held, in_hand in Hb. apply occ_elem_of in Hx.
  pose proof (occ_nonneg x (freed (e_sw e))). pose proof (delivered_nonneg x (e_sw e)).
  pose proof (occ_nonneg x (rx_pkts (e_rx e))).
  pose proof (zsum_nonneg (tx_held x) (tx_of (e_sw e)) ltac:(intros; apply occ_nonneg)).
  pose proof (zsum_nonneg (mgr_held x) (nf (sw (e_sw e))) (mgr_held_nonneg x)).
  pose proof (zsum_elem (λ ph, occ x (co_pkts ph)) (e_co e) ph ltac:(intros; apply occ_nonneg) (list_elem_of_lookup_2 _ _ _ Hi)).
  cbn in *. lia.
Qed.

(** ** Steps of the receive thread *)

(** What a call takes in hand is balanced. *)
Lemma rx_call_spec a s :
  valid_action a → wf_but None s →
  ∃ b s', rx_call a s = Ok (b, s') ∧ burst_ok b ∧ wf_but None s' ∧ ∀ x, bal x s' = bal x s + occ x (burst_pkts b).
Proof.
  intros Ha Hs. assert (∀ m, gives m s [] → ∃ b s', (s ← m; Ok (NoBurst, s)) = Ok (b, s') ∧ burst_ok b ∧ wf_but None s' ∧
    ∀ x, bal x s' = bal x s + occ x (burst_pkts b)) as Hflush.
  { intros m (s' & -> & Hw & Hb). exists NoBurst, s'. split_and!; [done..|]. intros x. rewrite Hb. cbn. rewrite occ_nil. lia. }
  assert (∀ y, bal y s = bal y s - occ y []) as Hnil by (intros y; rewrite occ_nil; lia).
  destruct a as [i|i|i|i]; cbn in Ha |- *.
  - destruct (rx_poll_spec i s Hs Ha) as (k & l & k' & s' & _ & _ & -> & Hl & Hlw & _ & Hw & Hb). by exists (RxBurst i l), s'.
  - apply Hflush. by eapply gives_of_spec; [apply (flush_port_spec None); [by left|..]|].
  - apply Hflush. by eapply gives_of_spec; [apply (flush_nf_rx_spec None); [by left|..]|].
  - destruct (drain_poll_spec i s Hs Ha) as (c & r & l & r' & _ & _ & _ & _ & Hl & Hlw & -> & Hw & Hb).
    eexists (DrainBurst i l), _. by split_and!.
Qed.

(** One packet less in hand. *)
Lemma burst_ok_tail mk i p l :
  mk = RxBurst ∨ mk = DrainBurst → burst_ok (mk i (p :: l)) → burst_ok (mk i l).
Proof.
  intros Hmk (Hl & Hrest). unfold burst_ok, zlen in *.
  destruct Hmk as [-> | ->]; cbn in *; (split; [lia|]); destruct Hrest as [? [_ ?]%Forall_cons]; done.
Qed.

(** The fast path goes on, and passes on or frees what it has in hand. *)
Lemma fastpath_step_spec c s :
  fastpath_ok c → wf_but None s →
  ∃ c' s', fastpath_step c s = Ok (c', s') ∧ fastpath_ok c' ∧ wf_but None s' ∧
    ∀ x, bal x s' = bal x s - occ x (burst_pkts c.1) + occ x (burst_pkts c'.1).
Proof.
  destruct c as [[|i [|p l]|i [|p l]] todo]; intros [Hb Ht] Hs; cbn [fastpath_step fst snd] in *.
  - destruct todo as [|a todo]; [eexists _, _; split_and!; [done..|intros x; cbn; lia]|]. apply Forall_cons in Ht as [Ha Ht].
    destruct (rx_call_spec a s Ha Hs) as (b & s' & -> & Hb' & Hw & Hbal). exists (b, todo), s'. split_and!; [done..|].
    intros x. rewrite Hbal. cbn. rewrite occ_nil. lia.
  - destruct Hb as (_ & Hi & _). destruct (handle_request_spec i s Hs Hi) as (k & _ & -> & Hw & Hbal).
    eexists (NoBurst, todo), _. split_and!; [done..|]. intros x. rewrite Hbal. cbn. lia.
  - destruct (Hb) as (_ & Hi & [Hp _]%Forall_cons). destruct (rx_packet_gives false i p s) as (s' & -> & Hw & Hbal); [done..|].
    exists (RxBurst i l, todo), s'. split_and!; [done|split; [|done]; by apply (burst_ok_tail RxBurst i p); [left|]|done|].
    intros x. rewrite Hbal. cbn. rewrite (occ_cons x p l). lia.
  - eexists (NoBurst, todo), _. split_and!; [done..|]. intros x. cbn. lia.
  - destruct (Hb) as (_ & Hi & [Hp _]%Forall_cons). destruct (enqueue_port_gives s i p) as (s' & -> & Hw & Hbal); [done..|].
    exists (DrainBurst i l, todo), s'. split_and!; [done|split; [|done]; by apply (burst_ok_tail DrainBurst i p); [right|]|done|].
    intros x. rewrite Hbal. cbn. rewrite (occ_cons x p l). lia.
Qed.

Lemma fastpath_program_valid : Forall valid_action (fastpath_program 5 5).
Proof. repeat constructor; done. Qed.

Lemma set_kni_stop_wf z s : wf_but None s → wf_but None (set_sw (set_kni_stop z (sw s)) s).
Proof. intros []. by split. Qed.

Lemma set_kni_stop_bal z x s : bal x (set_sw (set_kni_stop z (sw s)) s) = bal x s.
Proof. done. Qed.

Lemma print_stats_wf s : wf_but None s → wf_but None (print_stats s).2.
Proof. intros []. split; cbn; auto; by rewrite length_replicate. Qed.

(** A step the receive thread takes. *)
Lemma rx_step_data e elapsed m :
  data_inv e → rx_step elapsed e = Some m → ∃ e', m = Ok e' ∧ data_inv e'.
Proof.
  intros He. unfold rx_step. destruct (e_rx e) as [|c| |] eqn:Hrx; intros [= <-].
  - eexists. split; [done|]. destruct He. split; cbn [e_sw e_fw e_rx e_co]; auto.
    + intros x. rewrite inv_bal0. unfold in_hand. rewrite Hrx. cbn. by destruct (negb _).
    + intros c Hc. destruct (negb _); [done|]. injection Hc as <-. rewrite main_nb.
      split; [by split|apply fastpath_program_valid].
  - destruct (fastpath_done c) eqn:Hdone.
    + eexists. split; [done|]. destruct He. split; cbn [e_sw e_fw e_rx e_co]; auto; [|done].
      intros x. rewrite inv_bal0. unfold in_hand. rewrite Hrx. by destruct c as [[| |] []].
    + destruct (fastpath_step_spec c (e_sw e) (inv_rx _ He _ Hrx) (inv_wf _ He)) as (c' & s' & -> & Hc' & Hw & Hb).
      eexists. split; [done|]. destruct He. split; cbn [e_sw e_fw e_rx e_co]; auto; [|by intros c0 [= <-]].
      intros x. rewrite Hb, inv_bal0. unfold in_hand. rewrite Hrx. cbn [rx_pkts e_rx e_co]. lia.
  - eexists. split; [done|]. destruct He. split; cbn [e_sw e_fw e_rx e_co]; auto; [by destruct elapsed; [apply print_stats_wf|]| |done].
    intros x. specialize (inv_bal0 x). unfold in_hand in *. rewrite Hrx in inv_bal0. by destruct elapsed.
Qed.

(** ** Steps of a coprocessor *)

(** A coprocessor goes on, unless the packet in hand is not admitted. *)
Lemma coprocessor_step_spec {F} `{NetworkFunction F} {spec : NetworkFunctionSpec} i ph s (f : F) :
  nf_state_ok f → wf_but None s → 0 <= i < 5 → hand_ok (Z.to_nat i) ph → active ph →
  match coprocessor_step i ph (s, f) with
  | Ok (ph', (s', f')) => active ph' ∧ hand_ok (Z.to_nat i) ph' ∧ nf_state_ok f' ∧ wf_but None s' ∧
      ∀ x, bal x s' = bal x s - occ x (co_pkts ph) + occ x (co_pkts ph')
  | _ => ∃ p l, ph = Busy (p :: l) ∧ ¬ nf_admits p
  end.
Proof.
  intros Hf Hs Hi Hp Hph. destruct ph as [| | |[|p l]|]; cbn [coprocessor_step co_pkts active fst snd] in *; try done.
  - split_and!; [done..|]. intros x. lia.
  - destruct (coprocessor_poll_spec i s Hs Hi) as (c & r & l & r' & _ & _ & _ & _ & Hlen & Hlw & -> & Hw & Hb).
    cbn. split_and!; [done..|]. intros x. rewrite Hb, occ_nil. lia.
  - destruct (flush_nf_tx_gives None s i (or_introl eq_refl) Hs Hi) as (s' & -> & Hw & Hb). cbn. split_and!; [done..|].
    intros x. rewrite Hb, occ_nil. lia.
  - destruct Hp as [Hlen [Hp Hl]%Forall_cons]. pose proof (coprocessor_packet_spec i p s f Hf Hs Hi Hp) as Hone.
    destruct (coprocessor_packet i p (s, f)) as [[s' f']| |]; cbn; [|by exists p, l..].
    destruct Hone as (Hf' & Hw & Hb). unfold hand_ok, zlen in *. cbn in *. split_and!; [done|lia|done..|].
    intros x. rewrite Hb, (occ_cons x p l). lia.
Qed.

(** Thread [i] moves. *)
Lemma data_move e i ph ph' s' f' :
  data_inv e → e_co e !! i = Some ph → hand_ok i ph' → wf_but None s' →
  (∀ x, bal x s' = bal x (e_sw e) - occ x (co_pkts ph) + occ x (co_pkts ph')) →
  data_inv (Engine s' f' (e_rx e) (<[i := ph']> (e_co e))).
Proof.
  intros He Hi Hr Hw Hb. destruct He. split; cbn [e_sw e_fw e_rx e_co]; auto.
  - intros x. rewrite Hb, inv_bal0, (in_hand_insert _ _ _ _ _ _ ph) by done. done.
  - by rewrite length_insert.
  - intros k ph1 [(-> & <- & _)|(_ & Hk)]%list_lookup_insert_Some; [done|by eapply inv_busy0].
Qed.

(** It has no packet in hand. *)
Lemma data_phase e i ph ph' f' :
  data_inv e → e_co e !! i = Some ph → co_pkts ph = [] → co_pkts ph' = [] →
  data_inv (Engine (e_sw e) f' (e_rx e) (<[i := ph']> (e_co e))).
Proof.
  intros He Hi Hp Hp'. apply (data_move e i ph); [done..| |apply He|].
  - unfold hand_ok. rewrite Hp'. by split.
  - intros x. rewrite Hp, Hp'. lia.
Qed.

(** What the table of the firewall lets through, the policy accepts. *)
Definition sound (f : firewall) : Prop := ∀ pkt, (rte_lpm_lookup (lpm_tbl f) (ip_src pkt) 0).2 = 0 → pol_accepts pkt.

(** A step inside the loop: it returns and keeps the invariant, unless the packet
    in hand has another IP version. *)
Lemma coprocessor_step_data e i ph :
  data_inv e → sound (e_fw e) → e_co e !! i = Some ph → active ph →
  match coprocessor_step (Z.of_nat i) ph (e_sw e, e_fw e) with
  | Ok (ph', (s', f')) => active ph' ∧ same_config (e_fw e) f' ∧ data_inv (Engine s' f' (e_rx e) (<[i := ph']> (e_co e)))
  | _ => ∃ p l, ph = Busy (p :: l) ∧ ip_version p ≠ 4
  end.
Proof.
  intros He Hsound Hi Hph. pose proof (inv_co_lt e i ph He Hi) as Hlt. pose proof (inv_busy _ He i ph Hi) as Hbusy.
  pose proof (coprocessor_step_spec (spec := firewall_spec (e_fw e) Hsound) (Z.of_nat i) ph (e_sw e) (e_fw e)) as Hspec.
  rewrite Nat2Z.id in Hspec. assert (Hpre : same_config (e_fw e) (e_fw e)) by done.
  specialize (Hspec Hpre (inv_wf _ He) ltac:(lia) Hbusy Hph).
  destruct (coprocessor_step (Z.of_nat i) ph (e_sw e, e_fw e)) as [[ph' [s' f']]| |]; [|done..].
  destruct Hspec as (Hph' & Hr & Hf & Hw & Hb). split_and!; [done..|]. by eapply (data_move e i ph).
Qed.

(** ** All steps *)

(** The step of a coprocessor inside its loop. *)
Definition in_pass (l : label) (e : engine) : Prop :=
  ∃ i name ph, l = LCo i name ∧ e_co e !! i = Some ph ∧ pass_done ph = false.

Lemma pass_active ph : pass_done ph = false → active ph.
Proof. by destruct ph. Qed.

Lemma exec_data l e e' :
  data_inv e → (in_pass l e → sound (e_fw e)) → exec may_allocate files l e = Some (Ok e') → data_inv e'.
Proof.
  intros He Hsound Hrun. destruct l as [elapsed|i name|n]; cbn [exec] in Hrun.
  - apply rx_step_data in Hrun as (e1 & [= ->] & ?); done.
  - apply co_step_move in Hrun. inversion Hrun as [| | | |k ? c c' f Hi _ _|k ? Hi|k ? r f Hi _ _|k ? Hi _|k ? ph ph' s f Hi Hph Hs|]; subst.
    + by eapply data_phase.
    + by eapply data_phase.
    + by eapply data_phase.
    + by eapply data_phase.
    + pose proof (coprocessor_step_data e i ph He (Hsound (ex_intro _ i (ex_intro _ name (ex_intro _ ph (conj eq_refl (conj Hi Hph)))))) Hi (pass_active _ Hph)) as Hstep.
      rewrite Hs in Hstep. apply Hstep.
  - injection Hrun as <-. unfold signal_handler. destruct (_ || _).
    + destruct He. split; cbn [e_sw e_fw e_rx e_co]; auto. by apply set_kni_stop_wf.
    + by destruct e as [[]], He; split.
Qed.

Lemma started_data e t l : started e t l → pol_table = t → rings_ok → data_inv e.
Proof.
  intros Hst Ht Hrings. destruct (started_wf e t l Hst Ht Hrings) as [Hw Hb].
  destruct Hst as (-> & _). split; cbn [e_sw e_co e_rx e_fw] in *; auto; try done.
  by intros i ph [-> _]%lookup_replicate.
Qed.
End data.

(** ** The policy that accepts every packet *)
Section every.
Context `{ByteOrderLaws, RteRingLaws, RteKniLaws, RteLpmLaws}.
Variable may_allocate : nat → Z → bool.
Variable files : string → option (list Z).

Definition accept_all (table : gmap Z Z) : Policy := {| pol_table := table; pol_accepts _ := True |}.

Context (table : gmap Z Z).
#[local] Instance all_policy : Policy := accept_all table.

Lemma all_sound f : sound f.
Proof. done. Qed.

Lemma reachable_data e0 e : data_inv e0 → rtc (step may_allocate files) e0 e → data_inv e.
Proof.
  intros He0. induction 1 as [|e0 e1 e2 [l Hl] _ IH]; [done|]. apply IH. eapply exec_data; [done| |exact Hl]. intros _. apply all_sound.
Qed.
End every.
