(* ===== verification/EngineSafety.v ===== *)
(** * The engine: safety and policy

    When no coprocessor takes a step while another one is setting up, the firewall is ready whenever one of
    them judges a packet: only packets that the rules accept are forwarded, and
    no step faults before shut-down, except on packets of another IP version. *)
From S2P Require Import Prelude Dpdk Stdio Config CJsonData CJsonText CJsonTextSafe CJsonParse CJsonQuery.
From S2P Require Import Switch SwitchInv SwitchSpec FastPath Firewall FirewallSpec Coprocessor SetupSteps.
From S2P Require Import Interface Engine EngineSteps EngineSpec.

Section safety.
Context `{ByteOrderLaws, RteRingLaws, RteKniLaws, RteLpmLaws}.
Variable may_allocate : nat → Z → bool.
Variable files : string → option (list Z).
(** The routing table and the firewall rules. *)
Variable table : gmap Z Z.
Variable rs : list rule_spec.

(** The rules as the table sees them; later rules replace earlier ones with
    the same prefix and depth. *)
Definition rule_map : gmap (Z * Z) Z := foldl insert_rule ∅ rs.

(** The policy: a packet is acceptable unless the most specific rule for its
    source has a non-zero action. *)
Instance engine_policy : Policy := {|
  pol_table := table;
  pol_accepts pkt := ∀ a, lpm_longest rule_map (ip_src pkt) = Some a → a = 0 |}.

(** The environment of the firewall: memory suffices, the rule file says
    [rs], tables can be created and have room for the rules. *)
Record fw_environment : Prop := {
  env_malloc n size : may_allocate n size = true;
  env_file f : ∃ h1, rule_file_says may_allocate files f h1 rs;
  env_create name : is_Some (rte_lpm_create name 1024 24);
  env_add name t : rte_lpm_create name 1024 24 = Some t → refuses t rs = false;
}.

(** The firewall as a set-up leaves it, up to the counters. *)
Definition fw_ready (f : firewall) : Prop :=
  (∃ t, lpm_tbl f = Some t ∧ lpm_rules t = rule_map) ∧
  ∃ h1, rules f = Some (fresh_array h1 rs) ∧ num_rules f = zlen rs ∧ fw_heap f = alloc_n (S (length rs)) h1.

(** ** Set-ups in turn

    The coprocessors set up without a lock.  [undisturbed]: no other coprocessor
    takes a step while one of them is setting up. *)
Definition setting_up (ph : phase) : bool :=
  match ph with Setup SetupParse => false | Setup _ => true | _ => false end.
Definition undisturbed (l : label) (e : engine) : bool :=
  match l with
  | LCo i _ =>
      match e_co e !! i with
      | Some ph => setting_up ph || negb (existsb setting_up (e_co e))
      | None => true
      end
  | _ => true
  end.

Inductive serial_step (e e' : engine) : Prop :=
  | serial_step_intro l : undisturbed l e = true → exec may_allocate files l e = Some (Ok e') → serial_step e e'.

(** The set-up will leave the firewall ready. *)
Definition will_be_ready (c : setup_pc) (f : firewall) : Prop :=
  ∀ name, ∃ f', setup_rest may_allocate files name c f = Ok (0, f') ∧ fw_ready f'.

(** The firewall in between: the one coprocessor that is setting up will leave it
    ready; when none is, it is ready as soon as one has set up, until one has torn
    it down. *)
Record fw_inv (e : engine) : Prop := {
  inv_one i k ph ph' : e_co e !! i = Some ph → e_co e !! k = Some ph' → setting_up ph = true → setting_up ph' = true → i = k;
  inv_setup i c : e_co e !! i = Some (Setup c) → setting_up (Setup c) = true → will_be_ready c (e_fw e);
  inv_fw : existsb setting_up (e_co e) = false → Exists active (e_co e) → Stopped ∉ e_co e → fw_ready (e_fw e);
  inv_tbl : existsb setting_up (e_co e) = false → Exists active (e_co e) →
    ∃ t, lpm_tbl (e_fw e) = Some t ∧ lpm_rules t = rule_map;
}.

Definition engine_inv (e : engine) : Prop := data_inv e ∧ fw_inv e.

Lemma quiet_lookup co i ph : existsb setting_up co = false → co !! i = Some ph → setting_up ph = false.
Proof.
  intros Hq Hi. apply not_true_iff_false. intros Hs. apply not_true_iff_false in Hq. apply Hq, existsb_exists.
  exists ph. split; [by apply list_elem_of_In; eapply list_elem_of_lookup_2|done].
Qed.

Lemma quiet_intro co : (∀ i ph, co !! i = Some ph → setting_up ph = false) → existsb setting_up co = false.
Proof.
  intros Hall. apply not_true_iff_false. intros (ph & [i Hi]%list_elem_of_In%list_elem_of_lookup & Hs)%existsb_exists.
  specialize (Hall i ph Hi). congruence.
Qed.

(** A thread that is not setting up moves only when none is. *)
Lemma undisturbed_quiet i name e ph :
  undisturbed (LCo i name) e = true → e_co e !! i = Some ph → setting_up ph = false → existsb setting_up (e_co e) = false.
Proof. cbn. intros Hu Hi Hs. rewrite Hi, Hs in Hu. by destruct (existsb _ _). Qed.

(** When none is setting up, and thread [i] does not begin, none is afterwards. *)
Lemma quiet_insert co i ph' k ph :
  existsb setting_up co = false → setting_up ph' = false → <[i := ph']> co !! k = Some ph → setting_up ph = false.
Proof.
  intros Hq Hs [(-> & <- & _)|(_ & Hk)]%list_lookup_insert_Some; [done|by eapply quiet_lookup].
Qed.

(** Thread [i] is the only one setting up. *)
Lemma setup_alone e i ph c k ph' :
  undisturbed (LCo i ph) e = true → (∀ i k ph ph', e_co e !! i = Some ph → e_co e !! k = Some ph' →
    setting_up ph = true → setting_up ph' = true → i = k) → e_co e !! i = Some (Setup c) →
  e_co e !! k = Some ph' → setting_up ph' = true → k = i.
Proof.
  intros Hu Hone Hi Hk Hs. destruct (setting_up (Setup c)) eqn:Hc; [by eapply Hone|].
  pose proof (undisturbed_quiet i ph e _ Hu Hi Hc) as Hq. pose proof (quiet_lookup _ _ _ Hq Hk). congruence.
Qed.

Lemma lookup_active e i ph : e_co e !! i = Some ph → active ph → Exists active (e_co e).
Proof. intros Hi Hph. apply Exists_exists. exists ph. split; [by eapply list_elem_of_lookup_2|done]. Qed.

(** A set-up succeeds and leaves the firewall ready. *)
Lemma setup_ready name f :
  fw_environment →
  ∃ f', coprocessor_setup may_allocate files name f = Ok (0, f') ∧ fw_ready f'.
Proof.
  intros [Hm Hf Hc Ha]. destruct (Hf f) as (h1 & Hsays). destruct (Hc name) as [t Ht].
  destruct (coprocessor_setup_spec may_allocate files Hm name f h1 rs t Hsays Ht) as (t' & -> & k & Hk & Hres).
  eexists. split; [done|]. destruct Hres as [[-> _]|[_ Href]].
  - rewrite firstn_all in Hk. split; [by exists t'|]. by exists h1.
  - by rewrite (Ha name t Ht) in Href.
Qed.

(** What a configured table lets through, the policy accepts. *)
Lemma table_accepts p t pkt :
  p = Some t → lpm_rules t = rule_map → (rte_lpm_lookup p (ip_src pkt) 0).2 = 0 → pol_accepts pkt.
Proof.
  intros -> Hm Hz a Ha. destruct (rte_lpm_lookup (Some t) (ip_src pkt) 0) as [ret hop] eqn:E.
  apply lpm_lookup_spec in E. rewrite Hm, Ha in E. cbn in Hz. by destruct E as [_ <-].
Qed.

Lemma quiet_sound e : fw_inv e → existsb setting_up (e_co e) = false → Exists active (e_co e) → sound (e_fw e).
Proof. intros Hf Hq Hex. destruct (inv_tbl _ Hf Hq Hex) as (t & Ht & Hm). intros pkt. by apply table_accepts with t. Qed.

(** ** Steps *)

Lemma stopped_insert i ph ph' (co : list phase) :
  co !! i = Some ph → active ph → Stopped ∉ <[i := ph']> co → Stopped ∉ co.
Proof.
  intros Hi Hph Hno [k Hk]%list_elem_of_lookup. destruct (decide (k = i)) as [->|Hne]; [congruence || by simplify_eq/=|].
  apply Hno, (list_elem_of_lookup_2 _ k). by rewrite list_lookup_insert_ne.
Qed.

(** Thread [i] moves within its loop. *)
Lemma fw_move e i ph ph' s' f' :
  fw_inv e → existsb setting_up (e_co e) = false → e_co e !! i = Some ph → active ph → active ph' →
  same_config (e_fw e) f' → fw_inv (Engine s' f' (e_rx e) (<[i := ph']> (e_co e))).
Proof.
  intros He Hq Hi Hph Hph' (Hf1 & Hf2 & Hf3 & Hf4). pose proof (lookup_active e i ph Hi Hph) as Hex.
  assert (setting_up ph' = false) as Hs' by (by destruct ph').
  destruct He. split; cbn [e_sw e_fw e_rx e_co]; auto.
  - intros k1 k2 p1 p2 Hk1 _ Hs1. pose proof (quiet_insert _ _ _ _ _ Hq Hs' Hk1). congruence.
  - intros k c Hk Hs. pose proof (quiet_insert _ _ _ _ _ Hq Hs' Hk). congruence.
  - intros _ _ Hno. destruct (inv_fw0 Hq Hex) as ((t0 & ? & ?) & h1 & ? & ? & ?); [by eapply stopped_insert|].
    split; [exists t0|exists h1; split_and!]; congruence || (split; congruence).
  - intros _ _. destruct (inv_tbl0 Hq Hex) as (t & ? & ?). exists t. split; congruence.
Qed.

(** A set-up goes on. *)
Lemma setup_next name c f :
  setup_done c = false → will_be_ready c f →
  ∃ c' f', setup_step may_allocate files name c f = Ok (c', f') ∧ will_be_ready c' f'.
Proof.
  intros Hd Hw. destruct (Hw name) as (f2 & Hrest & Hf2). rewrite setup_rest_step in Hrest by done.
  apply bind_Ok in Hrest as ([c' f'] & Hs & Hrest). exists c', f'. split; [done|]. intros name'.
  destruct (setup_step_name may_allocate files name name' c f c' f' Hs) as [E|Hs'].
  - exists f2. by rewrite <-E.
  - destruct (Hw name') as (f3 & Hrest' & Hf3). exists f3. rewrite setup_rest_step, Hs' in Hrest' by done. done.
Qed.

Lemma setup_starts f : fw_environment → will_be_ready SetupParse f.
Proof. intros Henv name. by apply setup_ready. Qed.

Lemma inv_will_be_ready e i c :
  fw_environment → fw_inv e → e_co e !! i = Some (Setup c) → will_be_ready c (e_fw e).
Proof.
  intros Henv He Hi. destruct (setting_up (Setup c)) eqn:Hs; [by eapply inv_setup|].
  destruct c; try done. by apply setup_starts.
Qed.

Lemma setup_step_setting name c f c' f' : setup_step may_allocate files name c f = Ok (c', f') → setup_done c = false → setting_up (Setup c') = true.
Proof.
  destruct c as [|j|i [|j l]|p|p n|p [|n] i|ret]; cbn [setup_step]; intros Hrun Hd; try done; try by injection Hrun as <- <-.
  all: apply bind_Ok in Hrun as (u & _ & Hrun).
  - destruct u. by injection Hrun as <- _.
  - by injection Hrun as <- _.
  - destruct u as [ret f1]. injection Hrun as <- _. by destruct (ret <? 0).
Qed.

(** A coprocessor sets up further. *)
Lemma fw_setup_step e i name c c' f' :
  fw_inv e → undisturbed (LCo i name) e = true → e_co e !! i = Some (Setup c) → setting_up (Setup c') = true →
  will_be_ready c' f' → fw_inv (Engine (e_sw e) f' (e_rx e) (<[i := Setup c']> (e_co e))).
Proof.
  intros He Hu Hi Hc Hw. assert (∀ k ph, <[i := Setup c']> (e_co e) !! k = Some ph → setting_up ph = true → k = i ∧ ph = Setup c') as Halone.
  { intros k ph [(-> & <- & _)|(Hne & Hk)]%list_lookup_insert_Some Hs; [done|].
    destruct Hne. symmetry. by apply (setup_alone e i name c k ph Hu (inv_one _ He)). }
  assert (existsb setting_up (<[i := Setup c']> (e_co e)) = true) as Hbusy.
  { apply existsb_exists. exists (Setup c'). split; [|done]. apply list_elem_of_In, (list_elem_of_lookup_2 _ i).
    apply list_lookup_insert_eq. by eapply lookup_lt_Some. }
  destruct He. split; cbn [e_sw e_fw e_rx e_co]; auto.
  - intros k1 k2 p1 p2 Hk1 Hk2 Hs1 Hs2. destruct (Halone k1 p1 Hk1 Hs1) as [-> _]. by destruct (Halone k2 p2 Hk2 Hs2).
  - intros k c0 Hk Hs. destruct (Halone k _ Hk Hs) as [_ [= ->]]. done.
  - rewrite Hbusy. done.
  - rewrite Hbusy. done.
Qed.

(** The set-up has returned. *)
Lemma fw_is_ready e i name :
  fw_inv e → undisturbed (LCo i name) e = true → e_co e !! i = Some (Setup (SetupReturned 0)) →
  fw_inv (Engine (e_sw e) (e_fw e) (e_rx e) (<[i := Running]> (e_co e))).
Proof.
  intros He Hu Hi. destruct (inv_setup _ He i _ Hi eq_refl "fw") as (f' & [= <-] & Hf).
  assert (∀ k ph, <[i := Running]> (e_co e) !! k = Some ph → setting_up ph = false) as Hquiet.
  { intros k ph [(-> & <- & _)|(Hne & Hk)]%list_lookup_insert_Some; [done|]. apply not_true_iff_false. intros Hs.
    destruct Hne. symmetry. by apply (setup_alone e i name _ k ph Hu (inv_one _ He) Hi). }
  destruct He. split; cbn [e_sw e_fw e_rx e_co]; auto.
  - intros k1 k2 p1 p2 Hk1 _ Hs1. rewrite (Hquiet k1 p1 Hk1) in Hs1. done.
  - intros k c Hk Hs. by rewrite (Hquiet k _ Hk) in Hs.
  - intros _ _. apply Hf.
Qed.

Lemma teardown_lpm ra n f f' : lpm_teardown ra n f = Ok f' → lpm_tbl f' = lpm_tbl f.
Proof.
  unfold lpm_teardown. destruct ra as [ra|]; [|by intros [= ->]]. intros Hrun. inv_ok. by subst.
Qed.

(** Tear-down by coprocessor [i]. *)
Lemma fw_teardown e r f i :
  fw_inv e → existsb setting_up (e_co e) = false → e_co e !! i = Some Running → coprocessor_teardown (e_fw e) = Ok (r, f) →
  fw_inv (Engine (e_sw e) f (e_rx e) (<[i := Stopped]> (e_co e))).
Proof.
  intros He Hq Hi Htd. pose proof (inv_tbl _ He Hq (lookup_active e i Running Hi I)) as Ht.
  unfold coprocessor_teardown in Htd. apply bind_Ok in Htd as (f1 & Hl%teardown_lpm & [= <- <-]).
  destruct He. split; cbn [e_sw e_fw e_rx e_co]; auto.
  - intros k1 k2 p1 p2 Hk1 _ Hs1. pose proof (quiet_insert _ _ Stopped _ _ Hq eq_refl Hk1). congruence.
  - intros k c Hk Hs. pose proof (quiet_insert _ _ Stopped _ _ Hq eq_refl Hk). congruence.
  - intros _ _ Hno. exfalso. apply Hno. eapply list_elem_of_lookup_2. apply list_lookup_insert_eq. by eapply lookup_lt_Some.
  - intros _ _. by rewrite Hl.
Qed.

Lemma teardown_once f : fw_ready f → ∃ r, coprocessor_teardown f = Ok r.
Proof. intros (_ & h1 & Hr & Hn & Hh). destruct (teardown_twice f rs h1 Hr Hn Hh) as (f' & -> & _). eauto. Qed.

(** A step that does not touch the firewall. *)
Lemma fw_same e s' rx' : fw_inv e → fw_inv (Engine s' (e_fw e) rx' (e_co e)).
Proof. intros []. by split. Qed.

(** The only ways in which a step does not return: a coprocessor judges a packet
    of another IP version, or tears down after another one did. *)
Definition crash_cause (l : label) (e : engine) : Prop :=
  ∃ i name, l = LCo i name ∧
    ((∃ p pkts, e_co e !! i = Some (Busy (p :: pkts)) ∧ 0 < received p (e_sw e) ∧ ip_version p ≠ 4) ∨
     (e_co e !! i = Some Running ∧ Stopped ∈ e_co e ∧ kni_stop (sw (e_sw e)) ≠ 0)).

(** Inside a pass. *)
Lemma co_pass_inv i name e ph m :
  engine_inv e → existsb setting_up (e_co e) = false → e_co e !! i = Some ph → pass_done ph = false →
  co_step may_allocate files i name e = Some m →
  match m with Ok e' => engine_inv e' | _ => crash_cause (LCo i name) e end.
Proof.
  intros [He Hf] Hq Hi Hph. pose proof (pass_active _ Hph) as Hact.
  pose proof (quiet_sound e Hf Hq (lookup_active e i ph Hi Hact)) as Hs.
  rewrite (co_step_pass _ _ i name e ph Hi Hph). intros [= <-].
  pose proof (coprocessor_step_data e i ph He Hs Hi Hact) as Hstep.
  assert ((∃ p l, ph = Busy (p :: l) ∧ ip_version p ≠ 4) → crash_cause (LCo i name) e) as Hcrash.
  { intros (p & l & -> & Hv). exists i, name. split; [done|left]. exists p, l. split_and!; [done| |done].
    eapply busy_received; [done|exact Hi|left]. }
  destruct (coprocessor_step (Z.of_nat i) ph (e_sw e, e_fw e)) as [[ph' [s' f']]| |]; cbn [mbind outcome_bind]; [|auto..].
  destruct Hstep as (Hph' & Hc & Hd). split; [done|]. by eapply fw_move.
Qed.

(** At the stop test. *)
Lemma co_test_inv i name e m :
  engine_inv e → existsb setting_up (e_co e) = false → e_co e !! i = Some Running →
  co_step may_allocate files i name e = Some m →
  match m with Ok e' => engine_inv e' | _ => crash_cause (LCo i name) e end.
Proof.
  intros [He Hf] Hq Hi. unfold co_step. rewrite Hi.
  destruct (Z.eqb_spec (kni_stop (sw (e_sw e))) 0) as [Hstop|Hstop]; cbn [negb]; intros <-%(inj Some).
  { split; [by eapply data_phase|by eapply fw_move]. }
  destruct (coprocessor_teardown (e_fw e)) as [[r f']| |] eqn:Htd; cbn [mbind outcome_bind];
    [split; [by eapply data_phase|by eapply fw_teardown]|..];
    exists i, name; (split; [done|right]); split_and!; try done.
  all: destruct (decide (Stopped ∈ e_co e)) as [|Hno]; [done|exfalso].
  all: destruct (teardown_once (e_fw e)) as [r Hr]; [|congruence].
  all: apply (inv_fw _ Hf Hq); [by eapply lookup_active|done].
Qed.

(** During set-up. *)
Lemma co_setup_inv i name e c m :
  fw_environment → engine_inv e → undisturbed (LCo i name) e = true → e_co e !! i = Some (Setup c) →
  co_step may_allocate files i name e = Some m → ∃ e', m = Ok e' ∧ engine_inv e'.
Proof.
  intros Henv [He Hf] Hu Hi. pose proof (inv_will_be_ready e i c Henv Hf Hi) as Hw. destruct (setup_done c) eqn:Hc.
  - destruct c as [| | | | | |r]; try done. destruct (Hw "fw") as (f' & [= -> <-] & _).
    unfold co_step. rewrite Hi. intros [= <-]. eexists. split; [done|]. split; [by eapply data_phase|by eapply fw_is_ready].
  - rewrite (co_step_setup _ _ i name e c Hi Hc). intros [= <-].
    destruct (setup_next name c (e_fw e) Hc Hw) as (c' & f' & Hs & Hw'). rewrite Hs. cbn [mbind outcome_bind].
    eexists. split; [done|]. split; [by eapply data_phase|]. eapply fw_setup_step; [done..| |done]. by eapply setup_step_setting.
Qed.

Lemma exec_inv l e m :
  fw_environment → engine_inv e → undisturbed l e = true → exec may_allocate files l e = Some m →
  match m with Ok e' => engine_inv e' | _ => crash_cause l e end.
Proof.
  intros Henv He Hu. destruct l as [elapsed|i name|n]; cbn [exec].
  - intros Hrun. destruct He as [Hd Hf]. destruct (rx_step_data e elapsed m Hd Hrun) as (e' & -> & Hd'). split; [done|].
    assert (exec may_allocate files (LRx elapsed) e = Some (Ok e')) as Hmove%exec_move by exact Hrun.
    inversion Hmove; subst; by apply fw_same.
  - destruct (e_co e !! i) as [ph|] eqn:Hi; [|unfold co_step; by rewrite Hi].
    destruct (pass_done ph) eqn:Hph; [|by apply (co_pass_inv i name e ph); [..|eapply undisturbed_quiet; [|done|destruct ph]| |]].
    destruct ph as [c| | |l|]; try done.
    + intros (e' & -> & ?)%(co_setup_inv i name e c); done.
    + apply co_test_inv; [done|by eapply undisturbed_quiet|done].
    + unfold co_step. by rewrite Hi.
  - intros [= <-]. destruct He as [Hd Hf]. split; [|by apply fw_same].
    eapply (exec_data may_allocate files (LSignal n)); [done| |done]. by intros (? & ? & ? & ? & _).
Qed.

Lemma reachable_inv e0 e :
  fw_environment → engine_inv e0 → rtc serial_step e0 e → engine_inv e.
Proof.
  intros Henv He0. induction 1 as [|e0 e1 e2 [l Hu Hl] _ IH]; [done|]. apply IH.
  exact (exec_inv l e0 _ Henv He0 Hu Hl).
Qed.

(** In-turn runs are runs. *)
Lemma serial_steps e0 e : rtc serial_step e0 e → rtc (step may_allocate files) e0 e.
Proof. induction 1 as [|e0 e1 e2 [l _ Hl] _ IH]; [done|]. eapply rtc_l; [by econstructor|done]. Qed.

Lemma started_inv e t l : started e t l → table = t → rings_ok → engine_inv e.
Proof.
  intros Hst Ht Hrings. split; [by eapply started_data|].
  assert (¬ Exists active (replicate 5 Starting)) as Hno by (rewrite Exists_exists; by intros (ph & [-> _]%elem_of_replicate & ?)).
  destruct Hst as (-> & _). split; cbn [e_sw e_co e_rx e_fw] in *; try done.
  - by intros i k ph ph' [-> _]%lookup_replicate.
  - by intros i c [[= ->] _]%lookup_replicate.
Qed.
End safety.
