(* ===== verification/EngineTypes.v ===== *)
(** * The data of the engine keeps its C types

    The model writes C integers as [Z], arrays as lists and pointers as options.
    In every reachable state each of them is a value of its C type: counters are
    64-bit, [kni_stop] and [num_rules] are [int]s, the fields of rules are 8 and 32
    bits wide, table entries 16, arrays have their declared length, the slots of a
    staging buffer below its count hold descriptors, and a burst fits its array. *)
From S2P Require Import Prelude Dpdk Stdio Config CJsonData CJsonText CJsonTextSafe CJsonParse CJsonQuery.
From S2P Require Import Switch SwitchFrame SwitchInv SwitchSpec FastPath Firewall FirewallSpec Coprocessor SetupSteps.
From S2P Require Import Interface Engine EngineSteps EngineSpec.

Definition is_u8 (z : Z) : Prop := 0 <= z < 2 ^ 8.
Definition is_u16 (z : Z) : Prop := 0 <= z < 2 ^ 16.
Definition is_u32 (z : Z) : Prop := 0 <= z < 2 ^ 32.
Definition is_int (z : Z) : Prop := - 2 ^ 31 <= z < 2 ^ 31.

Lemma to_int_range z : is_int (to_int z).
Proof.
  unfold to_int, is_int, u32. pose proof (Z.mod_pos_bound z (2 ^ 32) ltac:(done)). destruct (Z.ltb_spec (z mod 2 ^ 32) (2 ^ 31)); lia.
Qed.

Lemma RTE_IPV4_range a b c d : is_u32 (RTE_IPV4 a b c d).
Proof.
  rewrite RTE_IPV4_value. unfold is_u32. pose proof (Z.mod_pos_bound a 256). pose proof (Z.mod_pos_bound b 256).
  pose proof (Z.mod_pos_bound c 256). pose proof (Z.mod_pos_bound d 256). lia.
Qed.

(** ** The firewall *)
Section firewall.
Context `{ByteOrder, RteLpm}.
Variable may_allocate : nat → Z → bool.
Variable files : string → option (list Z).
Implicit Types f : firewall.

Definition rule_typed (r : fw_rule) : Prop :=
  (∀ ip, src_ip r = Some ip → is_u32 ip) ∧ is_u8 (r_depth r) ∧ is_u8 (r_action r).

Definition rules_typed (p : option rule_array) : Prop :=
  ∀ ra r, p = Some ra → Some r ∈ ra_slots ra → rule_typed r.

Definition fw_stats_typed (s : firewall_pkt_stats) : Prop :=
  is_u64 (pkt_drop s) ∧ is_u64 (pkt_accept s) ∧ is_u64 (pkt_not_ipv4 s) ∧ is_u64 (pkt_total s).

Definition fw_typed f : Prop := fw_stats_typed (stats f) ∧ is_int (num_rules f) ∧ rules_typed (rules f).

Lemma count_total_typed f : fw_typed f → fw_typed (count_total f).
Proof. intros ((Hd & Ha & Hn & _) & Hrest). split; [|exact Hrest]. repeat split; try apply Hd; try apply Ha; try apply Hn; apply u64_range. Qed.

Lemma count_not_ipv4_typed f : fw_typed f → fw_typed (count_not_ipv4 f).
Proof. intros ((Hd & Ha & _ & Ht) & Hrest). split; [|exact Hrest]. repeat split; try apply Hd; try apply Ha; try apply Ht; apply u64_range. Qed.

Lemma process_packet_typed f pkt ret f' : fw_process_packet f pkt = Ok (ret, f') → fw_typed f → fw_typed f'.
Proof.
  unfold fw_process_packet, fw_packet_handler. intros ([a f1] & Hrun & Hret)%bind_Ok Hf.
  assert (f' = f1) as -> by (destruct (bool_decide _); congruence). clear Hret.
  apply bind_Ok in Hrun as (b & _ & Hrun). destruct (if negb b then _ else _) as [f2 a2] eqn:E.
  assert (fw_typed f2) as Hf2.
  { apply count_total_typed in Hf. destruct b; cbn in E; injection E as <- _; [done|by apply count_not_ipv4_typed]. }
  apply bind_Ok in Hrun as (p & _ & (hdr & _ & (src & _ & Hrun)%bind_Ok)%bind_Ok).
  destruct (rte_lpm_lookup _ _ _) as [r h]. by apply bind_Ok in Hrun as (act & _ & [= _ <-]).
Qed.

(** The table and the heap have no part in it. *)
Lemma lpm_add_rule_typed ra i f r f' : lpm_add_rule ra i f = Ok (r, f') → fw_typed f → fw_typed f'.
Proof.
  unfold lpm_add_rule. intros (r1 & _ & (r2 & _ & (ip & _ & Hrun)%bind_Ok)%bind_Ok)%bind_Ok Hf.
  destruct (rte_lpm_add _ _ _ _) as [ret t]. by injection Hrun as _ <-.
Qed.

Lemma setup_rule_typed i j f f' : setup_rule may_allocate i j f = Ok f' → fw_typed f → fw_typed f'.
Proof.
  unfold setup_rule. destruct (cJSON_GetObjectItem _ _) as [ip|]; [|done].
  destruct (cJSON_GetObjectItem _ _) as [dep|]; [|done]. destruct (cJSON_GetObjectItem _ _) as [act|]; [|done].
  destruct (allocate _ _ _) as [p h]. intros (ra & (ra0' & Hra & Hlive)%bind_Ok & (a & _ & (slots & Hset & [= <-])%bind_Ok)%bind_Ok)%bind_Ok (Hs & Hn & Hr).
  split; [exact Hs|]. split; [exact Hn|]. intros ra' r [= <-] Hin. cbn in Hra, Hin.
  destruct (rules f) as [ra0|] eqn:E; [|done]. injection Hra as ->. destruct (decide _); [|done]. injection Hlive as ->.
  assert (slots = <[Z.to_nat i := Some (FwRule a (fw_pkt_parse_ip ((λ s, cstring (c_bytes s)) <$> valuestring ip)).2
    (u8 (valueint dep)) (u8 (valueint act)))]> (ra_slots ra)) as Hslots.
  { unfold arr_set in Hset. destruct (_ || _); congruence. }
  subst slots. apply list_elem_of_lookup in Hin as [k Hk].
  apply list_lookup_insert_Some in Hk as [(_ & [= <-] & _)|(_ & Hk)]; [|by apply (Hr ra r eq_refl), (list_elem_of_lookup_2 _ k)].
  split_and!; cbn; [|by apply Z.mod_pos_bound|by apply Z.mod_pos_bound].
  intros z. unfold fw_pkt_parse_ip. destruct (_ <$> _) as [l|]; cbn; [|done].
  destruct (scan_ip l) as [[[[a1 a2] a3] a4]|]; cbn; [|done]. intros [= <-]. apply RTE_IPV4_range.
Qed.

Lemma setup_parse_typed name f j f' : setup_parse may_allocate files name f = Ok (j, f') → fw_typed f → fw_typed f'.
Proof.
  unfold setup_parse. intros ([[j'|] h] & _ & Hrun)%bind_Ok (Hs & Hn & Hr); [|done]. injection Hrun as _ <-.
  split; [exact Hs|]. split; [apply to_int_range|exact Hr].
Qed.

Lemma setup_alloc_typed j f : fw_typed f → fw_typed (setup_alloc may_allocate j f).
Proof.
  intros (Hs & Hn & Hr). unfold setup_alloc. destruct (allocate _ _ _) as [p h]. split; [exact Hs|]. split; [exact Hn|].
  intros ra' r. cbn. destruct p as [a|]; cbn; [|done]. intros [= <-] [? _]%elem_of_replicate. done.
Qed.

Lemma setup_step_typed name c f c' f' :
  setup_step may_allocate files name c f = Ok (c', f') → fw_typed f → fw_typed f'.
Proof.
  destruct c as [|j|i [|j l]|p|p n|p [|n] i|ret]; cbn [setup_step]; intros Hrun Hf; try by injection Hrun as _ <-.
  - apply bind_Ok in Hrun as ([j f1] & Hp & [= _ <-]). by eapply setup_parse_typed.
  - injection Hrun as _ <-. by apply setup_alloc_typed.
  - apply bind_Ok in Hrun as (f1 & Hone & [= _ <-]). by eapply setup_rule_typed.
  - apply bind_Ok in Hrun as ([ret f1] & Hone & [= _ <-]). by eapply lpm_add_rule_typed.
Qed.

Lemma coprocessor_teardown_typed f r f' : coprocessor_teardown f = Ok (r, f') → fw_typed f → fw_typed f'.
Proof.
  unfold coprocessor_teardown, lpm_teardown. intros (f1 & Hrun & [= _ <-])%bind_Ok Hf.
  destruct (rules f); [|by injection Hrun as <-]. by apply bind_Ok in Hrun as (h & _ & (h' & _ & [= <-])%bind_Ok).
Qed.
End firewall.

(** ** The engine *)
Section engine.
Context `{ByteOrder, RteRing, RteKni, RteLpm}.
Variable may_allocate : nat → Z → bool.
Variable files : string → option (list Z).

(** A staging buffer: its array, and its count of descriptors. *)
Definition buf_typed (b : packet_buf) : Prop :=
  length (buffer b) = Z.to_nat PKT_BURST_SZ ∧ 0 <= count b <= PKT_BURST_SZ ∧
  ∀ k, (k < Z.to_nat (count b))%nat → ∃ p, buffer b !! k = Some (Some p).

Record engine_typed (e : engine) : Prop := {
  ty_counters : counters_typed (e_sw e);
  ty_stop : is_int (kni_stop (sw (e_sw e)));
  ty_fw : fw_typed (e_fw e);
  ty_ports : length (kni_list (sw (e_sw e))) = Z.to_nat KNI_KTHREAD ∧ None ∉ kni_list (sw (e_sw e));
  ty_staging : ∃ tx, qm_tx (tx_mgr (sw (e_sw e))) = Live tx ∧ length tx = Z.to_nat KNI_KTHREAD ∧ Forall buf_typed tx;
  ty_routes k : is_u16 k → is_u16 (route (routing_table (tx_mgr (sw (e_sw e)))) k);
  ty_managers : length (nf (sw (e_sw e))) = Z.to_nat KNI_KTHREAD ∧
    Forall (λ c, is_Some (rx_q c) ∧ is_Some (tx_q c) ∧ buf_typed (nf_rx c) ∧ buf_typed (nf_tx c)) (nf (sw (e_sw e)));
  ty_threads : length (e_co e) = Z.to_nat KNI_KTHREAD;
  ty_bursts : zlen (rx_pkts (e_rx e)) <= PKT_BURST_SZ ∧ Forall (λ ph, zlen (co_pkts ph) <= PKT_BURST_SZ) (e_co e);
}.

(** The part that the invariant of the data plane does not speak about. *)
Definition scalars_typed (e : engine) : Prop :=
  counters_typed (e_sw e) ∧ is_int (kni_stop (sw (e_sw e))) ∧ fw_typed (e_fw e).

Lemma print_stats_typed s : counters_typed s → counters_typed (print_stats s).2.
Proof.
  intros (Hk & _ & Hn & _). unfold counters_typed. cbn. rewrite !length_replicate.
  split_and!; [done| |done|]; by apply Forall_replicate.
Qed.

Lemma exec_typed l e e' : exec may_allocate files l e = Some (Ok e') → scalars_typed e → scalars_typed e'.
Proof.
  intros Hrun (Hc & Hs & Hf). destruct (exec_move _ _ _ _ _ Hrun) as
    [?|? c c' s _ _ Hfp|?|elapsed|? ? ? ? ? _ _ Hset|? ?|? ? ? ? _ _ Htd|?|i name ph ph' s f _ _ Hco|n]; split_and!; cbn; try done.
  - by apply (fastpath_step_frame keeps_typed _ _ _ _ Hfp).
  - by rewrite (fastpath_step_frame keeps_stop _ _ _ _ Hfp).
  - destruct elapsed; [by apply print_stats_typed|done].
  - by destruct elapsed.
  - by eapply setup_step_typed.
  - by eapply coprocessor_teardown_typed.
  - by apply (coprocessor_step_frame keeps_typed _ _ _ _ _ _ _ Hco).
  - by rewrite (coprocessor_step_frame keeps_stop _ _ _ _ _ _ _ Hco).
  - eapply coprocessor_step_keeps; [|exact Hco|done]. intros f0 pkt ret f1. apply process_packet_typed.
  - unfold signal_handler. destruct (_ || _); [apply to_int_range|done].
Qed.

Lemma reachable_typed e0 e : rtc (step may_allocate files) e0 e → scalars_typed e0 → scalars_typed e.
Proof. induction 1 as [|e0 e1 e2 [l Hl] _ IH]; [done|]. intros Ht. by eapply IH, exec_typed. Qed.

Lemma started_typed e t l : started e t l → scalars_typed e.
Proof.
  intros (-> & _). split_and!; cbn; [|unfold is_int; lia|].
  - split_and!; [done| |done|]; by apply Forall_replicate.
  - split_and!; cbn; [repeat split; done|unfold is_int; lia|]. by intros ra r.
Qed.
End engine.

(** ** The data plane *)
Section data.
Context `{ByteOrderLaws, RteRingLaws, RteKniLaws, RteLpmLaws} `{pol : Policy}.

Lemma wf_buf_typed Q n b : wf_buf Q n b → buf_typed b.
Proof.
  intros (l & Hl & _ & _). destruct (Hl) as (Hlen & Hc & Hle & _). unfold buf_typed, PKT_BURST_SZ. rewrite Hc. unfold zlen in *.
  split_and!; [done|lia|lia|]. intros k Hk. rewrite Nat2Z.id in Hk. rewrite (holds_lookup b l) by done.
  destruct (lookup_lt_is_Some_2 l k Hk) as [p ->]. by exists p.
Qed.

Lemma inv_typed e :
  data_inv e → (∀ k, is_u16 k → is_u16 (route pol_table k)) → scalars_typed e → engine_typed e.
Proof.
  intros He Ht (Hc & Hs & Hf). destruct (inv_wf _ He) as [? Hlive Htl Htx Hnl Hnf Hkl Hk ? ? Htab _].
  split; [done..|split|exists (tx_of (e_sw e))| |split|apply He|split]; try done.
  - intros [i Hi]%list_elem_of_lookup. by destruct (Hk i None Hi) as (k & ? & _).
  - split_and!; [done..|]. apply Forall_lookup. intros i b Hb. by eapply wf_buf_typed, Htx.
  - rewrite Htab. apply Ht.
  - apply Forall_lookup. intros i c Hi. destruct (Hnf i c Hi) as ((r & -> & _) & (r' & -> & _) & Hb1 & Hb2).
    split_and!; [by eexists..|by eapply wf_buf_typed|by eapply wf_buf_typed].
  - unfold rx_pkts. destruct (e_rx e) as [|c| |] eqn:Hrx; [done| |done..]. apply (inv_rx _ He _ Hrx).
  - apply Forall_lookup. intros i ph Hi. apply (inv_busy _ He i ph Hi).
Qed.
End data.
