(* ===== verification/EngineOrder.v ===== *)
(** * The engine keeps the order of packets

    The packets that the engine received for a port are an interleaving of what
    it received for it from each port; the stream of the port
    ([SwitchOrder.stream]), with the bursts that the threads have in hand, stays
    a part of this interleaving, in order, under every step of every thread. *)
From S2P Require Import Prelude Dpdk Stdio Config CJsonData CJsonText CJsonTextSafe CJsonParse CJsonQuery.
From S2P Require Import Switch SwitchInv SwitchSpec FastPath SwitchOrder Firewall FirewallSpec Coprocessor SetupSteps.
From S2P Require Import Interface Engine EngineSteps EngineSpec.

(** ** Interleavings *)

(** [log] interleaves the lists [ls], each in its own order. *)
Inductive merges {A} : list (list A) → list A → Prop :=
  | merges_nil ls : Forall (λ l, l = []) ls → merges ls []
  | merges_snoc ls log j l x :
      merges ls log → ls !! j = Some l → merges (<[j := l ++ [x]]> ls) (log ++ [x]).

Lemma merges_app {A} (ls : list (list A)) log j l m :
  merges ls log → ls !! j = Some l → merges (<[j := l ++ m]> ls) (log ++ m).
Proof.
  revert ls log l. induction m as [|x m IH]; intros ls log l Hm Hj.
  { by rewrite !app_nil_r, list_insert_id. }
  pose proof (merges_snoc ls log j l x Hm Hj) as Hm1.
  assert (<[j := l ++ [x]]> ls !! j = Some (l ++ [x])) as Hj1 by (by apply list_lookup_insert_eq, (lookup_lt_Some _ _ _ Hj)).
  specialize (IH _ _ _ Hm1 Hj1). by rewrite list_insert_insert_eq, <-!app_assoc in IH.
Qed.

(** Each list is a part of the interleaving, in order. *)
Lemma merges_sublist {A} (ls : list (list A)) log j l : merges ls log → ls !! j = Some l → l `sublist_of` log.
Proof.
  intros Hm. revert j l. induction Hm as [ls Hall|ls log k m x Hm IH Hk]; intros j l Hj.
  - by rewrite (proj1 (Forall_lookup _ _) Hall j l Hj).
  - apply list_lookup_insert_Some in Hj as [(<- & <- & _)|(_ & Hj)].
    + apply sublist_app; [by eapply IH|done].
    + apply sublist_inserts_r. by eapply IH.
Qed.

Section order.
Context `{ByteOrderLaws, RteRingLaws, RteKniLaws, RteLpmLaws}.
Variable may_allocate : nat → Z → bool.
Variable files : string → option (list Z).
Variable table : gmap Z Z.
#[local] Instance policy : Policy := accept_all table.

(** What was received for port [i], by port. *)
Definition arrivals_for (s : switch) (i : nat) : list (list mbuf) :=
  (λ j, bound_for i (recvd_of s j)) <$> seq 0 5.

(** The packets in hand that are on their way to port [i]: drained from the
    transmit ring, taken from the receive ring, or just received. *)
Definition drained (pc : rx_pc) (i : nat) : list mbuf :=
  match pc with RxRun (DrainBurst k pkts, _) => if decide (i = Z.to_nat k) then pkts else [] | _ => [] end.
Definition judged (co : list phase) (i : nat) : list mbuf := match co !! i with Some ph => co_pkts ph | None => [] end.
Definition incoming (pc : rx_pc) : list mbuf := match pc with RxRun (RxBurst _ pkts, _) => pkts | _ => [] end.

Definition stream_of (e : engine) (i : nat) : list mbuf :=
  stream (e_sw e) i (drained (e_rx e) i) (judged (e_co e) i) ++ bound_for i (incoming (e_rx e)).

Definition ordered (e : engine) : Prop :=
  ∀ i, ∃ log, merges (arrivals_for (e_sw e) i) log ∧ stream_of e i `sublist_of` log.

(** A burst [l] is received from port [k]. *)
Lemma ordered_receives k l e e' :
  (k < 5)%nat → (∀ j, recvd_of (e_sw e') j = recvd_of (e_sw e) j ++ (if decide (j = k) then l else [])) →
  (∀ i, stream_of e' i `sublist_of` stream_of e i ++ bound_for i l) → ordered e → ordered e'.
Proof.
  intros Hk Hrec Happ Ho i. destruct (Ho i) as (log & Hm & Hs).
  exists (log ++ bound_for i l). split; [|etrans; [apply Happ|by apply sublist_app]].
  assert (arrivals_for (e_sw e) i !! k = Some (bound_for i (recvd_of (e_sw e) k))) as Hl.
  { unfold arrivals_for. rewrite list_lookup_fmap, lookup_seq_lt by done. done. }
  replace (arrivals_for (e_sw e') i) with (<[k := bound_for i (recvd_of (e_sw e) k) ++ bound_for i l]> (arrivals_for (e_sw e) i));
    [by apply merges_app|].
  apply list_eq. intros j. unfold arrivals_for. destruct (decide (j = k)) as [->|Hne].
  - rewrite list_lookup_insert_eq by (by rewrite length_fmap, length_seq).
    rewrite list_lookup_fmap, lookup_seq_lt by done. cbn. rewrite Hrec, decide_True by done. unfold bound_for. by rewrite filter_app.
  - rewrite list_lookup_insert_ne, !list_lookup_fmap by done. destruct (seq 0 5 !! j) as [j'|] eqn:Hj; [|done].
    apply lookup_seq in Hj as [-> _]. cbn. by rewrite Hrec, decide_False, app_nil_r by done.
Qed.

(** Nothing is received. *)
Lemma ordered_same e e' :
  same_recvd (e_sw e) (e_sw e') → (∀ i, stream_of e' i `sublist_of` stream_of e i) → ordered e → ordered e'.
Proof.
  intros Hr Hs Ho i. destruct (Ho i) as (log & Hm & Hsub). exists log. split; [|etrans; [apply Hs|done]].
  assert (arrivals_for (e_sw e') i = arrivals_for (e_sw e) i) as ->; [|done].
  apply list_fmap_ext. intros _ j _. by rewrite Hr.
Qed.

(** ** Steps of the fast path *)

(** The same switch operation in all its surroundings. *)
Lemma ordered_thins e s' pc' :
  thins (e_sw e) s' ∧ same_recvd (e_sw e) s' → drained pc' = drained (e_rx e) → incoming pc' = incoming (e_rx e) →
  ordered e → ordered (Engine s' (e_fw e) pc' (e_co e)).
Proof.
  intros [Ht Hr] Hd Hi. apply ordered_same; [exact Hr|]. intros i. unfold stream_of. cbn. rewrite Hd, Hi.
  apply sublist_app; [apply Ht|done].
Qed.

Lemma rx_call_ordered e a todo b s' :
  valid_action a → wf_but None (e_sw e) → e_rx e = RxRun (NoBurst, a :: todo) → rx_call a (e_sw e) = Ok (b, s') →
  ordered e → ordered (Engine s' (e_fw e) (RxRun (b, todo)) (e_co e)).
Proof.
  intros Ha Hs Hrx. destruct a as [k|k|k|k]; cbn [rx_call] in *; intros (u & Hrun & Hu)%bind_Ok.
  - destruct u as [l s1]. injection Hu as <- <-. destruct (rx_poll_order k _ _ _ Hs Ha Hrun) as [Ht Hrec].
    apply (ordered_receives (Z.to_nat k) l); [cbn in Ha; lia|exact Hrec|]. intros i. unfold stream_of. rewrite Hrx. cbn.
    rewrite app_nil_r. apply sublist_app; [apply Ht|done].
  - injection Hu as <- <-. apply ordered_thins; [by apply (flush_port_thins None _ k)|by rewrite Hrx..].
  - injection Hu as <- <-. apply ordered_thins; [by apply (flush_nf_rx_thins None _ k)|by rewrite Hrx..].
  - destruct u as [l s1]. injection Hu as <- <-. destruct (drain_poll_order k _ _ _ Hs Ha Hrun) as [Hr Hst].
    apply ordered_same; [exact Hr|]. intros i. unfold stream_of. rewrite Hrx. cbn. rewrite !app_nil_r, <-(Hst i [] _).
    unfold with_burst. by case_decide.
Qed.

Lemma fastpath_step_ordered e c c' s' :
  data_inv e → e_rx e = RxRun c → fastpath_step c (e_sw e) = Ok (c', s') →
  ordered e → ordered (Engine s' (e_fw e) (RxRun c') (e_co e)).
Proof.
  intros He Hrx. pose proof (inv_wf _ He) as Hs. destruct (inv_rx _ He _ Hrx) as [Hb Hall].
  destruct c as [[|k [|p l]|k [|p l]] todo]; cbn [fastpath_step fst snd] in *.
  - destruct todo as [|a todo]; [intros [= <- <-]; by apply ordered_thins; [apply thins_same|rewrite Hrx..]|].
    apply Forall_cons in Hall as [Ha _]. intros ([b s1] & Hrun & [= <- <-])%bind_Ok. by eapply rx_call_ordered.
  - destruct Hb as (_ & Hk & _). intros (s1 & Hrun & [= <- <-])%bind_Ok.
    apply ordered_thins; [by apply (handle_request_order k)|by rewrite Hrx..].
  - destruct Hb as (_ & Hk & [Hp _]%Forall_cons). intros (s1 & Hrun & [= <- <-])%bind_Ok.
    destruct (rx_packet_order k p _ _ Hs Hk Hp Hrun) as [Hr Ha]. apply ordered_same; [exact Hr|].
    intros i. unfold stream_of. rewrite Hrx. cbn. etrans; [apply sublist_app; [apply Ha|done]|].
    rewrite <-app_assoc. unfold bound_for. by rewrite <-filter_app.
  - intros [= <- <-]. apply ordered_same; [done|]. intros i. unfold stream_of. rewrite Hrx. cbn. by case_decide.
  - destruct Hb as (_ & Hk & [Hp _]%Forall_cons). intros (s1 & Hrun & [= <- <-])%bind_Ok.
    destruct (enqueue_port_order _ k p _ Hs Hk Hp Hrun) as [Hr Ha]. apply ordered_same; [exact Hr|].
    intros i. unfold stream_of. rewrite Hrx. cbn. apply sublist_app; [|done]. etrans; [apply Ha|]. unfold with_head.
    by case_decide.
Qed.

(** ** Steps of a coprocessor *)

Lemma judged_insert co i ph j : (i < length co)%nat → judged (<[i := ph]> co) j = if decide (j = i) then co_pkts ph else judged co j.
Proof.
  intros Hi. unfold judged. case_decide as Hj; [subst j; by rewrite list_lookup_insert_eq|by rewrite list_lookup_insert_ne].
Qed.

Lemma ordered_co e i ph ph' s' f' :
  e_co e !! i = Some ph → same_recvd (e_sw e) s' →
  (∀ j h1, stream s' j h1 (if decide (j = i) then co_pkts ph' else judged (e_co e) j) `sublist_of`
    stream (e_sw e) j h1 (if decide (j = i) then co_pkts ph else judged (e_co e) j)) →
  ordered e → ordered (Engine s' f' (e_rx e) (<[i := ph']> (e_co e))).
Proof.
  intros Hi Hr Hs. apply ordered_same; [exact Hr|]. intros j. unfold stream_of. cbn [e_sw e_rx e_co].
  apply sublist_app; [|done]. rewrite judged_insert by (by eapply lookup_lt_Some). etrans; [apply Hs|].
  case_decide as Hj; [subst j|done]. unfold judged. by rewrite Hi.
Qed.

Lemma ordered_phase e i ph ph' f' :
  e_co e !! i = Some ph → co_pkts ph = [] → co_pkts ph' = [] → ordered e →
  ordered (Engine (e_sw e) f' (e_rx e) (<[i := ph']> (e_co e))).
Proof. intros Hi Hp Hp'. apply (ordered_co e i ph); [done|by intros j|]. intros j h1. by rewrite Hp, Hp'. Qed.

Lemma coprocessor_step_ordered e i ph ph' s' f' :
  data_inv e → e_co e !! i = Some ph → pass_done ph = false →
  coprocessor_step (Z.of_nat i) ph (e_sw e, e_fw e) = Ok (ph', (s', f')) →
  ordered e → ordered (Engine s' f' (e_rx e) (<[i := ph']> (e_co e))).
Proof.
  intros He Hi Hph. pose proof (inv_wf _ He) as Hs. pose proof (inv_co_lt e i ph He Hi) as Hlt.
  assert (0 <= Z.of_nat i < 5) as Hz by lia. pose proof (inv_busy _ He i ph Hi) as Hbusy.
  destruct ph as [| | |[|p l]|]; cbn [coprocessor_step fst snd] in *; try done.
  - intros ([l s1] & Hrun & [= <- <- <-])%bind_Ok. destruct (coprocessor_poll_order _ _ _ _ Hs Hz Hrun) as [Hr Hst].
    apply (ordered_co e i Polling); [done|exact Hr|]. intros j h1. rewrite Nat2Z.id in Hst. unfold with_burst in Hst.
    case_decide as Hj; [specialize (Hst j h1 [])|specialize (Hst j h1 (judged (e_co e) j))]; [rewrite decide_True in Hst by done|rewrite decide_False in Hst by done];
      cbn [app co_pkts] in *; by rewrite Hst.
  - intros (s1 & Hrun & [= <- <- <-])%bind_Ok. destruct (flush_nf_tx_thins None _ _ _ Hs Hz Hrun) as [Ht Hr].
    apply (ordered_co e i (Busy [])); [done|exact Hr|]. intros j h1. apply Ht.
  - intros ([s1 f1] & Hrun & [= <- <- <-])%bind_Ok. destruct Hbusy as [_ [Hp _]%Forall_cons].
    destruct (coprocessor_packet_order (nf_spec := firewall_spec (e_fw e) (all_sound table (e_fw e)))
      (Z.of_nat i) p (e_sw e) (e_fw e) s1 f1) as [Hr Hst]; [done..|by rewrite Nat2Z.id|done|].
    apply (ordered_co e i (Busy (p :: l))); [done|exact Hr|]. intros j h1. etrans; [apply Hst|]. rewrite Nat2Z.id.
    unfold with_head. by case_decide.
Qed.

(** ** All steps *)

Lemma same_sw_ordered s' f' pc' e :
  kni_list (sw s') = kni_list (sw (e_sw e)) → tx_of s' = tx_of (e_sw e) → nf (sw s') = nf (sw (e_sw e)) →
  drained pc' = drained (e_rx e) → incoming pc' = incoming (e_rx e) → ordered e → ordered (Engine s' f' pc' (e_co e)).
Proof.
  intros Hk Ht Hn Hd Hi. apply ordered_same.
  - intros j. unfold recvd_of. cbn. by rewrite Hk.
  - intros i. unfold stream_of, stream, sent_of, staged_of, coproc_of. cbn. by rewrite Hk, Ht, Hn, Hd, Hi.
Qed.

Lemma exec_ordered l e e' :
  data_inv e → exec may_allocate files l e = Some (Ok e') → ordered e → ordered e'.
Proof.
  intros He Hrun. destruct (exec_move _ _ _ _ _ Hrun) as
    [? Hrx|? c c' s Hrx _ Hfp|? Hrx|elapsed Hrx|i name c c' f Hi _ _|i name Hi|i name r f Hi _ _|i name Hi _|i name ph ph' s f Hi Hph Hco|n].
  - apply same_sw_ordered; rewrite ?Hrx; try done; by destruct (negb _).
  - by eapply fastpath_step_ordered.
  - by apply same_sw_ordered; rewrite ?Hrx.
  - apply same_sw_ordered; rewrite ?Hrx; try done; by destruct elapsed.
  - by apply (ordered_phase e i (Setup c)).
  - by apply (ordered_phase e i (Setup (SetupReturned 0))).
  - by apply (ordered_phase e i Running).
  - by apply (ordered_phase e i Running).
  - by eapply coprocessor_step_ordered.
  - unfold signal_handler. destruct (_ || _); by apply same_sw_ordered.
Qed.

(** [main] starts with empty streams. *)
Lemma started_ordered e t l : started e t l → rings_ok → ordered e.
Proof.
  intros (-> & _ & Hl & Hall) Hrings i.
  assert (∀ j, sent_of (zero_switch (set_kni_list l (configured t))) j = [] ∧
               recvd_of (zero_switch (set_kni_list l (configured t))) j = []) as Hports.
  { intros j. unfold sent_of, recvd_of. cbn. destruct (l !! j) as [p|] eqn:Hp; [|done].
    destruct (Hall j p) as (k & -> & Hk); [apply lookup_lt_Some in Hp; lia|done|].
    by apply kni_alloc_spec in Hk as [-> ->]. }
  exists []. cbn [e_sw]. split.
  - apply merges_nil. unfold arrivals_for. apply Forall_fmap, Forall_forall. intros j _. cbn. by rewrite (proj2 (Hports j)).
  - assert (staged_of (zero_switch (set_kni_list l (configured t))) i = []) as Hst.
    { unfold staged_of. change (tx_of _) with (replicate 5 zero_packet_buf).
      destruct (replicate 5 zero_packet_buf !! i) as [b|] eqn:Hb; [|done]. by apply lookup_replicate in Hb as [-> _]. }
    unfold stream_of, stream. cbn [e_sw e_rx e_co]. rewrite (proj1 (Hports i)), Hst. unfold coproc_of.
    assert (judged (replicate 5 Starting) i = []) as ->.
    { unfold judged. destruct (replicate 5 Starting !! i) as [ph|] eqn:E; [|done]. by apply lookup_replicate in E as [-> _]. }
    change (nf _) with (imap configured_nf (replicate 5 zero_coprocessor_mgr)).
    destruct (imap _ _ !! i) as [c|] eqn:Hc; [|done]. apply configured_nf_lookup in Hc as [Hi ->].
    destruct (Hrings i Hi) as [[r1 E1] [r2 E2]]. unfold mgr_items, configured_nf. rewrite E1, E2.
    apply ring_create_items in E1, E2. cbn. by rewrite E1, E2.
Qed.

Lemma reachable_ordered e0 e :
  data_inv e0 → ordered e0 → rtc (step may_allocate files) e0 e → ordered e.
Proof.
  intros He0 Ho. induction 1 as [|e0 e1 e2 [l Hl] _ IH]; [done|]. apply IH; [|by eapply exec_ordered].
  eapply (exec_data may_allocate files l); [done| |exact Hl]. intros _. apply all_sound.
Qed.
End order.
