(* ===== verification/EngineDrain.v ===== *)
(** * The engine forwards what it holds

    A sweep is a piece of a run in which the receive thread takes at least as
    many steps as one round of its loop can have, and every coprocessor at least
    as many as one pass can have.  While nothing is received and no stop is
    requested, each sweep brings the packets held for a port closer to it
    ([SwitchDrain.work]); so after as many sweeps as there is work, whatever the
    interleaving of the threads, the engine holds no packet. *)
From S2P Require Import Prelude Dpdk Stdio Config CJsonData CJsonText CJsonTextSafe CJsonParse CJsonQuery.
From S2P Require Import Switch SwitchFrame SwitchInv SwitchSpec FastPath SwitchOrder SwitchDrain Firewall FirewallSpec Coprocessor SetupSteps.
From S2P Require Import Interface Engine EngineSteps EngineSpec EngineTypes EngineOrder.

(** ** Runs *)
Section drain.
Context `{ByteOrderLaws, RteRingProgress, RteKniLaws, RteLpmLaws}.
Variable may_allocate : nat → Z → bool.
Variable files : string → option (list Z).

(** The engine executing a list of labels. *)
Inductive execs : list label → engine → engine → Prop :=
  | execs_nil e : execs [] e e
  | execs_cons x ls e e1 e2 :
      exec may_allocate files x e = Some (Ok e1) → execs ls e1 e2 → execs (x :: ls) e e2.

Lemma execs_app ls1 ls2 e e' : execs (ls1 ++ ls2) e e' → ∃ e1, execs ls1 e e1 ∧ execs ls2 e1 e'.
Proof.
  revert e. induction ls1 as [|x ls1 IH]; intros e Hrun; [by exists e; split; [constructor|]|].
  inversion Hrun as [|? ? ? e1 ? Hx Hrest]; subst. destruct (IH e1 Hrest) as (e2 & ? & ?). exists e2. split; [by econstructor|done].
Qed.

Definition is_rx (x : label) : bool := match x with LRx _ => true | _ => false end.
Definition is_co (i : nat) (x : label) : bool := match x with LCo k _ => bool_decide (k = i) | _ => false end.
Definition stops (x : label) : bool := match x with LSignal n => (n =? SIGRTMIN) || (n =? SIGINT) | _ => false end.
Definition count_of (f : label → bool) (ls : list label) : nat := length (filter (λ x, f x = true) ls).

(** All coprocessors are set up, and no stop was requested. *)
Definition running (e : engine) : Prop := Forall active (e_co e) ∧ kni_stop (sw (e_sw e)) = 0.

Abbreviation prog := (fastpath_program 5 5).

(** The steps that a call of the fast path can take: the burst, [PKT_BURST_SZ]
    packets, and the end of the loop. *)
Definition call_cost (a : rx_action) : nat :=
  match a with DoRxPort _ | DoDrain _ => Z.to_nat PKT_BURST_SZ + 2 | _ => 1 end.
Definition cost (todo : list rx_action) : nat := sum_list_with call_cost todo.

(** The steps of a round of the loop of the receive thread: the calls of the fast
    path, its end, the timer and the test; and those of a pass of a coprocessor. *)
Definition round_len : nat := cost prog + 3.
Definition pass_len : nat := Z.to_nat PKT_BURST_SZ + 3.

Definition sweep (ls : list label) : Prop :=
  (round_len <= count_of is_rx ls)%nat ∧ ∀ i, (i < 5)%nat → (pass_len <= count_of (is_co i) ls)%nat.

Lemma exec_running x e e' :
  running e → stops x = false → exec may_allocate files x e = Some (Ok e') → running e'.
Proof.
  intros [Hco Hst] Hns Hrun. destruct (exec_move _ _ _ _ _ Hrun) as
    [? _|? c c' s _ _ Hfp|? _|elapsed _|i name c c' f Hi _ _|i name Hi|i name r f Hi Hne _|i name Hi _|i name ph ph' s f Hi Hph Hstep|n];
    split; cbn; try done.
  - rewrite <-Hst. exact (fastpath_step_frame keeps_stop _ _ _ _ Hfp).
  - by destruct elapsed.
  - by apply (Forall_lookup_1 _ _ _ _ Hco) in Hi.
  - by apply Forall_insert.
  - by apply Forall_insert.
  - apply Forall_insert; [done|]. destruct ph as [| | |[|p l]|]; cbn [coprocessor_step fst snd] in Hstep; try done.
    + by apply bind_Ok in Hstep as ([? ?] & _ & [= <- _ _]).
    + by apply bind_Ok in Hstep as (? & _ & [= <- _ _]).
    + by apply bind_Ok in Hstep as (? & _ & [= <- _]).
  - rewrite <-Hst. exact (coprocessor_step_frame keeps_stop _ _ _ _ _ _ _ Hstep).
  - cbn in Hns. unfold signal_handler. by rewrite Hns.
Qed.

Context (table : gmap Z Z).
#[local] Instance policy : Policy := accept_all table.

(** ** The receive thread comes round *)

Definition burst_cost (b : burst) : nat :=
  match b with NoBurst => 0 | RxBurst _ pkts | DrainBurst _ pkts => S (length pkts) end.

(** The fast path makes a call, or goes on with the burst in hand. *)
Lemma fastpath_step_next c s c' s' :
  fastpath_ok c → wf_but None s → fastpath_done c = false → fastpath_step c s = Ok (c', s') →
  (∃ a b todo, c = (NoBurst, a :: todo) ∧ c' = (b, todo) ∧ (burst_cost b < call_cost a)%nat) ∨
  (∃ b b' todo, c = (b, todo) ∧ c' = (b', todo) ∧ (burst_cost b' < burst_cost b)%nat).
Proof.
  intros [_ Hall] Hs Hd. destruct c as [[|k [|p l]|k [|p l]] todo]; cbn [fastpath_step fst snd] in *.
  - destruct todo as [|a todo]; [done|]. apply Forall_cons in Hall as [Ha _]. intros ([b s1] & Hrun & [= <- <-])%bind_Ok. left.
    exists a, b, todo. split_and!; [done..|].
    destruct (rx_call_spec a s Ha Hs) as (b' & s2 & Hrun' & [Hlen _] & _). rewrite Hrun' in Hrun. injection Hrun as -> ->.
    unfold zlen in Hlen. destruct a as [i|i|i|i]; cbn [rx_call] in Hrun'; apply bind_Ok in Hrun' as (u & _ & Hu).
    + destruct u. injection Hu as <- <-. cbn [burst_cost call_cost burst_pkts] in *. lia.
    + injection Hu as <- <-. cbn. lia.
    + injection Hu as <- <-. cbn. lia.
    + destruct u. injection Hu as <- <-. cbn [burst_cost call_cost burst_pkts] in *. lia.
  - intros (s1 & _ & [= <- <-])%bind_Ok. right. eexists _, _, _. split_and!; [done..|cbn; lia].
  - intros (s1 & _ & [= <- <-])%bind_Ok. right. eexists _, _, _. split_and!; [done..|cbn; lia].
  - intros [= <- <-]. right. eexists _, _, _. split_and!; [done..|cbn; lia].
  - intros (s1 & _ & [= <- <-])%bind_Ok. right. eexists _, _, _. split_and!; [done..|cbn; lia].
Qed.

Global Instance rx_action_eq_dec : EqDecision rx_action.
Proof. solve_decision. Defined.

(** The steps before the first call [a] of a list, and until the thread makes
    this call. *)
Fixpoint before (a : rx_action) (todo : list rx_action) : nat :=
  match todo with [] => 0 | c :: todo => if decide (c = a) then 0 else call_cost c + before a todo end.

Definition until (a : rx_action) (pc : rx_pc) : nat :=
  match pc with
  | RxTest => 1 + before a prog
  | RxRun (b, todo) => burst_cost b + before a todo + (if decide (a ∈ todo) then 0 else 3 + before a prog)
  | RxTime => 2 + before a prog
  | RxDone => 0
  end.

Lemma before_le a todo : (before a todo <= cost todo)%nat.
Proof. induction todo as [|c todo IH]; cbn; [lia|]. unfold cost in *. cbn. destruct (decide (c = a)); lia. Qed.

Lemma before_app a past todo : a ∈ past → (before a (past ++ todo) = before a past)%nat.
Proof.
  induction past as [|c past IH]; [by intros ?%elem_of_nil|]. cbn. destruct (decide (c = a)) as [|Hne]; [done|].
  intros [->|Hin]%elem_of_cons; [done|]. by rewrite IH.
Qed.

Lemma before_snoc a past c : a ∈ past ++ [c] → (before a (past ++ [c]) <= cost past)%nat.
Proof.
  induction past as [|d past IH]; cbn; intros Hin.
  - apply list_elem_of_singleton in Hin as ->. by rewrite decide_True.
  - unfold cost in *. cbn. destruct (decide (d = a)) as [|Hne]; [lia|]. apply elem_of_cons in Hin as [->|Hin]; [done|].
    specialize (IH Hin). lia.
Qed.

(** The call whose burst is in hand precedes the calls to make. *)
Definition pc_ok (e : engine) : Prop :=
  ∀ b todo, e_rx e = RxRun (b, todo) →
  (b = NoBurst ∧ todo = prog) ∨ ∃ past c, past ++ c :: todo = prog ∧ (burst_cost b < call_cost c)%nat.

Lemma cost_app l1 l2 : cost (l1 ++ l2) = (cost l1 + cost l2)%nat.
Proof. apply sum_list_with_app. Qed.

Lemma until_bound a e : pc_ok e → a ∈ prog → (until a (e_rx e) < round_len)%nat.
Proof.
  intros Hpc Ha. unfold round_len. pose proof (before_le a prog) as Hb.
  destruct (e_rx e) as [|[b todo]| |] eqn:Hrx; cbn [until]; [lia| |lia|lia].
  destruct (Hpc b todo Hrx) as [[-> ->]|(past & c & Hp & Hc)]; [rewrite decide_True by done; cbn [burst_cost]; lia|].
  pose proof (before_le a todo) as Ht.
  assert (cost prog = cost past + call_cost c + cost todo)%nat as Hcost.
  { rewrite <-Hp, cost_app. unfold cost. cbn. lia. }
  case_decide as Hin; [lia|]. assert (a ∈ past ++ [c]) as Hac.
  { rewrite <-Hp in Ha. set_solver. }
  pose proof (before_snoc a past c Hac) as Hsn. rewrite <-(before_app a _ todo Hac), <-app_assoc in Hsn. cbn [app] in Hsn.
  rewrite Hp in Hsn. lia.
Qed.

Lemma exec_pc_ok x e e' :
  data_inv e → exec may_allocate files x e = Some (Ok e') → pc_ok e → pc_ok e'.
Proof.
  intros He Hrun Hpc. destruct (exec_move _ _ _ _ _ Hrun) as
    [? Hrx|? c c' s Hrx Hd Hfp|? _|elapsed _|i name c c' f Hi _ _|i name Hi|i name r f Hi Hne _|i name Hi _|i name ph ph' s f Hi Hph Hstep|n];
    intros b todo Hb; cbn in Hb; try done; try by apply Hpc.
  - destruct (negb _); [done|]. injection Hb as <- <-. by left.
  - injection Hb as ->. right.
    destruct (fastpath_step_next c (e_sw e) _ _ (inv_rx _ He _ Hrx) (inv_wf _ He) Hd Hfp)
      as [(a & b' & todo' & -> & [= <- <-] & Hc)|(b' & b'' & todo' & -> & [= <- <-] & Hc)].
    + destruct (Hpc _ _ Hrx) as [[_ Ht]|(past & c & Hp & _)]; [by exists [], a|].
      exists (past ++ [c]), a. by rewrite <-app_assoc.
    + destruct (Hpc _ _ Hrx) as [[-> _]|(past & c & Hp & Hlt)]; [cbn in Hc; lia|]. exists past, c. split; [done|lia].
Qed.

Lemma exec_all_data x e e' : data_inv e → exec may_allocate files x e = Some (Ok e') → data_inv e'.
Proof. intros He. apply exec_data; [done|]. intros _. apply all_sound. Qed.

Lemma reachable_pc_ok e0 e : data_inv e0 → rtc (step may_allocate files) e0 e → pc_ok e0 → pc_ok e.
Proof.
  intros He0. induction 1 as [|e0 e1 e2 [x Hx] _ IH]; [done|]. intros Hpc. apply IH; [|by eapply exec_pc_ok].
  by eapply exec_all_data.
Qed.

(** ** Progress *)

(** What is on its way to port [j], the packets just received first. *)
Definition stages_of (e : engine) (j : nat) : list (list mbuf) :=
  incoming (e_rx e) :: stages (e_sw e) j (drained (e_rx e) j) (judged (e_co e) j).
Definition weight (l : list (list mbuf)) : nat :=
  match l with new :: l => 8 * length new + weigh 1 l | [] => 0 end.
Definition backlog (e : engine) (j : nat) : nat := weight (stages_of e j).

(** The stages that a step finds empty or takes packets from: the port and the
    number of the stage. *)
Definition source (a : rx_action) : list (nat * nat) :=
  match a with
  | DoRxPort _ => []
  | DoFlushPort i => [(Z.to_nat i, 1%nat)]
  | DoFlushNfRx i => [(Z.to_nat i, 7%nat)]
  | DoDrain i => [(Z.to_nat i, 3%nat); (Z.to_nat i, 2%nat); (Z.to_nat i, 0%nat)]
  end.

Definition sources (x : label) (e : engine) : list (nat * nat) :=
  match x with
  | LRx _ => match e_rx e with RxRun (NoBurst, a :: _) => source a | _ => [] end
  | LCo i _ =>
      match e_co e !! i with
      | Some Polling => [(i, 6%nat); (i, 5%nat)] | Some (Busy []) => [(i, 4%nat)] | _ => []
      end
  | LSignal _ => []
  end.

(** Either nothing changes for port [j], and the stages in [src] are empty, or
    there is less to do for it. *)
Definition advances (src : nat → Prop) (e e' : engine) (j : nat) : Prop :=
  stages_of e' j = stages_of e j ∧ (∀ n, src n → stages_of e j !! n = Some []) ∨ (backlog e' j < backlog e j)%nat.

Lemma advances_same e e' j : stages_of e' j = stages_of e j → advances (λ m, (j, m) ∈ []) e e' j.
Proof. intros E. left. split; [done|]. by intros m ?%elem_of_nil. Qed.

(** Other ports. *)
Lemma advances_other (l : list (nat * nat)) e e' j :
  (∀ m, (j, m) ∉ l) → stages_of e' j = stages_of e j → advances (λ m, (j, m) ∈ l) e e' j.
Proof. intros Hno E. left. split; [done|]. by intros m ?%Hno. Qed.

(** A flush. *)
Lemma progress_advances i n e e' j :
  progress i n (e_sw e) (e_sw e') → incoming (e_rx e') = incoming (e_rx e) → drained (e_rx e') j = drained (e_rx e) j →
  judged (e_co e') j = judged (e_co e) j → advances (λ m, (j, m) ∈ [(i, S n)]) e e' j.
Proof.
  intros [Ho Hp] Hi Hd Hj. unfold advances, backlog, stages_of. rewrite Hi, Hd, Hj. destruct (decide (j = i)) as [->|Hne].
  - destruct (Hp (drained (e_rx e) i) (judged (e_co e) i)) as [[Hs Hn]|Hlt]; [left|right].
    + split; [by rewrite Hs|]. intros m [= ->]%list_elem_of_singleton. done.
    + unfold work in Hlt. cbn [weight]. lia.
  - left. rewrite Ho by done. split; [done|]. intros m [= -> _]%list_elem_of_singleton. done.
Qed.

Lemma rx_call_advances e a todo b s' j :
  valid_action a → wf_but None (e_sw e) → e_rx e = RxRun (NoBurst, a :: todo) → rx_call a (e_sw e) = Ok (b, s') →
  same_recvd (e_sw e) s' → advances (λ m, (j, m) ∈ source a) e (Engine s' (e_fw e) (RxRun (b, todo)) (e_co e)) j.
Proof.
  intros Ha Hs Hrx. destruct a as [k|k|k|k]; cbn [rx_call source] in *; intros (u & Hrun & Hu)%bind_Ok Hq.
  - destruct u as [l s1]. injection Hu as <- <-. destruct (rx_poll_quiet _ k l s1 Hs Ha Hrun Hq) as [-> Hst].
    apply advances_same. unfold stages_of. rewrite Hrx. cbn. by rewrite Hst.
  - injection Hu as <- <-. apply progress_advances; [by apply flush_port_progress|by rewrite Hrx..|done].
  - injection Hu as <- <-. apply progress_advances; [by apply flush_nf_rx_progress|by rewrite Hrx..|done].
  - destruct u as [l s1]. injection Hu as <- <-. destruct (drain_poll_work _ k l s1 Hs Ha Hrun) as [Ho Hw].
    unfold advances, backlog, stages_of. rewrite Hrx. cbn [e_sw e_rx e_co incoming drained]. case_decide as Hj; [subst j|].
    + destruct (Hw (judged (e_co e) (Z.to_nat k))) as [(-> & Hst & Hn)|Hlt]; [left|right; exact Hlt]. rewrite Hst. split; [done|].
      intros m Hm. assert (m = 3 ∨ m = 2 ∨ m = 0)%nat as [-> |[-> | ->]] by set_solver; done.
    + left. rewrite Ho by done. split; [done|]. intros m Hm. set_solver.
Qed.

Lemma fastpath_step_advances e c c' s' j :
  data_inv e → e_rx e = RxRun c → fastpath_done c = false → fastpath_step c (e_sw e) = Ok (c', s') →
  same_recvd (e_sw e) s' →
  advances (λ m, (j, m) ∈ sources (LRx false) e) e (Engine s' (e_fw e) (RxRun c') (e_co e)) j.
Proof.
  intros He Hrx Hd. pose proof (inv_wf _ He) as Hs. destruct (inv_rx _ He _ Hrx) as [Hb Hall].
  cbn [sources]. rewrite Hrx. destruct c as [[|k [|p l]|k [|p l]] todo]; cbn [fastpath_step fst snd] in *.
  - destruct todo as [|a todo]; [done|]. apply Forall_cons in Hall as [Ha _].
    intros ([b s1] & Hrun & [= <- <-])%bind_Ok Hq. by eapply rx_call_advances.
  - intros (s1 & Hrun & [= <- <-])%bind_Ok _. apply advances_same. unfold stages_of. rewrite Hrx. cbn.
    by rewrite (handle_request_stages _ _ _ Hrun).
  - destruct Hb as (_ & Hk & [Hp _]%Forall_cons). intros (s1 & Hrun & [= <- <-])%bind_Ok _. right.
    pose proof (rx_packet_work _ k p s1 Hs Hk Hp Hrun j [] (judged (e_co e) j)) as Hw.
    unfold backlog, stages_of, work in *. rewrite Hrx. cbn [e_sw e_rx e_co incoming drained weight length]. lia.
  - intros [= <- <-] _. apply advances_same. unfold stages_of. rewrite Hrx. cbn. by case_decide.
  - destruct Hb as (_ & Hk & [Hp _]%Forall_cons). intros (s1 & Hrun & [= <- <-])%bind_Ok _.
    destruct (enqueue_port_work _ k p s1 Hs Hk Hp Hrun) as [Ho Hw].
    unfold advances, backlog, stages_of. rewrite Hrx. cbn [e_sw e_rx e_co incoming drained]. case_decide as Hj; [subst j|].
    + right. exact (Hw l (judged (e_co e) (Z.to_nat k))).
    + left. rewrite Ho by done. split; [done|]. by intros m ?%elem_of_nil.
Qed.

(** Another port than that of the coprocessor. *)
Lemma other_advances e i ph s' f' j (l : list (nat * nat)) :
  e_co e !! i = Some ph → j ≠ i → only i (e_sw e) s' → (∀ q, q ∈ l → q.1 = i) →
  ∀ ph', advances (λ m, (j, m) ∈ l) e (Engine s' f' (e_rx e) (<[i := ph']> (e_co e))) j.
Proof.
  intros Hi Hj Ho Hl ph'. apply advances_other; [intros m Hm; by specialize (Hl _ Hm)|].
  unfold stages_of. cbn [e_sw e_rx e_co]. rewrite judged_insert, decide_False, Ho by (done || by eapply lookup_lt_Some). done.
Qed.

Lemma coprocessor_step_advances e i name ph ph' s' f' j :
  data_inv e → e_co e !! i = Some ph → pass_done ph = false →
  coprocessor_step (Z.of_nat i) ph (e_sw e, e_fw e) = Ok (ph', (s', f')) →
  advances (λ m, (j, m) ∈ sources (LCo i name) e) e (Engine s' f' (e_rx e) (<[i := ph']> (e_co e))) j.
Proof.
  intros He Hi Hph. pose proof (inv_wf _ He) as Hs. pose proof (inv_co_lt e i ph He Hi) as Hlt.
  assert (0 <= Z.of_nat i < 5) as Hz by lia. pose proof (inv_busy _ He i ph Hi) as [_ Hbusy].
  assert (∀ ph', judged (<[i := ph']> (e_co e)) i = co_pkts ph') as Hins.
  { intros ph0. rewrite judged_insert, decide_True by (done || by eapply lookup_lt_Some). done. }
  assert (judged (e_co e) i = co_pkts ph) as Hjd by (unfold judged; by rewrite Hi).
  cbn [sources]. rewrite Hi. destruct ph as [| | |[|p l]|]; cbn [coprocessor_step fst snd co_pkts] in *; try done.
  - intros ([l s1] & Hrun & [= <- <- <-])%bind_Ok. destruct (coprocessor_poll_work _ _ _ _ Hs Hz Hrun) as [Ho Hw].
    rewrite Nat2Z.id in Ho, Hw. destruct (decide (j = i)) as [->|Hj]; [|eapply other_advances; [done..|set_solver]].
    unfold advances, backlog, stages_of. cbn [e_sw e_rx e_co]. rewrite Hins, Hjd. cbn [co_pkts].
    destruct (Hw (drained (e_rx e) i)) as [(-> & Hst & Hn)|Hless]; [left|right; unfold work in Hless; cbn [weight]; lia].
    rewrite Hst. split; [done|]. intros m Hm. assert (m = 6 ∨ m = 5)%nat as [-> | ->] by set_solver; [done|].
    unfold stages. cbn. destruct (get_nf_spec None (e_sw e) (Z.of_nat i) Hs Hz) as (c & _ & Hc & _).
    rewrite Nat2Z.id in Hc. by rewrite Hc.
  - intros (s1 & Hrun & [= <- <- <-])%bind_Ok. apply (progress_advances i 3); [|done..|cbn [e_co]].
    + rewrite <-(Nat2Z.id i) at 1. by apply flush_nf_tx_progress.
    + rewrite judged_insert by (by eapply lookup_lt_Some). by case_decide; [subst j; rewrite Hjd|].
  - intros ([s1 f1] & Hrun & [= <- <- <-])%bind_Ok. apply Forall_cons in Hbusy as [Hp _].
    destruct (coprocessor_packet_work (nf_spec := firewall_spec (e_fw e) (all_sound table (e_fw e)))
      (Z.of_nat i) p (e_sw e) (e_fw e) s1 f1) as [Ho Hw]; [done..|by rewrite Nat2Z.id|done|]. rewrite Nat2Z.id in Ho, Hw.
    destruct (decide (j = i)) as [->|Hj]; [|by eapply other_advances; [done..|intros q ?%elem_of_nil]]. right.
    specialize (Hw (drained (e_rx e) i) l). unfold backlog, stages_of, work in *. cbn [e_sw e_rx e_co weight]. rewrite Hins, Hjd.
    cbn [co_pkts]. lia.
Qed.

Lemma exec_advances x e e' j :
  data_inv e → running e → exec may_allocate files x e = Some (Ok e') → same_recvd (e_sw e) (e_sw e') →
  advances (λ m, (j, m) ∈ sources x e) e e' j.
Proof.
  intros He [Hco Hst] Hrun. destruct (exec_move _ _ _ _ _ Hrun) as
    [? Hrx|? c c' s Hrx Hd Hfp|? Hrx|elapsed Hrx|i name c c' f Hi _ _|i name Hi|i name r f Hi Hne _|i name Hi _|i name ph ph' s f Hi Hph Hstep|n];
    intros Hq.
  - cbn [sources]. rewrite Hrx. apply advances_same. unfold stages_of. rewrite Hrx. cbn. by destruct (negb _).
  - by apply (fastpath_step_advances e c).
  - cbn [sources]. rewrite Hrx. apply advances_same. unfold stages_of. by rewrite Hrx.
  - cbn [sources]. rewrite Hrx. apply advances_same. unfold stages_of. rewrite Hrx. by destruct elapsed.
  - by apply (Forall_lookup_1 _ _ _ _ Hco) in Hi.
  - by apply (Forall_lookup_1 _ _ _ _ Hco) in Hi.
  - done.
  - cbn [sources]. rewrite Hi. apply advances_same. unfold stages_of. cbn [e_sw e_rx e_co].
    rewrite judged_insert by (by eapply lookup_lt_Some). case_decide as Hj; [subst j|done]. unfold judged. by rewrite Hi.
  - by apply (coprocessor_step_advances e i name ph).
  - apply advances_same. unfold stages_of. unfold signal_handler. by destruct (_ || _).
Qed.

(** ** Sweeps *)

(** A step of the run takes packets from the stage [q]. *)
Fixpoint acted (q : nat * nat) (ls : list label) (e : engine) : Prop :=
  match ls with
  | [] => False
  | x :: ls => q ∈ sources x e ∨ ∃ e1, exec may_allocate files x e = Some (Ok e1) ∧ acted q ls e1
  end.

(** What holds along a run. *)
Definition going (e : engine) : Prop := data_inv e ∧ running e.
Definition calm (ls : list label) : Prop := Forall (λ x, stops x = false) ls.

Lemma exec_going x e e' :
  going e → stops x = false →
  exec may_allocate files x e = Some (Ok e') → going e'.
Proof. intros [He Hr] Hx Hrun. split; [by eapply exec_all_data|by eapply exec_running]. Qed.

Lemma execs_going ls e e' :
  going e → calm ls → execs ls e e' → going e'.
Proof.
  intros He Hc Hrun. induction Hrun as [|x ls e e1 e2 Hx _ IH]; [done|].
  apply Forall_cons in Hc as [Hc Hcs]. apply IH; [|done]. by eapply exec_going.
Qed.

Lemma execs_pc_ok ls e e' :
  going e → calm ls → execs ls e e' → pc_ok e → pc_ok e'.
Proof.
  intros He Hc Hrun. induction Hrun as [|x ls e e1 e2 Hx _ IH]; [done|]. apply Forall_cons in Hc as [Hc Hcs].
  intros Hpc. apply IH; [by eapply exec_going|done|]. eapply exec_pc_ok; [apply He|done|done].
Qed.

(** What was received is never taken back. *)
Definition recvd_grows (e e' : engine) : Prop := ∀ j, recvd_of (e_sw e) j `prefix_of` recvd_of (e_sw e') j.

Lemma fastpath_step_grows e c c' s' j :
  data_inv e → e_rx e = RxRun c → fastpath_step c (e_sw e) = Ok (c', s') →
  recvd_of (e_sw e) j `prefix_of` recvd_of s' j.
Proof.
  intros He Hrx Hrun. pose proof (inv_wf _ He) as Hs. destruct (inv_rx _ He _ Hrx) as [Hb Hall].
  assert (same_recvd (e_sw e) s' → recvd_of (e_sw e) j `prefix_of` recvd_of s' j) as Hsame by (by intros ->).
  destruct c as [[|k [|p l]|k [|p l]] todo]; cbn [fastpath_step fst snd] in *.
  - destruct todo as [|a todo]; [by injection Hrun as _ <-|]. apply Forall_cons in Hall as [Ha _].
    apply bind_Ok in Hrun as ([b s1] & Hrun & [= _ <-]).
    destruct a as [k|k|k|k]; cbn [rx_call valid_action] in *; apply bind_Ok in Hrun as (u & Hrun & Hu).
    + destruct u as [l s2]. injection Hu as _ <-. destruct (rx_poll_order k _ _ _ Hs Ha Hrun) as [_ ->]. by apply prefix_app_r.
    + injection Hu as _ <-. by apply Hsame, (flush_port_thins None _ k).
    + injection Hu as _ <-. by apply Hsame, (flush_nf_rx_thins None _ k).
    + destruct u as [l s2]. injection Hu as _ <-. by apply Hsame, (drain_poll_order k _ l).
  - destruct Hb as (_ & Hk & _). apply bind_Ok in Hrun as (s1 & Hrun & [= _ <-]). by apply Hsame, (handle_request_order k).
  - destruct Hb as (_ & Hk & [Hp _]%Forall_cons). apply bind_Ok in Hrun as (s1 & Hrun & [= _ <-]).
    by apply Hsame, (rx_packet_order k p).
  - by injection Hrun as _ <-.
  - destruct Hb as (_ & Hk & [Hp _]%Forall_cons). apply bind_Ok in Hrun as (s1 & Hrun & [= _ <-]).
    by apply Hsame, (enqueue_port_order _ k p).
Qed.

Lemma coprocessor_step_recvd e i ph ph' s' f' :
  data_inv e → e_co e !! i = Some ph → pass_done ph = false →
  coprocessor_step (Z.of_nat i) ph (e_sw e, e_fw e) = Ok (ph', (s', f')) → same_recvd (e_sw e) s'.
Proof.
  intros He Hi Hph. pose proof (inv_wf _ He) as Hs. pose proof (inv_co_lt e i ph He Hi) as Hlt.
  assert (0 <= Z.of_nat i < 5) as Hz by lia. pose proof (inv_busy _ He i ph Hi) as [_ Hbusy].
  destruct ph as [| | |[|p l]|]; cbn [coprocessor_step fst snd co_pkts] in *; try done.
  - intros ([l s1] & Hrun & [= _ <- _])%bind_Ok. by apply (coprocessor_poll_order _ _ _ _ Hs Hz Hrun).
  - intros (s1 & Hrun & [= _ <- _])%bind_Ok. by apply (flush_nf_tx_thins None _ _ _ Hs Hz Hrun).
  - intros ([s1 f1] & Hrun & [= _ <- _])%bind_Ok. apply Forall_cons in Hbusy as [Hp _].
    apply (coprocessor_packet_order (nf_spec := firewall_spec (e_fw e) (all_sound table (e_fw e)))
      (Z.of_nat i) p (e_sw e) (e_fw e) s1 f1); [done..|by rewrite Nat2Z.id|done].
Qed.

Lemma exec_grows x e e' :
  going e → exec may_allocate files x e = Some (Ok e') → recvd_grows e e'.
Proof.
  intros [He _] Hrun j. destruct (exec_move _ _ _ _ _ Hrun) as
    [? Hrx|? c c' s Hrx Hd Hfp|? Hrx|elapsed Hrx|i name c c' f Hi _ _|i name Hi|i name r f Hi Hne _|i name Hi _|i name ph ph' s f Hi Hph Hstep|n];
    cbn; try done.
  - by eapply fastpath_step_grows.
  - by destruct elapsed.
  - by rewrite (coprocessor_step_recvd e i ph ph' s f).
  - unfold signal_handler. by destruct (_ || _).
Qed.

Lemma execs_grows ls e e' :
  going e → calm ls → execs ls e e' → recvd_grows e e'.
Proof.
  intros He Hc Hrun. induction Hrun as [|x ls e e1 e2 Hx _ IH]; [by intros j|].
  apply Forall_cons in Hc as [Hc Hcs]. intros j. etrans; [by eapply exec_grows|]. apply IH; [by eapply exec_going|done].
Qed.

Lemma quiet_split e e1 e2 :
  recvd_grows e e1 → recvd_grows e1 e2 → same_recvd (e_sw e) (e_sw e2) →
  same_recvd (e_sw e) (e_sw e1) ∧ same_recvd (e_sw e1) (e_sw e2).
Proof.
  intros Hg1 Hg2 Hq. assert (∀ j, recvd_of (e_sw e1) j = recvd_of (e_sw e) j) as Hq1.
  { intros j. destruct (Hg1 j) as [l1 E1], (Hg2 j) as [l2 E2]. specialize (Hq j).
    rewrite E2, E1, <-app_assoc in Hq. apply (f_equal length) in Hq. rewrite !length_app in Hq.
    rewrite E1. destruct l1; [by rewrite app_nil_r|cbn in Hq; lia]. }
  split; [done|]. intros j. by rewrite Hq1, Hq.
Qed.

Lemma execs_advances ls e e' j :
  going e → calm ls → execs ls e e' → same_recvd (e_sw e) (e_sw e') →
  advances (λ n, acted (j, n) ls e) e e' j.
Proof.
  intros He Hc Hrun Hq. induction Hrun as [e|x ls e e1 e2 Hx Hrun IH]; [by left|].
  apply Forall_cons in Hc as [Hc Hcs]. pose proof (exec_going x e e1 He Hc Hx) as He1.
  destruct (quiet_split e e1 e2) as [Hq1 Hq2]; [by eapply exec_grows|by eapply execs_grows|done|].
  destruct (exec_advances x e e1 j) as [[E1 Ha1]|Hlt1]; [apply He|apply He|done|done|..];
    destruct (IH He1 Hcs Hq2) as [[E2 Ha2]|Hlt2].
  - left. split; [congruence|]. intros n [Hn|(e1' & Hx' & Hn)]; [by apply Ha1|].
    assert (e1' = e1) as -> by congruence. rewrite <-E1. by apply Ha2.
  - right. unfold backlog, work in *. by rewrite E1 in Hlt2.
  - right. unfold backlog, work in *. by rewrite E2.
  - right. lia.
Qed.

(** ** In a sweep, every stage is looked at *)

(** A thread that comes closer to a step with every step it takes. *)
Lemma acted_of (mine : label → bool) (dist : engine → nat) q ls e e' :
  going e → calm ls → execs ls e e' →
  (∀ x e e1, going e → exec may_allocate files x e = Some (Ok e1) → mine x = true → q ∈ sources x e ∨ (dist e1 < dist e)%nat) →
  (∀ x e e1, exec may_allocate files x e = Some (Ok e1) → mine x = false → dist e1 = dist e) →
  (dist e < count_of mine ls)%nat → acted q ls e.
Proof.
  intros He Hc Hrun Hmine Hother. unfold count_of.
  induction Hrun as [e|x ls e e1 e2 Hx Hrun IH]; intros Hlen; [cbn in Hlen; lia|].
  apply Forall_cons in Hc as [Hc Hcs]. pose proof (exec_going x e e1 He Hc Hx) as He1.
  rewrite filter_cons in Hlen. cbn [acted]. destruct (mine x) eqn:Hm.
  - rewrite decide_True in Hlen by done. cbn in Hlen. destruct (Hmine x e e1 He Hx Hm) as [Hq|Hlt]; [by left|right].
    exists e1. split; [done|]. apply (IH He1 Hcs). lia.
  - rewrite decide_False in Hlen by done. right. exists e1. split; [done|]. apply (IH He1 Hcs). by rewrite (Hother x e e1).
Qed.

Lemma exec_other_pc x e e' : exec may_allocate files x e = Some (Ok e') → is_rx x = false → e_rx e' = e_rx e.
Proof. intros Hrun. by destruct (exec_move _ _ _ _ _ Hrun). Qed.

Lemma exec_other_co i x e e' :
  exec may_allocate files x e = Some (Ok e') → is_co i x = false → e_co e' !! i = e_co e !! i.
Proof.
  intros Hrun. destruct (exec_move _ _ _ _ _ Hrun) as
    [? _|? c c' s _ _ _|? _|elapsed _|k name c c' f _ _ _|k name _|k name r f _ _ _|k name _ _|k name ph ph' s f _ _ _|n];
    cbn [is_co e_co]; intros Hk; try done; apply bool_decide_eq_false in Hk; by rewrite list_lookup_insert_ne.
Qed.

(** The receive thread comes closer to its next call [a]. *)
Lemma rx_closer a q x e e1 :
  going e → a ∈ prog → q ∈ source a → exec may_allocate files x e = Some (Ok e1) → is_rx x = true →
  q ∈ sources x e ∨ (until a (e_rx e1) < until a (e_rx e))%nat.
Proof.
  intros [He [Hco Hst]] Ha Hq Hrun. destruct (exec_move _ _ _ _ _ Hrun) as
    [? Hrx|? c c' s Hrx Hd Hfp|? Hrx|elapsed Hrx| | | | | |]; try done; intros _.
  - right. rewrite Hrx, Hst. cbn [e_rx until burst_cost negb Z.eqb]. rewrite decide_True by done. lia.
  - destruct (fastpath_step_next c (e_sw e) _ _ (inv_rx _ He _ Hrx) (inv_wf _ He) Hd Hfp)
      as [(b & b' & todo & -> & -> & Hc)|(b & b' & todo & -> & -> & Hc)].
    + destruct (decide (b = a)) as [->|Hne]; [left; cbn [sources]; by rewrite Hrx|right].
      rewrite Hrx. cbn [e_rx until burst_cost before]. destruct (decide (b = a)); [done|].
      destruct (decide (a ∈ todo)), (decide (a ∈ b :: todo)); try lia; exfalso; set_solver.
    + right. rewrite Hrx. cbn [e_rx until]. lia.
  - right. rewrite Hrx. cbn [e_rx until burst_cost before]. rewrite decide_False by apply not_elem_of_nil. lia.
  - right. rewrite Hrx. cbn [e_rx until]. lia.
Qed.

(** A coprocessor comes closer to its next poll and to its next flush. *)
Definition to_poll (ph : option phase) : nat :=
  match ph with Some Polling => 0 | Some Running => 1 | Some (Busy pkts) => length pkts + 2 | _ => 0 end.
Definition to_flush (ph : option phase) : nat :=
  match ph with
  | Some (Busy pkts) => length pkts
  | Some Polling => Z.to_nat PKT_BURST_SZ + 1 | Some Running => Z.to_nat PKT_BURST_SZ + 2 | _ => 0
  end.

Lemma co_closer i x e e1 :
  going e → exec may_allocate files x e = Some (Ok e1) → is_co i x = true →
  ((i, 6%nat) ∈ sources x e ∧ (i, 5%nat) ∈ sources x e ∨ (to_poll (e_co e1 !! i) < to_poll (e_co e !! i))%nat) ∧
  ((i, 4%nat) ∈ sources x e ∨ (to_flush (e_co e1 !! i) < to_flush (e_co e !! i))%nat).
Proof.
  intros [He [Hco Hst]] Hrun. destruct (exec_move _ _ _ _ _ Hrun) as
    [| | | |k name c c' f Hi _ _|k name Hi|k name r f Hi Hne _|k name Hi _|k name ph ph' s f Hi Hph Hstep|]; try done;
    cbn [is_co]; intros ->%bool_decide_eq_true.
  - by apply (Forall_lookup_1 _ _ _ _ Hco) in Hi.
  - by apply (Forall_lookup_1 _ _ _ _ Hco) in Hi.
  - cbn [e_co sources]. rewrite Hi, list_lookup_insert_eq by (by eapply lookup_lt_Some). cbn [to_poll to_flush]. lia.
  - pose proof (inv_wf _ He) as Hs. pose proof (inv_co_lt e i ph He Hi) as Hlt.
    cbn [e_co sources]. rewrite Hi, list_lookup_insert_eq by (by eapply lookup_lt_Some).
    destruct ph as [| | |[|p l]|]; cbn [coprocessor_step fst snd] in Hstep; try done.
    + apply bind_Ok in Hstep as ([l s1] & Hp & [= <- _ _]). split; [left; set_solver|right].
      destruct (coprocessor_poll_spec (Z.of_nat i) (e_sw e) Hs ltac:(lia)) as (c & r & l' & r' & _ & _ & _ & _ & Hlen & _ & Hp' & _).
      rewrite Hp' in Hp. injection Hp as -> _. unfold zlen in Hlen. cbn [to_flush]. lia.
    + apply bind_Ok in Hstep as (s1 & _ & [= <- _ _]). split; [right; cbn; lia|left; set_solver].
    + apply bind_Ok in Hstep as (s1 & _ & [= <- _]). split; right; cbn; lia.
Qed.

Lemma sweep_acted ls e e' j n :
  going e → pc_ok e → calm ls → sweep ls → execs ls e e' →
  (j < 5)%nat → (n < 8)%nat → acted (j, n) ls e.
Proof.
  intros He Hpc Hc [Hlen Hcos] Hrun Hj Hn.
  assert (∀ a, a ∈ prog → (j, n) ∈ source a → acted (j, n) ls e) as Hrx.
  { intros a Ha Hs. apply (acted_of is_rx (λ e, until a (e_rx e)) _ ls e e'); [done..| | |].
    - intros x e0 e1 He0 Hx Hm. by apply rx_closer.
    - intros x e0 e1 Hx Hm. by rewrite (exec_other_pc x e0 e1).
    - pose proof (until_bound a e Hpc Ha). lia. }
  pose proof (Hcos j Hj) as Hco. destruct He as [Hinv [Hact Hst]].
  assert ((to_poll (e_co e !! j) < pass_len)%nat ∧ (to_flush (e_co e !! j) < pass_len)%nat) as [Hp Hf].
  { unfold pass_len. destruct (e_co e !! j) as [ph|] eqn:Hph; [|cbn; lia].
    destruct (inv_busy _ Hinv j ph Hph) as [Hl _]. unfold zlen in Hl. destruct ph; cbn [to_poll to_flush co_pkts] in *; lia. }
  assert (n = 6 ∨ n = 5 → acted (j, n) ls e)%nat as Hpoll.
  { intros Hn'. apply (acted_of (is_co j) (λ e, to_poll (e_co e !! j)) _ ls e e'); [done..| | |lia].
    - intros x e0 e1 He0 Hx Hm. destruct (co_closer j x e0 e1 He0 Hx Hm) as [[[? ?]|?] _]; [left|by right]. by destruct Hn' as [-> | ->].
    - intros x e0 e1 Hx Hm. by rewrite (exec_other_co j x e0 e1). }
  assert (Z.of_nat j ∈ seqZ 0 5) as Hseq by (apply elem_of_seqZ; lia).
  assert (∀ mk : Z → rx_action, mk (Z.of_nat j) ∈ mk <$> seqZ 0 5) as Hmk by (intros mk; by apply list_elem_of_fmap_2).
  assert (n ∈ [0; 2; 3]%nat ∨ n = 1 ∨ n = 7 ∨ (n = 6 ∨ n = 5) ∨ n = 4)%nat as [Hd|[-> |[-> |[Hco'| ->]]]].
  { rewrite !elem_of_cons, elem_of_nil. lia. }
  - apply (Hrx (DoDrain (Z.of_nat j))); [|cbn; rewrite Nat2Z.id; set_solver].
    unfold fastpath_program. rewrite !elem_of_app. auto.
  - apply (Hrx (DoFlushPort (Z.of_nat j))); [|cbn; rewrite Nat2Z.id; left].
    unfold fastpath_program, flush_program. rewrite !elem_of_app. auto.
  - apply (Hrx (DoFlushNfRx (Z.of_nat j))); [|cbn; rewrite Nat2Z.id; left].
    unfold fastpath_program, flush_program. rewrite !elem_of_app. auto 6.
  - by apply Hpoll.
  - apply (acted_of (is_co j) (λ e, to_flush (e_co e !! j)) _ ls e e'); [done..| | |lia].
    + intros x e0 e1 He0 Hx Hm. by destruct (co_closer j x e0 e1 He0 Hx Hm) as [_ ?].
    + intros x e0 e1 Hx Hm. by rewrite (exec_other_co j x e0 e1).
Qed.

(** A sweep does some of the work for a port, or there is none left. *)
Lemma sweep_advances ls e e' j :
  going e → pc_ok e → calm ls → sweep ls → execs ls e e' →
  same_recvd (e_sw e) (e_sw e') → (j < 5)%nat → (backlog e' j < backlog e j ∨ backlog e' j = 0)%nat.
Proof.
  intros He Hpc Hc Hsw Hrun Hq Hj.
  destruct (execs_advances ls e e' j) as [[E Ha]|Hlt]; [done..| |by left]. right.
  assert (∀ n, (n < 8)%nat → stages_of e j !! n = Some []) as Hempty.
  { intros n Hn. by apply Ha, (sweep_acted ls e e'). }
  unfold backlog. rewrite E. assert (length (stages_of e j) <= 8)%nat as Hlen.
  { unfold stages_of, stages. destruct (nf (sw (e_sw e)) !! j); cbn; lia. }
  pose proof (Hempty 7%nat ltac:(lia)) as Hlast. apply lookup_lt_Some in Hlast.
  assert (stages_of e j = replicate 8 []) as ->; [|done].
  apply list_eq. intros n. destruct (decide (n < 8)%nat) as [Hn|Hn]; [by rewrite Hempty, lookup_replicate_2|].
  rewrite !lookup_ge_None_2; [done|rewrite length_replicate; lia|lia].
Qed.

Lemma sweeps_drain segs e e' j :
  going e → pc_ok e → calm (concat segs) → Forall sweep segs →
  execs (concat segs) e e' → same_recvd (e_sw e) (e_sw e') → (j < 5)%nat → (backlog e j <= length segs)%nat →
  backlog e' j = 0%nat.
Proof.
  revert e. induction segs as [|ls segs IH]; intros e He Hpc Hc Hsw Hrun Hq Hj Hb.
  { inversion Hrun. subst. cbn [length] in Hb. lia. }
  cbn [concat length] in Hc, Hrun, Hb. apply Forall_app in Hc as [Hc Hcs]. apply Forall_cons in Hsw as [Hsw Hsws].
  apply execs_app in Hrun as (e1 & Hrun1 & Hrun2). pose proof (execs_going ls e e1 He Hc Hrun1) as He1.
  destruct (quiet_split e e1 e') as [Hq1 Hq2]; [by apply (execs_grows ls)|by apply (execs_grows (concat segs))|done|].
  apply (IH e1); try done; [by apply (execs_pc_ok ls e)|].
  destruct (sweep_advances ls e e1 j) as [|]; [done..|lia|lia].
Qed.

(** No work left: nothing is held or in hand. *)
Lemma drained_held e x :
  data_inv e → (∀ j, (j < 5)%nat → backlog e j = 0%nat) → held x (e_sw e) = 0 ∧ in_hand x e = 0.
Proof.
  intros He Hb. pose proof (inv_wf _ He) as Hw.
  assert (∀ j, (j < 5)%nat → incoming (e_rx e) = [] ∧ staged_of (e_sw e) j = [] ∧ drained (e_rx e) j = [] ∧
    judged (e_co e) j = [] ∧ ∀ c, nf (sw (e_sw e)) !! j = Some c → mgr_held x c = 0) as Hz.
  { intros j Hj. specialize (Hb j Hj). unfold backlog, stages_of, weight in Hb.
    change (weigh 1 (stages ?s ?j ?h1 ?h2)) with (work s j h1 h2) in Hb. rewrite work_cons in Hb.
    destruct (nf (sw (e_sw e)) !! j) as [c|] eqn:Hc.
    2:{ apply lookup_ge_None in Hc. rewrite (wf_nf_len _ _ Hw) in Hc. lia. }
    cbn in Hb. split_and!; [apply length_zero; lia..|]. intros c' [= <-]. unfold mgr_held, q_held.
    assert (contents (nf_rx c) = [] ∧ contents (nf_tx c) = [] ∧ q_items (rx_q c) = [] ∧ q_items (tx_q c) = []) as (-> & -> & Hr & Ht)
      by (split_and!; apply length_zero; lia).
    unfold q_items in Hr, Ht. rewrite occ_nil. destruct (rx_q c), (tx_q c); rewrite ?Hr, ?Ht, ?occ_nil; done. }
  split.
  - unfold held. rewrite !zsum_zero; [done|..].
    + intros j c Hc. apply (Hz j); [|done]. apply lookup_lt_Some in Hc. by rewrite (wf_nf_len _ _ Hw) in Hc.
    + intros j b Hbuf. pose proof (lookup_lt_Some _ _ _ Hbuf) as Hj. rewrite (wf_tx_len _ _ Hw) in Hj.
      destruct (Hz j Hj) as (_ & Hs & _). unfold staged_of in Hs. rewrite Hbuf in Hs. unfold tx_held. by rewrite Hs.
  - unfold in_hand. rewrite zsum_zero.
    + destruct (e_rx e) as [|[[|k l|k l] todo]| |] eqn:Hrx; cbn [rx_pkts fst burst_pkts]; [by rewrite ?occ_nil..| | |by rewrite ?occ_nil|by rewrite ?occ_nil].
      * destruct (Hz 0%nat ltac:(lia)) as (Hi & _). cbn in Hi. by rewrite Hi.
      * destruct (inv_rx _ He _ Hrx) as [(_ & Hk & _) _]. destruct (Hz (Z.to_nat k) ltac:(lia)) as (_ & _ & Hd & _).
        cbn in Hd. rewrite decide_True in Hd by done. by rewrite Hd.
    + intros j ph Hj. destruct (Hz j (inv_co_lt e j ph He Hj)) as (_ & _ & _ & Hjd & _). unfold judged in Hjd.
      rewrite Hj in Hjd. by rewrite Hjd.
Qed.
End drain.
