(* ===== verification/EngineRace.v ===== *)
(** * Set-ups that overlap

    Nothing in the engine makes the coprocessors set up in turn.  When one of them
    replaces the shared array of rules while another one is about to use it, the
    latter reads slots that were never written; when one of them replaces the
    shared table while another one judges packets, the rules are out of force
    until the new table is filled: a lookup in it finds nothing, and the packet is
    judged by what the lookup leaves in the variable [rule]. *)
From S2P Require Import Prelude Dpdk Stdio Config CJsonData CJsonText CJsonTextSafe CJsonParse CJsonQuery.
From S2P Require Import Switch SwitchInv SwitchSpec FastPath Firewall FirewallSpec Coprocessor SetupSteps.
From S2P Require Import Interface Engine EngineSteps EngineSpec EngineSafety EngineDrain.

Section race.
Context `{ByteOrder, RteRing, RteKni, RteLpm}.
Variable may_allocate : nat → Z → bool.
Variable files : string → option (list Z).

(** ** Runs of one thread that sets up *)

(** The engine with thread [i] at [c] and the firewall [f]. *)
Definition put_setup (i : nat) (c : setup_pc) (f : firewall) (e : engine) : engine :=
  Engine (e_sw e) f (e_rx e) (<[i := Setup c]> (e_co e)).

Lemma put_setup_same e i c : e_co e !! i = Some (Setup c) → put_setup i c (e_fw e) e = e.
Proof. intros Hi. unfold put_setup. rewrite list_insert_id by done. by destruct e. Qed.

Lemma put_setup_fw e i c f : e_co e !! i = Some (Setup c) → e_fw e = f → put_setup i c f e = e.
Proof. intros Hi <-. by apply put_setup_same. Qed.

Lemma exec_put name i c f e :
  (i < length (e_co e))%nat → setup_done c = false →
  exec may_allocate files (LCo i name) (put_setup i c f e) =
    Some ('(c', f') ← setup_step may_allocate files name c f; Ok (put_setup i c' f' e)).
Proof.
  intros Hi Hc. cbn [exec]. rewrite (co_step_setup _ _ i name _ c); [|by apply list_lookup_insert_eq|done].
  unfold put_setup. cbn [e_sw e_fw e_rx e_co]. f_equal. destruct (setup_step _ _ _ _ _) as [[c' f']| |]; cbn; [|done..].
  by rewrite list_insert_insert_eq.
Qed.

(** The steps of a set-up that return. *)
Definition setup_moves (name : string) : relation (setup_pc * firewall) := λ x y,
  setup_done x.1 = false ∧ setup_step may_allocate files name x.1 x.2 = Ok y.

Lemma setup_execs name i c f c' f' e :
  (i < length (e_co e))%nat → rtc (setup_moves name) (c, f) (c', f') →
  ∃ ls, Forall (λ l, l = LCo i name) ls ∧ execs may_allocate files ls (put_setup i c f e) (put_setup i c' f' e).
Proof.
  intros Hi Hrun. remember (c, f) as x eqn:Hx. remember (c', f') as y eqn:Hy. revert c f Hx.
  induction Hrun as [x|x [c1 f1] y [Hd Hs] _ IH]; intros c f ->.
  - injection Hy as -> ->. exists []. split; [done|constructor].
  - destruct (IH Hy c1 f1 eq_refl) as (ls & Hall & Hls). exists (LCo i name :: ls). split; [by constructor|].
    econstructor; [|exact Hls]. cbn in Hd, Hs. rewrite exec_put, Hs by done. done.
Qed.

Lemma execs_trans ls1 ls2 e e1 e2 :
  execs may_allocate files ls1 e e1 → execs may_allocate files ls2 e1 e2 → execs may_allocate files (ls1 ++ ls2) e e2.
Proof. induction 1; [done|]. intros. cbn. econstructor; [done|auto]. Qed.

(** ** Up to the loop over the rules, and through it *)

Variable rs : list rule_spec.
Hypothesis Hmalloc : ∀ n size, may_allocate n size = true.
Hypothesis Hfile : ∀ f, ∃ h1, rule_file_says may_allocate files f h1 rs.

(** The array is allocated; its slots are not written yet. *)
Lemma setup_to_loop name f :
  ∃ j f1, rtc (setup_moves name) (SetupParse, f) (SetupRules 0 (child j), f1) ∧
    mapM item_fields (child j) = Some (rule_fields <$> rs) ∧ num_rules f1 = zlen rs ∧
    ∃ a, rules f1 = Some (RuleArray a (replicate (length rs) None)) ∧ a ∈ live (fw_heap f1).
Proof using Hfile Hmalloc.
  destruct (Hfile f) as (h1 & j & Hp & Hm & Hn).
  pose proof (length_mapM _ _ _ Hm) as Hl. rewrite length_fmap in Hl.
  assert (fw_config_get_item_count (Some j) = zlen rs) as Hcount.
  { cbn. unfold zlen in *. rewrite <-Hl. apply to_int_small. lia. }
  exists j, (setup_alloc may_allocate j (set_num_rules (zlen rs) (set_fw_heap h1 f))). split_and!; [|done|..].
  - eapply rtc_l; [split; [done|]; cbn [setup_step fst snd]; unfold setup_parse; rewrite Hp; cbn [mbind outcome_bind]; rewrite Hcount; done|].
    eapply rtc_l; [by split|]. done.
  - unfold setup_alloc. by rewrite (allocate_ok may_allocate Hmalloc).
  - unfold setup_alloc. rewrite (allocate_ok may_allocate Hmalloc), Hcount. cbn. eexists. unfold zlen. rewrite Nat2Z.id.
    split; [done|]. set_solver.
Qed.

Lemma setup_through_loop name l i f f' :
  setup_rule_loop may_allocate i l f = Ok f' → ∃ i', rtc (setup_moves name) (SetupRules i l, f) (SetupRules i' [], f').
Proof.
  revert i f. induction l as [|j l IH]; intros i f; cbn [setup_rule_loop]; [intros [= <-]; by exists i|].
  intros (f1 & Hone & Hrest)%bind_Ok. destruct (IH _ _ Hrest) as (i' & Hrun). exists i'.
  eapply rtc_l; [|exact Hrun]. split; [done|]. cbn [setup_step fst snd]. by rewrite Hone.
Qed.

(** Alone, a thread reads all rules. *)
Lemma setup_reads name f : ∃ n f', rtc (setup_moves name) (SetupParse, f) (SetupRules n [], f').
Proof using Hfile Hmalloc.
  destruct (setup_to_loop name f) as (j & f1 & Hr1 & Hm & _ & a & Ha & Hlive).
  pose proof (length_mapM _ _ _ Hm) as Hl. rewrite length_fmap in Hl.
  edestruct (setup_through_loop name (child j) 0 f1) as (n & Hr2).
  { apply (setup_rule_loop_run may_allocate Hmalloc a [] (child j) _ f1 Hm); [|exact Hlive]. by rewrite Ha, <-Hl. }
  eexists n, _. by etrans.
Qed.

(** Then it creates the table, for the array and the number of rules that it finds
    in the globals. *)
Lemma setup_creates name n f :
  rtc (setup_moves name) (SetupRules n [], f)
    (SetupAdd (ra_addr <$> rules f) (Z.to_nat (num_rules f)) 0, set_lpm_tbl (rte_lpm_create name 1024 24) f).
Proof.
  eapply rtc_l; [split; [done|]; cbn [setup_step fst snd cJSON_Delete mbind outcome_bind]; reflexivity|].
  eapply rtc_l; [by split|]. eapply rtc_l; [by split|]. by destruct f.
Qed.

(** ** The array is replaced *)

(** Thread [i] has read all rules; thread [j] has just replaced the array: thread
    [i] goes on with an array of slots that were never written. *)
Lemma overlap_faults i j e :
  rs ≠ [] → i ≠ j → e_co e !! i = Some Starting → e_co e !! j = Some Starting →
  ∃ ls e' name, Forall (λ l, l = LCo i name ∨ l = LCo j name) ls ∧ execs may_allocate files ls e e' ∧
    exec may_allocate files (LCo i name) e' = Some (Fault Uninitialised).
Proof using Hfile Hmalloc.
  intros Hne Hij Hi Hj. pose proof (lookup_lt_Some _ _ _ Hi) as Hil. set (name := "fw").
  destruct (setup_reads name (e_fw e)) as (n & f1 & Hr1). destruct (setup_to_loop name f1) as (d & f2 & Hr2 & _ & Hn & a & Ha & Hlive).
  pose proof (setup_creates name n f2) as Hr3. rewrite Ha, Hn in Hr3. set (f3 := set_lpm_tbl _ f2) in *.
  destruct (setup_execs name i _ _ _ _ e Hil Hr1) as (ls1 & Hall1 & Hls1). rewrite (put_setup_same e i) in Hls1 by done.
  set (e1 := put_setup i (SetupRules n []) f1 e) in *.
  assert (e_co e1 !! j = Some Starting) as Hj1 by (cbn; by rewrite list_lookup_insert_ne).
  destruct (setup_execs name j _ _ _ _ e1 ltac:(by eapply lookup_lt_Some) Hr2) as (ls2 & Hall2 & Hls2).
  rewrite (put_setup_fw e1 j) in Hls2 by done. set (e2 := put_setup j (SetupRules 0 (child d)) f2 e1) in *.
  assert (e_co e2 !! i = Some (Setup (SetupRules n []))) as Hi2.
  { cbn. rewrite list_lookup_insert_ne by done. by apply list_lookup_insert_eq. }
  destruct (setup_execs name i _ _ _ _ e2 ltac:(by eapply lookup_lt_Some) Hr3) as (ls3 & Hall3 & Hls3).
  rewrite (put_setup_fw e2 i) in Hls3 by done. eexists (ls1 ++ ls2 ++ ls3), _, name. split_and!.
  - rewrite !Forall_app. split_and!; eapply Forall_impl; [exact Hall1|by left|exact Hall2|by right|exact Hall3|by left].
  - by eapply execs_trans; [|eapply execs_trans].
  - rewrite exec_put by (done || by eapply lookup_lt_Some). destruct rs as [|r rs']; [done|]. unfold zlen. rewrite Nat2Z.id.
    cbn [length setup_step fmap option_fmap option_map ra_addr]. pose proof (pointee_rules f2) as Hpt. rewrite Ha in Hpt.
    change (pointee (Some a) f2 = Some (RuleArray a (replicate (length (r :: rs')) None))) in Hpt.
    change (pointee (Some a) f3) with (pointee (Some a) f2). rewrite Hpt.
    unfold lpm_add_rule, get_rule, live_array. cbn [or_fault mbind outcome_bind ra_addr fw_heap set_lpm_tbl f3]. by rewrite decide_True.
Qed.

(** ** The table is replaced *)

(** Thread [k] has just created its table. *)
Lemma overlap_new_table name k e :
  e_co e !! k = Some Starting →
  ∃ ls e', Forall (λ l, l = LCo k name) ls ∧ execs may_allocate files ls e e' ∧ e_sw e' = e_sw e ∧
    lpm_tbl (e_fw e') = rte_lpm_create name 1024 24 ∧ ∀ i, i ≠ k → e_co e' !! i = e_co e !! i.
Proof using Hfile Hmalloc.
  intros Hk. destruct (setup_reads name (e_fw e)) as (n & f1 & Hr1).
  destruct (setup_execs name k _ _ _ _ e (lookup_lt_Some _ _ _ Hk) (transitivity Hr1 (setup_creates name n f1))) as (ls & Hall & Hls).
  rewrite (put_setup_same e k) in Hls by done. eexists ls, _. split_and!; [done|exact Hls|done|done|].
  intros i Hi. cbn. by rewrite list_lookup_insert_ne.
Qed.
End race.

(** A lookup in a new table finds nothing. *)
Lemma new_table_misses `{RteLpmLaws} name max tbl8s t ip hop0 ret hop :
  rte_lpm_create name max tbl8s = Some t → rte_lpm_lookup (Some t) ip hop0 = (ret, hop) → ret < 0.
Proof.
  intros Ht%lpm_create_spec Hl%lpm_lookup_spec. rewrite Ht in Hl. by rewrite lpm_longest_empty in Hl.
Qed.

(** A coprocessor that judges a packet meanwhile goes by what that lookup
    leaves behind. *)
Lemma overlap_ignores_rules `{ByteOrderLaws, RteRingLaws, RteKniLaws, RteLpmLaws} may_allocate files rs table i k p pkts name e :
  (∀ n size, may_allocate n size = true) → (∀ f, ∃ h1, rule_file_says may_allocate files f h1 rs) →
  data_inv (pol := accept_all table) e → e_co e !! i = Some (Busy (p :: pkts)) → e_co e !! k = Some Starting → ip_version p = 4 →
  ∃ ls e1 e2, Forall (λ l, l = LCo k name) ls ∧ execs may_allocate files ls e e1 ∧
    exec may_allocate files (LCo i name) e1 = Some (Ok e2) ∧
    let '(ret, rule) := rte_lpm_lookup (rte_lpm_create name 1024 24) (ip_src p) 0 in
    (is_Some (rte_lpm_create name 1024 24) → ret < 0) ∧
    if rule =? 0 then enqueue_nf_tx p (Z.of_nat i) (e_sw e) = Ok (e_sw e2) else e_sw e2 = rte_pktmbuf_free (Some p) (e_sw e).
Proof.
  intros Hmalloc Hfile He Hi Hk Hv.
  destruct (overlap_new_table may_allocate files rs Hmalloc Hfile name k e Hk) as (ls & e1 & Hall & Hls & Hsw & Htbl & Hco).
  pose proof (inv_co_lt e i _ He Hi) as Hlt. destruct (inv_busy _ He i _ Hi) as [_ [Hp _]%Forall_cons].
  destruct (enqueue_nf_tx_gives (e_sw e) (Z.of_nat i) p (inv_wf _ He) ltac:(lia)) as (s2 & Hen & _).
  { split; [by rewrite Nat2Z.id|done]. }
  assert (e_co e1 !! i = Some (Busy (p :: pkts))) as Hi1 by (rewrite Hco; [done|congruence]).
  pose proof (process_packet_spec (e_fw e1) p (proj1 Hp)) as Hspec. rewrite Hv, Htbl in Hspec. cbn [Z.eqb Pos.eqb] in Hspec.
  destruct (rte_lpm_lookup (rte_lpm_create name 1024 24) (ip_src p) 0) as [ret rule] eqn:Hlook. cbn [snd] in Hspec.
  assert (is_Some (rte_lpm_create name 1024 24) → ret < 0) as Hmiss.
  { intros [t Ht]. rewrite Ht in Hlook. by eapply new_table_misses. }
  exists ls, e1. destruct (Z.eqb_spec rule 0) as [->|Hrule].
  - eexists (Engine s2 _ (e_rx e1) (<[i := Busy pkts]> (e_co e1))). split_and!; [done..| |done|exact Hen].
    cbn [exec]. rewrite (co_step_pass _ _ i name e1 _ Hi1 eq_refl). cbn [coprocessor_step].
    unfold coprocessor_packet, process_packet, firewall_function. rewrite Hspec, Hsw. cbn [Z.eqb mbind outcome_bind]. by rewrite Hen.
  - eexists (Engine (rte_pktmbuf_free (Some p) (e_sw e)) _ (e_rx e1) (<[i := Busy pkts]> (e_co e1))). split_and!; [done..| |done|done].
    cbn [exec]. rewrite (co_step_pass _ _ i name e1 _ Hi1 eq_refl). cbn [coprocessor_step].
    unfold coprocessor_packet, process_packet, firewall_function. rewrite Hspec, Hsw. cbn [Z.eqb mbind outcome_bind]. done.
Qed.
