(* ===== verification/Samples.v ===== *)
(** * Concrete data

    Packets, a rule file and engine states on which the properties are
    evaluated, with the reference instances of the DPDK interface. *)
From S2P Require Import Prelude Dpdk Stdio Config CJsonData CJsonText CJsonParse CJsonQuery CJsonProps Switch.
From S2P Require Import SwitchInv Firewall FirewallSpec Coprocessor Interface Engine EngineSpec EngineSafety EngineDrain.

(** An Ethernet frame with an IPv4 header: version nibble, source and
    destination. *)
Definition frame (id version : Z) (src dst : list Z) : mbuf :=
  Mbuf id (replicate 12 0 ++ [8; 0] ++ [16 * version + 5] ++ replicate 11 0 ++ src ++ dst).

Definition pkt_a : mbuf := frame 1 4 [10; 0; 0; 7] [192; 167; 10; 2].
Definition pkt_b : mbuf := frame 2 4 [10; 0; 0; 9] [192; 167; 10; 2].
Definition pkt_v6 : mbuf := frame 3 6 [10; 0; 0; 7] [192; 167; 10; 2].

(** Packets that arrive on the first virtual port. *)
Definition arrivals (l : list mbuf) (conf : rte_kni_conf) : list mbuf :=
  if kc_core_id conf =? 0 then l else [].

(** A rule file with one rule that drops one host. *)
Definition one_rule_text : list Z := quoted "{'r': {'ip': '10.0.0.9', 'depth': 32, 'action': 1}}".
Definition one_rule_file (name : string) : option (list Z) := Some one_rule_text.
Definition one_rule : list rule_spec := [RuleSpec 167772169 32 1].

(** The file [engine/nfs/firewall/rules.json] of the repository. *)
Definition shipped_rules_text : list Z := quoted "{
	'rule1': {
		'ip': '192.167.10.0',
		'depth': 24,
		'action': 0
	},

	'rule2': {
		'ip': '10.11.1.16',
		'depth': 32,
		'action': 0
	}
}".

Lemma one_rule_says (f : @firewall Reference.lpms) :
  ∃ h1, rule_file_says always one_rule_file f h1 one_rule.
Proof.
  destruct f as [st t r n [q L] o]. eexists _, _. split; [vm_compute; reflexivity|]. split; vm_compute; reflexivity.
Qed.

Lemma one_rule_environment : @fw_environment Reference.lpms always one_rule_file one_rule.
Proof.
  split.
  - done.
  - apply one_rule_says.
  - intros name. by eexists.
  - by intros name t [= <-].
Qed.

Abbreviation sample_main l :=
  (@main Reference.rings (Reference.knis (arrivals l)) Reference.lpms 0 true true 6 (λ i, i)).

Section runs.
Context (l : list mbuf).

(** The engine executing a list of labels, where nothing disturbs a set-up. *)
Fixpoint run (ls : list label) (e : @engine Reference.rings (Reference.knis (arrivals l)) Reference.lpms) :
    option (@engine Reference.rings (Reference.knis (arrivals l)) Reference.lpms) :=
  match ls with
  | [] => Some e
  | x :: ls =>
      if undisturbed x e then
        match @exec Reference.byte_order Reference.rings (Reference.knis (arrivals l)) Reference.lpms
                always one_rule_file x e with
        | Some (Ok e') => run ls e'
        | _ => None
        end
      else None
  end.

Lemma run_reachable ls e e' :
  run ls e = Some e' →
  rtc (@serial_step Reference.byte_order Reference.rings (Reference.knis (arrivals l)) Reference.lpms always one_rule_file) e e'.
Proof.
  revert e. induction ls as [|x ls IH]; intros e; cbn [run]; [by intros [= ->]|].
  destruct (undisturbed x e) eqn:Hu; [|done].
  destruct (exec _ _ x e) as [[e1| |]|] eqn:E; try done. intros Hr. eapply rtc_l; [by econstructor|by apply IH].
Qed.

Lemma run_app ls1 ls2 e : run (ls1 ++ ls2) e = run ls1 e ≫= run ls2.
Proof.
  revert e. induction ls1 as [|x ls1 IH]; intros e; cbn [run app]; [done|].
  destruct (undisturbed x e); [|done]. destruct (exec _ _ x e) as [[e1| |]|]; cbn; auto.
Qed.

Lemma run_execs ls e e' :
  run ls e = Some e' →
  @execs Reference.byte_order Reference.rings (Reference.knis (arrivals l)) Reference.lpms always one_rule_file ls e e'.
Proof.
  revert e. induction ls as [|x ls IH]; intros e; cbn [run]; [intros [= ->]; constructor|].
  destruct (undisturbed x e); [|done].
  destruct (exec _ _ x e) as [[e1| |]|] eqn:E; try done. intros Hr. econstructor; [exact E|by apply IH].
Qed.
End runs.

(** The set-ups, one after the other: nine steps each with a file of one rule. *)
Definition set_up : list label := concat ((λ i, replicate 9 (LCo i "fw")) <$> seq 0 5).
(** Every coprocessor takes a step; a pass of each, two packets on coprocessor 1. *)
Definition co_pass : list label := (λ i, LCo i "fw") <$> seq 0 5.
Definition co_work : list label := concat (replicate 3 co_pass) ++ replicate 2 (LCo 1 "fw").
(** The coprocessors set up, a round of the receive thread, a pass of the
    coprocessors, and another round. *)
Definition schedule : list label :=
  set_up ++ replicate 45 (LRx false) ++ co_work ++ replicate 44 (LRx false).

(** The coprocessors set up, and the receive thread with one of the two packets
    it has received still in hand. *)
Definition arrival : list label := set_up ++ replicate 3 (LRx false).
(** Four coprocessors set up, a round of the receive thread, and coprocessor 1
    with the second packet of its burst in hand. *)
Definition half_set_up : list label :=
  take 36 set_up ++ replicate 45 (LRx false) ++ replicate 3 (LCo 1 "fw").
(** All threads, several times, the receive thread first. *)
Definition sweeps (n : nat) : list (list label) :=
  replicate n (replicate 363 (LRx false) ++ concat (replicate 35 co_pass)).

(** The state after start-up and the one after a list of labels. *)
Definition idle_engine l : @engine Reference.rings (Reference.knis (arrivals l)) Reference.lpms :=
  Engine (zero_switch zero_globals) zero_firewall RxDone [].
Definition boot l := match sample_main l with Ok e => e | _ => idle_engine l end.
Definition after l ls := default (idle_engine l) (run l ls (boot l)).

Lemma boot_ok l : is_ok (sample_main l) = true → sample_main l = Ok (boot l).
Proof. unfold boot. by destruct (sample_main l). Qed.

Lemma after_reachable l ls :
  is_some (run l ls (boot l)) = true →
  rtc (@serial_step Reference.byte_order Reference.rings (Reference.knis (arrivals l)) Reference.lpms always one_rule_file)
    (boot l) (after l ls).
Proof.
  intros He. apply run_reachable with ls. unfold after. by destruct (run l ls (boot l)).
Qed.

Lemma after_execs l ls1 ls2 :
  is_some (run l (ls1 ++ ls2) (boot l)) = true →
  @execs Reference.byte_order Reference.rings (Reference.knis (arrivals l)) Reference.lpms always one_rule_file ls2
    (after l ls1) (after l (ls1 ++ ls2)).
Proof.
  intros He. apply run_execs. unfold after. rewrite run_app in *. destruct (run l ls1 (boot l)) as [e1|]; [|done]. cbn in *.
  by destruct (run l ls2 e1).
Qed.

Lemma sample_rings_ok : @rings_ok Reference.rings.
Proof. intros i _. split; by eexists. Qed.

(** ** A sample run: two packets arrive on port 0 for port 1, the firewall drops
    one of them. *)
Module Sample.
#[export] Existing Instances Reference.byte_order Reference.byte_order_laws Reference.rings Reference.ring_laws Reference.ring_progress
  Reference.lpms Reference.lpm_laws.
Abbreviation packets := [pkt_a; pkt_b].
#[export] Instance ports : RteKni := Reference.knis (arrivals packets).
#[export] Instance port_laws : RteKniLaws := Reference.kni_laws (arrivals packets).

Abbreviation final := (after packets schedule).
Abbreviation stopping := (after packets (schedule ++ [LSignal SIGINT])).

Lemma booted : main 0 true true 6 (λ i, i) = Ok (boot packets).
Proof.
  assert (is_ok (sample_main packets) = true) as Hok by (vm_compute; reflexivity).
  exact (boot_ok packets Hok).
Qed.

Lemma final_reached : rtc (serial_step always one_rule_file) (boot packets) final.
Proof.
  assert (is_some (run packets schedule (boot packets)) = true) as Hrun by (vm_compute; reflexivity).
  exact (after_reachable packets schedule Hrun).
Qed.

Lemma final_steps : rtc (step always one_rule_file) (boot packets) final.
Proof. exact (serial_steps _ _ _ _ final_reached). Qed.

Lemma stopping_reached : rtc (serial_step always one_rule_file) (boot packets) stopping.
Proof.
  assert (is_some (run packets (schedule ++ [LSignal SIGINT]) (boot packets)) = true) as Hrun by (vm_compute; reflexivity).
  exact (after_reachable packets _ Hrun).
Qed.

(** The invariant holds after every run. *)
Lemma sample_inv ls :
  is_some (run packets ls (boot packets)) = true → ∃ t, engine_inv always one_rule_file t one_rule (after packets ls).
Proof.
  intros Hrun. destruct (main_started _ _ _ _ _ _ booted) as (t & l & Hst). exists t.
  eapply reachable_inv; [apply one_rule_environment| |exact (after_reachable packets ls Hrun)].
  eapply started_inv; [exact Hst|done|exact sample_rings_ok].
Qed.
End Sample.
