(* ===== verification/FirewallProps.v ===== *)
(** * Properties of the firewall *)
From S2P Require Import Prelude Dpdk Stdio Config CJsonData CJsonText CJsonTextSafe CJsonParse CJsonQuery.
From S2P Require Import CJsonProps Switch SwitchInv FastPath Firewall FirewallSpec Coprocessor Interface.
From S2P Require Import Engine EngineSpec Samples.
From S2P Require Import CJsonNumber CJsonGrammar RuleFile.

(** ** Verdicts *)

(** C17: for every packet with room for the headers, the packet handler
    counts an IPv4 packet and decides by the value that the lookup stores alone
    (0 forwards), whatever the return code of the lookup; for any other version
    it dereferences the null pointer that [fw_pkt_ipv4_hdr] returned. *)
Theorem packet_handler_spec `{ByteOrderLaws, RteLpm} pkt f :
  wf_mbuf pkt →
  fw_packet_handler pkt f =
    if ip_version pkt =? 4
    then Ok (verdict (rte_lpm_lookup (lpm_tbl f) (ip_src pkt) 0).2, count_total f)
    else Fault NullDereference.
Proof. apply handler_spec. Qed.

(** A packet whose source matches a rule gets the action of the most
    specific matching rule. *)
Theorem packet_handler_longest_match `{ByteOrderLaws, RteLpmLaws} pkt f t action :
  wf_mbuf pkt → ip_version pkt = 4 → lpm_tbl f = Some t → lpm_longest (lpm_rules t) (ip_src pkt) = Some action →
  fw_packet_handler pkt f = Ok (verdict action, count_total f).
Proof. apply handler_longest. Qed.

(** ** Addresses *)

(** C35: every 32-bit address survives the way through its text: the text fits
    into the 16 bytes of the callers' buffers and is read back to the same
    address. *)
Theorem address_text_roundtrip ip :
  0 <= ip < 2 ^ 32 →
  (length (fw_pkt_parse_char_ip ip) <= 15)%nat ∧ fw_pkt_parse_ip (Some (fw_pkt_parse_char_ip ip)) = (0, Some ip).
Proof.
  intros Hip. split; [|by apply ip_roundtrip].
  unfold fw_pkt_parse_char_ip, snprintf_store. rewrite length_take. lia.
Qed.

Lemma address_text_roundtrip_witness :
  (length (fw_pkt_parse_char_ip 4294967295) <= 15)%nat ∧
  fw_pkt_parse_ip (Some (fw_pkt_parse_char_ip 4294967295)) = (0, Some 4294967295).
Proof. apply (address_text_roundtrip 4294967295). lia. Defined.

(** [fw_pkt_parse_ip] accepts four numbers of any size and keeps each
    modulo 256. *)
Theorem parse_ip_wraps a b c d :
  0 <= a < 2 ^ 32 → 0 <= b < 2 ^ 32 → 0 <= c < 2 ^ 32 → 0 <= d < 2 ^ 32 →
  fw_pkt_parse_ip (Some (dotted a b c d)) =
    (0, Some (16777216 * (a mod 256) + 65536 * (b mod 256) + 256 * (c mod 256) + d mod 256)).
Proof. intros. by rewrite parse_ip_dotted, RTE_IPV4_value. Qed.

Lemma parse_ip_wraps_witness :
  fw_pkt_parse_ip (Some (dotted 266 0 0 513)) = (0, Some (16777216 * 10 + 1)).
Proof. apply (parse_ip_wraps 266 0 0 513); lia. Defined.

(** ** The rule file *)

(** C34: a text file without NUL bytes, whose lines are shorter than the line
    buffer and whose length is not 1, is handed to the JSON parser byte for
    byte. *)
Theorem rule_file_loaded may_allocate files name file h a h1 :
  name ≠ ""%string → files name = Some file → loadable file →
  allocate may_allocate (zlen file + 1) h = (Some a, h1) →
  fw_config_parse_file may_allocate files (Some name) h = cJSON_Parse may_allocate (Some file) h1.
Proof. apply parse_file_loads. Qed.

(** The check of [loadable], evaluated. *)
Definition loadable_check (file : list Z) : bool :=
  forallb (λ c, negb (c =? 0)) file && short_lines 254 file && negb (length file =? 1)%nat && (zlen file <? 2 ^ 31).

Lemma loadable_check_sound file : loadable_check file = true → loadable file.
Proof.
  unfold loadable_check. intros [[[Hz Hs]%andb_true_iff Hl]%andb_true_iff Hn]%andb_true_iff.
  rewrite forallb_forall in Hz. split_and!; [|done| |lia].
  - apply Forall_forall. intros c Hc. apply list_elem_of_In, Hz in Hc. lia.
  - intros E. by rewrite E in Hl.
Qed.

Lemma rule_file_loaded_witness :
  fw_config_parse_file always (λ _, Some shipped_rules_text) (Some "rules.json") empty_heap
  = cJSON_Parse always (Some shipped_rules_text) (Heap 1 {[0%nat]}).
Proof.
  apply (rule_file_loaded always (λ _, Some shipped_rules_text) "rules.json" shipped_rules_text empty_heap 0%nat);
    [discriminate|reflexivity|apply loadable_check_sound; vm_compute; reflexivity|vm_compute; reflexivity].
Defined.

(** C37: a file of more than 255 bytes whose first 255 bytes contain no
    newline overruns the line buffer: [fgets] is told the length of the file,
    not that of the buffer. *)
Theorem long_line_overflows may_allocate files name file h a h1 :
  name ≠ ""%string → files name = Some file → 256 <= zlen file < 2 ^ 31 → Forall (λ c, c ≠ 10) (take 255 file) →
  allocate may_allocate (zlen file + 1) h = (Some a, h1) →
  fw_config_parse_file may_allocate files (Some name) h = Fault OutOfBounds.
Proof.
  intros Hname Hfile Hlen Hno Ha. unfold fw_config_parse_file.
  rewrite (proj2 (String.eqb_neq _ _) Hname), Hfile, to_int_small by lia. unfold u64. rewrite Z.mod_small, Ha by lia.
  cbn [read_lines]. unfold fgets. destruct (Z.leb_spec (zlen file) 0); [lia|]. destruct (Z.eqb_spec (zlen file) 1); [lia|].
  destruct file as [|c file]; [done|].
  pose proof (fgets_line_long (Z.to_nat (zlen (c :: file) - 1)) (c :: file) ltac:(lia) ltac:(unfold zlen in *; lia) Hno) as Hl.
  destruct (fgets_line _ _) as [line rest]. cbn [fst] in Hl. unfold temp_buf_size, zlen.
  by destruct (Z.ltb_spec 255 (Z.of_nat (length line) + 1)); [|lia].
Qed.

Lemma long_line_overflows_witness :
  fw_config_parse_file always (λ _, Some (replicate 256 32)) (Some "rules.json") empty_heap = Fault OutOfBounds.
Proof.
  apply (long_line_overflows always (λ _, Some (replicate 256 32)) "rules.json" (replicate 256 32) empty_heap 0%nat
    (Heap 1 {[0%nat]})); [discriminate|reflexivity|vm_compute; split; [discriminate|reflexivity]| |vm_compute; reflexivity].
  vm_compute. repeat constructor; discriminate.
Defined.

(** C38: on a file of one byte the reading loop makes no progress, whatever
    number of iterations it is given: [fgets] with size 1 returns an empty line
    without reading. *)
Theorem one_byte_file_hangs fuel c room :
  0 <= room → read_lines fuel (zlen [c]) room [c] [] = Fault OutOfFuel.
Proof.
  intros Hroom. induction fuel as [|fuel IH]; [done|]. cbn [read_lines].
  change (fgets (zlen [c]) [c]) with (Some (@nil Z, [c])). cbn iota beta. cbn [cstring app].
  change (zlen (@nil Z)) with 0. destruct (Z.ltb_spec temp_buf_size (0 + 1)); [unfold temp_buf_size in *; lia|].
  destruct (Z.ltb_spec room (0 + 0)); [lia|]. exact IH.
Qed.

Lemma one_byte_file_hangs_witness : read_lines 1000 (zlen [123]) 2 [123] [] = Fault OutOfFuel.
Proof. apply (one_byte_file_hangs 1000 123 2). lia. Defined.

(** ** Set-up and tear-down *)

(** C20: from a rule file that parses to an object, [setup_rules] builds one
    rule per member, in order: its address text, its depth and its action, the
    last two reduced to 8 bits, the address indeterminate when the text is not
    one; it sets the rule count and the global array.  When a member lacks one of
    the three fields, the process ends instead. *)
Theorem setup_rules_builds `{RteLpm} may_allocate files name f j h1 :
  (∀ n size, may_allocate n size = true) →
  fw_config_parse_file may_allocate files (Some name) (fw_heap f) = Ok (Some j, h1) → zlen (child j) < 2 ^ 31 →
  match mapM item_fields (child j) with
  | Some xs =>
      let ra := RuleArray (reqs h1) (Some <$> mk_rules (S (reqs h1)) xs) in
      setup_rules may_allocate files (Some name) f =
        Ok (Some ra, Firewall (stats f) (lpm_tbl f) (Some ra) (zlen xs) (alloc_n (S (length xs)) h1)
                       (option_list (rules f) ++ old_arrays f))
  | None => ∃ msg, setup_rules may_allocate files (Some name) f = Exit msg
  end.
Proof.
  intros Hm Hp Hn. destruct (mapM item_fields (child j)) as [xs|] eqn:Hxs.
  - apply setup_rules_run with j; [done..|]. pose proof (length_mapM _ _ _ Hxs). unfold zlen in *. lia.
  - by eapply setup_rules_missing.
Qed.

(** C19: after [coprocessor_setup] on a rule file with rules [rs], the table
    contains the rules of a prefix of [rs], later rules replacing earlier ones
    for the same prefix; the prefix is all of [rs] unless the table refused a
    rule, which the set-up does not report: it returns 0 in both cases. *)
Theorem coprocessor_setup_fills_table `{RteLpmLaws} may_allocate files name f h1 rs t :
  (∀ n size, may_allocate n size = true) → rule_file_says may_allocate files f h1 rs →
  rte_lpm_create name 1024 24 = Some t →
  ∃ f' t', coprocessor_setup may_allocate files name f = Ok (0, f') ∧ lpm_tbl f' = Some t' ∧
    ∃ k, lpm_rules t' = foldl insert_rule ∅ (take k rs) ∧
      ((k = length rs ∧ refuses t rs = false ∧ Forall (λ r, 1 <= rs_depth r <= 32) rs) ∨ (k < length rs)%nat ∧ refuses t rs = true).
Proof.
  intros Hm Hs Ht. destruct (coprocessor_setup_spec may_allocate files Hm name f h1 rs t Hs Ht) as (t' & -> & Hk).
  do 2 eexists. split_and!; [done..|exact Hk].
Qed.

(** C18: from the text of the rule file to the verdict. Suppose that memory
    suffices; that the file can be loaded as in [rule_file_loaded] (no NUL byte,
    lines shorter than the line buffer, a length other than 1 and below 2^31); that
    it is a JSON text, within the nesting limit and with numerals of at most 63
    characters, of an object that states the rules [rs]; and that the table can be
    created and takes every rule. Then [coprocessor_setup] returns 0, and afterwards
    every IPv4 packet whose source matches a rule is forwarded if the most specific
    matching rule has action 0 and dropped otherwise. *)
Theorem rule_text_decides `{ByteOrderLaws, RteLpmLaws} may_allocate files name f rs file t :
  (∀ n size, may_allocate n size = true) → files rule_file = Some file → loadable file → rule_text rs file →
  rte_lpm_create name 1024 24 = Some t → refuses t rs = false →
  ∃ f', coprocessor_setup may_allocate files name f = Ok (0, f') ∧
    ∀ pkt action, wf_mbuf pkt → ip_version pkt = 4 →
      lpm_longest (foldl insert_rule ∅ rs) (ip_src pkt) = Some action →
      fw_process_packet f' pkt = Ok (if action =? 0 then 0 else -1, count_total f').
Proof.
  intros Hm Hfile Hload Htext Ht Href. destruct (rule_text_says may_allocate files f rs file Hm Hfile Hload Htext) as (h1 & Hsays).
  destruct (coprocessor_setup_spec may_allocate files Hm name f h1 rs t Hsays Ht) as (t' & -> & k & Hk & Hres).
  destruct Hres as [[-> _]|[_ Href']]; [|congruence]. rewrite firstn_all in Hk.
  eexists. split; [done|]. intros pkt action Hp Hv Hl. rewrite process_packet_spec, Hv by done. cbn [Z.eqb Pos.eqb lpm_tbl].
  destruct (rte_lpm_lookup _ _ _) as [ret rule] eqn:E. apply lpm_lookup_spec in E. rewrite Hk, Hl in E.
  by destruct E as [_ ->].
Qed.

(** C36: after a set-up, [coprocessor_teardown] frees exactly the rule
    array and its rules; a second tear-down, which every further coprocessor
    thread performs, uses the freed array. *)
Theorem teardown_frees_once `{RteLpmLaws} may_allocate files name f h1 rs t f1 :
  (∀ n size, may_allocate n size = true) → rule_file_says may_allocate files f h1 rs →
  rte_lpm_create name 1024 24 = Some t → coprocessor_setup may_allocate files name f = Ok (0, f1) →
  ∃ f2, coprocessor_teardown f1 = Ok (0, f2) ∧
    live (fw_heap f2) = live (fw_heap f1) ∖ list_to_set (seq (reqs h1) (S (length rs))) ∧
    coprocessor_teardown f2 = Fault (if 0 <? zlen rs then UseAfterFree else DoubleFree).
Proof.
  intros Hm Hs Ht Hrun. destruct (coprocessor_setup_spec may_allocate files Hm name f h1 rs t Hs Ht) as (t' & Hset & _).
  rewrite Hset in Hrun. injection Hrun as <-. by apply (teardown_twice _ rs h1).
Qed.

(** ** Evaluation *)
Module Witnesses.
Import Sample.

Lemma sample_wf : wf_mbuf pkt_a ∧ wf_mbuf pkt_b ∧ wf_mbuf pkt_v6.
Proof. vm_compute. split_and!; try discriminate; repeat constructor; discriminate. Defined.

Definition table_of (rs : list rule_spec) : firewall :=
  Firewall (FwStats 0 0 0 0) (Some (foldl insert_rule ∅ rs : gmap (Z * Z) Z)) None 0 empty_heap [].

Definition empty_table : lpm := (∅ : gmap (Z * Z) Z).

Lemma packet_handler_spec_witness :
  fw_packet_handler pkt_a zero_firewall = Ok (FW_FORWARD, count_total zero_firewall) ∧
  fw_packet_handler pkt_v6 zero_firewall = Fault NullDereference.
Proof.
  split.
  - rewrite (packet_handler_spec pkt_a zero_firewall (proj1 sample_wf)). reflexivity.
  - rewrite (packet_handler_spec pkt_v6 zero_firewall (proj2 (proj2 sample_wf))). reflexivity.
Defined.

Lemma packet_handler_longest_match_witness :
  fw_packet_handler pkt_b (table_of one_rule) = Ok (FW_DROP, count_total (table_of one_rule)).
Proof.
  apply (packet_handler_longest_match pkt_b (table_of one_rule) (foldl insert_rule ∅ one_rule : gmap (Z * Z) Z) 1
    (proj1 (proj2 sample_wf))); vm_compute; reflexivity.
Defined.

Lemma setup_rules_builds_witness :
  ∃ ra f', setup_rules always one_rule_file (Some rule_file) zero_firewall = Ok (Some ra, f') ∧
    ∃ a, ra_slots ra = [Some (FwRule a (Some 167772169) 32 1)].
Proof.
  destruct (one_rule_says zero_firewall) as (h1 & j & Hp & Hm & _).
  assert (zlen (child j) < 2 ^ 31) as Hn by (apply length_mapM in Hm; unfold zlen; rewrite Hm; vm_compute; reflexivity).
  pose proof (setup_rules_builds always one_rule_file rule_file zero_firewall j h1 (λ _ _, eq_refl) Hp Hn) as Hrun.
  rewrite Hm in Hrun. cbv zeta in Hrun. do 2 eexists. split; [exact Hrun|by eexists].
Defined.

Lemma coprocessor_setup_fills_table_witness :
  ∃ f' t', coprocessor_setup always one_rule_file "fw" zero_firewall = Ok (0, f') ∧ lpm_tbl f' = Some t' ∧
    ∃ k, lpm_rules t' = foldl insert_rule ∅ (take k one_rule) ∧
      ((k = 1%nat ∧ refuses empty_table one_rule = false ∧ Forall (λ r, 1 <= rs_depth r <= 32) one_rule) ∨
       (k < 1)%nat ∧ refuses empty_table one_rule = true).
Proof.
  destruct (one_rule_says zero_firewall) as (h1 & Hsays).
  apply (coprocessor_setup_fills_table always one_rule_file "fw" zero_firewall h1 one_rule empty_table
    (λ _ _, eq_refl) Hsays). reflexivity.
Defined.

(** The sample rule file as a derivation of its text. *)
Lemma one_rule_text_ok : rule_text one_rule one_rule_text.
Proof.
  pose (num ds := JNum (dec_to_double false (dec_value ds) 0)).
  pose (ip := bytes_of_string "10.0.0.9").
  pose (v := JObj [([114], JObj [(name_ip, JStr ip); (name_depth, num [51; 50]); (name_action, num [49])])]).
  change one_rule_text with ([] ++ [] ++ (123 :: [] ++ (34 :: [114] ++ 34 :: [] ++ 58 :: [32] ++ (123 :: [] ++
    (34 :: name_ip ++ 34 :: [] ++ 58 :: [32] ++ (34 :: ip ++ [34]) ++ [] ++ 44 :: [32] ++
     (34 :: name_depth ++ 34 :: [] ++ 58 :: [32] ++ [51; 50] ++ [] ++ 44 :: [32] ++
      (34 :: name_action ++ 34 :: [] ++ 58 :: [32] ++ [49] ++ []))) ++ [125]) ++ []) ++ [125]) ++ []).
  apply (rule_text_intro _ [] [] v); [by left|constructor|constructor| |vm_compute; discriminate|vm_compute; reflexivity].
  apply vt_object; [constructor|]. apply me_one; [by apply plain_str|by repeat constructor|by repeat constructor| |constructor].
  apply vt_object; [constructor|]. apply me_more; [by apply plain_str|by repeat constructor|by repeat constructor| |by repeat constructor|by repeat constructor|].
  { apply vt_str. by apply plain_str. }
  apply me_more; [by apply plain_str|by repeat constructor|by repeat constructor| |by repeat constructor|by repeat constructor|].
  { apply vt_num. apply digits_num; [done|done|cbn; lia]. }
  apply me_one; [by apply plain_str|by repeat constructor|by repeat constructor| |constructor].
  apply vt_num. apply digits_num; [done|done|cbn; lia].
Qed.

Lemma rule_text_decides_witness :
  ∃ f', coprocessor_setup always one_rule_file "fw" zero_firewall = Ok (0, f') ∧
    fw_process_packet f' pkt_b = Ok (-1, count_total f').
Proof.
  destruct (rule_text_decides always one_rule_file "fw" zero_firewall one_rule one_rule_text empty_table) as (f' & Hset & Hv);
    [done|done|apply loadable_check_sound; vm_compute; reflexivity|exact one_rule_text_ok|reflexivity|vm_compute; reflexivity|].
  exists f'. split; [exact Hset|]. rewrite (Hv pkt_b 1); [reflexivity|apply sample_wf|vm_compute; reflexivity..].
Defined.

Lemma teardown_frees_once_witness :
  ∃ f1 f2, coprocessor_setup always one_rule_file "fw" zero_firewall = Ok (0, f1) ∧
    coprocessor_teardown f1 = Ok (0, f2) ∧ coprocessor_teardown f2 = Fault UseAfterFree.
Proof.
  destruct (one_rule_says zero_firewall) as (h1 & Hsays).
  destruct (coprocessor_setup_spec always one_rule_file (λ _ _, eq_refl) "fw" zero_firewall h1 one_rule
    empty_table Hsays eq_refl) as (t' & Hset & _).
  destruct (teardown_frees_once always one_rule_file "fw" zero_firewall h1 one_rule empty_table _
    (λ _ _, eq_refl) Hsays eq_refl Hset) as (f2 & Ht1 & _ & Ht2).
  eexists _, f2. split; [exact Hset|]. split; [exact Ht1|exact Ht2].
Defined.

(** The set-up returned 0 and every action in the table is 0. *)
Definition all_accept (m : outcome (Z * firewall)) : bool :=
  match m with
  | Ok (r, f) =>
      (r =? 0) &&
      match lpm_tbl f with
      | Some t => forallb (λ p, p.2 =? 0) (map_to_list (t : gmap (Z * Z) Z))
      | None => false
      end
  | _ => false
  end.

Lemma all_accept_sound m :
  all_accept m = true →
  ∃ f (t : gmap (Z * Z) Z), m = Ok (0, f) ∧ lpm_tbl f = Some t ∧ map_Forall (λ _ a, a = 0) t.
Proof.
  destruct m as [[r f]| |]; cbn; [|done..]. intros [Hr Hall]%andb_true_iff. apply Z.eqb_eq in Hr as ->.
  destruct (lpm_tbl f) as [t|] eqn:Ht; [|done]. exists f, t. split_and!; [done..|]. intros k a Hka.
  rewrite forallb_forall in Hall. apply elem_of_map_to_list, list_elem_of_In, Hall in Hka. by apply Z.eqb_eq.
Qed.

Lemma longest_accept (t : gmap (Z * Z) Z) ip a :
  map_Forall (λ _ a, a = 0) t → lpm_longest t ip = Some a → a = 0.
Proof.
  unfold lpm_longest. generalize (reverse (seqZ 1 32)). intros l Hall El. apply head_Some_elem_of in El.
  apply list_elem_of_omap in El as (d & _ & Hd). by eapply Hall.
Qed.

(** With the rule file of the repository and the reference table, the
    set-up succeeds and the firewall then forwards every IPv4 packet: both rules
    accept, and so does the lookup that matches none. *)
Theorem shipped_rules_forward_everything :
  ∃ f, coprocessor_setup always (λ _, Some shipped_rules_text) "fw" zero_firewall = Ok (0, f) ∧
    ∀ pkt, wf_mbuf pkt → ip_version pkt = 4 → fw_process_packet f pkt = Ok (0, count_total f).
Proof.
  destruct (all_accept_sound (coprocessor_setup always (λ _, Some shipped_rules_text) "fw" zero_firewall))
    as (f & t & -> & Ht & Hall); [vm_compute; reflexivity|].
  exists f. split; [done|]. intros pkt Hp Hv. rewrite process_packet_spec, Hv, Ht by done. cbn.
  destruct (lpm_longest t (ip_src pkt)) as [a|] eqn:El; [|done]. cbn. by rewrite (longest_accept t _ a Hall El).
Qed.
End Witnesses.
