(* ===== verification/SwitchProps.v ===== *)
(** * Properties of the switch *)
From S2P Require Import Prelude Dpdk Stdio Config CJsonData CJsonText CJsonParse CJsonQuery CJsonProps Switch.
From S2P Require Import SwitchInv SwitchSpec FastPath Firewall FirewallSpec Coprocessor SetupSteps Interface Engine.
From S2P Require Import EngineSteps EngineSpec EngineSafety Samples.

Section properties.
Context `{ByteOrderLaws, RteRingLaws, RteKniLaws}.

(** C15: from every well-formed state one pass of the fast path returns,
    with or without network functions, re-establishes the invariant (buffer
    bounds, live rings and ports, every packet staged only on its route),
    neither loses nor duplicates a packet, and leaves the port and receive
    staging buffers empty. *)
Theorem fastpath_correct `{Policy} D s :
  bypass_ok D → wf_but None s →
  ∃ s', fastpath D 5 5 s = Ok s' ∧ wf_but None s' ∧ (∀ x, bal x s' = bal x s) ∧
    ∀ j, empty_tx j s' ∧ empty_rx j s'.
Proof. apply fastpath_spec. Qed.

(** C16: one pass of a coprocessor, for every network function that meets
    the interface: it returns, keeps both invariants and the packet balance, or
    its ring holds a packet that the network function does not admit. *)
Theorem coprocessor_correct `{Policy} {F} `{NetworkFunction F} {spec : NetworkFunctionSpec} i s f c r :
  nf_state_ok f → wf_but None s → 0 <= i < 5 → nf (sw s) !! Z.to_nat i = Some c → rx_q c = Some r →
  match coprocessor i (s, f) with
  | Ok (s', f') => nf_state_ok f' ∧ wf_but None s' ∧ ∀ x, bal x s' = bal x s
  | _ => ∃ p, p ∈ ring_items r ∧ ¬ nf_admits p
  end.
Proof. apply coprocessor_spec. Qed.

(** C32: flushing the staging buffer of a port hands all of it to the port
    in one burst, frees exactly the packets the port did not take, in order,
    adds both numbers to the 64-bit counters of the port and empties the
    buffer. *)
Theorem flush_port_effect `{Policy} s i b k n k' st :
  wf_but None s → 0 <= i < 5 → tx_of s !! Z.to_nat i = Some b → contents b ≠ [] →
  kni_list (sw s) !! Z.to_nat i = Some (Some k) → rte_kni_tx_burst k (contents b) = (n, k') →
  kni_stats s !! Z.to_nat i = Some st →
  ∃ s', flush_port_queue i s = Ok s' ∧
    kni_list (sw s') !! Z.to_nat i = Some (Some k') ∧
    freed s' = freed s ++ drop (Z.to_nat n) (contents b) ∧
    kni_stats s' !! Z.to_nat i = Some (KniStats (u64 (k_rx_packets st + 0)) (u64 (k_parse_err st + 0))
      (u64 (k_tx_packets st + n)) (u64 (k_tx_dropped st + (zlen (contents b) - n)))) ∧
    empty_tx (Z.to_nat i) s'.
Proof.
  intros Hs Hi Hb Hne Hk Htx Hst.
  destruct (flush_port_run None s i Hs Hi) as (b' & l & k0 & Hb' & Hl & _ & Hk0 & _ & Hrun). simplify_eq.
  rewrite (holds_contents b l Hl) in *. rewrite bool_decide_eq_false_2 in Hrun by done.
  destruct Hrun as (n' & k'' & s1 & Htx' & _ & Hstats & ->). rewrite Htx in Htx'. injection Htx' as <- <-. eexists. split; [done|].
  unfold add_kni_stats in Hstats. rewrite (proj2 (arr_get_Ok _ _ st)) in Hstats by (split; [lia|exact Hst]).
  cbn in Hstats. injection Hstats as <-.
  pose proof (wf_tx_live _ _ Hs) as Htl. unfold put_tx_buf. cbn. rewrite Htl. cbn. split_and!.
  - apply list_lookup_insert_eq. rewrite (wf_kni_len _ _ Hs). lia.
  - done.
  - apply list_lookup_insert_eq. rewrite (wf_kstats _ _ Hs). lia.
  - intros b0. cbn. rewrite list_lookup_insert_eq by (rewrite (wf_tx_len _ _ Hs); lia). intros [= <-]. apply contents_reset.
Qed.
End properties.

Section startup.
Context `{ByteOrderLaws, RteRing, RteKniLaws, RteLpm}.

(** C33: after [main], the next hop of every packet: port [i] for a
    destination x.y.10.(i+1), the drop marker for packets that are not IPv4 and
    for the destinations x.y.0.0 to x.y.0.4, and port 0 for all others. *)
Theorem next_hop_after_main eal pool_ok calloc_ok n_lcore lcore_index e pkt :
  main eal pool_ok calloc_ok n_lcore lcore_index = Ok e → wf_mbuf pkt →
  get_next_hop pkt (e_sw e) = Ok
    (if be16_at pkt 12 =? ETHER_TYPE_IPv4 then
       let dst := be16_at pkt 32 in
       if (2561 <=? dst) && (dst <? 2566) then dst - 2561
       else if dst <? 5 then UNKNOWN_PORT else 0
     else UNKNOWN_PORT).
Proof.
  intros Hmain Hp. destruct (main_started _ _ _ _ _ _ Hmain) as (t & l & -> & Ht & _).
  rewrite get_next_hop_spec by done. unfold next_hop. cbn [e_sw zero_switch sw set_kni_list configured tx_mgr routing_table].
  destruct (be16_at pkt 12 =? ETHER_TYPE_IPv4); [|done]. f_equal. rewrite Ht. unfold configured_route.
  pose proof (be16_at_range pkt 32 Hp ltac:(lia)).
  destruct (Z.leb_spec 2561 (be16_at pkt 32)), (Z.ltb_spec (be16_at pkt 32) 2566), (Z.ltb_spec (be16_at pkt 32) 5);
    cbn [andb]; repeat case_decide; try lia; done.
Qed.

(** C39: [read_config] does not test the rings it creates.  When the transmit
    ring of coprocessor [i] cannot be created but the calls that [main] checks
    succeed (the start of DPDK, both allocations of [init], the virtual ports, six
    cores with valid indices), [main] starts the threads, and draining that
    coprocessor dereferences a null pointer. *)
Theorem unchecked_ring_faults eal lcore_index i :
  0 <= eal → (∀ c, 0 <= c < KNI_KTHREAD + 1 → lcore_index c ≠ -1) →
  (∀ k, (k < 5)%nat → is_Some (rte_kni_alloc (kni_conf_of 0 k))) → (i < 5)%nat →
  rte_ring_create (string_of_bytes (get_tx_queue_name (Z.of_nat i))) NF_QUEUE_RINGSIZE = None →
  ∃ e, main eal true true (KNI_KTHREAD + 1) lcore_index = Ok e ∧
    e_rx e = RxTest ∧ e_co e = replicate 5 Starting ∧ drain_coprocessor (Z.of_nat i) (e_sw e) = Fault NullDereference.
Proof.
  intros Heal Hidx Hkni Hi Hnone. destruct (main_starts eal (KNI_KTHREAD + 1) lcore_index Heal eq_refl Hidx Hkni) as [e Hmain].
  exists e. split; [exact Hmain|]. destruct (main_started _ _ _ _ _ _ Hmain) as (t & l & -> & _).
  split; [done|]. split; [done|]. unfold drain_coprocessor, drain_poll, get_nf. cbn [e_sw zero_switch sw set_kni_list configured nf].
  rewrite (proj2 (arr_get_Ok _ _ (configured_nf i zero_coprocessor_mgr))).
  - cbn [mbind outcome_bind]. unfold configured_nf. cbn [tx_q]. by rewrite Hnone.
  - split; [lia|]. rewrite Nat2Z.id, list_lookup_imap, lookup_replicate_2 by done. done.
Qed.
End startup.

(** ** Evaluation on the sample run *)
Module Witnesses.
Import Sample.

(** The ring of coprocessor 1 is filled; the port buffer 1 is filled. *)
Abbreviation ring_filled := (after packets (take 90 schedule)).
Abbreviation port_filled := (after packets (take 139 schedule)).

Lemma fastpath_correct_witness :
  ∃ s', fastpath false 5 5 (e_sw ring_filled) = Ok s' ∧ (∀ x, bal x s' = bal x (e_sw ring_filled)).
Proof.
  destruct (sample_inv (take 90 schedule)) as [t [Hinv Hfw]]; [vm_compute; reflexivity|].
  destruct (@fastpath_correct _ _ _ _ _ _ (engine_policy t one_rule) false (e_sw ring_filled)) as (s' & Hrun & _ & Hb & _);
    [done|exact (inv_wf _ Hinv)|]. exists s'. split; [exact Hrun|exact Hb].
Defined.

Lemma coprocessor_correct_witness :
  is_ok (coprocessor 1 (e_sw ring_filled, e_fw ring_filled)) = true ∧
  match coprocessor 1 (e_sw ring_filled, e_fw ring_filled) with
  | Ok (s', f') => ∀ x, bal x s' = bal x (e_sw ring_filled)
  | _ => ∃ p, ip_version p ≠ 4
  end.
Proof.
  split; [vm_compute; reflexivity|].
  destruct (sample_inv (take 90 schedule)) as [t [Hinv Hfw]]; [vm_compute; reflexivity|].
  assert (e_co ring_filled !! 1%nat = Some Running) as Hone by (vm_compute; reflexivity).
  pose proof (lookup_active ring_filled 1%nat Running Hone I) as Hrun.
  assert (existsb setting_up (e_co ring_filled) = false) as Hquiet by (vm_compute; reflexivity).
  destruct (inv_tbl _ _ _ _ Hfw Hquiet Hrun) as (tb & Ht & Hm).
  destruct (is_some_ex (nf (sw (e_sw ring_filled)) !! 1%nat)) as [c Hc]; [vm_compute; reflexivity|].
  destruct (wf_nf _ _ (inv_wf _ Hinv) _ _ Hc) as ((r & Hr & _) & _).
  pose (P := engine_policy t one_rule : Policy).
  pose proof (coprocessor_correct
    (spec := firewall_spec (e_fw ring_filled) (λ pkt, table_accepts t one_rule _ tb pkt Ht Hm))
    1 (e_sw ring_filled) (e_fw ring_filled) c r) as Hco.
  assert (same_config (e_fw ring_filled) (e_fw ring_filled)) as Hf by (repeat split).
  specialize (Hco Hf (inv_wf _ Hinv) ltac:(lia) Hc Hr).
  destruct (coprocessor 1 (e_sw ring_filled, e_fw ring_filled)) as [[s' f']| |].
  - destruct Hco as (_ & _ & Hb). exact Hb.
  - destruct Hco as (p & _ & Hp). exists p. exact Hp.
  - destruct Hco as (p & _ & Hp). exists p. exact Hp.
Defined.

Lemma flush_port_effect_witness :
  ∃ s', flush_port_queue 1 (e_sw port_filled) = Ok s' ∧ empty_tx 1 s'.
Proof.
  destruct (sample_inv (take 139 schedule)) as [t [Hinv Hfw]]; [vm_compute; reflexivity|].
  destruct (is_some_ex (tx_of (e_sw port_filled) !! 1%nat)) as [b Hb]; [vm_compute; reflexivity|].
  destruct (is_some_ex (kni_list (sw (e_sw port_filled)) !! 1%nat)) as [[k|] Hk]; [vm_compute; reflexivity| |].
  2: { destruct (wf_kni _ _ (inv_wf _ Hinv) _ _ Hk) as (k & Hnone & _). discriminate Hnone. }
  destruct (is_some_ex (kni_stats (e_sw port_filled) !! 1%nat)) as [st Hst]; [vm_compute; reflexivity|].
  destruct (rte_kni_tx_burst k (contents b)) as [n k'] eqn:Htx.
  pose (P := engine_policy t one_rule : Policy).
  destruct (flush_port_effect (e_sw port_filled) 1 b k n k' st)
    as (s' & Hrun & _ & _ & _ & He); [exact (inv_wf _ Hinv)|lia|exact Hb| |exact Hk|exact Htx|exact Hst|].
  - assert (contents <$> tx_of (e_sw port_filled) !! 1%nat = Some [pkt_a]) as Hc by (vm_compute; reflexivity).
    rewrite Hb in Hc. injection Hc as ->. discriminate.
  - exists s'. split; [exact Hrun|exact He].
Defined.

Lemma next_hop_after_main_witness :
  get_next_hop pkt_a (e_sw (boot packets)) = Ok 1 ∧
  get_next_hop (frame 9 4 [10; 0; 0; 7] [8; 8; 8; 8]) (e_sw (boot packets)) = Ok 0.
Proof.
  split.
  - apply (next_hop_after_main 0 true true 6 (λ i, i) (boot packets) pkt_a booted). vm_compute. split; [discriminate|].
    repeat constructor; discriminate.
  - apply (next_hop_after_main 0 true true 6 (λ i, i) (boot packets) (frame 9 4 [10; 0; 0; 7] [8; 8; 8; 8]) booted).
    vm_compute. split; [discriminate|]. repeat constructor; discriminate.
Defined.

(** Rings that cannot be created. *)
Definition no_rings : RteRing := {|
  ring := list mbuf;
  rte_ring_create _ _ := None;
  rte_ring_enqueue_bulk r l := (zlen l, r ++ l);
  rte_ring_dequeue_burst r k := (take (Z.to_nat k) r, drop (Z.to_nat k) r) |}.

Lemma unchecked_ring_faults_witness :
  ∃ e, @main no_rings ports Reference.lpms 0 true true 6 (λ i, i) = Ok e ∧
    @drain_coprocessor no_rings ports 0 (e_sw e) = Fault NullDereference.
Proof.
  destruct (@unchecked_ring_faults no_rings ports Reference.lpms 0 (λ i, i) 0%nat) as (e & He & _ & _ & Hf).
  - lia.
  - intros c Hc. lia.
  - intros k _. by eexists.
  - lia.
  - reflexivity.
  - exists e. split; [exact He|exact Hf].
Defined.
End Witnesses.
