(* ===== verification/EngineProps.v ===== *)
(** * Properties of the whole engine *)
From S2P Require Import Prelude Dpdk Stdio Config CJsonData CJsonText CJsonTextSafe CJsonParse CJsonQuery.
From S2P Require Import CJsonProps Switch SwitchInv SwitchSpec FastPath Firewall FirewallSpec Coprocessor SetupSteps.
From S2P Require Import Interface Engine EngineSteps EngineSpec EngineSafety EngineRace EngineTypes SwitchOrder EngineOrder SwitchDrain EngineDrain Samples.

(** ** All interleavings

    [Hrings]: every ring could be created, which [read_config] does not test. *)
Section properties.
Context `{ByteOrderLaws, RteRingLaws, RteKniLaws, RteLpmLaws}.
Variable may_allocate : nat → Z → bool.
Variable files : string → option (list Z).
Variables (eal : Z) (pool_ok calloc_ok : bool) (n_lcore : Z) (lcore_index : Z → Z) (e0 e : engine).
Hypothesis Hrings : rings_ok.
Hypothesis Hmain : main eal pool_ok calloc_ok n_lcore lcore_index = Ok e0.
Hypothesis Hreach : rtc (step may_allocate files) e0 e.

Lemma next_hop_configured t i pkt :
  (∀ k, route t k = configured_route ∅ k) → i ≠ UNKNOWN_PORT →
  be16_at pkt 12 = ETHER_TYPE_IPv4 ∧ configured_route ∅ (be16_at pkt 32) = i ↔ next_hop t pkt = i.
Proof.
  intros Ht Hi. unfold next_hop. rewrite Ht. destruct (Z.eqb_spec (be16_at pkt 12) ETHER_TYPE_IPv4); [tauto|].
  split; [tauto|]. intros Hu. by destruct Hi.
Qed.

Lemma reached : ∃ t l, started e0 t l ∧ data_inv (pol := accept_all t) e0 ∧ data_inv (pol := accept_all t) e.
Proof using All.
  destruct (main_started _ _ _ _ _ _ Hmain) as (t & l & Hst). exists t, l. split; [done|].
  assert (data_inv (pol := accept_all t) e0) as Hinv0 by (by apply (started_data (pol := accept_all t) e0 t l)).
  split; [done|]. by eapply reachable_data.
Qed.

(** C1: when all rings could be created ([read_config] does not test this, see
    [unchecked_ring_faults]), in every state that any interleaving of the receive
    thread, the coprocessor threads and signals can reach after [main] has started
    them, every packet received from a virtual port is accounted for exactly once:
    it was delivered to a virtual port, given back to the pool, is held in a staging
    buffer or ring, or is in the burst a thread has in hand. Nothing is lost,
    duplicated or made up. *)
Theorem engine_conserves_packets x :
  received x (e_sw e) = delivered x (e_sw e) + occ x (freed (e_sw e)) + held x (e_sw e) + in_hand x e.
Proof using All.
  destruct reached as (t & l & _ & _ & Hinv). pose proof (inv_bal _ Hinv x) as Hb. unfold bal in Hb. lia.
Qed.

(** C3: the engine keeps packets in order. When all rings could be created, in
    every reachable state, the packets sent to virtual port [i], in the order in
    which they were sent, are a sublist of an interleaving of the sequences of
    packets that were received from each virtual port for port [i]. So no packet
    overtakes another one that came from the same port for the same port, whatever
    the threads' interleaving, however buffers and rings fill up and whatever is
    dropped. *)
Theorem engine_keeps_order i k :
  kni_list (sw (e_sw e)) !! i = Some (Some k) →
  ∃ log,
    merges ((λ j, filter (λ pkt, be16_at pkt 12 = ETHER_TYPE_IPv4 ∧ configured_route ∅ (be16_at pkt 32) = Z.of_nat i)
                    (recvd_of (e_sw e) j)) <$> seq 0 5) log ∧
    kni_sent k `sublist_of` log.
Proof using All.
  intros Hk. destruct reached as (t & l & Hst & Hinv0 & Hinv).
  pose proof (reachable_ordered may_allocate files t e0 e Hinv0 (started_ordered t e0 t l Hst Hrings) Hreach i) as (log & Hm & Hs).
  assert ((i < 5)%nat) as Hi.
  { apply lookup_lt_Some in Hk. by rewrite (wf_kni_len _ _ (inv_wf _ Hinv)) in Hk. }
  destruct Hst as (_ & Ht & _). exists log. split.
  - match goal with |- merges ?ls _ => enough (ls = arrivals_for t (e_sw e) i) as -> by exact Hm end.
    apply list_fmap_ext. intros _ j _. apply list_filter_iff. intros pkt.
    apply (next_hop_configured t); [done|unfold UNKNOWN_PORT; lia].
  - etrans; [|exact Hs]. unfold stream_of, stream, sent_of. rewrite Hk, <-app_assoc. by apply sublist_inserts_r.
Qed.

(** C5: the engine forwards what it holds. From any state that is reachable when
    all rings could be created, in which all coprocessors are set up and no stop was
    requested, consider a run during which nothing is received and no stop signal is
    delivered, and which consists of at least as many sweeps as there is work left
    for any port ([backlog], at most eight times the number of packets held for the
    port or just received). A sweep is any interleaving in which the receive thread
    makes as many steps as a round of its loop can have (363) and each coprocessor
    as many as a pass can have (35). At the end no packet is held in a buffer or
    ring or in hand: each one ever received was delivered or freed. *)
Theorem engine_drains `{!RteRingProgress} segs e' :
  running e → Forall sweep segs → calm (concat segs) → execs may_allocate files (concat segs) e e' →
  same_recvd (e_sw e) (e_sw e') → (∀ j, (j < 5)%nat → (backlog e j <= length segs)%nat) →
  ∀ x, held x (e_sw e') = 0 ∧ in_hand x e' = 0 ∧ received x (e_sw e') = delivered x (e_sw e') + occ x (freed (e_sw e')).
Proof using All.
  intros Hr Hsw Hc Hrun Hq Hb x. destruct reached as (t & l & Hst & Hinv0 & Hinv).
  assert (pc_ok e) as Hpc.
  { eapply (reachable_pc_ok may_allocate files t); [exact Hinv0|exact Hreach|]. by destruct Hst as (-> & _). }
  destruct (execs_going may_allocate files t (concat segs) e e' (conj Hinv Hr) Hc Hrun) as [Hinv' _].
  assert (held x (e_sw e') = 0 ∧ in_hand x e' = 0) as [Hh Hn].
  { apply (drained_held t); [done|]. intros j Hj.
    apply (sweeps_drain may_allocate files t segs e e' j (conj Hinv Hr)); auto. }
  split_and!; [done..|]. pose proof (inv_bal _ Hinv' x) as Hbal. unfold bal in Hbal. lia.
Qed.

(** C12: when all rings could be created, in every reachable state the data of
    the engine has its C types: the counters of the switch and of the firewall are
    64-bit, [kni_stop] and [num_rules] are [int]s, the fields of the rules are of 32
    and 8 bits, the entries of the routing table of 16; the arrays have their
    declared lengths, all ports and rings are allocated, every slot of a staging
    buffer below its count, which is at most 32, holds a packet descriptor, and no
    thread has a burst of more than 32 packets in hand. *)
Theorem engine_well_typed : engine_typed e.
Proof using All.
  destruct reached as (t & l & Hst & _ & Hinv). apply (inv_typed (pol := accept_all t)); [done| |].
  - intros k Hk. destruct Hst as (_ & -> & _). unfold configured_route, is_u16, UINT16_MAX in *.
    repeat case_decide; unfold route; rewrite ?lookup_empty; cbn; lia.
  - by eapply reachable_typed, started_typed.
Qed.

End properties.

(** ** Set-ups in turn

    [serial_step]: a coprocessor takes a step only while no other one is setting up.
    [Henv]: memory suffices, the rule file states the rules [rs], and the table can
    be created and takes them. *)
Section serial.
Context `{ByteOrderLaws, RteRingLaws, RteKniLaws, RteLpmLaws}.
Variable may_allocate : nat → Z → bool.
Variable files : string → option (list Z).
Variable rs : list rule_spec.
Variables (eal : Z) (pool_ok calloc_ok : bool) (n_lcore : Z) (lcore_index : Z → Z) (e0 e : engine).
Hypothesis Hrings : rings_ok.
Hypothesis Henv : fw_environment may_allocate files rs.
Hypothesis Hmain : main eal pool_ok calloc_ok n_lcore lcore_index = Ok e0.
Hypothesis Hreach : rtc (serial_step may_allocate files) e0 e.

Lemma serial_reached : ∃ t l, started e0 t l ∧ engine_inv may_allocate files t rs e.
Proof using All.
  destruct (main_started _ _ _ _ _ _ Hmain) as (t & l & Hst). exists t, l. split; [done|].
  eapply reachable_inv; [exact Henv| |exact Hreach]. by eapply started_inv.
Qed.

(** C2: when all rings could be created, memory suffices, the rule file states
    the rules [rs], the table can be created and takes all of them, and no
    coprocessor takes a step while another one is setting up ([setup_race_faults]
    and [setup_race_ignores_rules] show what happens otherwise), in every reachable
    state every packet that was sent to virtual port [i] is an IPv4 packet whose
    destination the configured routing table maps to port [i], and the most specific
    firewall rule that matches its source, if there is one, has action 0. *)
Theorem engine_delivers_policy i k pkt :
  kni_list (sw (e_sw e)) !! i = Some (Some k) → pkt ∈ kni_sent k →
  be16_at pkt 12 = ETHER_TYPE_IPv4 ∧ configured_route ∅ (be16_at pkt 32) = Z.of_nat i ∧
  ∀ action, lpm_longest (rule_map rs) (ip_src pkt) = Some action → action = 0.
Proof using All.
  intros Hk Hp. destruct serial_reached as (t & l & (_ & Ht & _) & Hinv & _).
  destruct (wf_kni _ _ (inv_wf _ Hinv) i _ Hk) as (k' & [= <-] & Hall).
  rewrite Forall_forall in Hall. destruct (Hall _ Hp) as [[_ Hhop] Hacc]. unfold next_hop in Hhop.
  assert ((i < 5)%nat) as Hi.
  { apply lookup_lt_Some in Hk. by rewrite (wf_kni_len _ _ (inv_wf _ Hinv)) in Hk. }
  destruct (Z.eqb_spec (be16_at pkt 12) ETHER_TYPE_IPv4); [|unfold UNKNOWN_PORT in Hhop; lia].
  split_and!; [done| |exact Hacc]. rewrite <-Hhop. symmetry. apply Ht.
Qed.

(** C4: when all rings could be created, memory suffices, the rule file states
    the rules [rs], the table can be created and takes all of them, and no
    coprocessor takes a step while another one is setting up ([setup_race_faults]
    and [setup_race_ignores_rules] show what happens otherwise), in every reachable
    state every step of every thread returns normally, without undefined behaviour
    and without ending the process, unless it is the step of a coprocessor on a
    received packet with an IP version other than 4, or the tear-down of a
    coprocessor after another one has torn down. *)
Theorem engine_step_safe l m :
  undisturbed l e = true → exec may_allocate files l e = Some m → ¬ crash_cause l e → ∃ e', m = Ok e'.
Proof using All.
  intros Hu Hm Hno. destruct serial_reached as (t & l0 & _ & Hinv).
  pose proof (exec_inv may_allocate files t rs l e m Henv Hinv Hu Hm) as Hres.
  destruct m as [e'| |]; [by exists e'|done..].
Qed.

(** C28: under the conditions of [engine_step_safe], when a stop was requested,
    no coprocessor has stopped yet and none is setting up, the tear-down of the
    first running coprocessor returns and the tear-down of any second one is a use
    after free (a double free for an empty rule set): all of them free the one
    shared rule array. *)
Theorem shutdown_faults i j name1 name2 :
  kni_stop (sw (e_sw e)) ≠ 0 → Stopped ∉ e_co e → existsb setting_up (e_co e) = false → i ≠ j →
  e_co e !! i = Some Running → e_co e !! j = Some Running →
  ∃ e1, exec may_allocate files (LCo i name1) e = Some (Ok e1) ∧
    exec may_allocate files (LCo j name2) e1 = Some (Fault (if 0 <? zlen rs then UseAfterFree else DoubleFree)).
Proof using All.
  intros Hstop Hno Hq Hij Hi Hj. destruct serial_reached as (t & l0 & _ & _ & Hinv).
  destruct (inv_fw _ _ _ _ Hinv Hq (lookup_active e i Running Hi I) Hno) as (_ & h1 & Hr & Hn & Hh).
  destruct (teardown_twice (e_fw e) rs h1 Hr Hn Hh) as (f' & Ht1 & _ & Ht2).
  cbn [exec]. unfold co_step. rewrite Hi. destruct (Z.eqb_spec (kni_stop (sw (e_sw e))) 0); [done|]. cbn [negb].
  rewrite Ht1. eexists. split; [done|]. cbn [e_co e_sw e_fw]. rewrite list_lookup_insert_ne, Hj by done.
  destruct (Z.eqb_spec (kni_stop (sw (e_sw e))) 0); [done|]. cbn [negb]. by rewrite Ht2.
Qed.
End serial.

(** ** Set-ups that overlap *)
Section overlapping.
Context `{ByteOrderLaws, RteRingLaws, RteKniLaws, RteLpmLaws}.
Variable may_allocate : nat → Z → bool.
Variable files : string → option (list Z).
Variable rs : list rule_spec.
Hypothesis Hmalloc : ∀ n size, may_allocate n size = true.
Hypothesis Hfile : ∀ f, ∃ h1, rule_file_says may_allocate files f h1 rs.

(** C29: set-ups must not overlap.  Whatever the state, when two coprocessors
    have yet to set up and the rule file holds a rule, some run of these two
    threads alone ends in undefined behaviour although memory suffices and the
    file is in order: one of them reads the rules, the other one replaces the
    shared array, and the first one adds to its table a rule that was never
    written. *)
Theorem setup_race_faults e i j :
  rs ≠ [] → i ≠ j → e_co e !! i = Some Starting → e_co e !! j = Some Starting →
  ∃ ls e' name, Forall (λ l, l = LCo i name ∨ l = LCo j name) ls ∧ execs may_allocate files ls e e' ∧
    exec may_allocate files (LCo i name) e' = Some (Fault Uninitialised).
Proof using Hfile Hmalloc. by apply overlap_faults. Qed.

(** C30: a set-up suspends the rules of the coprocessors that are at
    work.  Suppose that all rings were created, memory suffices and the rule file is
    in order.  In every state that the engine then reaches after [main], when
    coprocessor [i] has an IPv4 packet in hand and coprocessor [k] has yet to set
    up, there is a run of thread [k] alone after which the next step of coprocessor
    [i] does not go by the rules, whatever they say of the packet: thread [k] has
    put a new table in the place of the shared one, the lookup in it finds no rule,
    and the packet is sent on exactly if the lookup leaves 0, its initial value, in
    the variable [rule], which DPDK does not define for a lookup that fails. *)
Theorem setup_race_ignores_rules eal pool_ok calloc_ok n_lcore lcore_index e0 e i k p pkts name :
  rings_ok → main eal pool_ok calloc_ok n_lcore lcore_index = Ok e0 → rtc (step may_allocate files) e0 e →
  e_co e !! i = Some (Busy (p :: pkts)) → e_co e !! k = Some Starting → ip_version p = 4 →
  ∃ ls e1 e2, Forall (λ l, l = LCo k name) ls ∧ execs may_allocate files ls e e1 ∧
    exec may_allocate files (LCo i name) e1 = Some (Ok e2) ∧
    let '(ret, rule) := rte_lpm_lookup (rte_lpm_create name 1024 24) (ip_src p) 0 in
    (is_Some (rte_lpm_create name 1024 24) → ret < 0) ∧
    if rule =? 0 then enqueue_nf_tx p (Z.of_nat i) (e_sw e) = Ok (e_sw e2) else e_sw e2 = rte_pktmbuf_free (Some p) (e_sw e).
Proof using All.
  intros Hrings Hmain Hreach Hi Hk Hv.
  edestruct reached as (t & l & _ & _ & Hinv); [exact Hrings|exact Hmain|exact Hreach|].
  by apply (overlap_ignores_rules may_allocate files rs t) with pkts.
Qed.
End overlapping.

(** Whatever the results of the calls into DPDK, [main] either starts the
    threads in the configured state, with all five virtual ports allocated and
    the routing table set, or ends the process with a message; it never runs into
    undefined behaviour. *)
Theorem main_outcome `{RteRing, RteKni, RteLpm} eal pool_ok calloc_ok n_lcore lcore_index :
  (∃ e t l, main eal pool_ok calloc_ok n_lcore lcore_index = Ok e ∧ started e t l) ∨
  (∃ msg, main eal pool_ok calloc_ok n_lcore lcore_index = Exit msg).
Proof.
  destruct (main_result eal pool_ok calloc_ok n_lcore lcore_index) as [[e He]|Hexit]; [left|by right].
  destruct (main_started _ _ _ _ _ _ He) as (t & l & Hst). by exists e, t, l.
Qed.

(** ** Evaluation on a sample run: two packets arrive on port 0 for port 1, the
    firewall drops one of them. *)
Module Witnesses.
Import Sample.

Lemma engine_conserves_packets_witness :
  (received pkt_a (e_sw final) = 1 ∧ delivered pkt_a (e_sw final) = 1) ∧
  received pkt_a (e_sw final) =
    delivered pkt_a (e_sw final) + occ pkt_a (freed (e_sw final)) + held pkt_a (e_sw final) + in_hand pkt_a final.
Proof.
  split; [vm_compute; done|].
  apply (engine_conserves_packets always one_rule_file 0 true true 6 (λ i, i) (boot packets) final
    sample_rings_ok booted final_steps).
Defined.

Lemma engine_delivers_policy_witness :
  ∃ k, kni_list (sw (e_sw final)) !! 1%nat = Some (Some k) ∧ pkt_a ∈ kni_sent k ∧
    be16_at pkt_a 12 = ETHER_TYPE_IPv4 ∧ configured_route ∅ (be16_at pkt_a 32) = 1 ∧
    ∀ action, lpm_longest (rule_map one_rule) (ip_src pkt_a) = Some action → action = 0.
Proof.
  eexists. split; [vm_compute; reflexivity|]. split; [left|].
  eapply (engine_delivers_policy always one_rule_file one_rule 0 true true 6 (λ i, i) (boot packets) final
    sample_rings_ok one_rule_environment booted final_reached 1 _ pkt_a); [vm_compute; reflexivity|left].
Defined.

(** The one packet that reaches port 1 is a part of the two that arrived for it. *)
Lemma engine_keeps_order_witness :
  ∃ k log, kni_list (sw (e_sw final)) !! 1%nat = Some (Some k) ∧ kni_sent k = [pkt_a] ∧
    merges ((λ j, filter (λ pkt, be16_at pkt 12 = ETHER_TYPE_IPv4 ∧ configured_route ∅ (be16_at pkt 32) = 1)
                    (recvd_of (e_sw final) j)) <$> seq 0 5) log ∧ kni_sent k `sublist_of` log.
Proof.
  assert (is_some (kni_list (sw (e_sw final)) !! 1%nat) = true) as [[k|] Hk]%is_some_ex by (vm_compute; reflexivity).
  2:{ exfalso. by vm_compute in Hk. }
  destruct (engine_keeps_order always one_rule_file 0 true true 6 (λ i, i) (boot packets) final
    sample_rings_ok booted final_steps 1%nat k Hk) as (log & Hm & Hs).
  exists k, log. split; [exact Hk|]. split; [|split; [exact Hm|exact Hs]].
  vm_compute in Hk. by injection Hk as <-.
Defined.

(** One of two packets is in the receive buffer of coprocessor 1, the other one in
    hand; 15 sweeps are enough. *)
Lemma engine_drains_witness :
  held pkt_a (e_sw (after packets arrival)) = 1 ∧ in_hand pkt_b (after packets arrival) = 1 ∧
  received pkt_a (e_sw (after packets (arrival ++ concat (sweeps 15)))) =
    delivered pkt_a (e_sw (after packets (arrival ++ concat (sweeps 15)))) +
    occ pkt_a (freed (e_sw (after packets (arrival ++ concat (sweeps 15))))).
Proof.
  do 2 (split; [vm_compute; reflexivity|]).
  assert (is_some (run packets arrival (boot packets)) = true) as Ha by (vm_compute; reflexivity).
  assert (is_some (run packets (arrival ++ concat (sweeps 15)) (boot packets)) = true) as Hr by (vm_compute; reflexivity).
  eapply (engine_drains always one_rule_file 0 true true 6 (λ i, i) (boot packets) (after packets arrival)
    sample_rings_ok booted (serial_steps _ _ _ _ (after_reachable packets arrival Ha)) (sweeps 15));
    [| | |exact (after_execs packets arrival (concat (sweeps 15)) Hr)| |].
  - split; [|vm_compute; reflexivity]. apply Forall_lookup. intros i ph Hi.
    assert (e_co (after packets arrival) = replicate 5 Running) as Hco by (vm_compute; reflexivity).
    rewrite Hco in Hi. by apply lookup_replicate in Hi as [-> _].
  - apply Forall_replicate. split; [apply Nat.leb_le; vm_compute; reflexivity|].
    intros i Hi. apply Nat.leb_le. by do 5 (destruct i as [|i]; [vm_compute; reflexivity|]); lia.
  - apply (bool_decide_eq_true_1 _). vm_compute. reflexivity.
  - apply same_arrived. vm_compute. reflexivity.
  - intros j Hj. apply Nat.leb_le. do 5 (destruct j as [|j]; [vm_compute; reflexivity|]). lia.
Defined.

Lemma engine_well_typed_witness : engine_typed final.
Proof.
  exact (engine_well_typed always one_rule_file 0 true true 6 (λ i, i) (boot packets) final
    sample_rings_ok booted final_steps).
Defined.

Lemma engine_step_safe_witness :
  ∃ e', exec always one_rule_file (LCo 1 "fw") final = Some (Ok e').
Proof.
  destruct (is_some_ex (exec always one_rule_file (LCo 1 "fw") final)) as [m E]; [vm_compute; reflexivity|].
  rewrite E.
  destruct (engine_step_safe always one_rule_file one_rule 0 true true 6 (λ i, i) (boot packets) final
    sample_rings_ok one_rule_environment booted final_reached (LCo 1 "fw") m eq_refl E) as [e' ->]; [|by exists e'].
  intros (i & name & _ & [(p & pkts & Hi & _)|(_ & Hs & _)]).
  - revert Hi. assert (e_co final = replicate 5 Running) as -> by (vm_compute; reflexivity).
    by intros [? _]%lookup_replicate.
  - revert Hs. apply (bool_decide_eq_false_1 (Stopped ∈ e_co final)). vm_compute. reflexivity.
Defined.

Lemma shutdown_faults_witness :
  ∃ e1, exec always one_rule_file (LCo 0 "fw") stopping = Some (Ok e1) ∧
    exec always one_rule_file (LCo 1 "fw") e1 = Some (Fault UseAfterFree).
Proof.
  apply (shutdown_faults always one_rule_file one_rule 0 true true 6 (λ i, i) (boot packets) stopping
    sample_rings_ok one_rule_environment booted stopping_reached 0 1 "fw" "fw").
  - vm_compute. discriminate.
  - apply (bool_decide_eq_false_1 (Stopped ∈ e_co stopping)). vm_compute. reflexivity.
  - vm_compute. reflexivity.
  - done.
  - vm_compute. reflexivity.
  - vm_compute. reflexivity.
Defined.
(** The threads of coprocessors 0 and 1 right after [main]. *)
Lemma setup_race_faults_witness :
  ∃ ls e' name, Forall (λ l, l = LCo 0 name ∨ l = LCo 1 name) ls ∧ execs always one_rule_file ls (boot packets) e' ∧
    exec always one_rule_file (LCo 0 name) e' = Some (Fault Uninitialised).
Proof.
  apply (setup_race_faults always one_rule_file one_rule (λ _ _, eq_refl) one_rule_says);
    [discriminate|discriminate|vm_compute; reflexivity..].
Defined.

(** Coprocessor 1 has in hand the packet that the one rule drops; coprocessor 4
    has yet to set up. *)
Lemma setup_race_ignores_rules_witness :
  lpm_longest (rule_map one_rule) (ip_src pkt_b) = Some 1 ∧
  ∃ ls e1 e2, Forall (λ l, l = LCo 4 "fw") ls ∧ execs always one_rule_file ls (after packets half_set_up) e1 ∧
    exec always one_rule_file (LCo 1 "fw") e1 = Some (Ok e2) ∧
    enqueue_nf_tx pkt_b 1 (e_sw (after packets half_set_up)) = Ok (e_sw e2).
Proof.
  split; [vm_compute; reflexivity|].
  assert (is_some (run packets half_set_up (boot packets)) = true) as Hrun by (vm_compute; reflexivity).
  destruct (setup_race_ignores_rules always one_rule_file one_rule (λ _ _, eq_refl) one_rule_says 0 true true 6 (λ i, i)
    (boot packets) (after packets half_set_up) 1%nat 4%nat pkt_b [] "fw" sample_rings_ok booted
    (serial_steps _ _ _ _ (after_reachable packets half_set_up Hrun))) as (ls & e1 & e2 & Hall & Hls & Hex & _ & Hen);
    [vm_compute; reflexivity..|]. exists ls, e1, e2. split_and!; [exact Hall|exact Hls|exact Hex|exact Hen].
Defined.
End Witnesses.
