(* ===== verification/StateMonad.v ===== *)
(** * Computations with state that may fail

    The scheduler is C++ code that changes one object through many small
    methods, calls the kernel, and aborts the process when a [CHECK] fails.
    [eff S A] is the type of such code: it gets a state, and returns a result
    and a state, ends the process in a state, or faults.  [wp E m Q s] says that [m] started in [s]
    does not fault, returns only with results and states in [Q], and exits only
    if [E]: with [E := False] it is total correctness, with [E := True] it
    allows the failed [CHECK]s.  [steps R m] says that a run of [m] that returns
    relates its states by the preorder [R]. *)
From S2P Require Import Prelude.

(** As [outcome], with the state in which the process ends. *)
Inductive run_result (S A : Type) : Type :=
  | Ok (x : A * S)
  | Exit (msg : string) (s : S)
  | Fault (f : fault).
Global Arguments Ok {S A} _.
Global Arguments Exit {S A} _ _.
Global Arguments Fault {S A} _.

Definition returns {S A} (r : run_result S A) : bool := match r with Ok _ => true | _ => false end.

Lemma returns_ex {S A} (r : run_result S A) : returns r = true → ∃ x, r = Ok x.
Proof. destruct r; [eauto|done..]. Qed.

Definition eff (S A : Type) : Type := S → run_result S A.

Global Instance eff_ret S : MRet (eff S) := λ A a s, Ok (a, s).
Global Instance eff_bind S : MBind (eff S) := λ A B k m s,
  match m s with Ok (a, s') => k a s' | Exit msg s' => Exit msg s' | Fault f => Fault f end.

Section operations.
Context {S : Type}.

Definition get : eff S S := λ s, Ok (s, s).
Definition modify (f : S → S) : eff S unit := λ s, Ok (tt, f s).
Definition fail {A} (f : fault) : eff S A := λ _, Fault f.
Definition lift {A} (o : outcome A) : eff S A := λ s,
  match o with
  | Prelude.Ok a => Ok (a, s)
  | Prelude.Exit msg => Exit msg s
  | Prelude.Fault f => Fault f
  end.

(** The process ends, as an uncaught exception ends it. *)
Definition abort {A} (msg : string) : eff S A := λ s, Exit msg s.

(** [CHECK(b)]: the process is aborted unless [b]. *)
Definition CHECK (b : bool) : eff S unit := λ s, if b then Ok (tt, s) else Exit "CHECK" s.

(** A value that must be there: dereferencing, indexing. *)
Definition expect {A} (f : fault) (o : option A) : eff S A := lift (or_fault f o).

(** [if (b) m], and a [for] loop that threads local variables [b]. *)
Definition when (b : bool) (m : eff S unit) : eff S unit := if b then m else mret tt.

Fixpoint for_each {A B} (f : A → B → eff S B) (l : list A) (b : B) : eff S B :=
  match l with [] => mret b | a :: l => b' ← f a b; for_each f l b' end.

End operations.

(** ** Postconditions *)
Definition wp {S A} (E : Prop) (m : eff S A) (Q : A → S → Prop) (s : S) : Prop :=
  match m s with Ok (a, s') => Q a s' | Exit _ _ => E | Fault _ => False end.

Section rules.
Context {S : Type} (E : Prop).
Implicit Types s : S.

Lemma wp_mono {A} (m : eff S A) Q Q' s :
  wp E m Q s → (∀ a s', Q a s' → Q' a s') → wp E m Q' s.
Proof. unfold wp. destruct (m s) as [[]| |]; auto. Qed.

Lemma wp_weaken {A} (E' : Prop) (m : eff S A) Q s : wp E m Q s → (E → E') → wp E' m Q s.
Proof. unfold wp. destruct (m s) as [[]| |]; auto. Qed.

Lemma wp_bind {A B} (m : eff S A) (k : A → eff S B) Q s :
  wp E m (λ a, wp E (k a) Q) s → wp E (m ≫= k) Q s.
Proof. unfold wp, mbind, eff_bind. destruct (m s) as [[]| |]; auto. Qed.

Lemma wp_assoc {A B C} (m : eff S A) (k : A → eff S B) (h : B → eff S C) Q s :
  wp E ((m ≫= k) ≫= h) Q s → wp E (m ≫= λ a, k a ≫= h) Q s.
Proof. unfold wp, mbind, eff_bind. by destruct (m s) as [[]| |]. Qed.

Lemma wp_ret {A} (a : A) Q s : Q a s → wp E (mret a) Q s.
Proof. done. Qed.

Lemma wp_get Q s : Q s s → wp E get Q s.
Proof. done. Qed.

Lemma wp_modify f Q s : Q tt (f s) → wp E (modify f) Q s.
Proof. done. Qed.

Lemma wp_check b Q s : (b = true → Q tt s) → (b = false → E) → wp E (CHECK b) Q s.
Proof. unfold wp, CHECK. destruct b; auto. Qed.

Lemma wp_check_true b Q s : b = true → Q tt s → wp E (CHECK b) Q s.
Proof. intros -> HQ. done. Qed.

Lemma wp_expect {A} f (o : option A) a Q s : o = Some a → Q a s → wp E (expect f o) Q s.
Proof. intros ->. done. Qed.

Lemma wp_when b m Q s :
  (b = true → wp E m Q s) → (b = false → Q tt s) → wp E (when b m) Q s.
Proof. unfold when. destruct b; auto. intros. by apply wp_ret; auto. Qed.

(** The loop rule: an invariant indexed by the elements still to visit. *)
Lemma wp_for_each {A B} (f : A → B → eff S B) (I : list A → B → S → Prop) l b s Q :
  I l b s →
  (∀ a l b s, I (a :: l) b s → wp E (f a b) (I l) s) →
  (∀ b s, I [] b s → Q b s) →
  wp E (for_each f l b) Q s.
Proof.
  intros HI Hf HQ. revert b s HI. induction l as [|a l IH]; intros b s HI; cbn.
  - by apply wp_ret, HQ.
  - apply wp_bind. eapply wp_mono; [by apply Hf|]. auto.
Qed.

Lemma wp_and {A} (m : eff S A) Q Q' s : wp E m Q s → wp E m Q' s → wp E m (λ a s', Q a s' ∧ Q' a s') s.
Proof. unfold wp. by destruct (m s) as [[]| |]. Qed.

Lemma wp_bind_tt (m : eff S unit) Q s : wp E (m;; mret tt) Q s → wp E m Q s.
Proof. unfold wp, mbind, eff_bind. by destruct (m s) as [[[] ?]| |]. Qed.

(** Reading a triple back as a run. *)
Lemma wp_Ok {A} (m : eff S A) Q s a s' : wp E m Q s → m s = Ok (a, s') → Q a s'.
Proof. unfold wp. intros HQ Hm. by rewrite Hm in HQ. Qed.

End rules.

Lemma eff_bind_Ok {S A B} (m : eff S A) (k : A → eff S B) s a s' : m s = Ok (a, s') → (m ≫= k) s = k a s'.
Proof. unfold mbind, eff_bind. by intros ->. Qed.

Lemma wp_total {S A} (m : eff S A) Q s : wp False m Q s → ∃ a s', m s = Ok (a, s') ∧ Q a s'.
Proof. unfold wp. destruct (m s) as [[]| |]; naive_solver. Qed.

Lemma wp_run {S A} (m : eff S A) (Q : A → S → Prop) s a s' E : m s = Ok (a, s') → Q a s' → wp E m Q s.
Proof. unfold wp. by intros ->. Qed.

(** One step of a computation: go to the first operation of a sequence and
    apply its rule. *)
Ltac wp_seq := repeat lazymatch goal with |- wp _ (mbind _ _) _ _ => apply wp_bind end.

Ltac wp_step :=
  wp_seq;
  lazymatch goal with
  | |- wp _ (mret _) _ _ => apply wp_ret
  | |- wp _ get _ _ => apply wp_get
  | |- wp _ (modify _) _ _ => apply wp_modify
  | |- wp _ (CHECK _) _ _ => let Hc := fresh "Hchk" in apply wp_check; intros Hc
  | |- wp _ (when _ _) _ _ => let Hw := fresh "Hwhen" in apply wp_when; intros Hw
  | |- wp _ (if ?b then _ else _) _ _ => destruct b eqn:?
  | |- wp _ (match ?x with _ => _ end) _ _ => destruct x eqn:?
  end.

(** ** Relations between the states of a run *)
Definition steps {S A} (R : relation S) (m : eff S A) : Prop := ∀ s a s', m s = Ok (a, s') → R s s'.

Section steps.
Context {S : Type} (R : relation S) `{!PreOrder R}.

Lemma steps_ret {A} (a : A) : steps R (mret a).
Proof. by intros s b s' [= <- <-]. Qed.

Lemma steps_get : steps R get.
Proof. by intros s b s' [= <- <-]. Qed.

Lemma steps_fail {A} f : steps R (fail (A := A) f).
Proof. done. Qed.

Lemma steps_abort {A} msg : steps R (abort (A := A) msg).
Proof. done. Qed.

Lemma steps_lift {A} (o : outcome A) : steps R (lift o).
Proof. intros s a s'. unfold lift. destruct o; [by intros [= <- <-]|done..]. Qed.

Lemma steps_expect {A} f (o : option A) : steps R (expect f o).
Proof. apply steps_lift. Qed.

Lemma steps_CHECK b : steps R (CHECK b).
Proof. intros s a s'. unfold CHECK. destruct b; [by intros [= <- <-]|done]. Qed.

Lemma steps_modify f : (∀ s, R s (f s)) → steps R (modify f).
Proof. by intros Hf s a s' [= <- <-]. Qed.

Lemma steps_bind {A B} (m : eff S A) (k : A → eff S B) : steps R m → (∀ a, steps R (k a)) → steps R (m ≫= k).
Proof.
  intros Hm Hk s b s'. unfold mbind, eff_bind. destruct (m s) as [[a s1]| |] eqn:Hms; [|done..].
  intros Hks. transitivity s1; [by eapply Hm|by eapply Hk].
Qed.

Lemma steps_when b m : steps R m → steps R (when b m).
Proof. unfold when. destruct b; [done|]. intros _. apply steps_ret. Qed.

Lemma steps_for_each {A B} (f : A → B → eff S B) l b : (∀ a b, steps R (f a b)) → steps R (for_each f l b).
Proof. intros Hf. revert b. induction l as [|a l IH]; intros b; cbn; [apply steps_ret|]. apply steps_bind; auto. Qed.

End steps.

(** What a computation can return. *)
Definition results {S A} (P : A → Prop) (m : eff S A) : Prop := ∀ s a s', m s = Ok (a, s') → P a.

Lemma results_ret {S A} (P : A → Prop) a : P a → results (S := S) P (mret a).
Proof. by intros HP s b s' [= <- _]. Qed.

Lemma results_bind {S A B} (P : B → Prop) (m : eff S A) (k : A → eff S B) : (∀ a, results P (k a)) → results P (m ≫= k).
Proof. intros Hk s b s'. unfold mbind, eff_bind. destruct (m s) as [[a s1]| |]; [apply Hk|done..]. Qed.

Create HintDb steps.
#[export] Hint Resolve steps_ret steps_get steps_fail steps_abort steps_lift steps_expect steps_CHECK steps_bind steps_when steps_for_each : steps.
#[export] Hint Extern 2 (steps _ (if _ then _ else _)) => case_match : steps.
#[export] Hint Extern 2 (steps _ (match _ with _ => _ end)) => case_match : steps.
#[export] Hint Resolve results_bind : steps.
#[export] Hint Extern 2 (results _ (if _ then _ else _)) => case_match : steps.
#[export] Hint Extern 2 (results _ (match _ with _ => _ end)) => case_match : steps.
#[export] Hint Extern 3 (results _ (mret _)) => apply results_ret : steps.
#[export] Hint Extern 1 (PreOrder _) => typeclasses eauto : steps.
