(* ===== verification/Ghost.v ===== *)
(** * What the scheduler uses of ghOSt and of the kernel

    [ghost_agent/] is written against the ghOSt user-space library and the
    ghOSt kernel, which are not part of the repository.  CPU sets and the
    topology of the machine are classes of operations; everything else that is
    asked from outside, or done there, is a call: an [event] with the type of
    its answer, and [ask], a parameter that answers it.  [world] is the state
    of everything outside of the process; each call gets and returns it, so an
    answer may change from one call to the next without the scheduler's doing.
    The classes [...Laws] state documented behaviour that proofs rely on. *)
From stdpp Require Export pretty.
From S2P Require Import Prelude StateMonad.
Open Scope Z_scope.

(** A valid [Cpu] is its [id()]; [Cpu(kUninitialized)] is [None]. *)
Notation Cpu := nat (only parsing).
Notation Gtid := Z (only parsing).

(** ** CPU sets ([CpuList]) *)
Class CpuLists := {
  CpuList : Type;
  EmptyCpuList : CpuList;
  IsSet : CpuList → Cpu → bool;
  SetCpu : CpuList → Cpu → CpuList;
  ClearCpu : CpuList → Cpu → CpuList;
  Intersection : CpuList → CpuList → CpuList;
  Empty : CpuList → bool;
  Front : CpuList → option Cpu;
  Cpus : CpuList → list Cpu;   (** the order in which a range-[for] visits *)
}.

(** The sets are bit maps: membership determines the operations, and the CPUs
    are visited in one order. *)
Class CpuListLaws `{CpuLists} := {
  elem_Cpus l c : c ∈ Cpus l ↔ IsSet l c = true;
  NoDup_Cpus l : NoDup (Cpus l);
  IsSet_Empty c : IsSet EmptyCpuList c = false;
  IsSet_Set l c d : IsSet (SetCpu l c) d = bool_decide (c = d) || IsSet l d;
  IsSet_Clear l c d : IsSet (ClearCpu l c) d = negb (bool_decide (c = d)) && IsSet l d;
  Cpus_Intersection l k : Cpus (Intersection l k) = filter (λ c, IsSet k c = true) (Cpus l);
  Empty_Cpus l : Empty l = bool_decide (Cpus l = []);
  Front_Cpus l : Front l = head (Cpus l);
}.

(** ** Topology *)
Class Topology `{CpuLists} := {
  siblings : Cpu → CpuList;
  l3_siblings : Cpu → CpuList;
  numa_node : Cpu → Z;
  MAX_CPUS : nat;
  MAX_CPUS_int : Z.of_nat MAX_CPUS < 2 ^ 31;   (** an [int] constant *)
}.

(** ** Calls *)

(** The state of a transaction, as far as the scheduler distinguishes. *)
Inductive txn_state := GHOST_TXN_COMPLETE | GHOST_TXN_CPU_UNAVAIL | GHOST_TXN_OTHER.

Global Instance txn_state_eq_dec : EqDecision txn_state.
Proof. solve_decision. Defined.

Inductive event `{CpuLists} : Type → Type :=
  (** the run request of a CPU ([RunRequest], [Enclave]) *)
  | Committed (c : Cpu) : event bool
  | TxnState (c : Cpu) : event txn_state
  | Open (c : Cpu) (target : Gtid) (target_barrier : Z) (agent_barrier : option Z) : event unit
  | OpenUnschedule (c : Cpu) : event unit
  | Commit (c : Cpu) : event bool
  | SubmitRunRequests (l : CpuList) : event unit
  | LocalYield (c : Cpu) (agent_barrier : Z) : event unit
  (** the agent of a CPU ([Agent]) *)
  | HasAgent (c : Cpu) : event bool
  | CpuAvail (c : Cpu) : event bool
  | Ping (c : Cpu) : event unit
  | Finished (c : Cpu) : event bool
  | BoostedPriority (c : Cpu) : event bool
  | AgentBarrier (c : Cpu) : event Z
  | SignalReady (c : Cpu) : event unit
  | WaitForEnclaveReady (c : Cpu) : event unit
  (** the status word of a task ([StatusWord]) *)
  | OnCpu (g : Gtid) : event bool
  | Barrier (g : Gtid) : event Z
  | Runtime (g : Gtid) : event Z
  (** the operating system *)
  | sched_getaffinity (tid : Z) : event (option (gset Cpu))
  | sched_getscheduler (tid : Z) : event Z
  | sched_setscheduler (tid : Z) (policy : Z) : event Z
  | SchedTaskEnterGhost (tid : Z) : event Z
  | ReadFile (path : string) : event (option string)
  | AppendFile (path : string) (text : string) : event unit
  | FileExists (path : string) : event bool
  | Subdirectories (path : string) : event (option (list string))   (** [None]: the iterator throws *)
  | nanosleep (ns : Z) : event (option Z)   (** [None]: 0; [Some e]: -1 with [errno = e] *)
  | HasBeenNotified : event bool            (** of the [Notification] that a signal sets *)
  | MonotonicNow : event Z
  | Bernoulli (num den : Z) : event bool
  | current_path : event string
  | Printf (text : string) : event unit
  (** the agent process, which runs [FullNetAgent], and signals *)
  | NewAgentProcess (cpus : CpuList) (global_cpu : Cpu) (enforce_affinity : bool) : event unit
  | DeleteAgentProcess : event unit
  | Rpc (req : Z) : event Z
  | InitCore : event unit
  | SetGlobalEnclaveCtlFdOnce : event unit
  | AddHandler (signum : Z) : event unit.

Class Kernel `{CpuLists} := {
  SCHED_GHOST : Z;   (** [kernel/ghost_uapi.h] *)
  tid : Gtid → Z;    (** [Gtid::tid] *)
  world : Type;
  ask : ∀ {R}, event R → world → R * world;
}.

(** States that contain the world can make calls. *)
Class Calls `{Kernel} (St : Type) := {
  world_of : St → world;
  with_world : St → world → St;
}.

Definition call `{Calls St} {R} (e : event R) : eff St R := λ s,
  let '(r, w) := ask e (world_of s) in Ok (r, with_world s w).

Global Instance calls_world `{Kernel} : Calls world := {| world_of w := w; with_world _ w := w |}.

(** Which calls open the run request of a CPU. *)
Definition opens `{CpuLists} {R} (e : event R) (c : Cpu) : Prop :=
  match e with Open d _ _ _ | OpenUnschedule d => c = d | _ => False end.

(** [done w c]: the transaction of [c] is committed, [txn w c] is its state;
    both stay so until the request is opened again.  [cputime w g]: how long
    [g] ran; it never decreases, and the status word reports it. *)
Class KernelLaws `{Kernel} := {
  done : world → Cpu → Prop;
  txn : world → Cpu → txn_state;
  cputime : world → Gtid → Z;
  ask_committed c w b w' : ask (Committed c) w = (b, w') → b = true → done w' c;
  done_committed c w : done w c → (ask (Committed c) w).1 = true;
  done_stable {R} (e : event R) c w : done w c → ¬ opens e c → done (ask e w).2 c;
  done_state c w : done w c → (ask (TxnState c) w).1 = txn w c;
  txn_stable {R} (e : event R) c w : done w c → ¬ opens e c → txn (ask e w).2 c = txn w c;
  cputime_mono {R} (e : event R) g w : cputime w g <= cputime (ask e w).2 g;
  ask_runtime g w : cputime w g <= (ask (Runtime g) w).1 <= cputime (ask (Runtime g) w).2 g;
}.

(** The kernel may turn down the request to take the running task off a CPU. *)
Definition unschedule_refused `{Kernel} : Prop :=
  ∃ c w, (ask (Commit c) (ask (OpenUnschedule c) w).2).1 = false.

(** ** Texts *)

(** [absl::StrContains] *)
Definition StrContains (haystack needle : string) : bool := is_some (String.index 0 needle haystack).
