(* ===== verification/CgroupWatcher.v ===== *)
(** * The cgroup watcher ([ghost_agent/cgroup_watcher.{h,cc}])

    Walks the control-group file system and moves the threads of the groups
    that match a rule into the ghOSt scheduling class.  The file system and
    the scheduling classes of threads are behind calls ([Ghost.event]). *)
From S2P Require Import Prelude Stdio StateMonad Ghost.
Open Scope Z_scope.

Definition kCgroupPathPrefix : string := "/sys/fs/cgroup/cpu".

(** The rules, in the order in which the hash map is traversed: container
    pattern and task name pattern, one entry per container pattern. *)
Notation rules_map := (list (string * string)) (only parsing).

(** [find(key)->second] *)
Definition find_rule (rules : rules_map) (key : string) : option string :=
  snd <$> list_find (λ '(k, _), k = key) rules ≫= λ '(_, kv), Some (kv : string * string).

Definition newline : Ascii.ascii := Ascii.ascii_of_nat 10.

(** The lines [std::getline] returns: split at newlines, without a last empty line. *)
Fixpoint lines_of (s : string) (line : string) : list string :=
  match s with
  | EmptyString => if decide (line = "") then [] else [line]
  | String c s => if decide (c = newline) then line :: lines_of s ""
                  else lines_of s (line +:+ String c "")
  end.

(** [std::stoi]: [None] where it throws (no digits, or not an [int]). *)
Definition stoi (line : string) : option Z :=
  let s := skip_space (bytes_of_string line) in
  let '(neg, s) := match s with
                   | 45 :: s' => (true, s')
                   | 43 :: s' => (false, s')
                   | _ => (false, s)
                   end in
  match span_digits s with
  | ([], _) => None
  | (ds, _) =>
      let v := if neg : bool then - dec_value ds else dec_value ds in
      if (v <? - 2 ^ 31) || (2 ^ 31 <=? v) then None else Some v
  end.

Section watcher.
Context `{Calls St}.

(** The contents of [/proc/<tid>/comm]; a file that cannot be opened reads as
    the empty text. *)
Definition GetTaskName (tid : Z) : eff St string :=
  contents ← call (ReadFile ("/proc/" +:+ pretty tid +:+ "/comm"));
  mret (default "" contents).

(** Whether [tid] was moved to the scheduling class. *)
Definition MoveToScheduler (tid scheduler : Z) : eff St bool :=
  cur ← call (sched_getscheduler tid);
  if cur =? scheduler then mret false
  else
    ret ← (if scheduler =? SCHED_GHOST then call (SchedTaskEnterGhost tid)
           else call (sched_setscheduler tid scheduler));
    if ret =? 0 then
      now ← call (sched_getscheduler tid);
      CHECK (now =? scheduler);; mret true
    else mret false.

(** One line of the tasks file. *)
Definition move_line (control_group_path name_pattern line : string) (moved : Z) : eff St Z :=
  tid ← (match stoi line with Some tid => mret tid | None => abort "std::stoi" end);
  task_name ← GetTaskName tid;
  if bool_decide (name_pattern = "*") || StrContains task_name name_pattern then
    b ← MoveToScheduler tid SCHED_GHOST;
    if b : bool then
      task_name ← GetTaskName tid;
      call (AppendFile "/tmp/logging"
              ("Moved task " +:+ task_name +:+ " pid=" +:+ pretty tid +:+ " under " +:+
               control_group_path +:+ String newline ""));;
      mret (to_int (moved + 1))
    else mret moved
  else mret moved.

Definition MoveTasksToGhost (control_group_path name_pattern : string) : eff St Z :=
  let tasks_path := control_group_path +:+ "/tasks" in
  exists_ ← call (FileExists tasks_path);
  if negb exists_ then mret 0
  else
    contents ← call (ReadFile tasks_path);
    for_each (move_line control_group_path name_pattern) (lines_of (default "" contents) "") 0.

(** One rule of the loop over the hash map. *)
Definition apply_rule (path cgroup_name : string) (rule : string * string) (moved : Z) : eff St Z :=
  if StrContains cgroup_name rule.1 then
    n ← MoveTasksToGhost path rule.2; mret (to_int (moved + n))
  else mret moved.

(** [path.substr(n)] throws when [n] is past the end. *)
Definition substr (path : string) (n : nat) : eff St string :=
  if bool_decide (n <= String.length path)%nat
  then mret (String.substring n (String.length path - n) path)
  else abort "std::out_of_range".

(** The recursion follows the directory tree; [fuel] bounds its depth. *)
Fixpoint ScrapeDirectory (fuel : nat) (skipdir : string) (rules : rules_map) (path : string) : eff St Z :=
  match fuel with
  | O => fail OutOfFuel
  | S fuel =>
      if decide (skipdir = path) then mret 0
      else
        cgroup_name ← substr path (String.length kCgroupPathPrefix);
        moved ← (match find_rule rules cgroup_name with
                 | Some task_name_pattern => n ← MoveTasksToGhost path task_name_pattern; mret (to_int (0 + n))
                 | None => mret 0
                 end);
        moved ← for_each (apply_rule path cgroup_name) rules moved;
        children ← call (Subdirectories path);
        match children with
        | None => abort "std::filesystem::filesystem_error"
        | Some children =>
            for_each (λ child_path moved,
              n ← ScrapeDirectory fuel skipdir rules child_path; mret (to_int (moved + n))) children moved
        end
  end.

Definition ScrapeCgroups (fuel : nat) (skipdir : string) (rules : rules_map) : eff St Z :=
  ScrapeDirectory fuel skipdir rules kCgroupPathPrefix.

End watcher.
