(* ===== verification/CgroupSpec.v ===== *)
(** * Which threads a scrape moves

    On a file system and with threads that nobody else changes meanwhile, one
    scrape moves into the ghOSt class exactly the threads of the control groups
    it visits that a rule selects, and returns how many it moved. *)
From S2P Require Import Prelude Stdio StateMonad Ghost CgroupWatcher.
Open Scope Z_scope.

(** ** Strings *)

Lemma string_length_append s1 s2 : String.length (s1 +:+ s2) = (String.length s1 + String.length s2)%nat.
Proof. induction s1 as [|c s1 IH]; [done|]. change (S (String.length (s1 +:+ s2)) = S (String.length s1 + String.length s2)). by rewrite IH. Qed.

Lemma StrContains_refl text : StrContains text text = true.
Proof.
  assert (String.prefix text text = true) as Hp.
  { induction text as [|c text IH]; [done|]. cbn. by case_match. }
  unfold StrContains. destruct text as [|c text]; [done|]. cbn in *. by rewrite Hp.
Qed.

Lemma find_rule_elem rules key pattern : find_rule rules key = Some pattern → (key, pattern) ∈ rules.
Proof.
  unfold find_rule. destruct (list_find _ rules) as [[i [k v]]|] eqn:Hf; [|done]. intros [= <-].
  apply list_find_Some in Hf as (Hi & -> & _). by eapply list_elem_of_lookup_2.
Qed.

Lemma substring_append s1 s2 :
  String.substring (String.length s1) (String.length (s1 +:+ s2) - String.length s1) (s1 +:+ s2) = s2.
Proof.
  induction s1 as [|c s1 IH]; [|exact IH].
  change (String.substring 0 (String.length s2 - 0) s2 = s2). rewrite Nat.sub_0_r.
  induction s2 as [|c s2 IH]; [done|]. cbn. by rewrite IH.
Qed.

Lemma append_assoc s1 s2 s3 : (s1 +:+ s2) +:+ s3 = s1 +:+ s2 +:+ s3.
Proof. induction s1 as [|c s1 IH]; [done|]. change (String c ((s1 +:+ s2) +:+ s3) = String c (s1 +:+ s2 +:+ s3)). by rewrite IH. Qed.

Section scrape.
Context `{Kernel}.
Implicit Types (w : world) (path : string) (t : Z).

(** The machine during the scrape, in all worlds of [W]: [names] of threads,
    the text [tasks] of the tasks file of a control group, its subdirectories
    [subdirs], the class [cls] of threads, and which threads are [willing] to
    enter ghOSt (a dying one is not). *)
Record steady (W : world → Prop) (names : Z → option string) (tasks : string → option string)
    (subdirs : string → list string) (cls : world → Z → Z) (willing : Z → bool) : Prop := {
  sy_call R (e : event R) w : W w → W (ask e w).2;
  sy_name t w : W w → (ask (ReadFile ("/proc/" +:+ pretty t +:+ "/comm")) w).1 = names t;
  sy_exists path w : W w → (ask (FileExists (path +:+ "/tasks")) w).1 = is_some (tasks path);
  sy_tasks path w : W w → (ask (ReadFile (path +:+ "/tasks")) w).1 = tasks path;
  sy_subdirs path w : W w →
    (ask (Subdirectories path) w).1 = Some ((λ n, path +:+ "/" +:+ n) <$> subdirs path);
  sy_class t w : W w → (ask (sched_getscheduler t) w).1 = cls w t;
  sy_enter t w : W w → ((ask (SchedTaskEnterGhost t) w).1 =? 0) = willing t;
  sy_entered t w u : W w →
    cls (ask (SchedTaskEnterGhost t) w).2 u = if willing t && bool_decide (u = t) then SCHED_GHOST else cls w u;
  sy_same R (e : event R) w u : W w →
    match e with SchedTaskEnterGhost _ | sched_setscheduler _ _ => True | _ => cls (ask e w).2 u = cls w u end;
}.

Section spec.
Context (tasks : string → option string) (subdirs : string → list string) (names : Z → option string).
Context (skipdir : string) (rules : list (string * string)).

(** The part of the path after the prefix. *)
Definition group_name path : string :=
  String.substring (String.length kCgroupPathPrefix) (String.length path - String.length kCgroupPathPrefix) path.

(** [visits path q]: the walk from [path] comes to [q]. *)
Inductive visits : string → string → Prop :=
  | visits_here path : skipdir ≠ path → visits path path
  | visits_child path n q :
      skipdir ≠ path → n ∈ subdirs path → visits (path +:+ "/" +:+ n) q → visits path q.

(** The tree below [path] has less than [k] levels. *)
Fixpoint shallow (k : nat) path : Prop :=
  match k with O => False | S k => Forall (λ n, shallow k (path +:+ "/" +:+ n)) (subdirs path) end.

Definition task_lines path : list string := lines_of (default "" (tasks path)) "".

(** The rule's pattern fits the name of the thread. *)
Definition fits (pattern : string) t : Prop :=
  pattern = "*" ∨ StrContains (default "" (names t)) pattern = true.

(** A rule selects thread [t] of the control group [path]. *)
Definition selected path t : Prop :=
  ∃ line rule, line ∈ task_lines path ∧ stoi line = Some t ∧ rule ∈ rules ∧
    StrContains (group_name path) rule.1 = true ∧ fits rule.2 t.
End spec.

(** The name of a visited group is empty or starts with a slash, so a rule that
    has neither form is never the name itself. *)
Lemma visited_name subdirs skipdir path q :
  visits subdirs skipdir path q → q = path ∨ ∃ x, q = path +:+ "/" +:+ x.
Proof.
  induction 1 as [path Hskip|path n q Hskip Hn Hv IH]; [by left|]. right. destruct IH as [->|[x ->]]; [eauto|].
  exists (n +:+ "/" +:+ x). by rewrite !append_assoc.
Qed.

Lemma exact_rule_never_fires subdirs skipdir rules q :
  visits subdirs skipdir kCgroupPathPrefix q → (∀ rule, rule ∈ rules → rule.1 ≠ "" ∧ ∀ x, rule.1 ≠ "/" +:+ x) →
  find_rule rules (group_name q) = None.
Proof.
  intros Hv Hrules. destruct (find_rule rules (group_name q)) as [v|] eqn:Hfind; [|done].
  apply find_rule_elem in Hfind. destruct (Hrules _ Hfind) as [Hne Hslash]. cbn [fst] in *. exfalso.
  destruct (visited_name _ _ _ _ Hv) as [->|[x ->]]; [by apply Hne|]. apply (Hslash x). unfold group_name. apply substring_append.
Qed.

Section proofs.
Context (W : world → Prop) (names : Z → option string) (tasks : string → option string).
Context (subdirs : string → list string) (cls : world → Z → Z) (willing : Z → bool).
Context (HS : steady W names tasks subdirs cls willing).

(** From [w] to [w'], the threads in [P] were moved, and [m] became [m']. *)
Definition moves (P : Z → Prop) (m : Z) w (m' : Z) w' : Prop :=
  W w' ∧ to_int m' = m' ∧ ∃ M : gset Z, m' = to_int (m + Z.of_nat (size M)) ∧
    (∀ t, t ∈ M ↔ P t ∧ willing t = true ∧ cls w t ≠ SCHED_GHOST) ∧
    (∀ t, cls w' t = if bool_decide (t ∈ M) then SCHED_GHOST else cls w t).

Lemma to_int_idem m : to_int (to_int m) = to_int m.
Proof. pose proof (to_int_add m 0) as Hadd. by rewrite !Z.add_0_r in Hadd. Qed.

Lemma moves_none P m w w' :
  W w' → to_int m = m → (∀ t, P t → willing t = true → cls w t = SCHED_GHOST) → (∀ t, cls w' t = cls w t) → moves P m w m w'.
Proof.
  intros HW Hm HP Hc. split_and!; [done..|]. exists ∅. rewrite size_empty, Z.add_0_r. split_and!; [done| |].
  - intros t. rewrite elem_of_empty. split; [done|]. intros (Ht & Hw & Hn). by apply Hn, HP.
  - intros t. by rewrite bool_decide_eq_false_2 by apply not_elem_of_empty.
Qed.

Lemma moves_iff P P' m w m' w' : (∀ t, P t ↔ P' t) → moves P m w m' w' → moves P' m w m' w'.
Proof.
  intros HP (HW & Hm & M & -> & HM & Hc). split_and!; [done..|]. exists M. split_and!; [done| |done].
  intros t. by rewrite HM, HP.
Qed.

Lemma moves_from P m w0 w m' w' : (∀ t, cls w t = cls w0 t) → moves P m w m' w' → moves P m w0 m' w'.
Proof.
  intros Hc (HW & Hm & M & -> & HM & Hc'). split_and!; [done..|]. exists M. split_and!; [done| |].
  - intros t. by rewrite HM, Hc.
  - intros t. by rewrite Hc', Hc.
Qed.

Lemma moves_trans P1 P2 m w m1 w1 m2 w2 :
  moves P1 m w m1 w1 → moves P2 m1 w1 m2 w2 → moves (λ t, P1 t ∨ P2 t) m w m2 w2.
Proof.
  intros (HW1 & Hm1 & M1 & -> & HM1 & Hc1) (HW2 & Hm2 & M2 & -> & HM2 & Hc2). split_and!; [done..|].
  assert (M1 ## M2) as Hdisj.
  { intros t Ht1 (_ & _ & Hn)%HM2. rewrite Hc1, bool_decide_eq_true_2 in Hn by done. done. }
  exists (M1 ∪ M2). split_and!.
  - rewrite to_int_add, size_union by done. f_equal. lia.
  - intros t. rewrite elem_of_union, HM1, HM2, Hc1. case_bool_decide as Hin; [apply HM1 in Hin|rewrite HM1 in Hin]; tauto.
  - intros t. rewrite Hc2, Hc1. repeat case_bool_decide; set_solver.
Qed.

Lemma moves_shift P m w n w' : to_int m = m → moves P 0 w n w' → moves P m w (to_int (m + n)) w'.
Proof.
  intros Hm (HW & Hn & M & -> & HM & Hc). split_and!; [done|apply to_int_idem|]. exists M. split_and!; [|done..].
  rewrite Z.add_comm, to_int_add. f_equal. lia.
Qed.

(** A loop whose iterations move the threads in [P a]. *)
Lemma wp_moves_loop {A} (f : A → Z → eff world Z) (P : A → Z → Prop) l m w :
  W w → to_int m = m →
  (∀ a m w, a ∈ l → W w → to_int m = m → wp False (f a m) (moves (P a) m w) w) →
  wp False (for_each f l m) (moves (λ t, ∃ a, a ∈ l ∧ P a t) m w) w.
Proof.
  revert m w. induction l as [|a l IH]; intros m w HW Hm Hf; cbn [for_each].
  - apply wp_ret, moves_none; [done..| |done]. intros t (a & Ha%elem_of_nil & _). done.
  - wp_seq. eapply wp_mono; [apply Hf; [left|done..]|]. intros m1 w1 Hmv1. pose proof Hmv1 as (HW1 & Hm1 & _).
    eapply wp_mono; [apply IH; [done..|]|].
    { intros b m' w' Hb. apply Hf. by right. }
    intros m2 w2 Hmv2. eapply moves_iff; [|by eapply moves_trans]. intros t. cbn. set_solver.
Qed.

(** ** The parts of the scrape *)

(** A call whose answer is known and that moves nobody. *)
Lemma wp_steady_call {R} (e : event R) r Q w :
  W w → (ask e w).1 = r →
  match e with SchedTaskEnterGhost _ | sched_setscheduler _ _ => False | _ => True end →
  (∀ w', W w' → (∀ t, cls w' t = cls w t) → Q r w') → wp False (call e) Q w.
Proof.
  intros HW Hr He HQ. unfold wp, call. cbn. pose proof (sy_call _ _ _ _ _ _ HS R e w HW) as HW'.
  pose proof (λ u, sy_same _ _ _ _ _ _ HS R e w u HW) as Hc.
  destruct (ask e w) as [r' w'] eqn:Ha. cbn in *. subst r'. apply HQ; [done|]. intros t. specialize (Hc t). by destruct e.
Qed.

Lemma GetTaskName_steady t Q w :
  W w → (∀ w', W w' → (∀ u, cls w' u = cls w u) → Q (default "" (names t)) w') → wp False (GetTaskName t) Q w.
Proof.
  intros HW HQ. unfold GetTaskName. wp_seq. eapply wp_steady_call; [done|by apply (sy_name _ _ _ _ _ _ HS)|done|].
  intros w' HW' Hc. apply wp_ret. auto.
Qed.

(** The thread is moved unless it is in the class already or is dying. *)
Lemma MoveToScheduler_steady t w :
  W w →
  wp False (MoveToScheduler t SCHED_GHOST) (λ b w', W w' ∧ b = willing t && negb (cls w t =? SCHED_GHOST) ∧
    ∀ u, cls w' u = if b && bool_decide (u = t) then SCHED_GHOST else cls w u) w.
Proof.
  intros HW. unfold MoveToScheduler. wp_seq. eapply wp_steady_call; [done|by apply (sy_class _ _ _ _ _ _ HS)|done|].
  intros w1 HW1 Hc1. destruct (cls w t =? SCHED_GHOST) eqn:Hcur.
  { apply wp_ret. rewrite andb_false_r. done. }
  rewrite Z.eqb_refl, andb_true_r. wp_seq. unfold wp at 1, call at 1. cbn.
  pose proof (sy_call _ _ _ _ _ _ HS _ (SchedTaskEnterGhost t) w1 HW1) as HW2.
  pose proof (sy_enter _ _ _ _ _ _ HS t w1 HW1) as Hret. pose proof (sy_entered _ _ _ _ _ _ HS t w1) as Hc2.
  destruct (ask (SchedTaskEnterGhost t) w1) as [ret w2]. cbn in *. rewrite Hret.
  destruct (willing t); cbn [andb] in *.
  - wp_seq. eapply wp_steady_call; [done|by apply (sy_class _ _ _ _ _ _ HS)|done|]. intros w3 HW3 Hc3.
    wp_seq. apply wp_check_true.
    { rewrite Hc2, bool_decide_eq_true_2 by done. apply Z.eqb_refl. }
    apply wp_ret. split_and!; [done..|]. intros u. by rewrite Hc3, Hc2, Hc1.
  - apply wp_ret. split_and!; [done..|]. intros u. by rewrite Hc2, Hc1.
Qed.

(** One line. *)
Lemma move_line_steady path pattern line t m w :
  W w → to_int m = m → stoi line = Some t →
  wp False (move_line path pattern line m) (moves (λ u, u = t ∧ fits names pattern u) m w) w.
Proof.
  intros HW Hm Hline. unfold move_line. rewrite Hline. wp_seq. apply wp_ret. wp_seq.
  apply GetTaskName_steady; [done|]. intros w1 HW1 Hc1.
  destruct (bool_decide (pattern = "*") || StrContains _ pattern) eqn:Hfit.
  - assert (fits names pattern t) as Hf by (unfold fits; by apply orb_true_iff in Hfit as [?%bool_decide_eq_true|]; auto).
    wp_seq. eapply wp_mono; [by apply MoveToScheduler_steady|]. intros b w2 (HW2 & -> & Hc2). rewrite Hc1 in *.
    destruct (willing t && negb (cls w t =? SCHED_GHOST)) eqn:Hb.
    + apply andb_true_iff in Hb as [Hwill Hn%negb_true_iff%Z.eqb_neq].
      wp_seq. apply GetTaskName_steady; [done|]. intros w3 HW3 Hc3.
      wp_seq. eapply wp_steady_call; [done..|]. intros w4 HW4 Hc4.
      apply wp_ret. split_and!; [done|apply to_int_idem|]. exists {[t]}. rewrite size_singleton. split_and!; [done|set_solver|].
      intros u. rewrite Hc4, Hc3, Hc2, Hc1. cbn. repeat case_bool_decide; set_solver.
    + apply wp_ret, moves_none; [done..| |].
      * intros u [-> _] Hwill. rewrite Hwill in Hb. by apply negb_false_iff, Z.eqb_eq in Hb.
      * intros u. by rewrite Hc2, Hc1.
  - apply orb_false_iff in Hfit as [Hs%bool_decide_eq_false Hc]. apply wp_ret, moves_none; [done..| |done].
    intros u [-> [?|Hf]]; congruence.
Qed.

Lemma MoveTasksToGhost_steady path pattern w :
  W w → (∀ line, line ∈ task_lines tasks path → is_Some (stoi line)) →
  wp False (MoveTasksToGhost path pattern)
    (moves (λ t, ∃ line, line ∈ task_lines tasks path ∧ stoi line = Some t ∧ fits names pattern t) 0 w) w.
Proof.
  intros HW Hlines. unfold MoveTasksToGhost. wp_seq.
  eapply wp_steady_call; [done|by apply (sy_exists _ _ _ _ _ _ HS)|done|]. intros w1 HW1 Hc1.
  destruct (tasks path) as [text|] eqn:Htext; cbn [is_some negb].
  2:{ apply wp_ret, moves_none; [done..| |done]. intros t (line & Hl & _). unfold task_lines in Hl.
      rewrite Htext in Hl. by apply elem_of_nil in Hl. }
  wp_seq. eapply wp_steady_call; [done|by apply (sy_tasks _ _ _ _ _ _ HS)|done|]. intros w2 HW2 Hc2.
  rewrite Htext. unfold task_lines in *. rewrite Htext in *. cbn [default] in *.
  eapply wp_mono; [apply (wp_moves_loop _ (λ line u, stoi line = Some u ∧ fits names pattern u)); [done..|]|].
  - intros line m w' Hl HW' Hm. destruct (Hlines line Hl) as [t Ht]. rewrite Ht.
    eapply wp_mono; [by apply move_line_steady|]. intros m' w''. apply moves_iff. naive_solver.
  - intros m' w'. apply moves_from. intros t. by rewrite Hc2, Hc1.
Qed.

(** ** The walk *)
Context (skipdir : string) (rules : list (string * string)).

Lemma apply_rule_steady path rule m w :
  W w → to_int m = m → (∀ line, line ∈ task_lines tasks path → is_Some (stoi line)) →
  wp False (apply_rule path (group_name path) rule m)
    (moves (λ t, ∃ line, line ∈ task_lines tasks path ∧ stoi line = Some t ∧
      StrContains (group_name path) rule.1 = true ∧ fits names rule.2 t) m w) w.
Proof.
  intros HW Hm Hlines. unfold apply_rule. destruct (StrContains (group_name path) rule.1) eqn:Hc.
  - wp_seq. eapply wp_mono; [by apply MoveTasksToGhost_steady|]. intros n w' Hmv. apply wp_ret.
    apply moves_shift; [done|]. eapply moves_iff; [|done]. naive_solver.
  - apply wp_ret, moves_none; [done..| |done]. intros t (line & _ & _ & ? & _). done.
Qed.

(** A rule that is the name of the group is also a rule contained in the name. *)
Lemma exact_rule_steady path w :
  W w → (∀ line, line ∈ task_lines tasks path → is_Some (stoi line)) →
  wp False (match find_rule rules (group_name path) with
            | Some task_name_pattern => n ← MoveTasksToGhost path task_name_pattern; mret (to_int (0 + n))
            | None => mret 0
            end) (λ m w', ∃ P, moves P 0 w m w' ∧ ∀ t, P t → selected tasks names rules path t) w.
Proof.
  intros HW Hlines. destruct (find_rule rules (group_name path)) as [pattern|] eqn:Hfind.
  - wp_seq. eapply wp_mono; [by apply MoveTasksToGhost_steady|]. intros n w' Hmv. apply wp_ret.
    eexists. split; [by apply moves_shift|]. intros t (line & Hl & Ht & Hfit).
    exists line, (group_name path, pattern). split_and!; [done..|by apply find_rule_elem|apply StrContains_refl|done].
  - apply wp_ret. exists (λ _, False). split; [|done]. by apply moves_none.
Qed.

(** All rules, for one control group. *)
Lemma group_steady path w :
  W w → (∀ line, line ∈ task_lines tasks path → is_Some (stoi line)) →
  wp False (moved ← (match find_rule rules (group_name path) with
            | Some task_name_pattern => n ← MoveTasksToGhost path task_name_pattern; mret (to_int (0 + n))
            | None => mret 0
            end); for_each (apply_rule path (group_name path)) rules moved)
    (moves (selected tasks names rules path) 0 w) w.
Proof.
  intros HW Hlines. wp_seq. eapply wp_mono; [by apply exact_rule_steady|]. intros m1 w1 (P & Hmv1 & HP).
  pose proof Hmv1 as (HW1 & Hm1 & _).
  eapply wp_mono; [apply (wp_moves_loop _ (λ rule t, ∃ line, line ∈ task_lines tasks path ∧ stoi line = Some t ∧
      StrContains (group_name path) rule.1 = true ∧ fits names rule.2 t)); [done..|]|].
  { intros rule m w' _ HW' Hm. by apply apply_rule_steady. }
  intros m2 w2 Hmv2. eapply moves_iff; [|by eapply moves_trans]. intros t. split.
  - intros [?%HP|(rule & ? & line & ?)]; [done|]. exists line, rule. tauto.
  - intros (line & rule & ?). right. exists rule. split; [tauto|]. exists line. tauto.
Qed.

Lemma substr_child path n : (String.length kCgroupPathPrefix <= String.length path)%nat →
  (String.length kCgroupPathPrefix <= String.length (path +:+ "/" +:+ n))%nat.
Proof. rewrite string_length_append. lia. Qed.

Lemma ScrapeDirectory_steady fuel path w :
  W w → shallow subdirs fuel path → (String.length kCgroupPathPrefix <= String.length path)%nat →
  (∀ q line, visits subdirs skipdir path q → line ∈ task_lines tasks q → is_Some (stoi line)) →
  wp False (ScrapeDirectory fuel skipdir rules path)
    (moves (λ t, ∃ q, visits subdirs skipdir path q ∧ selected tasks names rules q t) 0 w) w.
Proof.
  revert path w. induction fuel as [|fuel IH]; intros path w HW Hsh Hlen Hlines; [done|]. cbn [ScrapeDirectory].
  destruct (decide (skipdir = path)) as [Hskip|Hskip].
  { apply wp_ret, moves_none; [done..| |done]. intros t (q & Hv & _). by destruct Hv. }
  wp_seq. unfold substr. rewrite bool_decide_eq_true_2 by done. apply wp_ret. fold (group_name path).
  apply wp_assoc, wp_bind. eapply wp_mono; [apply group_steady; [done|]|].
  { intros line. apply Hlines. by constructor. }
  intros m1 w1 Hmv1. pose proof Hmv1 as (HW1 & Hm1 & _).
  wp_seq. eapply wp_steady_call; [done|by apply (sy_subdirs _ _ _ _ _ _ HS)|done|]. intros w2 HW2 Hc2.
  eapply wp_mono; [apply (wp_moves_loop _ (λ child t, ∃ q, visits subdirs skipdir child q ∧ selected tasks names rules q t)); [done..|]|].
  { intros child m w' (n & -> & Hn)%list_elem_of_fmap HW' Hm. wp_seq. eapply wp_mono; [apply IH; [done|..]|].
    - by eapply Forall_forall in Hsh; [|done].
    - by apply substr_child.
    - intros q line Hv. apply Hlines. by eapply visits_child.
    - intros k w'' Hmv. apply wp_ret. by apply moves_shift. }
  intros m3 w3 Hmv3. eapply moves_iff; [|eapply moves_trans; [exact Hmv1|by eapply moves_from]]. intros t. cbn. split.
  - intros [Hsel|(child & (n & -> & Hn)%list_elem_of_fmap & q & Hv & Hsel)].
    + exists path. split; [by constructor|done].
    + exists q. split; [by eapply visits_child|done].
  - intros (q & Hv & Hsel). destruct Hv as [|path n q _ Hn Hv]; [by left|]. right. eexists. split; [by apply list_elem_of_fmap_2|eauto].
Qed.

End proofs.
End scrape.
