(* ===== verification/NetTask.v ===== *)
(** * Tasks of the scheduler ([NetTask] of [ghost_agent/net_scheduler.{h,cc}]) and the choice of a CPU

    Times and durations of [absl] are nanoseconds in [Z]; [InfiniteFuture] is
    [None]. *)
From S2P Require Import Prelude StateMonad Ghost.
Open Scope Z_scope.

(** The enumeration [BLOCKED = 0, ..., PENDING = 4]. *)
Inductive run_state_t := BLOCKED | QUEUED | ON_CPU | YIELDING | PENDING.

Global Instance run_state_eq_dec : EqDecision run_state_t.
Proof. solve_decision. Defined.

Section task.
Context `{CpuLists}.

Record NetTask := {
  gtid : Gtid;                  (** of the base class [Task] *)
  seqnum : Z;                   (** of the base class [Task] *)
  start_submit : option Z;
  run_state : run_state_t;
  cpu : option Cpu;
  prio_boost : bool;
  runtime : Z;
  elapsed_runtime : Z;
  preempted : bool;
  allowed_cpulist : CpuList;
  high_priority : bool;
}.

(** The member initialisers.  [high_priority] has none: it starts with
    whatever the memory of the allocation holds, the argument [garbage]. *)
Definition new_task (g : Gtid) (garbage : bool) : NetTask := {|
  gtid := g; seqnum := 0; start_submit := None; run_state := BLOCKED; cpu := None;
  prio_boost := false; runtime := 0; elapsed_runtime := 0; preempted := false;
  allowed_cpulist := EmptyCpuList; high_priority := garbage
|}.

(** The predicates of the header. *)
Definition blocked (t : NetTask) : bool := bool_decide (run_state t = BLOCKED).
Definition queued (t : NetTask) : bool := bool_decide (run_state t = QUEUED).
Definition oncpu (t : NetTask) : bool := bool_decide (run_state t = ON_CPU).
Definition yielding (t : NetTask) : bool := bool_decide (run_state t = YIELDING).
Definition pending (t : NetTask) : bool := bool_decide (run_state t = PENDING).

(** Assignments to the fields. *)
Definition set_run_state (x : run_state_t) (t : NetTask) : NetTask := {|
  gtid := gtid t; seqnum := seqnum t; start_submit := start_submit t; run_state := x; cpu := cpu t;
  prio_boost := prio_boost t; runtime := runtime t; elapsed_runtime := elapsed_runtime t;
  preempted := preempted t; allowed_cpulist := allowed_cpulist t; high_priority := high_priority t |}.
Definition set_cpu (x : option Cpu) (t : NetTask) : NetTask := {|
  gtid := gtid t; seqnum := seqnum t; start_submit := start_submit t; run_state := run_state t; cpu := x;
  prio_boost := prio_boost t; runtime := runtime t; elapsed_runtime := elapsed_runtime t;
  preempted := preempted t; allowed_cpulist := allowed_cpulist t; high_priority := high_priority t |}.
Definition set_seqnum (x : Z) (t : NetTask) : NetTask := {|
  gtid := gtid t; seqnum := x; start_submit := start_submit t; run_state := run_state t; cpu := cpu t;
  prio_boost := prio_boost t; runtime := runtime t; elapsed_runtime := elapsed_runtime t;
  preempted := preempted t; allowed_cpulist := allowed_cpulist t; high_priority := high_priority t |}.
Definition set_start_submit (x : option Z) (t : NetTask) : NetTask := {|
  gtid := gtid t; seqnum := seqnum t; start_submit := x; run_state := run_state t; cpu := cpu t;
  prio_boost := prio_boost t; runtime := runtime t; elapsed_runtime := elapsed_runtime t;
  preempted := preempted t; allowed_cpulist := allowed_cpulist t; high_priority := high_priority t |}.
Definition set_prio_boost (x : bool) (t : NetTask) : NetTask := {|
  gtid := gtid t; seqnum := seqnum t; start_submit := start_submit t; run_state := run_state t; cpu := cpu t;
  prio_boost := x; runtime := runtime t; elapsed_runtime := elapsed_runtime t;
  preempted := preempted t; allowed_cpulist := allowed_cpulist t; high_priority := high_priority t |}.
Definition set_preempted (x : bool) (t : NetTask) : NetTask := {|
  gtid := gtid t; seqnum := seqnum t; start_submit := start_submit t; run_state := run_state t; cpu := cpu t;
  prio_boost := prio_boost t; runtime := runtime t; elapsed_runtime := elapsed_runtime t;
  preempted := x; allowed_cpulist := allowed_cpulist t; high_priority := high_priority t |}.
Definition set_runtimes (x e : Z) (t : NetTask) : NetTask := {|
  gtid := gtid t; seqnum := seqnum t; start_submit := start_submit t; run_state := run_state t; cpu := cpu t;
  prio_boost := prio_boost t; runtime := x; elapsed_runtime := e;
  preempted := preempted t; allowed_cpulist := allowed_cpulist t; high_priority := high_priority t |}.
Definition set_allowed_cpulist (x : CpuList) (t : NetTask) : NetTask := {|
  gtid := gtid t; seqnum := seqnum t; start_submit := start_submit t; run_state := run_state t; cpu := cpu t;
  prio_boost := prio_boost t; runtime := runtime t; elapsed_runtime := elapsed_runtime t;
  preempted := preempted t; allowed_cpulist := x; high_priority := high_priority t |}.
Definition set_high_priority (x : bool) (t : NetTask) : NetTask := {|
  gtid := gtid t; seqnum := seqnum t; start_submit := start_submit t; run_state := run_state t; cpu := cpu t;
  prio_boost := prio_boost t; runtime := runtime t; elapsed_runtime := elapsed_runtime t;
  preempted := preempted t; allowed_cpulist := allowed_cpulist t; high_priority := x |}.

(** [CHECK_GE(new_runtime, runtime)] fails: [None]. *)
Definition SetRuntime (new_runtime : Z) (update_elapsed_runtime : bool) (t : NetTask) : option NetTask :=
  if new_runtime <? runtime t then None
  else Some (set_runtimes new_runtime
               (if update_elapsed_runtime then elapsed_runtime t + (new_runtime - runtime t)
                else elapsed_runtime t) t).

(** The heap comparator. *)
Definition NetTaskLess (e1 e2 : NetTask) : bool :=
  if prio_boost e1 && negb (prio_boost e2) then true
  else if prio_boost e2 && negb (prio_boost e1) then false
  else if preempted e1 && negb (preempted e2) then true
  else if preempted e2 && negb (preempted e1) then false
  else elapsed_runtime e1 <? elapsed_runtime e2.

(** ** [PickNextCpu] *)
Context `{!Topology}.

Definition PickNextCpu (avail_cpus : CpuList) (task : NetTask) (enforce_affinity : bool) : option Cpu :=
  let allowed_cpus := if enforce_affinity then Intersection (allowed_cpulist task) avail_cpus else avail_cpus in
  if Empty allowed_cpus then None
  else match cpu task with
  | None => Front allowed_cpus
  | Some previous_cpu =>
      if IsSet allowed_cpus previous_cpu then Some previous_cpu
      else match Front (Intersection allowed_cpus (siblings previous_cpu)) with
      | Some sibling_cpu => Some sibling_cpu
      | None =>
          match Front (Intersection allowed_cpus (l3_siblings previous_cpu)) with
          | Some l3_sibling_cpu => Some l3_sibling_cpu
          | None =>
              match list_find (λ allowed_cpu, numa_node previous_cpu = numa_node allowed_cpu) (Cpus allowed_cpus) with
              | Some (_, allowed_cpu) => Some allowed_cpu
              | None => Front allowed_cpus
              end
          end
      end
  end.

(** The CPUs that a task may get in a round. *)
Definition allowed_cpus (avail_cpus : CpuList) (task : NetTask) (enforce_affinity : bool) : list Cpu :=
  if enforce_affinity then filter (λ c, IsSet avail_cpus c = true) (Cpus (allowed_cpulist task))
  else Cpus avail_cpus.

(** How far a CPU is from the one the task ran on last. *)
Definition distance (task : NetTask) (c : Cpu) : nat :=
  match cpu task with
  | None => 0
  | Some p => if decide (c = p) then 0
              else if IsSet (siblings p) c then 1
              else if IsSet (l3_siblings p) c then 2
              else if decide (numa_node p = numa_node c) then 3 else 4
  end%nat.

(** The first element of [l] where [f] is least. *)
Fixpoint nearest {A} (f : A → nat) (l : list A) : option A :=
  match l with
  | [] => None
  | a :: l => match nearest f l with
              | Some b => if decide (f b < f a)%nat then Some b else Some a
              | None => Some a
              end
  end.

(** *** [PickNextCpu] chooses the nearest allowed CPU *)

Lemma nearest_elem {A} (f : A → nat) l a : nearest f l = Some a → a ∈ l.
Proof.
  revert a. induction l as [|b l IH]; intros a; cbn; [done|].
  destruct (nearest f l) as [c|]; [case_decide|]; intros [= <-]; [right; auto|left..].
Qed.

Lemma nearest_None {A} (f : A → nat) l : nearest f l = None → l = [].
Proof. destruct l as [|b l]; cbn; [done|]. destruct (nearest f l); [by case_decide|done]. Qed.

Lemma nearest_least {A} (f : A → nat) l a : nearest f l = Some a → ∀ b, b ∈ l → (f a <= f b)%nat.
Proof.
  revert a. induction l as [|c l IH]; intros a; cbn; [done|]. intros Ha b Hb.
  destruct (nearest f l) as [d|] eqn:Hn.
  - assert (∀ x, x ∈ l → f d <= f x)%nat as Hd by auto. apply elem_of_cons in Hb as [->|Hb%Hd];
      case_decide; simplify_eq; lia.
  - apply nearest_None in Hn as ->. simplify_eq. by apply list_elem_of_singleton in Hb as ->.
Qed.

(** The first element at the least value. *)
Lemma nearest_head {A} (f : A → nat) l k a :
  (∀ x, x ∈ l → k <= f x)%nat → head (filter (λ x, f x = k) l) = Some a → nearest f l = Some a.
Proof.
  revert a. induction l as [|b l IH]; intros a Hk; [done|]. cbn [nearest].
  assert (∀ x, x ∈ l → k <= f x)%nat as Hk' by (intros x Hx; apply Hk; by right).
  rewrite filter_cons. destruct (decide (f b = k)) as [Hb|Hb].
  - intros [= <-]. destruct (nearest f l) as [c|] eqn:Hn; [|done].
    rewrite decide_False; [done|]. specialize (Hk' _ (nearest_elem _ _ _ Hn)). lia.
  - intros Ha. rewrite (IH a Hk' Ha). rewrite decide_True; [done|].
    assert (f a = k) as ->.
    { assert (a ∈ filter (λ x, f x = k) l) as Hin by (destruct (filter _ l); simplify_eq/=; left).
      by apply list_elem_of_filter in Hin as [? _]. }
    assert (k <= f b)%nat by (apply Hk; left). lia.
Qed.

Lemma head_filter_None {A} (P : A → Prop) `{∀ x, Decision (P x)} l :
  head (filter P l) = None → ∀ x, x ∈ l → ¬ P x.
Proof.
  intros Hh x Hx HP. assert (x ∈ filter P l) as Hin by (by apply list_elem_of_filter).
  destruct (filter P l); [by apply elem_of_nil in Hin|done].
Qed.

Lemma filter_ext_in {A} (P Q : A → Prop) `{∀ x, Decision (P x), ∀ x, Decision (Q x)} (l : list A) :
  (∀ x, x ∈ l → P x ↔ Q x) → filter P l = filter Q l.
Proof.
  induction l as [|a l IH]; intros HPQ; [done|]. rewrite !filter_cons, IH by (intros; apply HPQ; by right).
  assert (P a ↔ Q a) by (apply HPQ; left). by repeat case_decide; tauto.
Qed.

Lemma list_find_head {A} (P : A → Prop) `{∀ x, Decision (P x)} l : snd <$> list_find P l = head (filter P l).
Proof.
  induction l as [|a l IH]; [done|]. rewrite filter_cons. cbn [list_find]. destruct (decide (P a)); [done|].
  rewrite <-IH. by destruct (list_find P l) as [[]|].
Qed.

Context `{!CpuListLaws}.

Lemma allowed_cpus_list avail t e :
  Cpus (if e : bool then Intersection (allowed_cpulist t) avail else avail) = allowed_cpus avail t e.
Proof. destruct e; cbn; [apply Cpus_Intersection|done]. Qed.

(** One class of distances: the first CPU in it, if all nearer classes are empty. *)
Lemma nearest_class t l k (P : Cpu → Prop) `{∀ c, Decision (P c)} :
  (∀ c, c ∈ l → k <= distance t c)%nat → (∀ c, c ∈ l → distance t c = k ↔ P c) →
  match head (filter P l) with
  | Some a => nearest (distance t) l = Some a
  | None => ∀ c, c ∈ l → (S k <= distance t c)%nat
  end.
Proof.
  intros Hk HP.
  assert (filter P l = filter (λ c, distance t c = k) l) as ->.
  { apply filter_ext_in. intros c Hc. symmetry. auto. }
  destruct (head _) as [a|] eqn:Hh; [by eapply nearest_head|].
  intros c Hc. pose proof (head_filter_None _ _ Hh c Hc) as Hne. cbv beta in Hne. specialize (Hk c Hc). lia.
Qed.

Ltac by_class Hd Hk :=
  let d := fresh in let Hin := fresh in
  intros d Hin; specialize (Hk d Hin); rewrite Hd in * by done; repeat case_match; (lia || done).

Lemma PickNextCpu_nearest avail t e : PickNextCpu avail t e = nearest (distance t) (allowed_cpus avail t e).
Proof.
  unfold PickNextCpu. set (a := if e then _ else _). assert (Cpus a = allowed_cpus avail t e) as Ha by apply allowed_cpus_list.
  rewrite <-Ha. clearbody a. rewrite Empty_Cpus. case_bool_decide as Hemp; [by rewrite Hemp|].
  assert (∀ c, c ∈ Cpus a → (0 <= distance t c)%nat) as H0' by (intros; lia).
  destruct (cpu t) as [p|] eqn:Hp.
  2:{ rewrite Front_Cpus. destruct (Cpus a) as [|c l] eqn:Hl; [done|]. symmetry.
      apply (nearest_head _ _ 0%nat); [intros; lia|]. rewrite filter_cons. unfold distance. by rewrite Hp. }
  pose proof (nearest_class t (Cpus a) 0 (λ c, c = p) H0') as Hs.
  destruct (IsSet a p) eqn:Hset.
  { apply elem_Cpus in Hset. symmetry.
    assert (head (filter (λ c, c = p) (Cpus a)) = Some p) as Hh.
    { destruct (head _) as [q|] eqn:Hq; [|by destruct (head_filter_None _ _ Hq p Hset)].
      assert (q ∈ filter (λ c, c = p) (Cpus a)) as Hin by (destruct (filter _ _); simplify_eq/=; left).
      apply list_elem_of_filter in Hin as [-> _]. done. }
    rewrite Hh in Hs. apply Hs. intros c Hc. unfold distance. rewrite Hp.
    destruct (decide (c = p)); [done|]. repeat case_match; lia. }
  assert (∀ c, c ∈ Cpus a → c ≠ p) as Hne by (intros c Hc ->; apply elem_Cpus in Hc; congruence).
  assert (∀ c, c ∈ Cpus a → distance t c = if IsSet (siblings p) c then 1
              else if IsSet (l3_siblings p) c then 2
              else if decide (numa_node p = numa_node c) then 3 else 4)%nat as Hd.
  { intros c Hc. unfold distance. by rewrite Hp, decide_False by auto. }
  assert (∀ c, c ∈ Cpus a → (1 <= distance t c)%nat) as Hk1 by (intros c Hc; rewrite Hd by done; repeat case_match; lia).
  clear Hs H0'. rewrite !Front_Cpus, !Cpus_Intersection.
  pose proof (nearest_class t (Cpus a) 1 (λ c, IsSet (siblings p) c = true) Hk1) as H1'.
  destruct (head (filter (λ c, IsSet (siblings p) c = true) (Cpus a))) as [c|]; [symmetry; apply H1'; by_class Hd Hk1|].
  assert (∀ c, c ∈ Cpus a → (2 <= distance t c)%nat) as Hk2 by (apply H1'; by_class Hd Hk1). clear H1'.
  pose proof (nearest_class t (Cpus a) 2 (λ c, IsSet (l3_siblings p) c = true) Hk2) as H2'.
  destruct (head (filter (λ c, IsSet (l3_siblings p) c = true) (Cpus a))) as [c|].
  { symmetry. apply H2'. by_class Hd Hk2. }
  assert (∀ c, c ∈ Cpus a → (3 <= distance t c)%nat) as Hk3.
  { apply H2'. by_class Hd Hk2. }
  clear H2'. pose proof (list_find_head (λ c, numa_node p = numa_node c) (Cpus a)) as Hf.
  pose proof (nearest_class t (Cpus a) 3 (λ c, numa_node p = numa_node c) Hk3) as H3'.
  rewrite <-Hf in H3'. destruct (list_find _ (Cpus a)) as [[i c]|]; cbn in H3'.
  { symmetry. apply H3'. by_class Hd Hk3. }
  assert (∀ c, c ∈ Cpus a → (4 <= distance t c)%nat) as Hk4.
  { apply H3'. by_class Hd Hk3. }
  symmetry. destruct (Cpus a) as [|c l] eqn:Hl; [done|]. apply (nearest_head _ _ 4%nat); [done|].
  rewrite filter_cons, decide_True; [done|].
  specialize (Hk4 c (list_elem_of_here _ _)). rewrite Hd in * by left. repeat case_match; (lia || done).
Qed.

(** What is picked is available, and something is picked unless no CPU is allowed. *)
Lemma PickNextCpu_IsSet avail t e c : PickNextCpu avail t e = Some c → IsSet avail c = true.
Proof.
  rewrite PickNextCpu_nearest. intros Hin%nearest_elem. unfold allowed_cpus in Hin. destruct e.
  - by apply list_elem_of_filter in Hin as [? _].
  - by apply elem_Cpus.
Qed.

Lemma PickNextCpu_some avail t : Empty avail = false → ∃ c, PickNextCpu avail t false = Some c.
Proof.
  rewrite Empty_Cpus, PickNextCpu_nearest. intros Hne%bool_decide_eq_false. cbn.
  destruct (nearest _ _) eqn:Hn; [eauto|]. by apply nearest_None in Hn.
Qed.

End task.
