(* ===== verification/NetScheduler.v ===== *)
(** * The scheduler ([NetScheduler] of [ghost_agent/net_scheduler.{h,cc}])

    One definition per method, with the method's name.  A [NetTask*] is a
    [ptr]: an index of [tasks_], the live tasks of the allocator; a pointer
    that is not in [tasks_] dangles.  A [CpuState*] is the index of the array
    [cpu_states_].  Every call of the ghOSt library or the kernel is a [call],
    and every [CHECK] may abort the process. *)
From S2P Require Import Prelude StateMonad Ghost CgroupWatcher NetTask.
Open Scope Z_scope.

Notation ptr := nat (only parsing).

Definition kCpuHistLen : nat := 12.

Record CpuState := { current : option ptr; next : option ptr; agent : option Cpu; in_switchto : bool }.

Definition set_current (x : option ptr) (cs : CpuState) : CpuState :=
  {| current := x; next := next cs; agent := agent cs; in_switchto := in_switchto cs |}.
Definition set_next (x : option ptr) (cs : CpuState) : CpuState :=
  {| current := current cs; next := x; agent := agent cs; in_switchto := in_switchto cs |}.
Definition set_agent (x : option Cpu) (cs : CpuState) : CpuState :=
  {| current := current cs; next := next cs; agent := x; in_switchto := in_switchto cs |}.
Definition set_in_switchto (x : bool) (cs : CpuState) : CpuState :=
  {| current := current cs; next := next cs; agent := agent cs; in_switchto := x |}.

(** The statistics, [int]s. *)
Record counters := {
  globaliter_ : Z; global_migrations_ : Z; txn_fail_unavail_ : Z; txn_fail_other_ : Z;
  txn_success_ : Z; txn_total_ : Z;
}.

(** [++] of an [int]. *)
Definition incr (x : Z) : Z := to_int (x + 1).

Definition count_iter (k : counters) : counters :=
  {| globaliter_ := incr (globaliter_ k); global_migrations_ := global_migrations_ k;
     txn_fail_unavail_ := txn_fail_unavail_ k; txn_fail_other_ := txn_fail_other_ k;
     txn_success_ := txn_success_ k; txn_total_ := txn_total_ k |}.
Definition count_migration (k : counters) : counters :=
  {| globaliter_ := globaliter_ k; global_migrations_ := incr (global_migrations_ k);
     txn_fail_unavail_ := txn_fail_unavail_ k; txn_fail_other_ := txn_fail_other_ k;
     txn_success_ := txn_success_ k; txn_total_ := txn_total_ k |}.
Definition count_unavail (k : counters) : counters :=
  {| globaliter_ := globaliter_ k; global_migrations_ := global_migrations_ k;
     txn_fail_unavail_ := incr (txn_fail_unavail_ k); txn_fail_other_ := txn_fail_other_ k;
     txn_success_ := txn_success_ k; txn_total_ := txn_total_ k |}.
Definition count_other (k : counters) : counters :=
  {| globaliter_ := globaliter_ k; global_migrations_ := global_migrations_ k;
     txn_fail_unavail_ := txn_fail_unavail_ k; txn_fail_other_ := incr (txn_fail_other_ k);
     txn_success_ := txn_success_ k; txn_total_ := txn_total_ k |}.
Definition count_success (k : counters) : counters :=
  {| globaliter_ := globaliter_ k; global_migrations_ := global_migrations_ k;
     txn_fail_unavail_ := txn_fail_unavail_ k; txn_fail_other_ := txn_fail_other_ k;
     txn_success_ := incr (txn_success_ k); txn_total_ := txn_total_ k |}.
Definition count_txn (k : counters) : counters :=
  {| globaliter_ := globaliter_ k; global_migrations_ := global_migrations_ k;
     txn_fail_unavail_ := txn_fail_unavail_ k; txn_fail_other_ := txn_fail_other_ k;
     txn_success_ := txn_success_ k; txn_total_ := incr (txn_total_ k) |}.
Definition no_counts : counters :=
  {| globaliter_ := 0; global_migrations_ := 0; txn_fail_unavail_ := 0; txn_fail_other_ := 0;
     txn_success_ := 0; txn_total_ := 0 |}.

Section scheduler.
Context `{Topology, !Kernel}.

Record NetScheduler := {
  cpus_ : CpuList;   (** the CPUs of the enclave (base class) *)
  cpu_states_ : list CpuState;
  global_cpuid_ : Cpu;
  global_home_cpu_ : Cpu;
  enforce_affinity_mask_ : bool;
  num_tasks_ : Z;
  run_queue_ : list ptr;
  run_queue_low_priority_ : list ptr;
  yielding_tasks_ : list ptr;
  cpuhist_ : list Z;
  counters_ : counters;
  debug_runqueue_ : bool;
  tasks_ : gmap ptr NetTask;   (** the live tasks of the allocator *)
  world_ : world;   (** everything outside of the process *)
}.

Definition set_cpu_states_ (x : list CpuState) (s : NetScheduler) : NetScheduler := {|
  cpus_ := cpus_ s; cpu_states_ := x; global_cpuid_ := global_cpuid_ s; global_home_cpu_ :=
  global_home_cpu_ s; enforce_affinity_mask_ := enforce_affinity_mask_ s; num_tasks_ := num_tasks_
  s; run_queue_ := run_queue_ s; run_queue_low_priority_ := run_queue_low_priority_ s;
  yielding_tasks_ := yielding_tasks_ s; cpuhist_ := cpuhist_ s; counters_ := counters_ s;
  debug_runqueue_ := debug_runqueue_ s; tasks_ := tasks_ s; world_ := world_ s |}.
Definition set_global_cpuid_ (x : Cpu) (s : NetScheduler) : NetScheduler := {|
  cpus_ := cpus_ s; cpu_states_ := cpu_states_ s; global_cpuid_ := x; global_home_cpu_ :=
  global_home_cpu_ s; enforce_affinity_mask_ := enforce_affinity_mask_ s; num_tasks_ := num_tasks_
  s; run_queue_ := run_queue_ s; run_queue_low_priority_ := run_queue_low_priority_ s;
  yielding_tasks_ := yielding_tasks_ s; cpuhist_ := cpuhist_ s; counters_ := counters_ s;
  debug_runqueue_ := debug_runqueue_ s; tasks_ := tasks_ s; world_ := world_ s |}.
Definition set_enforce_affinity_mask_ (x : bool) (s : NetScheduler) : NetScheduler := {|
  cpus_ := cpus_ s; cpu_states_ := cpu_states_ s; global_cpuid_ := global_cpuid_ s; global_home_cpu_
  := global_home_cpu_ s; enforce_affinity_mask_ := x; num_tasks_ := num_tasks_ s; run_queue_ :=
  run_queue_ s; run_queue_low_priority_ := run_queue_low_priority_ s; yielding_tasks_ :=
  yielding_tasks_ s; cpuhist_ := cpuhist_ s; counters_ := counters_ s; debug_runqueue_ :=
  debug_runqueue_ s; tasks_ := tasks_ s; world_ := world_ s |}.
Definition set_num_tasks_ (x : Z) (s : NetScheduler) : NetScheduler := {|
  cpus_ := cpus_ s; cpu_states_ := cpu_states_ s; global_cpuid_ := global_cpuid_ s; global_home_cpu_
  := global_home_cpu_ s; enforce_affinity_mask_ := enforce_affinity_mask_ s; num_tasks_ := x;
  run_queue_ := run_queue_ s; run_queue_low_priority_ := run_queue_low_priority_ s; yielding_tasks_
  := yielding_tasks_ s; cpuhist_ := cpuhist_ s; counters_ := counters_ s; debug_runqueue_ :=
  debug_runqueue_ s; tasks_ := tasks_ s; world_ := world_ s |}.
Definition set_run_queue_ (x : list ptr) (s : NetScheduler) : NetScheduler := {|
  cpus_ := cpus_ s; cpu_states_ := cpu_states_ s; global_cpuid_ := global_cpuid_ s; global_home_cpu_
  := global_home_cpu_ s; enforce_affinity_mask_ := enforce_affinity_mask_ s; num_tasks_ :=
  num_tasks_ s; run_queue_ := x; run_queue_low_priority_ := run_queue_low_priority_ s;
  yielding_tasks_ := yielding_tasks_ s; cpuhist_ := cpuhist_ s; counters_ := counters_ s;
  debug_runqueue_ := debug_runqueue_ s; tasks_ := tasks_ s; world_ := world_ s |}.
Definition set_run_queue_low_priority_ (x : list ptr) (s : NetScheduler) : NetScheduler := {|
  cpus_ := cpus_ s; cpu_states_ := cpu_states_ s; global_cpuid_ := global_cpuid_ s; global_home_cpu_
  := global_home_cpu_ s; enforce_affinity_mask_ := enforce_affinity_mask_ s; num_tasks_ :=
  num_tasks_ s; run_queue_ := run_queue_ s; run_queue_low_priority_ := x; yielding_tasks_ :=
  yielding_tasks_ s; cpuhist_ := cpuhist_ s; counters_ := counters_ s; debug_runqueue_ :=
  debug_runqueue_ s; tasks_ := tasks_ s; world_ := world_ s |}.
Definition set_yielding_tasks_ (x : list ptr) (s : NetScheduler) : NetScheduler := {|
  cpus_ := cpus_ s; cpu_states_ := cpu_states_ s; global_cpuid_ := global_cpuid_ s; global_home_cpu_
  := global_home_cpu_ s; enforce_affinity_mask_ := enforce_affinity_mask_ s; num_tasks_ :=
  num_tasks_ s; run_queue_ := run_queue_ s; run_queue_low_priority_ := run_queue_low_priority_ s;
  yielding_tasks_ := x; cpuhist_ := cpuhist_ s; counters_ := counters_ s; debug_runqueue_ :=
  debug_runqueue_ s; tasks_ := tasks_ s; world_ := world_ s |}.
Definition set_cpuhist_ (x : list Z) (s : NetScheduler) : NetScheduler := {|
  cpus_ := cpus_ s; cpu_states_ := cpu_states_ s; global_cpuid_ := global_cpuid_ s; global_home_cpu_
  := global_home_cpu_ s; enforce_affinity_mask_ := enforce_affinity_mask_ s; num_tasks_ :=
  num_tasks_ s; run_queue_ := run_queue_ s; run_queue_low_priority_ := run_queue_low_priority_ s;
  yielding_tasks_ := yielding_tasks_ s; cpuhist_ := x; counters_ := counters_ s; debug_runqueue_ :=
  debug_runqueue_ s; tasks_ := tasks_ s; world_ := world_ s |}.
Definition set_counters_ (x : counters) (s : NetScheduler) : NetScheduler := {|
  cpus_ := cpus_ s; cpu_states_ := cpu_states_ s; global_cpuid_ := global_cpuid_ s; global_home_cpu_
  := global_home_cpu_ s; enforce_affinity_mask_ := enforce_affinity_mask_ s; num_tasks_ :=
  num_tasks_ s; run_queue_ := run_queue_ s; run_queue_low_priority_ := run_queue_low_priority_ s;
  yielding_tasks_ := yielding_tasks_ s; cpuhist_ := cpuhist_ s; counters_ := x; debug_runqueue_ :=
  debug_runqueue_ s; tasks_ := tasks_ s; world_ := world_ s |}.
Definition set_debug_runqueue_ (x : bool) (s : NetScheduler) : NetScheduler := {|
  cpus_ := cpus_ s; cpu_states_ := cpu_states_ s; global_cpuid_ := global_cpuid_ s; global_home_cpu_
  := global_home_cpu_ s; enforce_affinity_mask_ := enforce_affinity_mask_ s; num_tasks_ :=
  num_tasks_ s; run_queue_ := run_queue_ s; run_queue_low_priority_ := run_queue_low_priority_ s;
  yielding_tasks_ := yielding_tasks_ s; cpuhist_ := cpuhist_ s; counters_ := counters_ s;
  debug_runqueue_ := x; tasks_ := tasks_ s; world_ := world_ s |}.
Definition set_tasks_ (x : gmap ptr NetTask) (s : NetScheduler) : NetScheduler := {|
  cpus_ := cpus_ s; cpu_states_ := cpu_states_ s; global_cpuid_ := global_cpuid_ s; global_home_cpu_
  := global_home_cpu_ s; enforce_affinity_mask_ := enforce_affinity_mask_ s; num_tasks_ :=
  num_tasks_ s; run_queue_ := run_queue_ s; run_queue_low_priority_ := run_queue_low_priority_ s;
  yielding_tasks_ := yielding_tasks_ s; cpuhist_ := cpuhist_ s; counters_ := counters_ s;
  debug_runqueue_ := debug_runqueue_ s; tasks_ := x; world_ := world_ s |}.
Definition set_world_ (x : world) (s : NetScheduler) : NetScheduler := {|
  cpus_ := cpus_ s; cpu_states_ := cpu_states_ s; global_cpuid_ := global_cpuid_ s; global_home_cpu_
  := global_home_cpu_ s; enforce_affinity_mask_ := enforce_affinity_mask_ s; num_tasks_ :=
  num_tasks_ s; run_queue_ := run_queue_ s; run_queue_low_priority_ := run_queue_low_priority_ s;
  yielding_tasks_ := yielding_tasks_ s; cpuhist_ := cpuhist_ s; counters_ := counters_ s;
  debug_runqueue_ := debug_runqueue_ s; tasks_ := tasks_ s; world_ := x |}.

Global Instance calls_scheduler : Calls NetScheduler :=
  {| world_of := world_; with_world s w := set_world_ w s |}.

Notation M := (eff NetScheduler).

(** ** Access to tasks and CPU states *)

Definition get_task (p : ptr) : M NetTask := s ← get; expect UseAfterFree (tasks_ s !! p).
Definition upd_task (p : ptr) (f : NetTask → NetTask) : M unit :=
  t ← get_task p; modify (λ s, set_tasks_ (<[p := f t]> (tasks_ s)) s).

Definition cpu_state (c : Cpu) : M CpuState := s ← get; expect OutOfBounds (cpu_states_ s !! c).
Definition upd_cpu (c : Cpu) (f : CpuState → CpuState) : M unit :=
  cs ← cpu_state c; modify (λ s, set_cpu_states_ (<[c := f cs]> (cpu_states_ s)) s).

Definition count (f : counters → counters) : M unit :=
  modify (λ s, set_counters_ (f (counters_ s)) s).

Definition GetGlobalCPUId : M Cpu := s ← get; mret (global_cpuid_ s).
Definition SetGlobalCPU (c : Cpu) : M unit := modify (set_global_cpuid_ c).
Definition SetEnforceAffinityMask (enforce_affinity : bool) : M unit :=
  modify (set_enforce_affinity_mask_ enforce_affinity).
Definition IsEmpty : M bool := s ← get; mret (num_tasks_ s =? 0).

(** ** Construction *)

(** The object the constructor makes; [hist] and [garbage] are what the memory
    of [cpuhist_] and [enforce_affinity_mask_], which have no initialisers,
    holds.  [None]: the [CHECK] fails. *)
Definition new_scheduler (cpus : CpuList) (global_cpu : Cpu) (hist : list Z) (garbage : bool) (w : world) :
    option NetScheduler :=
  let make c := {|
    cpus_ := cpus;
    cpu_states_ := replicate MAX_CPUS {| current := None; next := None; agent := None; in_switchto := false |};
    global_cpuid_ := c; global_home_cpu_ := c; enforce_affinity_mask_ := garbage; num_tasks_ := 0;
    run_queue_ := []; run_queue_low_priority_ := []; yielding_tasks_ := []; cpuhist_ := hist;
    counters_ := no_counts; debug_runqueue_ := false; tasks_ := ∅; world_ := w |} in
  if IsSet cpus global_cpu then Some (make global_cpu)
  else c ← Front cpus; Some (make c).

Definition EnclaveReady : M unit :=
  s ← get;
  for_each (λ c _,
    b ← call (HasAgent c);
    upd_cpu c (set_agent (if b : bool then Some c else None));;
    CHECK b) (Cpus (cpus_ s)) tt.

Definition Available (c : Cpu) : M bool :=
  cs ← cpu_state c;
  a ← expect NullDereference (agent cs);
  call (CpuAvail a).

Definition ValidatePreExitState : M unit :=
  s ← get;
  CHECK (bool_decide (length (run_queue_ s) = 0%nat));;
  CHECK (bool_decide (length (run_queue_low_priority_ s) = 0%nat)).

(** The state change of the periodic dump; [verbose]: whether the tasks on
    the CPUs are listed, too. *)
Definition DumpState (dump_empty_rq verbose : bool) : M unit :=
  s ← get;
  if negb dump_empty_rq && bool_decide (run_queue_ s = []) then mret tt
  else
    for_each (λ i _, s ← get; h ← lift (arr_set (cpuhist_ s) i 0); modify (set_cpuhist_ h))
      (seqZ 1 (Z.of_nat kCpuHistLen - 1)) tt;;
    (if verbose then
      for_each (λ c _, cs ← cpu_state c;
        match current cs with Some p => get_task p;; mret tt | None => mret tt end) (Cpus (cpus_ s)) tt
     else mret tt);;
    modify (set_counters_ no_counts).

(** ** Helpers of the callbacks *)

(** The CPU whose state the returned pointer points to. *)
Definition cpu_state_of (p : ptr) : M Cpu :=
  t ← get_task p;
  CHECK (is_some (cpu t));;
  CHECK (oncpu t || pending t);;
  c ← expect OutOfBounds (cpu t);
  cs ← cpu_state c;
  CHECK (bool_decide (current cs = Some p) || bool_decide (next cs = Some p));;
  mret c.

Definition UpdateTaskRuntime (p : ptr) (new_runtime : Z) (update_elapsed_runtime : bool) : M unit :=
  t ← get_task p;
  match SetRuntime new_runtime update_elapsed_runtime t with
  | Some t' => upd_task p (λ _, t')
  | None => CHECK false
  end.

(** [NetTask::UpdateRuntime] *)
Definition UpdateRuntime (p : ptr) : M unit :=
  t ← get_task p;
  r ← call (Runtime (gtid t));
  UpdateTaskRuntime p r true.

Definition CpuEnteringSwitchto (cpu : Z) : M unit :=
  CHECK (0 <=? cpu);;
  CHECK (cpu <? Z.of_nat MAX_CPUS);;
  cs ← cpu_state (Z.to_nat cpu);
  CHECK (negb (in_switchto cs));;
  upd_cpu (Z.to_nat cpu) (set_in_switchto true).

Definition CpuLeavingSwitchto (cpu : Z) : M unit :=
  CHECK (0 <=? cpu);;
  CHECK (cpu <? Z.of_nat MAX_CPUS);;
  cs ← cpu_state (Z.to_nat cpu);
  CHECK (in_switchto cs);;
  upd_cpu (Z.to_nat cpu) (set_in_switchto false).

Definition AdjustTaskPriority (p : ptr) : M unit :=
  t ← get_task p;
  task_name ← GetTaskName (tid (gtid t));
  upd_task p (set_high_priority true);;
  when (negb (StrContains task_name "EngineThread")) (upd_task p (set_high_priority false)).

(** ** Run queues *)

Definition Enqueue (p : ptr) : M unit :=
  upd_task p (set_run_state QUEUED);;
  t ← get_task p;
  let push (q : list ptr) := if prio_boost t || preempted t then p :: q else q ++ [p] in
  if high_priority t
  then modify (λ s, set_run_queue_ (push (run_queue_ s)) s)
  else modify (λ s, set_run_queue_low_priority_ (push (run_queue_low_priority_ s)) s).

Definition Dequeue : M (option ptr) :=
  s ← get;
  match run_queue_ s with
  | p :: q => modify (set_run_queue_ q);; mret (Some p)
  | [] =>
      match run_queue_low_priority_ s with
      | p :: q => modify (set_run_queue_low_priority_ q);; mret (Some p)
      | [] => mret None
      end
  end.

Definition Yield (p : ptr) : M unit :=
  t ← get_task p;
  CHECK (oncpu t || queued t || blocked t);;
  upd_task p (set_run_state YIELDING);;
  modify (λ s, set_yielding_tasks_ (yielding_tasks_ s ++ [p]) s).

(** [q.erase(std::find(q.begin(), q.end(), p))], [None] when [p] is not in [q]. *)
Definition find_erase (p : ptr) (q : list ptr) : option (list ptr) :=
  '(i, _) ← list_find (λ x, p = x) q; Some (delete i q).

Definition Unyield (p : ptr) : M unit :=
  t ← get_task p;
  CHECK (yielding t);;
  s ← get;
  match find_erase p (yielding_tasks_ s) with
  | Some q => modify (set_yielding_tasks_ q);; Enqueue p
  | None => CHECK false
  end.

Definition RemoveFromRunqueue (p : ptr) (state : run_state_t) : M unit :=
  t ← get_task p;
  CHECK (queued t);;
  s ← get;
  (match find_erase p (run_queue_ s) with
   | Some q => modify (set_run_queue_ q)
   | None =>
       match find_erase p (run_queue_low_priority_ s) with
       | Some q => modify (set_run_queue_low_priority_ q)
       | None => CHECK false
       end
   end);;
  upd_task p (set_run_state state).

(** ** Transactions *)

Definition SyncCpuState (c : Cpu) : M bool :=
  cs ← cpu_state c;
  match next cs with
  | None => mret true
  | Some p =>
      t ← get_task p;
      CHECK (negb (queued t));;
      committed ← call (Committed c);
      CHECK committed;;
      upd_cpu c (set_next None);;
      state ← call (TxnState c);
      if bool_decide (state = GHOST_TXN_COMPLETE) then
        upd_cpu c (set_current (Some p));;
        upd_task p (set_run_state ON_CPU);;
        upd_task p (set_prio_boost false);;
        upd_task p (set_cpu (Some c));;
        count count_success;;
        mret true
      else
        upd_task p (set_cpu None);;
        upd_task p (set_start_submit None);;
        Enqueue p;;
        state ← call (TxnState c);
        (if bool_decide (state = GHOST_TXN_CPU_UNAVAIL) then count count_unavail else count count_other);;
        mret false
  end.

(** [next = None] vacates the CPU. *)
Definition PreemptTask (prev next : option ptr) (agent_barrier : Z) : M bool :=
  CHECK (is_some prev);;
  prev_p ← expect NullDereference prev;
  t ← get_task prev_p;
  CHECK (negb (pending t));;
  CHECK (oncpu t);;
  if decide (prev = next) then mret true
  else
    (match next with
     | None => mret tt
     | Some n => t' ← get_task n; CHECK (negb (oncpu t'))
     end);;
    c ← expect OutOfBounds (cpu t);
    committed ← (match next with
      | Some n =>
          t' ← get_task n;
          call (Open c (gtid t') (seqnum t') (Some agent_barrier));;
          call (Commit c)
      | None =>
          call (OpenUnschedule c);;
          b ← call (Commit c);
          CHECK b;; mret true
      end);
    if negb committed then mret false
    else
      upd_cpu c (set_current next);;
      (match next with
       | Some n =>
           upd_task n (set_run_state ON_CPU);;
           upd_task n (set_cpu (Some c));;
           UpdateRuntime prev_p
       | None => mret tt
       end);;
      mret true.

Definition ReplaceExistingTask (c : Cpu) (n : ptr) : M unit :=
  cs ← cpu_state c;
  let prev := current cs in
  in_sync ← PreemptTask prev (Some n) 0;
  prev_p ← expect NullDereference prev;
  upd_task prev_p (set_preempted false);;
  upd_task prev_p (set_prio_boost true);;
  Enqueue prev_p;;
  (if in_sync : bool then
     upd_task n (set_prio_boost false);;
     upd_task n (set_preempted false);;
     upd_cpu c (set_next None)
   else
     upd_cpu c (set_current None);;
     Yield n);;
  now ← call MonotonicNow;
  upd_task n (set_start_submit (Some now));;
  count count_txn.

(** ** Callbacks *)

(** The part that [TaskBlocked], [TaskPreempted], [TaskYield] and
    [TaskSwitchto] share: a task that is on a CPU or pending leaves it. *)
Definition leave_cpu (p : ptr) (payload_runtime : Z) : M unit :=
  UpdateTaskRuntime p payload_runtime true;;
  c ← cpu_state_of p;
  t ← get_task p;
  when (pending t) (
    cs ← cpu_state c;
    CHECK (bool_decide (next cs = Some p));;
    CHECK (bool_decide (current cs = None));;
    tc ← expect OutOfBounds (cpu t);
    synced ← SyncCpuState tc;
    CHECK synced);;
  upd_cpu c (set_current None).

(** The part they share for a task that was a switchto target. *)
Definition leave_switchto (p : ptr) (payload_runtime payload_cpu : Z) : M unit :=
  t ← get_task p;
  CHECK (blocked t);;
  UpdateTaskRuntime p payload_runtime true;;
  CpuLeavingSwitchto payload_cpu.

Definition TaskNew (p : ptr) (payload_runtime : Z) (runnable : bool) (msg_seqnum : Z) : M unit :=
  UpdateTaskRuntime p payload_runtime false;;
  upd_task p (set_seqnum msg_seqnum);;
  upd_task p (set_run_state BLOCKED);;
  when runnable (Enqueue p);;
  t ← get_task p;
  affinity ← call (sched_getaffinity (tid (gtid t)));
  CHECK (is_some affinity);;
  let allowed := default ∅ affinity in
  CHECK (bool_decide (size allowed <= MAX_CPUS)%nat);;
  s ← get;
  for_each (λ c _, when (bool_decide (c ∈ allowed))
    (upd_task p (λ t, set_allowed_cpulist (SetCpu (allowed_cpulist t) c) t))) (Cpus (cpus_ s)) tt;;
  t ← get_task p;
  CHECK (negb (Empty (allowed_cpulist t)));;
  AdjustTaskPriority p;;
  modify (λ s, set_num_tasks_ (incr (num_tasks_ s)) s).

Definition TaskRunnable (p : ptr) (deferrable : bool) : M unit :=
  t ← get_task p;
  CHECK (blocked t);;
  CHECK (negb (pending t));;
  upd_task p (set_prio_boost (negb deferrable));;
  Enqueue p.

(** [allocator()->FreeTask(task)] and the count. *)
Definition free_task (p : ptr) : M unit :=
  get_task p;;
  modify (λ s, set_tasks_ (delete p (tasks_ s)) s);;
  modify (λ s, set_num_tasks_ (to_int (num_tasks_ s - 1)) s).

Definition TaskDeparted (p : ptr) (payload_cpu : Z) (from_switchto : bool) : M unit :=
  when from_switchto (CpuLeavingSwitchto payload_cpu);;
  free_task p.

Definition TaskDead (p : ptr) : M unit :=
  t ← get_task p;
  CHECK (blocked t);;
  free_task p.

Definition TaskBlocked (p : ptr) (payload_runtime payload_cpu : Z) (from_switchto : bool) : M unit :=
  upd_task p (set_prio_boost false);;
  t ← get_task p;
  (if oncpu t || pending t then
     leave_cpu p payload_runtime;;
     upd_task p (set_run_state BLOCKED)
   else if from_switchto then
     leave_switchto p payload_runtime payload_cpu
   else
     CHECK (queued t);;
     RemoveFromRunqueue p BLOCKED);;
  when (negb from_switchto) (upd_task p (set_start_submit None)).

Definition TaskPreempted (p : ptr) (payload_runtime payload_cpu : Z) (from_switchto : bool) : M unit :=
  upd_task p (set_preempted true);;
  upd_task p (set_prio_boost false);;
  t ← get_task p;
  (if oncpu t || pending t then
     leave_cpu p payload_runtime;;
     Enqueue p
   else if from_switchto then
     leave_switchto p payload_runtime payload_cpu;;
     Enqueue p
   else
     CHECK (queued t));;
  when (negb from_switchto) (upd_task p (set_start_submit None)).

Definition TaskYield (p : ptr) (payload_runtime payload_cpu : Z) (from_switchto : bool) : M unit :=
  upd_task p (set_prio_boost false);;
  t ← get_task p;
  (if oncpu t || pending t then
     leave_cpu p payload_runtime;;
     Yield p
   else if from_switchto then
     leave_switchto p payload_runtime payload_cpu;;
     Yield p
   else
     CHECK (queued t));;
  when (negb from_switchto) (upd_task p (set_start_submit None)).

Definition TaskSwitchto (p : ptr) (payload_runtime payload_cpu : Z) : M unit :=
  CpuEnteringSwitchto payload_cpu;;
  upd_task p (set_prio_boost false);;
  t ← get_task p;
  if oncpu t || pending t then
    leave_cpu p payload_runtime;;
    upd_task p (set_run_state BLOCKED)
  else
    CHECK (queued t);;
    RemoveFromRunqueue p BLOCKED.

(** The messages of the kernel with the payload that the callbacks read, and
    the callback for each. *)
Inductive message :=
  | MSG_TASK_NEW (runtime : Z) (runnable : bool) (seqnum : Z)
  | MSG_TASK_WAKEUP (deferrable : bool)
  | MSG_TASK_DEAD
  | MSG_TASK_DEPARTED (cpu : Z) (from_switchto : bool)
  | MSG_TASK_BLOCKED (runtime cpu : Z) (from_switchto : bool)
  | MSG_TASK_PREEMPT (runtime cpu : Z) (from_switchto : bool)
  | MSG_TASK_YIELD (runtime cpu : Z) (from_switchto : bool)
  | MSG_TASK_SWITCHTO (runtime cpu : Z).

Definition handle (p : ptr) (m : message) : M unit :=
  match m with
  | MSG_TASK_NEW r b n => TaskNew p r b n
  | MSG_TASK_WAKEUP d => TaskRunnable p d
  | MSG_TASK_DEAD => TaskDead p
  | MSG_TASK_DEPARTED c b => TaskDeparted p c b
  | MSG_TASK_BLOCKED r c b => TaskBlocked p r c b
  | MSG_TASK_PREEMPT r c b => TaskPreempted p r c b
  | MSG_TASK_YIELD r c b => TaskYield p r c b
  | MSG_TASK_SWITCHTO r c => TaskSwitchto p r c
  end.

(** ** The scheduling round *)

(** Local variables of [GlobalSchedule]. *)
Record round := {
  avail_cpus : CpuList; avail_cpus_low_priority : CpuList; assigned_cpus : CpuList; unavail : Z;
}.

Definition empty_round : round := {|
  avail_cpus := EmptyCpuList; avail_cpus_low_priority := EmptyCpuList;
  assigned_cpus := EmptyCpuList; unavail := 0 |}.

Definition add_avail (c : Cpu) (r : round) : round := {|
  avail_cpus := SetCpu (avail_cpus r) c; avail_cpus_low_priority := avail_cpus_low_priority r;
  assigned_cpus := assigned_cpus r; unavail := unavail r |}.
Definition add_low (c : Cpu) (r : round) : round := {|
  avail_cpus := avail_cpus r; avail_cpus_low_priority := SetCpu (avail_cpus_low_priority r) c;
  assigned_cpus := assigned_cpus r; unavail := unavail r |}.
Definition add_unavail (r : round) : round := {|
  avail_cpus := avail_cpus r; avail_cpus_low_priority := avail_cpus_low_priority r;
  assigned_cpus := assigned_cpus r; unavail := incr (unavail r) |}.
Definition clear_low (c : Cpu) (r : round) : round := {|
  avail_cpus := avail_cpus r; avail_cpus_low_priority := ClearCpu (avail_cpus_low_priority r) c;
  assigned_cpus := assigned_cpus r; unavail := unavail r |}.
Definition assign (c : Cpu) (r : round) : round := {|
  avail_cpus := ClearCpu (avail_cpus r) c; avail_cpus_low_priority := avail_cpus_low_priority r;
  assigned_cpus := SetCpu (assigned_cpus r) c; unavail := unavail r |}.

(** [absl::StrContains(GetTaskName(...), "memcached")] *)
Definition is_memcached (t : NetTask) : M bool :=
  name ← GetTaskName (tid (gtid t)); mret (StrContains name "memcached").

(** [MonotonicNow() - start_submit > 300us]; the difference to
    [InfiniteFuture] is negative. *)
Definition ran_long (t : NetTask) : M bool :=
  now ← call MonotonicNow;
  mret (match start_submit t with Some start => 300000 <? now - start | None => false end).

(** Lines 692 to 696, for a CPU that has a task [p] after the
    synchronisation: whether the task may be replaced. *)
Definition replaceable (p : ptr) : M bool :=
  t ← get_task p;
  memcached ← is_memcached t;
  long ← (if memcached : bool then
            lucky ← call (Bernoulli 1 50);
            if lucky : bool then ran_long t else mret false
          else mret false);
  if long : bool then mret true
  else memcached ← is_memcached t; mret (negb memcached).

(** One CPU of the first loop. *)
Definition scan_cpu (c : Cpu) (r : round) : M round :=
  cs ← cpu_state c;
  available ← Available c;
  if negb available then
    (if is_some (next cs) then
       committed ← call (Committed c);
       if committed : bool then SyncCpuState c;; mret tt else mret tt
     else mret tt);;
    mret (add_unavail r)
  else
    global ← GetGlobalCPUId;
    if bool_decide (c = global) || is_some (current cs) then mret r
    else
      committed ← call (Committed c);
      if negb committed then mret r
      else
        SyncCpuState c;;
        cs ← cpu_state c;
        match current cs with
        | None => mret (if in_switchto cs then r else add_avail c r)
        | Some p => b ← replaceable p; mret (if b : bool then add_low c r else r)
        end.

(** Lines 749 to 774: a transaction for an available CPU. *)
Definition give_cpu (p : ptr) (t : NetTask) (c : Cpu) (r : round) : M round :=
  cs ← cpu_state c;
  CHECK (bool_decide (next cs = None));;
  CHECK (bool_decide (current cs = None));;
  upd_cpu c (set_next (Some p));;
  call (Open c (gtid t) (seqnum t) None);;
  upd_task p (set_run_state PENDING);;
  upd_task p (set_cpu (Some c));;
  when (preempted t) (upd_task p (set_prio_boost true);; upd_task p (set_preempted false));;
  now ← call MonotonicNow;
  upd_task p (set_start_submit (Some now));;
  count count_txn;;
  mret (assign c r).

(** Lines 726 to 747: choose a CPU, or a task to replace, or skip the round. *)
Definition place_task (p : ptr) (t : NetTask) (r : round) : M round :=
  s ← get;
  let enforce := enforce_affinity_mask_ s in
  match (if Empty (avail_cpus r) then None else PickNextCpu (avail_cpus r) t enforce) with
  | Some c => give_cpu p t c r
  | None =>
      match (if Empty (avail_cpus_low_priority r) then None
             else PickNextCpu (avail_cpus_low_priority r) t enforce) with
      | Some c => ReplaceExistingTask c p;; mret (clear_low c r)
      | None => Yield p;; mret r
      end
  end.

(** One task of the assignment loop, after [Dequeue]. *)
Definition assign_task (p : ptr) (r : round) : M round :=
  t ← get_task p;
  CHECK (negb (pending t));;
  running ← call (OnCpu (gtid t));
  stale ← (if running : bool then mret true
           else b ← call (Barrier (gtid t)); mret (negb (seqnum t =? b)));
  if stale : bool then Yield p;; mret r else place_task p t r.

(** The assignment loop.  Every iteration takes a task from the queues; only
    [ReplaceExistingTask] puts one back, and it uses up a replaceable CPU. *)
Fixpoint assign_loop (fuel : nat) (r : round) : M round :=
  match fuel with
  | O => fail OutOfFuel
  | S fuel =>
      if Empty (avail_cpus r) && Empty (avail_cpus_low_priority r) then mret r
      else
        next ← Dequeue;
        match next with
        | None => mret r
        | Some p => r ← assign_task p r; assign_loop fuel r
        end
  end.

Definition assign_fuel (r : round) (s : NetScheduler) : nat :=
  S (length (run_queue_ s) + length (run_queue_low_priority_ s) + length (Cpus (avail_cpus_low_priority r))).

(** Lines 783 to 789. *)
Definition unyield_all : M unit :=
  s ← get;
  for_each (λ p _, t ← get_task p; CHECK (yielding t);; Enqueue p) (yielding_tasks_ s) tt;;
  modify (set_yielding_tasks_ []).

(** Lines 794 to 799. *)
Definition record_unavail (unavail : Z) : M unit :=
  let slot := if Z.of_nat kCpuHistLen - 1 <? unavail then Z.of_nat kCpuHistLen - 1 else unavail in
  s ← get;
  n ← lift (arr_get (cpuhist_ s) slot);
  h ← lift (arr_set (cpuhist_ s) slot (incr n));
  modify (set_cpuhist_ h);;
  count count_iter.

Definition GlobalSchedule : M unit :=
  s ← get;
  r ← for_each scan_cpu (Cpus (cpus_ s)) empty_round;
  s ← get;
  r ← assign_loop (assign_fuel r s) r;
  when (negb (Empty (assigned_cpus r))) (call (SubmitRunRequests (assigned_cpus r)));;
  unyield_all;;
  record_unavail (unavail r).

(** ** The global agent's CPU *)

(** The loop that looks for a target; [None]: no CPU is suitable. *)
Fixpoint find_target (global_cpu_id home : Cpu) (l : list Cpu) : M (option Cpu) :=
  match l with
  | [] => mret None
  | c :: l =>
      go_home ← (if bool_decide (home ≠ global_cpu_id) then
                   a ← Available home;
                   if a : bool then call (Committed home) else mret false
                 else mret false);
      if go_home : bool then SyncCpuState home;; mret (Some home)
      else
        cs ← cpu_state c;
        if in_switchto cs then find_target global_cpu_id home l
        else if negb (bool_decide (numa_node c = numa_node home)) then find_target global_cpu_id home l
        else
          ok ← (if bool_decide (c ≠ global_cpu_id) then
                  a ← Available c;
                  if a : bool then call (Committed c) else mret false
                else mret false);
          if ok : bool then mret (Some c) else find_target global_cpu_id home l
  end.

Definition PickNextGlobalCPU : M unit :=
  s ← get;
  target ← find_target (global_cpuid_ s) (global_home_cpu_ s) (Cpus (cpus_ s));
  match target with
  | None => mret tt
  | Some target =>
      committed ← call (Committed target);
      CHECK committed;;
      cs ← cpu_state target;
      when (is_some (next cs)) (SyncCpuState target;; mret tt);;
      cs ← cpu_state target;
      (match current cs with
       | None => mret tt
       | Some prev =>
           t ← get_task prev;
           CHECK (oncpu t);;
           in_sync ← PreemptTask (Some prev) None 0;
           CHECK in_sync;;
           upd_task prev (set_prio_boost true);;
           Enqueue prev;;
           upd_cpu target (set_current None)
       end);;
      SetGlobalCPU target;;
      call (Ping target);;
      count count_migration
  end.

Definition SCHED_OTHER : Z := 0.

Definition SetSchedCFS (p : ptr) : M unit :=
  t ← get_task p;
  ret ← call (sched_setscheduler (tid (gtid t)) SCHED_OTHER);
  when (ret =? 0) (now ← call (sched_getscheduler (tid (gtid t))); CHECK (now =? SCHED_OTHER)).

End scheduler.
