(* ===== verification/NetSchedulerInv.v ===== *)
(** * Where tasks are: the scheduler's invariant

    A task has a [place], read off its run state; [placed] says that the run
    queues, the list of yielding tasks and the CPU states hold the tasks whose
    place they are, each exactly once, and nothing else.  The lemmas [place_...]
    move one task from a place to another. *)
From S2P Require Import Prelude StateMonad Ghost CgroupWatcher NetTask NetScheduler.
Open Scope Z_scope.

(** ** Places *)
Inductive place := Off | Queued | Yielded | Running (c : option Cpu) | Assigned (c : option Cpu).

Global Instance place_eq_dec : EqDecision place.
Proof. solve_decision. Defined.

Definition place_of `{CpuLists} (t : NetTask) : place :=
  match run_state t with
  | BLOCKED => Off | QUEUED => Queued | YIELDING => Yielded
  | ON_CPU => Running (cpu t) | PENDING => Assigned (cpu t)
  end.

(** [q] and [y] are the tasks in the run queues and in the list of yielding
    tasks, [cs] the CPU states, [A] the places. *)
Record placed (q y : list ptr) (cs : list CpuState) (A : gmap ptr place) : Prop := {
  pl_queue p : occ p q = if decide (A !! p = Some Queued) then 1 else 0;
  pl_yield p : occ p y = if decide (A !! p = Some Yielded) then 1 else 0;
  pl_current c st p : cs !! c = Some st → current st = Some p → A !! p = Some (Running (Some c));
  pl_running p o : A !! p = Some (Running o) → ∃ c st, o = Some c ∧ cs !! c = Some st ∧ current st = Some p;
  pl_next c st p : cs !! c = Some st → next st = Some p → A !! p = Some (Assigned (Some c));
  pl_assigned p o : A !! p = Some (Assigned o) → ∃ c st, o = Some c ∧ cs !! c = Some st ∧ next st = Some p;
  pl_excl c st : cs !! c = Some st → current st = None ∨ next st = None;
}.

(** Lookups in an updated map or list: split on the key. *)
Ltac split_key :=
  repeat match goal with
         | H : context [<[?p := _]> _ !! ?x] |- _ =>
             destruct (decide (p = x)) as [<-|];
             [rewrite lookup_insert_eq in H|rewrite lookup_insert_ne in H by done]
         | |- context [<[?p := _]> _ !! ?x] =>
             destruct (decide (p = x)) as [<-|];
             [rewrite lookup_insert_eq|rewrite lookup_insert_ne by done]
         end.

Lemma occ_single (p x : ptr) : occ x [p] = if decide (x = p) then 1 else 0.
Proof. unfold occ. simpl. by case_decide. Qed.

Section places.
Implicit Types (q y : list ptr) (cs : list CpuState) (A : gmap ptr place).

(** A task that is nowhere is in no queue and on no CPU. *)
Lemma place_enqueue q q' y cs A p :
  placed q y cs A → A !! p = Some Off → (∀ x, occ x q' = occ x [p] + occ x q) →
  placed q' y cs (<[p := Queued]> A).
Proof.
  intros [Hq Hy Hc Hr Hn Ha He] Hp Hq'. split; try done.
  - intros x. rewrite Hq', Hq, occ_single. destruct (decide (x = p)) as [->|].
    + rewrite lookup_insert_eq, Hp. by rewrite decide_False, decide_True.
    + by rewrite lookup_insert_ne.
  - intros x. rewrite Hy. destruct (decide (x = p)) as [->|]; [|by rewrite lookup_insert_ne].
    rewrite lookup_insert_eq, Hp. by rewrite !decide_False.
  - intros c st x Hst Hx. pose proof (Hc _ _ _ Hst Hx). split_key; congruence.
  - intros x o Hx. split_key; [done|eauto].
  - intros c st x Hst Hx. pose proof (Hn _ _ _ Hst Hx). split_key; congruence.
  - intros x o Hx. split_key; [done|eauto].
Qed.

Lemma place_dequeue q q' y cs A p :
  placed q y cs A → A !! p = Some Queued → (∀ x, occ x q = occ x [p] + occ x q') →
  placed q' y cs (<[p := Off]> A).
Proof.
  intros [Hq Hy Hc Hr Hn Ha He] Hp Hq'. split; try done.
  - intros x. pose proof (Hq' x) as E. rewrite Hq, occ_single in E. destruct (decide (x = p)) as [->|].
    + rewrite lookup_insert_eq. rewrite Hp, decide_True in E by done. rewrite decide_False by done. lia.
    + rewrite lookup_insert_ne by done. lia.
  - intros x. rewrite Hy. destruct (decide (x = p)) as [->|]; [|by rewrite lookup_insert_ne].
    rewrite lookup_insert_eq, Hp. by rewrite !decide_False.
  - intros c st x Hst Hx. pose proof (Hc _ _ _ Hst Hx). split_key; congruence.
  - intros x o Hx. split_key; [done|eauto].
  - intros c st x Hst Hx. pose proof (Hn _ _ _ Hst Hx). split_key; congruence.
  - intros x o Hx. split_key; [done|eauto].
Qed.

(** The same for the list of yielding tasks: the two lists have the same role. *)
Lemma placed_swap q y cs A :
  placed q y cs A → placed y q cs ((λ k, match k with Queued => Yielded | Yielded => Queued | _ => k end) <$> A).
Proof.
  intros [Hq Hy Hc Hr Hn Ha He]. split; try done.
  - intros x. rewrite Hy, lookup_fmap. destruct (A !! x) as [[]|]; done.
  - intros x. rewrite Hq, lookup_fmap. destruct (A !! x) as [[]|]; done.
  - intros c st x Hst Hx. by rewrite lookup_fmap, (Hc _ _ _ Hst Hx).
  - intros x o Hx. apply Hr. rewrite lookup_fmap in Hx. by destruct (A !! x) as [[]|].
  - intros c st x Hst Hx. by rewrite lookup_fmap, (Hn _ _ _ Hst Hx).
  - intros x o Hx. apply Ha. rewrite lookup_fmap in Hx. by destruct (A !! x) as [[]|].
Qed.

Lemma swap_places A :
  (λ k, match k with Queued => Yielded | Yielded => Queued | _ => k end) <$>
    ((λ k, match k with Queued => Yielded | Yielded => Queued | _ => k end) <$> A) = A.
Proof. rewrite <-map_fmap_compose. rewrite <-(map_fmap_id A) at 2. apply map_fmap_ext. by intros ? [] _. Qed.

Lemma place_yield q y cs A p :
  placed q y cs A → A !! p = Some Off → placed q (y ++ [p]) cs (<[p := Yielded]> A).
Proof.
  intros Hpl Hp. apply placed_swap in Hpl.
  eapply (place_enqueue _ (y ++ [p]) _ _ _ p) in Hpl; [|by rewrite lookup_fmap, Hp|intros x; rewrite occ_app; lia].
  apply placed_swap in Hpl. by rewrite fmap_insert, swap_places in Hpl.
Qed.

Lemma place_unyield q y y' cs A p :
  placed q y cs A → A !! p = Some Yielded → (∀ x, occ x y = occ x [p] + occ x y') →
  placed q y' cs (<[p := Off]> A).
Proof.
  intros Hpl Hp Hy. apply placed_swap in Hpl.
  eapply (place_dequeue _ y' _ _ _ p) in Hpl; [|by rewrite lookup_fmap, Hp|done].
  apply placed_swap in Hpl. by rewrite fmap_insert, swap_places in Hpl.
Qed.

(** A CPU state may change in what does not concern tasks. *)
Lemma place_same q y cs A c st st' :
  placed q y cs A → cs !! c = Some st → current st' = current st → next st' = next st →
  placed q y (<[c := st']> cs) A.
Proof.
  intros [Hq Hy Hc Hr Hn Ha He] Hst Ec En.
  assert (∀ d st1, <[c := st']> cs !! d = Some st1 →
            ∃ st0, cs !! d = Some st0 ∧ current st1 = current st0 ∧ next st1 = next st0) as Hd.
  { intros d st1. rewrite list_lookup_insert_Some. naive_solver. }
  assert (∀ d st0, cs !! d = Some st0 →
            ∃ st1, <[c := st']> cs !! d = Some st1 ∧ current st1 = current st0 ∧ next st1 = next st0) as Hd'.
  { intros d st0 Hst0. destruct (decide (c = d)) as [<-|].
    - exists st'. rewrite list_lookup_insert_eq by (by eapply lookup_lt_Some). naive_solver.
    - exists st0. by rewrite list_lookup_insert_ne. }
  split; try done.
  - intros d st1 x (st0 & H0 & E1 & E2)%Hd Hx. rewrite E1 in Hx. eauto.
  - intros x o (d & st0 & -> & (st1 & H1 & E1 & E2)%Hd' & Hx)%Hr. exists d, st1. by rewrite E1.
  - intros d st1 x (st0 & H0 & E1 & E2)%Hd Hx. rewrite E2 in Hx. eauto.
  - intros x o (d & st0 & -> & (st1 & H1 & E1 & E2)%Hd' & Hx)%Ha. exists d, st1. by rewrite E2.
  - intros d st1 (st0 & H0 & -> & ->)%Hd. eauto.
Qed.

Lemma lookup_cpu cs c st st' d st1 :
  cs !! c = Some st →
  <[c := st']> cs !! d = Some st1 ↔ (d = c ∧ st1 = st') ∨ (d ≠ c ∧ cs !! d = Some st1).
Proof.
  intros Hc. rewrite list_lookup_insert_Some. apply lookup_lt_Some in Hc. naive_solver.
Qed.

(** A task that is nowhere gets a free CPU, or leaves it. *)
Lemma place_run q y cs A c st p :
  placed q y cs A → A !! p = Some Off → cs !! c = Some st → current st = None → next st = None →
  placed q y (<[c := set_current (Some p) st]> cs) (<[p := Running (Some c)]> A).
Proof.
  intros [Hq Hy Hc Hr Hn Ha He] Hp Hst Ec En. pose proof (lookup_cpu cs c st (set_current (Some p) st)) as Hl.
  split.
  - intros x. rewrite Hq. split_key; [by rewrite Hp, !decide_False|done].
  - intros x. rewrite Hy. split_key; [by rewrite Hp, !decide_False|done].
  - intros d st1 x [[-> ->]|[Hd Hst1]]%Hl Hx; [| |done].
    + injection Hx as <-. by rewrite lookup_insert_eq.
    + pose proof (Hc _ _ _ Hst1 Hx). split_key; congruence.
  - intros x o Hx. split_key.
    + injection Hx as <-. exists c, (set_current (Some p) st). split_and!; [done|rewrite Hl by done; auto|done].
    + destruct (Hr _ _ Hx) as (d & st1 & -> & Hst1 & Hcur). exists d, st1. split_and!; [done| |done].
      apply Hl; [done|]. right. split; [|done]. intros ->. congruence.
  - intros d st1 x [[-> ->]|[Hd Hst1]]%Hl Hx; [cbn in Hx; congruence| |done].
    pose proof (Hn _ _ _ Hst1 Hx). split_key; congruence.
  - intros x o Hx. split_key; [done|]. destruct (Ha _ _ Hx) as (d & st1 & -> & Hst1 & Hcur).
    exists d, st1. split_and!; [done| |done]. apply Hl; [done|]. right. split; [|done]. intros ->. congruence.
  - intros d st1 [[-> ->]|[Hd Hst1]]%Hl; [by right|eauto|done].
Qed.

Lemma place_vacate q y cs A c st p :
  placed q y cs A → cs !! c = Some st → current st = Some p →
  placed q y (<[c := set_current None st]> cs) (<[p := Off]> A).
Proof.
  intros [Hq Hy Hc Hr Hn Ha He] Hst Ec. pose proof (lookup_cpu cs c st (set_current None st)) as Hl.
  pose proof (Hc _ _ _ Hst Ec) as Hp.
  assert (next st = None) as En by (destruct (He _ _ Hst); congruence).
  split.
  - intros x. rewrite Hq. split_key; [by rewrite Hp, !decide_False|done].
  - intros x. rewrite Hy. split_key; [by rewrite Hp, !decide_False|done].
  - intros d st1 x [[-> ->]|[Hd Hst1]]%Hl Hx; [done| |done].
    pose proof (Hc _ _ _ Hst1 Hx). split_key; congruence.
  - intros x o Hx. split_key; [done|]. destruct (Hr _ _ Hx) as (d & st1 & -> & Hst1 & Hcur).
    exists d, st1. split_and!; [done| |done]. apply Hl; [done|]. right. split; [|done]. intros ->. congruence.
  - intros d st1 x [[-> ->]|[Hd Hst1]]%Hl Hx; [cbn in Hx; congruence| |done].
    pose proof (Hn _ _ _ Hst1 Hx). split_key; congruence.
  - intros x o Hx. split_key; [done|]. destruct (Ha _ _ Hx) as (d & st1 & -> & Hst1 & Hcur).
    exists d, st1. split_and!; [done| |done]. apply Hl; [done|]. right. split; [|done]. intros ->. congruence.
  - intros d st1 [[-> ->]|[Hd Hst1]]%Hl; [by left|eauto|done].
Qed.

(** [current] and [next] have the same role, too. *)
Definition swap_cpu (st : CpuState) : CpuState :=
  {| current := next st; next := current st; agent := agent st; in_switchto := in_switchto st |}.
Definition swap_place (k : place) : place :=
  match k with Running o => Assigned o | Assigned o => Running o | _ => k end.

Lemma placed_swap_cpu q y cs A : placed q y cs A → placed q y (swap_cpu <$> cs) (swap_place <$> A).
Proof.
  intros [Hq Hy Hc Hr Hn Ha He]. split.
  - intros x. rewrite Hq, lookup_fmap. by destruct (A !! x) as [[]|].
  - intros x. rewrite Hy, lookup_fmap. by destruct (A !! x) as [[]|].
  - intros c st x (st0 & -> & Hst)%list_lookup_fmap_Some Hx. by rewrite lookup_fmap, (Hn _ _ _ Hst Hx).
  - intros x o Hx. rewrite lookup_fmap in Hx. destruct (Ha x o) as (c & st & ? & Hst & ?).
    { by destruct (A !! x) as [[]|]; simplify_eq/=. }
    exists c, (swap_cpu st). by rewrite list_lookup_fmap, Hst.
  - intros c st x (st0 & -> & Hst)%list_lookup_fmap_Some Hx. by rewrite lookup_fmap, (Hc _ _ _ Hst Hx).
  - intros x o Hx. rewrite lookup_fmap in Hx. destruct (Hr x o) as (c & st & ? & Hst & ?).
    { by destruct (A !! x) as [[]|]; simplify_eq/=. }
    exists c, (swap_cpu st). by rewrite list_lookup_fmap, Hst.
  - intros c st (st0 & -> & Hst)%list_lookup_fmap_Some. destruct (He _ _ Hst); auto.
Qed.

Lemma swap_cpu_twice cs : swap_cpu <$> (swap_cpu <$> cs) = cs.
Proof. rewrite <-list_fmap_compose. rewrite <-(list_fmap_id cs) at 2. apply list_fmap_ext. by intros ? [] _. Qed.

Lemma swap_place_twice A : swap_place <$> (swap_place <$> A) = A.
Proof. rewrite <-map_fmap_compose. rewrite <-(map_fmap_id A) at 2. apply map_fmap_ext. by intros ? [] _. Qed.

Lemma place_assign q y cs A c st p :
  placed q y cs A → A !! p = Some Off → cs !! c = Some st → current st = None → next st = None →
  placed q y (<[c := set_next (Some p) st]> cs) (<[p := Assigned (Some c)]> A).
Proof.
  intros Hpl%placed_swap_cpu Hp Hst Ec En.
  apply (place_run _ _ _ _ c (swap_cpu st) p) in Hpl;
    [|by rewrite lookup_fmap, Hp|by rewrite list_lookup_fmap, Hst|done..].
  apply placed_swap_cpu in Hpl.
  by rewrite fmap_insert, swap_place_twice, list_fmap_insert, swap_cpu_twice in Hpl.
Qed.

Lemma place_unassign q y cs A c st p :
  placed q y cs A → cs !! c = Some st → next st = Some p →
  placed q y (<[c := set_next None st]> cs) (<[p := Off]> A).
Proof.
  intros Hpl%placed_swap_cpu Hst En.
  apply (place_vacate _ _ _ _ c (swap_cpu st) p) in Hpl; [|by rewrite list_lookup_fmap, Hst|done].
  apply placed_swap_cpu in Hpl.
  by rewrite fmap_insert, swap_place_twice, list_fmap_insert, swap_cpu_twice in Hpl.
Qed.

(** Tasks come and go at [Off]. *)
Lemma place_new q y cs A p : placed q y cs A → A !! p = None → placed q y cs (<[p := Off]> A).
Proof.
  intros [Hq Hy Hc Hr Hn Ha He] Hp. split; try done.
  - intros x. rewrite Hq. split_key; [by rewrite Hp, !decide_False|done].
  - intros x. rewrite Hy. split_key; [by rewrite Hp, !decide_False|done].
  - intros c st x Hst Hx. pose proof (Hc _ _ _ Hst Hx). split_key; congruence.
  - intros x o Hx. split_key; [done|eauto].
  - intros c st x Hst Hx. pose proof (Hn _ _ _ Hst Hx). split_key; congruence.
  - intros x o Hx. split_key; [done|eauto].
Qed.

Lemma place_free q y cs A p : placed q y cs A → A !! p = Some Off → placed q y cs (delete p A).
Proof.
  intros [Hq Hy Hc Hr Hn Ha He] Hp.
  assert (∀ x k, k ≠ Off → A !! x = Some k → delete p A !! x = Some k) as Hd.
  { intros x k Hk Hx. rewrite lookup_delete_ne; [done|]. intros ->. congruence. }
  assert (∀ x k, delete p A !! x = Some k → A !! x = Some k) as Hd' by (by intros x k [_ ?]%lookup_delete_Some).
  split; try done.
  - intros x. rewrite Hq. repeat case_decide; [done|exfalso; eauto..|done].
  - intros x. rewrite Hy. repeat case_decide; [done|exfalso; eauto..|done].
  - eauto.
  - intros x o [_ Hx]%lookup_delete_Some. eauto.
  - eauto.
  - intros x o [_ Hx]%lookup_delete_Some. eauto.
Qed.

End places.
