(* ===== verification/NetSchedulerOps.v ===== *)
(** * Specifications of the scheduler's operations

    The rules of the primitives, the frame (what no operation changes), and
    for each operation a triple: which task moves where.  [E] is as in
    [StateMonad.wp]: preconditions [E ∨ P] are needed only where failed
    [CHECK]s are excluded. *)
From S2P Require Import Prelude StateMonad Ghost CgroupWatcher NetTask NetScheduler NetSchedulerInv.
Open Scope Z_scope.

Section ops.
Context `{Topology, !CpuListLaws, !Kernel, !KernelLaws}.
Implicit Types (s : NetScheduler) (p : ptr) (t : NetTask) (c : Cpu).

Definition places s : gmap ptr place := place_of <$> tasks_ s.

(** [at_ s A]: queues and CPU states hold the tasks as [A] says. *)
Definition at_ s (A : gmap ptr place) : Prop :=
  placed (run_queue_ s ++ run_queue_low_priority_ s) (yielding_tasks_ s) (cpu_states_ s) A.

(** How many tasks are queued. *)
Definition qlen s : nat := length (run_queue_ s) + length (run_queue_low_priority_ s).

(** The recorded run times are not ahead of the kernel's. *)
Definition runtimes_ok s : Prop :=
  ∀ p t, tasks_ s !! p = Some t → runtime t <= cputime (world_ s) (gtid t).

(** What all operations but the creation and the release of tasks and the
    choice of the global CPU keep. *)
Record frame s s' : Prop := {
  f_cpus : cpus_ s' = cpus_ s;
  f_home : global_home_cpu_ s' = global_home_cpu_ s;
  f_global : global_cpuid_ s' = global_cpuid_ s;
  f_enforce : enforce_affinity_mask_ s' = enforce_affinity_mask_ s;
  f_num : num_tasks_ s' = num_tasks_ s;
  f_hist : cpuhist_ s' = cpuhist_ s;
  f_gtid : gtid <$> tasks_ s' = gtid <$> tasks_ s;
  f_agent : agent <$> cpu_states_ s' = agent <$> cpu_states_ s;
  f_runtime : runtimes_ok s → runtimes_ok s';
}.

Global Instance frame_preorder : PreOrder frame.
Proof.
  split.
  - intros s. by split.
  - intros s1 s2 s3 [] []. split; try (etransitivity; eassumption); auto.
Qed.

Lemma frame_call {R} (e : event R) s r w : ask e (world_ s) = (r, w) → frame s (set_world_ w s).
Proof.
  intros Hask. split; try done. intros Hrt p t Hp. cbn in *. specialize (Hrt p t Hp).
  pose proof (cputime_mono e (gtid t) (world_ s)) as Hm. rewrite Hask in Hm. cbn in Hm. lia.
Qed.

(** One task, one CPU state changed. *)
Definition map_task p t s : NetScheduler := set_tasks_ (<[p := t]> (tasks_ s)) s.
Definition map_cpu c (st : CpuState) s : NetScheduler := set_cpu_states_ (<[c := st]> (cpu_states_ s)) s.
Definition map_count (f : counters → counters) s : NetScheduler := set_counters_ (f (counters_ s)) s.

Lemma frame_task s p t t' :
  tasks_ s !! p = Some t → gtid t' = gtid t → runtime t' = runtime t ∨ runtime t' <= cputime (world_ s) (gtid t) →
  frame s (map_task p t' s).
Proof.
  intros Hp Hg Hr. split; try done; cbn.
  - apply map_eq. intros x. rewrite fmap_insert. destruct (decide (p = x)) as [<-|].
    + by rewrite lookup_insert_eq, lookup_fmap, Hp, Hg.
    + by rewrite lookup_insert_ne.
  - intros Hrt x t1. cbn. pose proof (Hrt p t Hp). destruct (decide (p = x)) as [<-|].
    + rewrite lookup_insert_eq. intros [= <-]. rewrite Hg. lia.
    + rewrite lookup_insert_ne by done. apply Hrt.
Qed.

Lemma frame_cpu s c st st' :
  cpu_states_ s !! c = Some st → agent st' = agent st →
  frame s (map_cpu c st' s).
Proof.
  intros Hc Ha. split; try done. cbn. rewrite list_fmap_insert, Ha. apply list_insert_id.
  by rewrite list_lookup_fmap, Hc.
Qed.

(** A later world that only calls separate from an earlier one. *)
Definition asked (w w' : world) : Prop :=
  ∀ W : world → Prop, (∀ R (e : event R) v, W v → W (ask e v).2) → W w → W w'.

Global Instance asked_preorder : PreOrder asked.
Proof. split; [by intros w W|]. intros w1 w2 w3 H12 H23 W HW Hw. by apply H23, H12. Qed.

Lemma asked_call {R} (e : event R) w r w' : ask e w = (r, w') → asked w w'.
Proof. intros Hask W HW Hw. specialize (HW R e w Hw). by rewrite Hask in HW. Qed.

Lemma map_task_task p t t' s : map_task p t (map_task p t' s) = map_task p t s.
Proof. unfold map_task, set_tasks_. cbn. by rewrite insert_insert_eq. Qed.
Lemma map_cpu_cpu c st st' s : map_cpu c st (map_cpu c st' s) = map_cpu c st s.
Proof. unfold map_cpu, set_cpu_states_. cbn. by rewrite list_insert_insert_eq. Qed.

(** No call but the opening of a request disturbs a committed one. *)
Definition keeps_done s s' : Prop :=
  ∀ c, done (world_ s) c → done (world_ s') c ∧ txn (world_ s') c = txn (world_ s) c.

Global Instance keeps_done_preorder : PreOrder keeps_done.
Proof.
  split; [by intros s c|]. intros s1 s2 s3 H12 H23 c Hd.
  destruct (H12 c Hd) as [Hd2 <-]. by apply H23.
Qed.

Lemma keeps_done_call {R} (e : event R) s r w :
  ask e (world_ s) = (r, w) → (∀ c, ¬ opens e c) → keeps_done s (set_world_ w s).
Proof.
  intros Hask Ho c Hd. cbn. pose proof (done_stable e c _ Hd (Ho c)) as Hs.
  pose proof (txn_stable e c _ Hd (Ho c)) as Ht. by rewrite Hask in Hs, Ht.
Qed.

Lemma keeps_done_world s s' : world_ s' = world_ s → keeps_done s s'.
Proof. intros Hw c Hd. by rewrite Hw. Qed.

Lemma keeps_done_state s s' c r w :
  keeps_done s s' → ask (TxnState c) (world_ s') = (r, w) → done (world_ s) c → r = txn (world_ s) c.
Proof.
  intros Hk Hask Hd. destruct (Hk c Hd) as [Hd' <-]. pose proof (done_state c _ Hd') as Hs.
  by rewrite Hask in Hs.
Qed.

(** ** Rules of the primitives *)
Section rules.
Context (E : Prop).

Lemma wp_get_task p t Q s : tasks_ s !! p = Some t → Q t s → wp E (get_task p) Q s.
Proof. intros Hp HQ. apply wp_bind, wp_get. by eapply wp_expect. Qed.

Lemma wp_upd_task p t f Q s :
  tasks_ s !! p = Some t → Q tt (map_task p (f t) s) → wp E (upd_task p f) Q s.
Proof. intros Hp HQ. apply wp_bind. by eapply wp_get_task, wp_modify. Qed.

Lemma wp_cpu_state c st Q s : cpu_states_ s !! c = Some st → Q st s → wp E (cpu_state c) Q s.
Proof. intros Hc HQ. apply wp_bind, wp_get. by eapply wp_expect. Qed.

Lemma wp_upd_cpu c st f Q s :
  cpu_states_ s !! c = Some st → Q tt (map_cpu c (f st) s) →
  wp E (upd_cpu c f) Q s.
Proof. intros Hc HQ. apply wp_bind. by eapply wp_cpu_state, wp_modify. Qed.

Lemma wp_call {R} (e : event R) Q s :
  (∀ r w, ask e (world_ s) = (r, w) → Q r (set_world_ w s)) → wp E (call e) Q s.
Proof. intros HQ. unfold wp, call. cbn. destruct (ask e (world_ s)) as [r w] eqn:Hask. auto. Qed.

Lemma wp_count f Q s : Q tt (map_count f s) → wp E (count f) Q s.
Proof. done. Qed.

(** Reads of files change nothing but the world. *)
Lemma wp_GetTaskName x Q s :
  (∀ name w, frame s (set_world_ w s) → Q name (set_world_ w s)) → wp E (GetTaskName x) Q s.
Proof.
  intros HQ. apply wp_bind, wp_call. intros r w Hask. apply wp_ret, HQ. by eapply frame_call.
Qed.

End rules.
End ops.

(** Lookups of what was just stored, or of what is in the context. *)
Ltac lookup :=
  cbn; first
    [ eassumption
    | apply lookup_insert_eq
    | apply list_lookup_insert_eq; rewrite ?length_insert; by eapply lookup_lt_Some
    | rewrite lookup_insert_ne by done; lookup
    | rewrite list_lookup_insert_ne by done; lookup ].

(** A frame around a chain of updates, from the last to the first. *)
Ltac frames :=
  repeat lazymatch goal with
    | |- frame ?s ?s => reflexivity
    | H : frame ?s ?s' |- frame ?s ?s' => exact H
    | |- frame _ (map_task _ _ ?s1) =>
        transitivity s1; [|eapply frame_task; [lookup|reflexivity|left; reflexivity]]
    | |- frame _ (map_cpu _ _ ?s1) => transitivity s1; [|eapply frame_cpu; [lookup|reflexivity]]
    | |- frame _ (set_world_ _ ?s1) => transitivity s1; [|eapply frame_call; eassumption]
    | |- frame _ (map_count _ ?s1) => transitivity s1; [|by split]
    | |- frame _ (set_run_queue_ _ ?s1) => transitivity s1; [|by split]
    | |- frame _ (set_run_queue_low_priority_ _ ?s1) => transitivity s1; [|by split]
    | |- frame _ (set_yielding_tasks_ _ ?s1) => transitivity s1; [|by split]
    end.

Ltac keeps :=
  repeat lazymatch goal with
    | |- keeps_done ?s ?s => reflexivity
    | H : keeps_done ?s ?s' |- keeps_done ?s ?s' => exact H
    | |- keeps_done _ (set_world_ _ ?s1) =>
        transitivity s1; [|eapply keeps_done_call; [eassumption|intros ? []]]
    | |- keeps_done _ (map_task _ _ ?s1) => transitivity s1; [|by apply keeps_done_world]
    | |- keeps_done _ (map_cpu _ _ ?s1) => transitivity s1; [|by apply keeps_done_world]
    | |- keeps_done _ (map_count _ ?s1) => transitivity s1; [|by apply keeps_done_world]
    end.

(** Steps through primitives whose lookups are in the context. *)
Ltac sched_step :=
  wp_seq; first
    [ wp_step
    | lazymatch goal with
      | |- wp _ (get_task _) _ _ => eapply wp_get_task; [lookup|]
      | |- wp _ (upd_task _ _) _ _ => eapply wp_upd_task; [lookup|]
      | |- wp _ (cpu_state _) _ _ => eapply wp_cpu_state; [lookup|]
      | |- wp _ (upd_cpu _ _) _ _ => eapply wp_upd_cpu; [lookup|]
      | |- wp _ (call _) _ _ =>
          let r := fresh "r" in let w := fresh "w" in let Hask := fresh "Hask" in
          apply wp_call; intros r w Hask
      | |- wp _ (count _) _ _ => apply wp_count
      | |- wp _ (expect _ _) _ _ => eapply wp_expect; [first [eassumption|reflexivity]|]
      end ].

(** ** Run queues *)
Section queues.
Context `{Topology, !CpuListLaws, !Kernel, !KernelLaws} (E : Prop).
Implicit Types (s : NetScheduler) (p : ptr) (t : NetTask) (c : Cpu).

Lemma occ_push (b : bool) p q x : occ x (if b then p :: q else q ++ [p]) = occ x [p] + occ x q.
Proof. destruct b; [apply occ_cons|rewrite occ_app; lia]. Qed.

Lemma wp_Enqueue_gen p t y cs A Q s :
  tasks_ s !! p = Some t → placed (run_queue_ s ++ run_queue_low_priority_ s) y cs A → A !! p = Some Off →
  (∀ s', frame s s' → tasks_ s' = <[p := set_run_state QUEUED t]> (tasks_ s) → world_ s' = world_ s →
    yielding_tasks_ s' = yielding_tasks_ s → cpu_states_ s' = cpu_states_ s →
    placed (run_queue_ s' ++ run_queue_low_priority_ s') y cs (<[p := Queued]> A) →
    qlen s' = S (qlen s) → Q tt s') →
  wp E (Enqueue p) Q s.
Proof.
  intros Hp HA Hoff HQ. unfold Enqueue. do 2 sched_step. cbn.
  destruct (high_priority t); sched_step; (apply HQ; [frames|done..| |]).
  all: try (eapply place_enqueue; [exact HA|done|]; cbn; intros x; rewrite !occ_app, occ_push; lia).
  all: unfold qlen; cbn; destruct (prio_boost t || preempted t); rewrite ?length_app; cbn; lia.
Qed.

Lemma wp_Enqueue p t A Q s :
  tasks_ s !! p = Some t → at_ s A → A !! p = Some Off →
  (∀ s', frame s s' → tasks_ s' = <[p := set_run_state QUEUED t]> (tasks_ s) → world_ s' = world_ s →
    yielding_tasks_ s' = yielding_tasks_ s → cpu_states_ s' = cpu_states_ s →
    at_ s' (<[p := Queued]> A) → qlen s' = S (qlen s) → Q tt s') →
  wp E (Enqueue p) Q s.
Proof.
  intros Hp HA Hoff HQ. eapply wp_Enqueue_gen; [done..|]. intros s' Hf Ht Hw Hy Hc Hpl Hq.
  apply HQ; try done. unfold at_. by rewrite Hy, Hc.
Qed.

(** What [Dequeue] takes is queued, by priority. *)
Lemma wp_Dequeue A Q s :
  at_ s A →
  (run_queue_ s = [] → run_queue_low_priority_ s = [] → Q None s) →
  (∀ p s', frame s s' → A !! p = Some Queued → tasks_ s' = tasks_ s → world_ s' = world_ s →
    run_queue_ s ++ run_queue_low_priority_ s = p :: run_queue_ s' ++ run_queue_low_priority_ s' →
    yielding_tasks_ s' = yielding_tasks_ s → cpu_states_ s' = cpu_states_ s →
    at_ s' (<[p := Off]> A) → Q (Some p) s') →
  wp E Dequeue Q s.
Proof.
  intros HA HN HS. unfold Dequeue.
  assert (∀ p s', run_queue_ s ++ run_queue_low_priority_ s = p :: run_queue_ s' ++ run_queue_low_priority_ s' →
            A !! p = Some Queued) as Hqueued.
  { intros p s' Heq. pose proof (pl_queue _ _ _ _ HA p) as Hocc. rewrite Heq, occ_cons, occ_single in Hocc.
    pose proof (occ_nonneg p (run_queue_ s' ++ run_queue_low_priority_ s')).
    rewrite decide_True in Hocc by done. case_decide; [done|lia]. }
  sched_step. destruct (run_queue_ s) as [|p q] eqn:Hrq.
  - destruct (run_queue_low_priority_ s) as [|p q] eqn:Hlq; [by sched_step; auto|].
    do 2 sched_step. specialize (Hqueued p (set_run_queue_low_priority_ q s)). cbn in Hqueued. rewrite Hrq in Hqueued.
    apply HS; [frames|by apply Hqueued|done|done|cbn; by rewrite Hrq|done..|].
    eapply place_dequeue; [exact HA|by apply Hqueued|]. cbn. rewrite Hrq, Hlq. intros x. apply occ_cons.
  - do 2 sched_step. specialize (Hqueued p (set_run_queue_ q s) eq_refl).
    apply HS; [frames|done..|]. eapply place_dequeue; [exact HA|done|].
    cbn. rewrite Hrq. intros x. apply occ_cons.
Qed.

Lemma wp_Yield p t A Q s :
  tasks_ s !! p = Some t → at_ s A → A !! p = Some Off →
  run_state t ≠ PENDING → run_state t ≠ YIELDING →
  (∀ s', frame s s' → tasks_ s' = <[p := set_run_state YIELDING t]> (tasks_ s) → world_ s' = world_ s →
    run_queue_ s' = run_queue_ s → run_queue_low_priority_ s' = run_queue_low_priority_ s →
    cpu_states_ s' = cpu_states_ s → at_ s' (<[p := Yielded]> A) → Q tt s') →
  wp E (Yield p) Q s.
Proof.
  intros Hp HA Hoff Hpend Hyield HQ. unfold Yield. do 2 sched_step.
  { do 2 sched_step. apply HQ; [frames|done..|]. by apply place_yield. }
  unfold oncpu, queued, blocked in *. by destruct (run_state t).
Qed.

(** Removing the first occurrence of [p]. *)
Lemma find_erase_Some p q q' : find_erase p q = Some q' → ∀ x, occ x q = occ x [p] + occ x q'.
Proof.
  unfold find_erase. intros Hf x. destruct (list_find _ q) as [[i y]|] eqn:Hl; [|done]. cbn in Hf.
  injection Hf as <-. apply list_find_Some in Hl as (Hi & <- & _). revert i Hi.
  induction q as [|a q IH]; intros [|i] Hi; simplify_eq/=; [apply occ_cons|].
  rewrite (occ_cons x a q), (occ_cons x a (delete i q)), (IH i Hi). lia.
Qed.

Lemma find_erase_None p q : find_erase p q = None → occ p q = 0.
Proof.
  unfold find_erase. destruct (list_find _ q) as [[i y]|] eqn:Hl; [done|]. intros _.
  apply list_find_None in Hl. pose proof (occ_nonneg p q). destruct (decide (0 < occ p q)) as [Hin|]; [|lia].
  apply occ_elem_of in Hin. rewrite Forall_forall in Hl. by destruct (Hl p).
Qed.

Lemma wp_RemoveFromRunqueue p t k A Q s :
  tasks_ s !! p = Some t → at_ s A → A !! p = Some Queued → run_state t = QUEUED →
  (∀ s', frame s s' → tasks_ s' = <[p := set_run_state k t]> (tasks_ s) → world_ s' = world_ s →
    yielding_tasks_ s' = yielding_tasks_ s → cpu_states_ s' = cpu_states_ s →
    at_ s' (<[p := Off]> A) → Q tt s') →
  wp E (RemoveFromRunqueue p k) Q s.
Proof.
  intros Hp HA Hq Hst HQ. unfold RemoveFromRunqueue. do 2 sched_step.
  2:{ by unfold queued in *; rewrite Hst in *. }
  sched_step. wp_seq. pose proof (pl_queue _ _ _ _ HA p) as Hocc. rewrite decide_True, occ_app in Hocc by done.
  destruct (find_erase p (run_queue_ s)) as [q|] eqn:Hf.
  - do 2 sched_step. apply HQ; [frames|done..|]. eapply place_dequeue; [exact HA|done|].
    intros x. cbn. rewrite !occ_app, (find_erase_Some _ _ _ Hf x). lia.
  - destruct (find_erase p (run_queue_low_priority_ s)) as [q|] eqn:Hf'.
    + do 2 sched_step. apply HQ; [frames|done..|]. eapply place_dequeue; [exact HA|done|].
      intros x. cbn. rewrite !occ_app, (find_erase_Some _ _ _ Hf' x). lia.
    + apply find_erase_None in Hf, Hf'. lia.
Qed.

End queues.

(** ** Transactions and callbacks *)
Section transactions.
Context `{Topology, !CpuListLaws, !Kernel, !KernelLaws} (E : Prop).
Implicit Types (s : NetScheduler) (p : ptr) (t : NetTask) (c : Cpu).

Lemma places_Some s p k : places s !! p = Some k ↔ ∃ t, tasks_ s !! p = Some t ∧ place_of t = k.
Proof. unfold places. rewrite lookup_fmap_Some. naive_solver. Qed.

Lemma place_is s p t : tasks_ s !! p = Some t → places s !! p = Some (place_of t).
Proof. intros Hp. apply places_Some. eauto. Qed.

Lemma places_insert s s' p t : tasks_ s' = <[p := t]> (tasks_ s) → places s' = <[p := place_of t]> (places s).
Proof. unfold places. intros ->. by rewrite fmap_insert. Qed.

(** Changes of a task that keep its place. *)
Lemma places_same s p t t' :
  tasks_ s !! p = Some t → place_of t' = place_of t →
  places (map_task p t' s) = places s.
Proof.
  intros Hp Hpl. rewrite (places_insert s _ p t') by done. rewrite Hpl. apply insert_id.
  apply places_Some. eauto.
Qed.

(** What [SyncCpuState] leaves: the pending task runs or is queued again. *)
Record synced c st s (b : bool) s' : Prop := {
  sy_frame : frame s s';
  sy_at : at_ s' (places s');
  sy_done : keeps_done s s';
  sy_others d : d ≠ c → cpu_states_ s' !! d = cpu_states_ s !! d;
  sy_idle : next st = None → b = true ∧ s' = s;
  sy_cpu : ∃ st', cpu_states_ s' !! c = Some st' ∧ next st' = None ∧ in_switchto st' = in_switchto st ∧
    ∀ p, next st = Some p →
      b = true ∧ current st' = Some p ∧ places s' = <[p := Running (Some c)]> (places s) ∨
      b = false ∧ current st' = None ∧ places s' = <[p := Queued]> (places s) ∧
        (done (world_ s) c → txn (world_ s) c ≠ GHOST_TXN_COMPLETE);
  sy_current : next st = None ∨ current st = None;
}.

Lemma SyncCpuState_spec c st s :
  at_ s (places s) → cpu_states_ s !! c = Some st → next st = None ∨ E ∨ done (world_ s) c →
  wp E (SyncCpuState c) (synced c st s) s.
Proof.
  intros HA Hc Hdone. unfold SyncCpuState. sched_step. destruct (next st) as [p|] eqn:Hn.
  2:{ sched_step. split; [frames|done|reflexivity|done|done| |by left]. exists st. naive_solver. }
  assert (current st = None) as Hcur by (destruct (pl_excl _ _ _ _ HA _ _ Hc); congruence).
  pose proof (pl_next _ _ _ _ HA _ _ _ Hc Hn) as (t & Hp & Hpl)%places_Some.
  sched_step. sched_step.
  2:{ unfold queued, place_of in *. by destruct (run_state t). }
  sched_step. sched_step.
  2:{ destruct Hdone as [?|[He|Hd]]; [done|exact He|]. exfalso. apply done_committed in Hd.
      rewrite Hask in Hd. cbn in Hd. congruence. }
  sched_step. pose proof (place_unassign _ _ _ _ _ _ _ HA Hc Hn) as HA'.
  sched_step. sched_step.
  - do 6 sched_step. assert (∀ s', tasks_ s' = <[p := set_cpu (Some c) (set_prio_boost false (set_run_state ON_CPU t))]> (tasks_ s) →
      places s' = <[p := Running (Some c)]> (places s)) as Hpl'.
    { intros s' Ht. by rewrite (places_insert s s' _ _ Ht). }
    rewrite !map_task_task.
    split; [frames| |keeps| |by rewrite Hn| |by right].
    + unfold at_. rewrite Hpl' by done. cbn. rewrite list_insert_insert_eq.
      eapply (place_run _ _ _ _ c (set_next None st) p) in HA'; [|by rewrite lookup_insert_eq|lookup|done..].
      by rewrite list_insert_insert_eq, insert_insert_eq in HA'.
    + intros d Hd. cbn. by rewrite !list_lookup_insert_ne by done.
    + eexists. split; [lookup|]. split_and!; [done..|]. rewrite Hn. intros q [= <-]. left. split_and!; [done..|]. by apply Hpl'.
  - do 2 sched_step. eapply wp_bind, wp_Enqueue; [lookup|exact HA'|by rewrite lookup_insert_eq|].
    intros s1 Hf1 Ht1 Hw1 Hy1 Hc1 HA1 _. rewrite insert_insert_eq in HA1. sched_step.
    assert (places s1 = <[p := Queued]> (places s)) as Hpl1.
    { rewrite (places_insert _ _ _ _ Ht1). unfold places. cbn. by rewrite !fmap_insert, !insert_insert_eq. }
    assert (keeps_done s s1) as Hk1.
    { etransitivity; [|by apply keeps_done_world]. keeps. }
    assert (done (world_ s) c → txn (world_ s) c ≠ GHOST_TXN_COMPLETE) as Htxn.
    { intros Hd. rewrite <-(keeps_done_state s (map_cpu c (set_next None st) (set_world_ w s)) c r0 w0);
        [by rewrite bool_decide_eq_false in Heqb|keeps|done|done]. }
    assert (frame s s1) by (etransitivity; [|exact Hf1]; frames).
    sched_step; repeat sched_step;
      (split; [frames|unfold at_; change (places (map_count _ _)) with (places s1); by rewrite Hpl1|keeps| |by rewrite Hn| |by right]).
    all: try (intros d Hd; cbn; rewrite Hc1; cbn; by rewrite !list_lookup_insert_ne by done).
    all: exists (set_next None st); cbn; rewrite Hc1; split; [lookup|]; split_and!; [done..|];
      rewrite Hn; intros q [= <-]; right; split_and!; done.
Qed.

Lemma wp_UpdateTaskRuntime p t r b Q s :
  tasks_ s !! p = Some t → r <= cputime (world_ s) (gtid t) → E ∨ runtime t <= r →
  (∀ e, frame s (map_task p (set_runtimes r e t) s) → Q tt (map_task p (set_runtimes r e t) s)) →
  wp E (UpdateTaskRuntime p r b) Q s.
Proof.
  intros Hp Hr Hle HQ. unfold UpdateTaskRuntime, SetRuntime. sched_step.
  destruct (Z.ltb_spec r (runtime t)).
  - sched_step; [done|]. destruct Hle; [done|lia].
  - sched_step. apply HQ. eapply frame_task; [done..|by right].
Qed.

(** Where [cpu_state_of] finds the task. *)
Lemma wp_cpu_state_of p t Q s :
  at_ s (places s) → tasks_ s !! p = Some t → run_state t = ON_CPU ∨ run_state t = PENDING →
  (∀ c st, cpu t = Some c → cpu_states_ s !! c = Some st →
    (run_state t = ON_CPU → current st = Some p) → (run_state t = PENDING → next st = Some p) → Q c s) →
  wp E (cpu_state_of p) Q s.
Proof.
  intros HA Hp Hst HQ.
  assert (∃ c st, cpu t = Some c ∧ cpu_states_ s !! c = Some st ∧ (current st = Some p ∨ next st = Some p) ∧
    (run_state t = ON_CPU → current st = Some p) ∧ (run_state t = PENDING → next st = Some p)) as (c & st & Hcpu & Hc & Hor & H1' & H2').
  { destruct Hst as [Hst|Hst].
    - destruct (pl_running _ _ _ _ HA p (cpu t)) as (c & st & -> & ? & ?); [|naive_solver congruence].
      apply places_Some. exists t. unfold place_of. by rewrite Hst.
    - destruct (pl_assigned _ _ _ _ HA p (cpu t)) as (c & st & -> & ? & ?); [|naive_solver congruence].
      apply places_Some. exists t. unfold place_of. by rewrite Hst. }
  unfold cpu_state_of. sched_step. rewrite Hcpu. sched_step; [|done].
  sched_step. 2:{ unfold oncpu, pending in *. by destruct Hst as [Hst|Hst]; rewrite Hst in *. }
  do 2 sched_step. sched_step; [sched_step; by eapply HQ|].
  apply orb_false_iff in Hchk1 as [?%bool_decide_eq_false ?%bool_decide_eq_false]. naive_solver.
Qed.

(** A task on a CPU, or pending there, leaves it.  A pending one must have
    been started in the meantime. *)
Definition may_leave s t (r : Z) : Prop :=
  runtime t <= r ∧
  (run_state t = PENDING → ∀ c, cpu t = Some c → done (world_ s) c ∧ txn (world_ s) c = GHOST_TXN_COMPLETE).

Lemma wp_leave_cpu p t r Q s :
  at_ s (places s) → tasks_ s !! p = Some t → run_state t = ON_CPU ∨ run_state t = PENDING →
  r <= cputime (world_ s) (gtid t) → E ∨ may_leave s t r →
  (∀ s' t', frame s s' → tasks_ s' !! p = Some t' → run_state t' = ON_CPU →
    <[p := Off]> (places s') = <[p := Off]> (places s) → at_ s' (<[p := Off]> (places s)) → Q tt s') →
  wp E (leave_cpu p r) Q s.
Proof.
  intros HA Hp Hst Hr Hmay HQ. unfold leave_cpu. wp_seq.
  eapply wp_UpdateTaskRuntime; [done..|unfold may_leave in Hmay; tauto|]. intros e Hf1.
  assert (places (map_task p (set_runtimes r e t) s) = places s) as Hpl1 by by eapply places_same.
  wp_seq. eapply wp_cpu_state_of; [by rewrite Hpl1|lookup|done|]. cbn. intros c st Hcpu Hc Hcur Hnext.
  sched_step. destruct Hst as [Hst|Hst].
  - sched_step; [by unfold pending in *; cbn in *; rewrite Hst in *|].
    sched_step. eapply HQ; [frames|lookup|done| |].
    + unfold places at 1. cbn. by rewrite fmap_insert, insert_insert_eq.
    + eapply place_vacate; [exact HA|done|auto].
  - sched_step; [|by unfold pending in *; cbn in *; rewrite Hst in *].
    sched_step. sched_step; [|by rewrite bool_decide_eq_false in *; naive_solver].
    sched_step; [|destruct (pl_excl _ _ _ _ HA _ _ Hc); rewrite bool_decide_eq_false in *; naive_solver congruence].
    sched_step. wp_seq. eapply wp_mono; [eapply SyncCpuState_spec; [by rewrite Hpl1|done|]|].
    { unfold may_leave in Hmay. cbn. naive_solver. }
    intros b s2 [Hf2 HA2 _ _ _ (st2 & Hc2 & Hn2 & _ & Hcase) _]. rewrite Hpl1 in Hcase.
    destruct (Hcase p) as [(-> & Hcur2 & Hpl2)|(-> & _ & _ & Htxn)]; [auto| |].
    + sched_step; [|done]. sched_step.
      assert (places s2 !! p = Some (Running (Some c))) as (t2 & Hp2 & Ht2)%places_Some
        by (by rewrite Hpl2, lookup_insert_eq).
      assert (run_state t2 = ON_CPU) by (unfold place_of in Ht2; by destruct (run_state t2)).
      eapply HQ; [|lookup|done| |].
      * etransitivity; [exact Hf1|]. etransitivity; [exact Hf2|]. frames.
      * change (places (map_cpu _ _ s2)) with (places s2). by rewrite Hpl2, insert_insert_eq.
      * eapply place_vacate in HA2; [|done..]. by rewrite Hpl2, insert_insert_eq in HA2.
    + sched_step; [done|]. destruct Hmay as [?|[_ Hmay]]; [done|]. cbn in Htxn. naive_solver.
Qed.
End transactions.
