(* ===== verification/NetSchedulerCallbacks.v ===== *)
(** * The callbacks implement a state machine of tasks

    The invariant of the scheduler, the state machine that the messages of the
    kernel drive ([step_place]), and the triples that say that every callback
    moves its task as the state machine does, and touches no other task. *)
From S2P Require Import Prelude StateMonad Ghost CgroupWatcher NetTask NetScheduler NetSchedulerInv NetSchedulerOps.
Open Scope Z_scope.

(** The place after a message: [None] if the message does not fit, [Some None]
    if the task is released. *)
Definition step_place (m : message) (k : place) : option (option place) :=
  match m, k with
  | MSG_TASK_NEW _ runnable _, Off => Some (Some (if runnable then Queued else Off))
  | MSG_TASK_WAKEUP _, Off => Some (Some Queued)
  | MSG_TASK_DEAD, Off => Some None
  | MSG_TASK_DEPARTED _ _, _ => Some None
  | MSG_TASK_BLOCKED _ _ _, (Running _ | Assigned _) => Some (Some Off)
  | MSG_TASK_BLOCKED _ _ true, Off => Some (Some Off)
  | MSG_TASK_BLOCKED _ _ false, Queued => Some (Some Off)
  | MSG_TASK_PREEMPT _ _ _, (Running _ | Assigned _) => Some (Some Queued)
  | MSG_TASK_PREEMPT _ _ true, Off => Some (Some Queued)
  | MSG_TASK_PREEMPT _ _ false, Queued => Some (Some Queued)
  | MSG_TASK_YIELD _ _ _, (Running _ | Assigned _) => Some (Some Yielded)
  | MSG_TASK_YIELD _ _ true, Off => Some (Some Yielded)
  | MSG_TASK_YIELD _ _ false, Queued => Some (Some Queued)
  | MSG_TASK_SWITCHTO _ _, (Running _ | Assigned _ | Queued) => Some (Some Off)
  | _, _ => None
  end.

(** The run time a message reports. *)
Definition reported (m : message) : option Z :=
  match m with
  | MSG_TASK_NEW r _ _ | MSG_TASK_BLOCKED r _ _ | MSG_TASK_PREEMPT r _ _ | MSG_TASK_YIELD r _ _
  | MSG_TASK_SWITCHTO r _ => Some r
  | _ => None
  end.

(** The switchto flag a message clears ([true]) or sets ([false]), and the CPU. *)
Definition switchto_flag (m : message) (k : place) : option (Z * bool) :=
  match m, k with
  | MSG_TASK_BLOCKED _ c true, Off | MSG_TASK_PREEMPT _ c true, Off | MSG_TASK_YIELD _ c true, Off => Some (c, true)
  | MSG_TASK_DEPARTED c true, _ => Some (c, true)
  | MSG_TASK_SWITCHTO _ c, _ => Some (c, false)
  | _, _ => None
  end.

Section callbacks.
Context `{Topology, !CpuListLaws, !Kernel, !KernelLaws}.
Implicit Types (s : NetScheduler) (p : ptr) (t : NetTask) (c : Cpu).

Record inv s : Prop := {
  inv_at : at_ s (places s);
  inv_len : length (cpu_states_ s) = MAX_CPUS;
  inv_agent c : c ∈ Cpus (cpus_ s) → (agent <$> cpu_states_ s) !! c = Some (Some c);
  inv_home : global_home_cpu_ s ∈ Cpus (cpus_ s);
  inv_global : global_cpuid_ s ∈ Cpus (cpus_ s);
  inv_free p k : places s !! p = Some k →
    k ≠ Running (Some (global_cpuid_ s)) ∧ k ≠ Assigned (Some (global_cpuid_ s));
  inv_hist : length (cpuhist_ s) = kCpuHistLen;
  inv_num : num_tasks_ s = to_int (Z.of_nat (size (tasks_ s)));
  inv_runtime : runtimes_ok s;
}.

(** A place that a callback may leave a task in. *)
Definition off_cpu (k : place) : Prop := k = Off ∨ k = Queued ∨ k = Yielded.

Lemma frame_len s s' : frame s s' → length (cpu_states_ s') = length (cpu_states_ s).
Proof. intros Hf. rewrite <-(length_fmap agent), (f_agent _ _ Hf). apply length_fmap. Qed.

Lemma frame_size s s' : frame s s' → size (tasks_ s') = size (tasks_ s).
Proof. intros Hf. rewrite <-(map_size_fmap gtid), (f_gtid _ _ Hf). apply map_size_fmap. Qed.

Lemma inv_frame s s' :
  inv s → frame s s' → at_ s' (places s') →
  (∀ p k, places s' !! p = Some k → places s !! p = Some k ∨
    k ≠ Running (Some (global_cpuid_ s)) ∧ k ≠ Assigned (Some (global_cpuid_ s))) → inv s'.
Proof.
  intros [HA Hl Hag Hh Hg Hfr Hhi Hn Hr] Hf HA' Hfr'.
  split; rewrite ?(f_cpus _ _ Hf), ?(f_home _ _ Hf), ?(f_global _ _ Hf), ?(f_hist _ _ Hf), ?(f_num _ _ Hf),
    ?(f_agent _ _ Hf), ?(frame_len _ _ Hf), ?(frame_size _ _ Hf); try done.
  - intros p k Hp. destruct (Hfr' p k Hp); eauto.
  - by apply (f_runtime _ _ Hf).
Qed.

(** One task moves to a place off the CPUs. *)
Lemma inv_move s s' p k :
  inv s → frame s s' → at_ s' (<[p := k]> (places s)) → places s' = <[p := k]> (places s) → off_cpu k → inv s'.
Proof.
  intros Hi Hf HA Hpl Hk. eapply inv_frame; [done..|by rewrite Hpl|].
  intros x k' Hx. rewrite Hpl in Hx. split_key; [|by left]. right. simplify_eq.
  destruct Hk as [->|[->| ->]]; done.
Qed.

Section triples.
Context (E : Prop).

(** The switchto flag of a CPU. *)
Definition flag_ready s (f : option (Z * bool)) : Prop :=
  match f with
  | None => True
  | Some (z, b) => 0 <= z < Z.of_nat MAX_CPUS ∧ in_switchto <$> cpu_states_ s !! Z.to_nat z = Some b
  end.

Lemma wp_switchto (enter : bool) z Q s :
  at_ s (places s) → length (cpu_states_ s) = MAX_CPUS → E ∨ flag_ready s (Some (z, negb enter)) →
  (∀ s', frame s s' → tasks_ s' = tasks_ s → world_ s' = world_ s → at_ s' (places s) → Q tt s') →
  wp E (if enter then CpuEnteringSwitchto z else CpuLeavingSwitchto z) Q s.
Proof.
  intros HA Hl Hok HQ.
  assert (∀ st, cpu_states_ s !! Z.to_nat z = Some st →
            Q tt (map_cpu (Z.to_nat z) (set_in_switchto enter st) s)) as HQ'.
  { intros st Hst. apply HQ; [frames|done..|]. by eapply place_same. }
  destruct enter; cbn in Hok; cbv iota; unfold CpuEnteringSwitchto, CpuLeavingSwitchto.
  all: sched_step; [|destruct Hok; [done|lia]]; sched_step; [|destruct Hok; [done|lia]];
    destruct (lookup_lt_is_Some_2 (cpu_states_ s) (Z.to_nat z)) as [st Hst]; [lia|];
    sched_step; sched_step; [sched_step; auto|].
  all: destruct Hok as [?|[_ Hok]]; [done|]; rewrite Hst in Hok; cbn in Hok; destruct (in_switchto st); done.
Qed.

(** [result s p k s']: [p] moved to [k], and nothing else happened. *)
Record result s p k s' : Prop := {
  r_frame : frame s s';
  r_places : places s' = <[p := k]> (places s);
  r_at : at_ s' (<[p := k]> (places s));
}.

(** How a callback ends: a task that is nowhere lands in [k]; [x] is its run state. *)
Definition lands (x : run_state_t) (m : eff NetScheduler unit) p (k : place) : Prop :=
  ∀ s A t, tasks_ s !! p = Some t → run_state t = x → at_ s A → A !! p = Some Off →
    wp E m (λ _ s', frame s s' ∧ places s' = <[p := k]> (places s) ∧ at_ s' (<[p := k]> A)) s.

Lemma lands_block x p : lands x (upd_task p (set_run_state BLOCKED)) p Off.
Proof.
  intros s A t Hp _ HA Hoff. sched_step. split_and!; [frames|by apply (places_insert s _ p (set_run_state BLOCKED t))|].
  by rewrite insert_id by done.
Qed.

Lemma lands_stay p : lands BLOCKED (mret tt) p Off.
Proof.
  intros s A t Hp Hst HA Hoff. apply wp_ret. split_and!; [frames| |by rewrite insert_id].
  symmetry. apply insert_id, places_Some. exists t. unfold place_of. by rewrite Hst.
Qed.

Lemma lands_enqueue x p : lands x (Enqueue p) p Queued.
Proof.
  intros s A t Hp _ HA Hoff. eapply wp_Enqueue; [done..|]. intros s' Hf Ht _ _ _ HA' _.
  split_and!; [done| |done]. by rewrite (places_insert s _ _ _ Ht).
Qed.

Lemma lands_yield x p : x = ON_CPU ∨ x = BLOCKED → lands x (Yield p) p Yielded.
Proof.
  intros Hx s A t Hp Hst HA Hoff.
  eapply wp_Yield; [done..|rewrite Hst; by destruct Hx as [->| ->]|rewrite Hst; by destruct Hx as [->| ->]|].
  intros s' Hf Ht _ _ _ _ HA'. split_and!; [done| |done]. by rewrite (places_insert s _ _ _ Ht).
Qed.

Lemma wp_leave_cpu_then p t r m k s :
  at_ s (places s) → tasks_ s !! p = Some t → run_state t = ON_CPU ∨ run_state t = PENDING →
  r <= cputime (world_ s) (gtid t) → E ∨ may_leave s t r → lands ON_CPU m p k →
  wp E (leave_cpu p r;; m) (λ _, result s p k) s.
Proof.
  intros HA Hp Hst Hr Hmay Hm. wp_seq. eapply wp_leave_cpu; [done..|].
  intros s1 t1 Hf1 Hp1 Hst1 Hpl1 HA1. eapply wp_mono.
  { eapply Hm; [done..|by rewrite lookup_insert_eq]. }
  cbn. intros _ s2 (Hf2 & Hpl2 & HA2). rewrite insert_insert_eq in HA2. split; [by etransitivity| |done].
  rewrite Hpl2. rewrite <-(insert_insert_eq (places s1) p k Off), Hpl1. by rewrite insert_insert_eq.
Qed.

Lemma wp_leave_switchto_then p t r z m k s :
  at_ s (places s) → length (cpu_states_ s) = MAX_CPUS → tasks_ s !! p = Some t →
  run_state t = BLOCKED ∨ E → r <= cputime (world_ s) (gtid t) →
  E ∨ runtime t <= r → E ∨ flag_ready s (Some (z, true)) → lands BLOCKED m p k →
  wp E (leave_switchto p r z;; m) (λ _ s', place_of t = Off ∧ result s p k s') s.
Proof.
  intros HA Hl Hp Hst Hr Hle Hflag Hm. unfold leave_switchto. sched_step. sched_step.
  2:{ apply bool_decide_eq_false in Hchk. by destruct Hst. }
  apply bool_decide_eq_true in Hchk. wp_seq. eapply wp_UpdateTaskRuntime; [done..|]. intros e Hf1.
  assert (places (map_task p (set_runtimes r e t) s) = places s) as Hpl1 by by eapply places_same.
  assert (place_of t = Off) as Hoff by (unfold place_of; by rewrite Hchk).
  wp_seq. eapply (wp_switchto false); [by rewrite Hpl1|done|done|]. intros s2 Hf2 Ht2 Hw2 HA2. rewrite Hpl1 in HA2.
  eapply wp_mono.
  { eapply (Hm s2 _ (set_runtimes r e t)); [rewrite Ht2; lookup|done..|]. apply places_Some. eauto. }
  cbn. intros _ s3 (Hf3 & Hpl3 & HA3). split; [done|]. split; [by do 2 (etransitivity; [eassumption|])| |done].
  rewrite Hpl3. unfold places at 1. rewrite Ht2. change (place_of <$> tasks_ (map_task p ?x s)) with (places (map_task p x s)).
  by rewrite Hpl1.
Qed.

Lemma result_frame s s1 p k s' : frame s s1 → places s1 = places s → result s1 p k s' → result s p k s'.
Proof. intros Hf Hpl [Hf' Hpl' HA']. rewrite Hpl in Hpl', HA'. split; [by etransitivity|done..]. Qed.

Lemma wp_reset_submit b s p k s' :
  result s p k s' → wp E (when b (upd_task p (set_start_submit None))) (λ _, result s p k) s'.
Proof.
  intros [Hf Hpl HA]. sched_step; [|done].
  assert (places s' !! p = Some k) as (t & Hp & Ht)%places_Some by (by rewrite Hpl, lookup_insert_eq).
  sched_step. split; [etransitivity; [exact Hf|frames]|by erewrite places_same|exact HA].
Qed.

(** When a message is handled without a failing [CHECK]: it fits the place of
    the task, reports no run time below the one known, comes after the
    completion of a pending transaction, and fits the switchto flag. *)
Record accepts s t (m : message) : Prop := {
  ac_place : is_Some (step_place m (place_of t));
  ac_runtime r : reported m = Some r → runtime t <= r;
  ac_txn c : run_state t = PENDING → cpu t = Some c → done (world_ s) c ∧ txn (world_ s) c = GHOST_TXN_COMPLETE;
  ac_flag : flag_ready s (switchto_flag m (place_of t));
}.

Lemma accepts_leave s t m r : reported m = Some r → E ∨ accepts s t m → E ∨ may_leave s t r.
Proof. intros Hr [?|[]]; [by left|right]. split; eauto. Qed.

(** What a callback does: the task moves as the state machine says. *)
Definition follows s p t (m : message) s' : Prop :=
  ∃ k, step_place m (place_of t) = Some (Some k) ∧ off_cpu k ∧ result s p k s'.

Section running.
Context (s : NetScheduler) (p : ptr) (t : NetTask) (r z : Z) (sw : bool).
Hypothesis (HA : at_ s (places s)) (Hl : length (cpu_states_ s) = MAX_CPUS) (Hp : tasks_ s !! p = Some t).
Hypothesis (Hr : r <= cputime (world_ s) (gtid t)).

(** The common body of the callbacks for blocked, preempted and yielding
    tasks: [land] where the task is taken off a CPU, [land'] after a switchto
    chain, [stay] where it was already queued. *)
Definition callback_body (land land' stay : eff NetScheduler unit) t (r z : Z) (sw : bool) : eff NetScheduler unit :=
  if oncpu t || pending t then leave_cpu p r;; land
  else if sw then leave_switchto p r z;; land'
  else CHECK (queued t);; stay.

Lemma wp_callback_body m land land' stay k k' :
  E ∨ accepts s t m → reported m = Some r → lands ON_CPU land p k → lands BLOCKED land' p k →
  off_cpu k → off_cpu k' →
  (∀ o, step_place m (Running o) = Some (Some k)) → (∀ o, step_place m (Assigned o) = Some (Some k)) →
  step_place m Off = (if sw then Some (Some k) else None) →
  step_place m Queued = (if sw then None else Some (Some k')) → step_place m Yielded = None →
  (sw = true → switchto_flag m Off = Some (z, true)) →
  (run_state t = QUEUED → wp E stay (λ _, result s p k') s) →
  wp E (callback_body land land' stay t r z sw) (λ _, follows s p t m) s.
Proof.
  intros Hacc Hrep Hland Hland' Hk Hk' Hrun Hasg Hoff Hq Hy Hfl Hstay. unfold callback_body, follows.
  destruct (oncpu t || pending t) eqn:Hst.
  { assert (run_state t = ON_CPU ∨ run_state t = PENDING) as Hst'
      by (unfold oncpu, pending in Hst; rewrite orb_true_iff, !bool_decide_eq_true in Hst; done).
    eapply wp_mono; [eapply wp_leave_cpu_then; [done..|by eapply accepts_leave|done]|].
    intros ? s' Hres. exists k. split_and!; [|done..]. unfold place_of. destruct Hst' as [->| ->]; auto. }
  assert (run_state t ≠ ON_CPU ∧ run_state t ≠ PENDING) as [Hn1 Hn2]
    by (unfold oncpu, pending in Hst; rewrite orb_false_iff, !bool_decide_eq_false in Hst; done).
  destruct sw.
  - assert (E ∨ accepts s t m ∧ run_state t = BLOCKED ∧ place_of t = Off) as Hacc'.
    { destruct Hacc as [?|Hacc]; [by left|right]. split; [done|]. destruct (ac_place _ _ _ Hacc) as [x Hx].
      unfold place_of in *. destruct (run_state t); try done; congruence. }
    eapply wp_mono; [apply (wp_leave_switchto_then p t r z land' k s HA Hl Hp); [tauto|done| | |done]|].
    + destruct Hacc' as [?|[Hacc' _]]; [by left|right]. by eapply ac_runtime.
    + destruct Hacc' as [?|[Hacc' [_ Hpl]]]; [by left|right]. pose proof (ac_flag _ _ _ Hacc') as Hf.
      by rewrite Hpl, Hfl in Hf.
    + cbn. intros _ s' [Hpl Hres]. exists k. by rewrite Hpl, Hoff.
  - sched_step.
    + apply bool_decide_eq_true in Hchk. eapply wp_mono; [by apply Hstay|]. intros ? s' Hres. exists k'.
      unfold place_of. by rewrite Hchk.
    + apply bool_decide_eq_false in Hchk. destruct Hacc as [?|Hacc]; [done|].
      destruct (ac_place _ _ _ Hacc) as [x Hx]. unfold place_of in Hx. destruct (run_state t); try done; congruence.
Qed.
End running.

(** A field changes that has no part in the places. *)
Lemma follows_touch s p t t' m s' :
  tasks_ s !! p = Some t → place_of t' = place_of t → gtid t' = gtid t → runtime t' = runtime t →
  follows (map_task p t' s) p t' m s' → follows s p t m s'.
Proof.
  intros Hp Hpl Hg Hr (k & Hk & Hoff & Hres). exists k. rewrite Hpl in Hk. split_and!; [done..|].
  eapply result_frame; [apply (frame_task s p t t'); auto|by eapply places_same|done].
Qed.

Lemma wp_follows_reset b s p t m s' :
  follows s p t m s' → wp E (when b (upd_task p (set_start_submit None))) (λ _, follows s p t m) s'.
Proof.
  intros (k & Hk & Hoff & Hres). eapply wp_mono; [by eapply wp_reset_submit|]. intros ? s2 ?. by exists k.
Qed.

Lemma TaskBlocked_spec p t r z sw s :
  inv s → tasks_ s !! p = Some t → r <= cputime (world_ s) (gtid t) → E ∨ accepts s t (MSG_TASK_BLOCKED r z sw) →
  wp E (TaskBlocked p r z sw) (λ _, follows s p t (MSG_TASK_BLOCKED r z sw)) s.
Proof.
  intros Hi Hp Hr Hacc. unfold TaskBlocked. do 2 sched_step.
  set (t1 := set_prio_boost false t). set (s1 := map_task p t1 s).
  assert (places s1 = places s) as Hpl1 by by eapply places_same.
  assert (at_ s1 (places s1)) as HA1 by (rewrite Hpl1; apply Hi).
  wp_seq. eapply wp_mono.
  - cut (wp E (callback_body p (upd_task p (set_run_state BLOCKED)) (mret tt) (RemoveFromRunqueue p BLOCKED) t1 r z sw)
          (λ _, follows s1 p t1 (MSG_TASK_BLOCKED r z sw)) s1).
    { unfold callback_body. destruct (oncpu t1 || pending t1); [done|]. destruct sw; [|done]. apply wp_bind_tt. }
    eapply (wp_callback_body _ _ _ _ _ _ HA1 (inv_len _ Hi) (lookup_insert_eq _ _ _) Hr _ _ _ _ Off Off).
    all: try done; try by destruct sw.
    + destruct Hacc as [?|[]]; [by left|by right].
    + apply lands_block.
    + apply lands_stay.
    + by left.
    + by left.
    + intros Hst. eapply wp_RemoveFromRunqueue; [lookup|done| |done|].
      { apply places_Some. exists t1. split; [lookup|]. unfold place_of. by rewrite Hst. }
      intros s2 Hf2 Ht2 _ _ _ HA2. split; [done| |done]. by rewrite (places_insert s1 _ _ _ Ht2).
  - intros ? s2 Hfol. apply wp_follows_reset. by apply (follows_touch s p t t1).
Qed.

(** A task that was queued already stays so. *)
Lemma result_queued s p t : at_ s (places s) → tasks_ s !! p = Some t → run_state t = QUEUED → result s p Queued s.
Proof.
  intros HA Hp Hst. assert (<[p := Queued]> (places s) = places s) as Heq.
  { apply insert_id, places_Some. exists t. unfold place_of. by rewrite Hst. }
  split; [done|by rewrite Heq|by rewrite Heq].
Qed.

Lemma TaskPreempted_spec p t r z sw s :
  inv s → tasks_ s !! p = Some t → r <= cputime (world_ s) (gtid t) → E ∨ accepts s t (MSG_TASK_PREEMPT r z sw) →
  wp E (TaskPreempted p r z sw) (λ _, follows s p t (MSG_TASK_PREEMPT r z sw)) s.
Proof.
  intros Hi Hp Hr Hacc. unfold TaskPreempted. do 3 sched_step. rewrite map_task_task.
  set (t1 := set_prio_boost false (set_preempted true t)). set (s1 := map_task p t1 s).
  assert (places s1 = places s) as Hpl1 by by eapply places_same.
  assert (at_ s1 (places s1)) as HA1 by (rewrite Hpl1; apply Hi).
  wp_seq. eapply wp_mono.
  - cut (wp E (callback_body p (Enqueue p) (Enqueue p) (mret tt) t1 r z sw)
          (λ _, follows s1 p t1 (MSG_TASK_PREEMPT r z sw)) s1).
    { unfold callback_body. destruct (oncpu t1 || pending t1); [done|]. destruct sw; [done|]. apply wp_bind_tt. }
    eapply (wp_callback_body _ _ _ _ _ _ HA1 (inv_len _ Hi) (lookup_insert_eq _ _ _) Hr _ _ _ _ Queued Queued).
    all: try done; try by destruct sw.
    + destruct Hacc as [?|[]]; [by left|by right].
    + apply lands_enqueue.
    + apply lands_enqueue.
    + by right; left.
    + by right; left.
    + intros Hst. apply wp_ret. apply (result_queued s1 p t1); [done|lookup|done].
  - intros ? s2 Hfol. apply wp_follows_reset. by apply (follows_touch s p t t1).
Qed.

Lemma TaskYield_spec p t r z sw s :
  inv s → tasks_ s !! p = Some t → r <= cputime (world_ s) (gtid t) → E ∨ accepts s t (MSG_TASK_YIELD r z sw) →
  wp E (TaskYield p r z sw) (λ _, follows s p t (MSG_TASK_YIELD r z sw)) s.
Proof.
  intros Hi Hp Hr Hacc. unfold TaskYield. do 2 sched_step.
  set (t1 := set_prio_boost false t). set (s1 := map_task p t1 s).
  assert (places s1 = places s) as Hpl1 by by eapply places_same.
  assert (at_ s1 (places s1)) as HA1 by (rewrite Hpl1; apply Hi).
  wp_seq. eapply wp_mono.
  - cut (wp E (callback_body p (Yield p) (Yield p) (mret tt) t1 r z sw)
          (λ _, follows s1 p t1 (MSG_TASK_YIELD r z sw)) s1).
    { unfold callback_body. destruct (oncpu t1 || pending t1); [done|]. destruct sw; [done|]. apply wp_bind_tt. }
    eapply (wp_callback_body _ _ _ _ _ _ HA1 (inv_len _ Hi) (lookup_insert_eq _ _ _) Hr _ _ _ _ Yielded Queued).
    all: try done; try by destruct sw.
    + destruct Hacc as [?|[]]; [by left|by right].
    + apply lands_yield. by left.
    + apply lands_yield. by right.
    + by right; right.
    + by right; left.
    + intros Hst. apply wp_ret. apply (result_queued s1 p t1); [done|lookup|done].
  - intros ? s2 Hfol. apply wp_follows_reset. by apply (follows_touch s p t t1).
Qed.

Lemma TaskSwitchto_spec p t r z s :
  inv s → tasks_ s !! p = Some t → r <= cputime (world_ s) (gtid t) → E ∨ accepts s t (MSG_TASK_SWITCHTO r z) →
  wp E (TaskSwitchto p r z) (λ _, follows s p t (MSG_TASK_SWITCHTO r z)) s.
Proof.
  intros Hi Hp Hr Hacc. unfold TaskSwitchto. wp_seq.
  apply (wp_switchto true); [apply Hi..|destruct Hacc as [?|[]]; [by left|by right]|].
  intros s1 Hf1 Ht1 Hw1 HA1. assert (tasks_ s1 !! p = Some t) as Hp1 by by rewrite Ht1.
  do 2 sched_step. set (t2 := set_prio_boost false t). set (s2 := map_task p t2 s1).
  assert (places s2 = places s) as Hpl2 by (transitivity (places s1); [by eapply places_same|unfold places; by rewrite Ht1]).
  assert (at_ s2 (places s2)) as HA2 by (rewrite Hpl2; exact HA1).
  assert (frame s s2) as Hf2 by (transitivity s1; [done|]; by apply (frame_task s1 p t t2); auto).
  assert (E ∨ is_Some (step_place (MSG_TASK_SWITCHTO r z) (place_of t))) as Hpl by (destruct Hacc as [?|[]]; auto).
  destruct (oncpu t2 || pending t2) eqn:Hst.
  { assert (run_state t = ON_CPU ∨ run_state t = PENDING) as Hst'
      by (unfold oncpu, pending in Hst; rewrite orb_true_iff, !bool_decide_eq_true in Hst; done).
    eapply wp_mono; [apply (wp_leave_cpu_then p t2 r _ Off); [done|lookup|done|by cbn; rewrite Hw1| |apply lands_block]|].
    { destruct Hacc as [?|[? Hrt Htx ?]]; [by left|right]. split; [by apply Hrt|]. cbn. rewrite Hw1. auto. }
    intros ? s3 Hres. exists Off. split_and!; [|by left|by eapply result_frame].
    unfold place_of. by destruct Hst' as [->| ->]. }
  sched_step.
  - apply bool_decide_eq_true in Hchk. eapply wp_RemoveFromRunqueue; [lookup|done| |done|].
    { apply places_Some. exists t2. split; [lookup|]. unfold place_of. by rewrite Hchk. }
    intros s3 Hf3 Ht3 _ _ _ HA3. exists Off. split_and!; [unfold place_of; by change (run_state t) with (run_state t2); rewrite Hchk|by left|].
    eapply result_frame; [done..|]. split; [done| |done]. by rewrite (places_insert s2 _ _ _ Ht3).
  - apply bool_decide_eq_false in Hchk. destruct Hpl as [?|[x Hx]]; [done|].
    unfold oncpu, pending in Hst. rewrite orb_false_iff, !bool_decide_eq_false in Hst. cbn in Hst, Hchk.
    unfold place_of in Hx. destruct (run_state t); naive_solver.
Qed.

Lemma TaskRunnable_spec p t d s :
  inv s → tasks_ s !! p = Some t → E ∨ accepts s t (MSG_TASK_WAKEUP d) →
  wp E (TaskRunnable p d) (λ _, follows s p t (MSG_TASK_WAKEUP d)) s.
Proof.
  intros Hi Hp Hacc. unfold TaskRunnable. sched_step. sched_step.
  2:{ apply bool_decide_eq_false in Hchk. destruct Hacc as [?|[[x Hx] _ _ _]]; [done|].
      unfold place_of in Hx. by destruct (run_state t). }
  apply bool_decide_eq_true in Hchk. sched_step.
  2:{ unfold pending in *. by rewrite Hchk in *. }
  sched_step. set (t1 := set_prio_boost (negb d) t). set (s1 := map_task p t1 s).
  assert (places s1 = places s) as Hpl1 by by eapply places_same.
  assert (place_of t = Off) as Hoff by (unfold place_of; by rewrite Hchk).
  eapply wp_Enqueue; [lookup|exact (inv_at _ Hi)|apply places_Some; eauto|].
  intros s2 Hf2 Ht2 _ _ _ HA2 _. exists Queued. rewrite Hoff. split_and!; [done|by right; left|].
  apply (result_frame s s1); [by apply (frame_task s p t t1); auto|done|]. split; [done| |by rewrite Hpl1].
  by rewrite (places_insert s1 _ _ _ Ht2).
Qed.

Lemma to_int_pred n : to_int (to_int n - 1) = to_int (n - 1).
Proof. rewrite <-(Z.add_opp_r n), <-(Z.add_opp_r (to_int n)). apply to_int_add. Qed.

(** A task that is nowhere is released. *)
Lemma wp_free_task p t s :
  inv s → tasks_ s !! p = Some t → place_of t = Off →
  wp E (free_task p) (λ _ s', inv s' ∧ places s' = delete p (places s)) s.
Proof.
  intros [HA Hl Hag Hh Hg Hfr Hhi Hn Hrt] Hp Hoff. unfold free_task. do 3 sched_step.
  assert (places (set_tasks_ (delete p (tasks_ s)) s) = delete p (places s)) as Hpl by apply fmap_delete.
  split; [|done]. split; try done; cbn.
  - change (at_ (set_tasks_ (delete p (tasks_ s)) s) (places (set_tasks_ (delete p (tasks_ s)) s))).
    rewrite Hpl. apply place_free; [done|]. apply places_Some. eauto.
  - intros x k. change (places (set_tasks_ (delete p (tasks_ s)) s) !! x = Some k → k ≠ Running (Some (global_cpuid_ s)) ∧ k ≠ Assigned (Some (global_cpuid_ s))).
    rewrite Hpl. intros [_ Hx]%lookup_delete_Some. eauto.
  - rewrite Hn, to_int_pred, map_size_delete_Some by eauto.
    assert (size (tasks_ s) ≠ 0%nat) 
      by (intros Hz%map_size_empty_inv; by rewrite Hz, lookup_empty in Hp).
    f_equal. lia.
  - intros x t' Hx. cbn in Hx. apply lookup_delete_Some in Hx as [_ Hx]. cbn. eauto.
Qed.

Lemma TaskDead_spec p t s :
  inv s → tasks_ s !! p = Some t → E ∨ accepts s t MSG_TASK_DEAD →
  wp E (TaskDead p) (λ _ s', place_of t = Off ∧ inv s' ∧ places s' = delete p (places s)) s.
Proof.
  intros Hi Hp Hacc. unfold TaskDead. sched_step. sched_step.
  - apply bool_decide_eq_true in Hchk. assert (place_of t = Off) as Hoff by (unfold place_of; by rewrite Hchk).
    eapply wp_mono; [by eapply wp_free_task|]. naive_solver.
  - apply bool_decide_eq_false in Hchk. destruct Hacc as [?|[[x Hx] _ _ _]]; [done|].
    unfold place_of in Hx. by destruct (run_state t).
Qed.

Lemma TaskDeparted_spec p t z sw s :
  inv s → tasks_ s !! p = Some t → place_of t = Off → E ∨ accepts s t (MSG_TASK_DEPARTED z sw) →
  wp E (TaskDeparted p z sw) (λ _ s', inv s' ∧ places s' = delete p (places s)) s.
Proof.
  intros Hi Hp Hoff Hacc. unfold TaskDeparted. wp_seq. destruct sw; cbn [when].
  - apply (wp_switchto false); [apply Hi..|destruct Hacc as [?|[]]; [by left|by right]|].
    intros s1 Hf1 Ht1 Hw1 HA1. assert (places s1 = places s) as Hpl1 by (unfold places; by rewrite Ht1).
    eapply wp_mono; [eapply wp_free_task; [|by rewrite Ht1|done]|by rewrite Hpl1].
    eapply inv_frame; [done..|by rewrite Hpl1|]. rewrite Hpl1. auto.
  - apply wp_ret. by eapply wp_free_task.
Qed.


(** ** New tasks *)

Lemma wp_settled_upd s p k f s' Q :
  result s p k s' → (∀ t, place_of (f t) = place_of t ∧ gtid (f t) = gtid t ∧ runtime (f t) = runtime t) →
  (∀ s'', result s p k s'' → Q tt s'') → wp E (upd_task p f) Q s'.
Proof.
  intros [Hf Hpl HA] Ht HQ.
  assert (places s' !! p = Some k) as (t & Hp & Hk)%places_Some by (by rewrite Hpl, lookup_insert_eq).
  destruct (Ht t) as (H1' & H2' & H3'). sched_step. apply HQ.
  split; [|by rewrite (places_same s' p t)|exact HA].
  transitivity s'; [done|]. apply (frame_task s' p t); auto.
Qed.

Lemma wp_settled_call {R} (e : event R) s p k s' Q :
  result s p k s' → (∀ s'', result s p k s'' → Q (ask e (world_ s')).1 s'') → wp E (call e) Q s'.
Proof.
  intros [Hf Hpl HA] HQ. sched_step. rewrite Hask in HQ. apply HQ. split; [|done..]. transitivity s'; [done|frames].
Qed.

(** The loop that adds the CPUs of the affinity mask. *)
Lemma wp_allow s p k (allowed : gset Cpu) cpus s' Q :
  result s p k s' →
  (∀ s'' t, result s p k s'' → tasks_ s'' !! p = Some t →
    (∀ c, c ∈ cpus → c ∈ allowed → IsSet (allowed_cpulist t) c = true) → Q tt s'') →
  wp E (for_each (λ c _, when (bool_decide (c ∈ allowed))
    (upd_task p (λ t, set_allowed_cpulist (SetCpu (allowed_cpulist t) c) t))) cpus tt) Q s'.
Proof.
  intros Hres HQ. apply (wp_for_each E _ (λ l _ s1, result s p k s1 ∧ ∃ pre t, cpus = pre ++ l ∧ tasks_ s1 !! p = Some t ∧
    ∀ c, c ∈ pre → c ∈ allowed → IsSet (allowed_cpulist t) c = true)).
  - split; [done|]. assert (places s' !! p = Some k) as (t & Hp & _)%places_Some
      by (by rewrite (r_places _ _ _ _ Hres), lookup_insert_eq).
    exists [], t. split_and!; [done..|]. by intros c Hc%elem_of_nil.
  - intros c l [] s1 ([Hf Hpl HA] & pre & t & -> & Hp & Hall). wp_step.
    + sched_step. split.
      * split; [|by rewrite (places_same s1 p t)|exact HA]. transitivity s1; [done|]. apply (frame_task s1 p t); auto.
      * eexists (pre ++ [c]), _. split_and!; [by rewrite <-app_assoc|lookup|].
        intros d [Hd|Hd%list_elem_of_singleton]%elem_of_app Hda; cbn; rewrite IsSet_Set; [by rewrite Hall, orb_true_r|].
        by rewrite bool_decide_eq_true_2.
    + apply bool_decide_eq_false in Hwhen. split; [done|]. exists (pre ++ [c]), t. split_and!; [by rewrite <-app_assoc|done|].
      intros d [Hd|Hd%list_elem_of_singleton]%elem_of_app Hda; [auto|]. by subst d.
  - intros [] s1 (Hr1 & pre & t & -> & Hp & Hall). rewrite app_nil_r in HQ. by apply (HQ s1 t).
Qed.

Lemma wp_AdjustTaskPriority s p k s' Q :
  result s p k s' → (∀ s'', result s p k s'' → Q tt s'') → wp E (AdjustTaskPriority p) Q s'.
Proof.
  intros Hres HQ. unfold AdjustTaskPriority, GetTaskName.
  assert (places s' !! p = Some k) as (t & Hp & Hk)%places_Some by (by rewrite (r_places _ _ _ _ Hres), lookup_insert_eq).
  sched_step. wp_seq. eapply wp_settled_call; [done|]. intros s1 Hres1. sched_step.
  wp_seq. eapply wp_settled_upd; [done|done|]. intros s2 Hres2. sched_step; [|by apply HQ].
  eapply wp_settled_upd; [done|done|]. auto.
Qed.

End triples.

(** The answer of [sched_getaffinity] that the callback for a new task accepts:
    a mask that fits and has a CPU of the enclave. *)
Definition mask_fits (cpus : CpuList) (affinity : option (gset Cpu)) : Prop :=
  match affinity with
  | Some allowed => (size allowed <= MAX_CPUS)%nat ∧ ∃ c, c ∈ Cpus cpus ∧ c ∈ allowed
  | None => False
  end.

(** The allocation and the callback for a new task: it is queued if it is
    runnable, and the invariant holds again. *)
Lemma TaskNew_spec E p g garbage r runnable n s :
  inv s → tasks_ s !! p = None → 0 <= r <= cputime (world_ s) g →
  (∀ w, ¬ mask_fits (cpus_ s) (ask (sched_getaffinity (tid g)) w).1 → E) →
  wp E (TaskNew p r runnable n)
    (λ _ s', inv s' ∧ places s' = <[p := if runnable then Queued else Off]> (places s))
    (map_task p (new_task g garbage) s).
Proof.
  intros Hi Hp Hr HE. set (s0 := map_task p (new_task g garbage) s).
  assert (places s0 = <[p := Off]> (places s)) as Hpl0 by (unfold places; cbn; by rewrite fmap_insert).
  assert (at_ s0 (places s0)) as HA0.
  { rewrite Hpl0. apply place_new; [apply Hi|]. unfold places. by rewrite lookup_fmap, Hp. }
  assert (runtimes_ok s0) as Hrt0.
  { intros x t Hx. cbn in Hx. split_key; [injection Hx as <-; cbn; lia|]. exact (inv_runtime _ Hi x t Hx). }
  unfold TaskNew. wp_seq. apply (wp_UpdateTaskRuntime E p (new_task g garbage)); [lookup|cbn; lia|right; cbn; lia|].
  intros e Hf1. fold s0 in Hf1. do 2 sched_step. rewrite !map_task_task. fold s0.
  set (t1 := set_run_state BLOCKED _).
  set (s1 := map_task p t1 s0).
  assert (frame s0 s1) as Hf1' by (apply (frame_task s0 p (new_task g garbage)); [lookup|done|right; cbn; lia]).
  assert (places s1 = places s0) as Hpl1 by (apply (places_same s0 p (new_task g garbage)); [lookup|done]).
  set (k := if runnable then Queued else Off). wp_seq.
  assert (wp E (when runnable (Enqueue p)) (λ _, result s0 p k) s1) as Hwhen.
  { destruct runnable; cbn [when].
    - apply (wp_Enqueue E p t1 (places s0)); [lookup|exact HA0|rewrite Hpl0; by rewrite lookup_insert_eq|].
      intros s2 Hf2 Ht2 _ _ _ HA2 _. apply (result_frame s0 s1); [done..|]. split; [done| |by rewrite Hpl1].
      by rewrite (places_insert s1 _ _ _ Ht2).
    - apply wp_ret. split; [done|by rewrite Hpl1, Hpl0, insert_insert_eq|]. rewrite Hpl0, insert_insert_eq.
      by rewrite Hpl0 in HA0. }
  eapply wp_mono; [exact Hwhen|]. intros ? s2 Hres2.
  assert (places s2 !! p = Some k) as (t2 & Hp2 & _)%places_Some by (by rewrite (r_places _ _ _ _ Hres2), lookup_insert_eq).
  assert (gtid t2 = g ∧ cpus_ s2 = cpus_ s) as [Hg2 Hc2].
  { split; [|exact (f_cpus _ _ (r_frame _ _ _ _ Hres2))]. pose proof (f_gtid _ _ (r_frame _ _ _ _ Hres2)) as Hg.
    apply (f_equal (.!! p)) in Hg. rewrite !lookup_fmap, Hp2 in Hg. cbn in Hg. rewrite lookup_insert_eq in Hg. by injection Hg. }
  sched_step. rewrite Hg2. wp_seq. eapply wp_settled_call; [exact Hres2|]. intros s3 Hres3. specialize (HE (world_ s2)).
  destruct (ask (sched_getaffinity (tid g)) (world_ s2)).1 as [allowed|]; cbn [is_some default from_option mask_fits] in *.
  2:{ wp_step; [done|]. apply HE. intros []. }
  wp_step; [|done]. wp_step; [|apply bool_decide_eq_false in Hchk0; apply HE; by intros []].
  sched_step. wp_seq. eapply wp_allow; [exact Hres3|]. intros s4 t4 Hres4 Hp4 Hall.
  rewrite (f_cpus _ _ (r_frame _ _ _ _ Hres3)) in Hall. change (cpus_ s0) with (cpus_ s) in Hall.
  sched_step. wp_step.
  2:{ apply HE. intros (_ & c & Hc & Hca). specialize (Hall c Hc Hca). apply negb_false_iff in Hchk1. rewrite Empty_Cpus in Hchk1.
      apply bool_decide_eq_true in Hchk1. apply elem_Cpus in Hall. rewrite Hchk1 in Hall. by apply elem_of_nil in Hall. }
  wp_seq. eapply wp_AdjustTaskPriority; [exact Hres4|]. intros s5 [Hf5 Hpl5 HA5].
  sched_step. rewrite Hpl0, insert_insert_eq in Hpl5, HA5. split; [|done].
  destruct Hi as [HA Hl Hag Hh Hg Hfr Hhi Hn Hrt]. split; cbn;
    rewrite ?(f_cpus _ _ Hf5), ?(f_home _ _ Hf5), ?(f_global _ _ Hf5), ?(f_hist _ _ Hf5), ?(f_num _ _ Hf5),
      ?(f_agent _ _ Hf5), ?(frame_len _ _ Hf5), ?(frame_size _ _ Hf5); try done.
  - change (at_ s5 (places s5)). by rewrite Hpl5.
  - change (∀ p0 k0, places s5 !! p0 = Some k0 → k0 ≠ Running (Some (global_cpuid_ s)) ∧ k0 ≠ Assigned (Some (global_cpuid_ s))).
    rewrite Hpl5. intros x k' Hx. split_key; [|eauto]. injection Hx as <-. subst k. by destruct runnable.
  - cbn. rewrite Hn, map_size_insert_None by done. unfold incr. rewrite to_int_add. f_equal. lia.
  - by apply (f_runtime _ _ Hf5).
Qed.

(** The run queues in which a new task is, and the priority it has at the end:
    [queues] is a state with the run queues of [s'], [p] a task of thread [g]. *)
Definition queued_as (queues : NetScheduler) p (g : Gtid) s' : Prop :=
  run_queue_ s' = run_queue_ queues ∧ run_queue_low_priority_ s' = run_queue_low_priority_ queues ∧
  ∃ t, tasks_ s' !! p = Some t ∧ gtid t = g.

Lemma wp_AdjustTaskPriority_queue queues p g Q s :
  queued_as queues p g s →
  (∀ s' t, queued_as queues p g s' → tasks_ s' !! p = Some t →
    (∃ w, high_priority t = StrContains (default "" (ask (ReadFile ("/proc/" +:+ pretty (tid g) +:+ "/comm")) w).1) "EngineThread") →
    Q tt s') →
  wp True (AdjustTaskPriority p) Q s.
Proof.
  intros (Hq & Hl & t & Hp & Hg) HQ. unfold AdjustTaskPriority, GetTaskName. do 4 sched_step.
  assert (r = (ask (ReadFile ("/proc/" +:+ pretty (tid g) +:+ "/comm")) (world_ s)).1) as ->.
  { rewrite <-Hg. cbn in Hask. by rewrite Hask. }
  unfold when. destruct (StrContains _ _) eqn:Hc; cbn [negb]; sched_step; (eapply HQ; [|lookup|exists (world_ s); by rewrite Hc]);
    (split_and!; [done..|]; eexists; split; [lookup|done]).
Qed.

Lemma TaskNew_queue p g (garbage : bool) r n s :
  wp True (TaskNew p r true n) (λ _ s',
    run_queue_ s' = run_queue_ s ++ (if garbage then [p] else []) ∧
    run_queue_low_priority_ s' = run_queue_low_priority_ s ++ (if garbage then [] else [p]) ∧
    ∃ t w, tasks_ s' !! p = Some t ∧
      high_priority t = StrContains (default "" (ask (ReadFile ("/proc/" +:+ pretty (tid g) +:+ "/comm")) w).1) "EngineThread")
    (map_task p (new_task g garbage) s).
Proof.
  unfold TaskNew, UpdateTaskRuntime, SetRuntime. wp_seq. sched_step. destruct (r <? _); cbv iota; [by sched_step|].
  do 3 sched_step. rewrite !map_task_task.
  set (queues := set_run_queue_ (run_queue_ s ++ (if garbage then [p] else []))
    (set_run_queue_low_priority_ (run_queue_low_priority_ s ++ (if garbage then [] else [p])) s)).
  wp_seq. apply (wp_mono _ _ (λ _, queued_as queues p g)).
  { unfold when, Enqueue. do 2 sched_step. cbn. destruct garbage; sched_step;
      (split_and!; [subst queues; cbn; by rewrite ?app_nil_r..|]; eexists; split; [lookup|done]). }
  intros ? s2 (Hq2 & Hl2 & t2 & Hp2 & Hg2). do 2 sched_step. sched_step; [|done]. sched_step; [|done]. sched_step. wp_seq.
  apply (wp_for_each True _ (λ _ _, queued_as queues p g)).
  { split_and!; [done..|]. eauto. }
  { intros c l [] s4 (Hq4 & Hl4 & t4 & Hp4 & Hg4). sched_step; [|by split_and!; eauto]. sched_step.
    split_and!; [done..|]. eexists. split; [lookup|done]. }
  intros [] s4 (Hq4 & Hl4 & t4 & Hp4 & Hg4). sched_step. sched_step; [|done].
  wp_seq. eapply (wp_AdjustTaskPriority_queue queues p g); [by split_and!; eauto|].
  intros s5 t5 (Hq5 & Hl5 & _) Hp5 (w5 & Hhigh). sched_step. split_and!; [done..|]. by exists t5, w5.
Qed.

End callbacks.
