(* ===== verification/NetSchedulerRound.v ===== *)
(** * The scheduling round and the move of the global agent

    Started in a state with the invariant, [GlobalSchedule] and
    [PickNextGlobalCPU] return, with the invariant: no pointer dangles and no
    [CHECK] fails, except when the kernel refuses to take the running task off the
    new global CPU. *)
From S2P Require Import Prelude StateMonad Ghost CgroupWatcher NetTask NetScheduler NetSchedulerInv NetSchedulerOps.
From S2P Require Import NetSchedulerCallbacks.
Open Scope Z_scope.

Section round.
Context `{Topology, !CpuListLaws, !Kernel, !KernelLaws} (E : Prop).
Implicit Types (s : NetScheduler) (p n : ptr) (t : NetTask) (c : Cpu).

Lemma inv_cpu s c : inv s → c ∈ Cpus (cpus_ s) → ∃ st, cpu_states_ s !! c = Some st ∧ agent st = Some c.
Proof.
  intros Hi Hc. pose proof (inv_agent _ Hi c Hc) as Ha. rewrite list_lookup_fmap in Ha.
  destruct (cpu_states_ s !! c) as [st|] eqn:Hst; [|done]. injection Ha as Ha. eauto.
Qed.

Lemma inv_call {R} (e : event R) s r w : inv s → ask e (world_ s) = (r, w) → inv (set_world_ w s).
Proof. intros Hi Hask. eapply inv_frame; [done|frames|apply Hi|by left]. Qed.

Lemma wp_Available_agent c st Q s :
  cpu_states_ s !! c = Some st → agent st = Some c →
  (∀ b w, ask (CpuAvail c) (world_ s) = (b, w) → Q b (set_world_ w s)) → wp E (Available c) Q s.
Proof. intros Hst Ha HQ. unfold Available. do 3 sched_step. auto. Qed.

Lemma wp_Available c Q s :
  inv s → c ∈ Cpus (cpus_ s) →
  (∀ b w, ask (CpuAvail c) (world_ s) = (b, w) → Q b (set_world_ w s)) → wp E (Available c) Q s.
Proof. intros Hi Hc HQ. destruct (inv_cpu s c Hi Hc) as (st & Hst & Ha). by eapply wp_Available_agent. Qed.

(** A synchronisation keeps the invariant: a pending task was not assigned to
    the global agent's CPU. *)
Lemma synced_inv c st s b s' : inv s → cpu_states_ s !! c = Some st → synced c st s b s' → inv s'.
Proof.
  intros Hi Hc Hs. destruct (next st) as [p|] eqn:Hn.
  2:{ by destruct (sy_idle _ _ _ _ _ Hs Hn) as [_ ->]. }
  assert (places s !! p = Some (Assigned (Some c))) as Hp by (by eapply pl_next; [apply Hi|..]).
  destruct (inv_free _ Hi _ _ Hp) as [_ Hg].
  eapply inv_frame; [done|apply Hs|apply Hs|]. intros x k Hx.
  destruct (sy_cpu _ _ _ _ _ Hs) as (st' & _ & _ & _ & Hcase).
  destruct (Hcase p Hn) as [(_ & _ & Hpl)|(_ & _ & Hpl & _)]; rewrite Hpl in Hx.
  - split_key; [|by left]. right. injection Hx as <-. split; congruence.
  - split_key; [|by left]. right. by injection Hx as <-.
Qed.

(** ** Replacing a running task *)

(** The kernel does not commit a transaction that was opened on [c]. *)
Definition turned_down c (w : world) : Prop := ∃ v, asked w v ∧ (ask (Commit c) v).1 = false.

Lemma wp_PreemptTask_replace prev n tp tn c st a Q s :
  tasks_ s !! prev = Some tp → run_state tp = ON_CPU → cpu tp = Some c →
  tasks_ s !! n = Some tn → run_state tn = QUEUED → cpu_states_ s !! c = Some st → runtimes_ok s →
  (∀ w, frame s (set_world_ w s) → turned_down c (world_ s) → Q false (set_world_ w s)) →
  (∀ s' tp', frame s s' →
    tasks_ s' = <[prev := tp']> (<[n := set_cpu (Some c) (set_run_state ON_CPU tn)]> (tasks_ s)) →
    cpu_states_ s' = <[c := set_current (Some n) st]> (cpu_states_ s) →
    run_queue_ s' = run_queue_ s → run_queue_low_priority_ s' = run_queue_low_priority_ s →
    yielding_tasks_ s' = yielding_tasks_ s → Q true s') →
  wp E (PreemptTask (Some prev) (Some n) a) Q s.
Proof.
  intros Hp Hrs Hcpu Hn Hrn Hst Hrt HQf HQt. unfold PreemptTask. sched_step; [|done]. do 2 sched_step.
  sched_step; [|by unfold pending in *; rewrite Hrs in *]. sched_step; [|by unfold oncpu in *; rewrite Hrs in *].
  assert (prev ≠ n) as Hne by congruence.
  wp_seq. rewrite decide_False by congruence. sched_step. sched_step; [|by unfold oncpu in *; rewrite Hrn in *].
  do 4 sched_step. destruct r0; cbn [negb]; cbv iota.
  2:{ sched_step. apply (HQf w0); [change (frame s (set_world_ w0 (set_world_ w s))); frames|].
      exists w. split; [by eapply asked_call|]. cbn in Hask0. by rewrite Hask0. }
  do 3 sched_step. rewrite map_task_task. set (s4 := map_task n _ _). wp_seq. unfold UpdateRuntime.
  do 2 sched_step.
  assert (frame s s4) as Hf4 by (subst s4; frames).
  assert (runtimes_ok s4) as Hrt4 by by apply (f_runtime _ _ Hf4).
  assert (tasks_ s4 !! prev = Some tp) as Hp4 by (subst s4; lookup).
  pose proof (ask_runtime (gtid tp) (world_ s4)) as Hr. rewrite Hask1 in Hr. cbn in Hr.
  pose proof (Hrt4 prev tp Hp4) as Hle.
  eapply wp_UpdateTaskRuntime; [exact Hp4|exact (proj2 Hr)|right; exact (Z.le_trans _ _ _ Hle (proj1 Hr))|].
  intros e Hf5. sched_step. eapply HQt; [|by subst s4..].
  transitivity s4; [done|]. transitivity (set_world_ w1 s4); [frames|done].
Qed.

(** What is left of the code after the preemption does not move tasks. *)
Lemma wp_replace_end n t A s s' :
  frame s s' → tasks_ s' !! n = Some t → at_ s' A → places s' = A →
  wp E (now ← call MonotonicNow; upd_task n (set_start_submit (Some now));; count count_txn)
    (λ _ s'', frame s s'' ∧ at_ s'' A ∧ places s'' = A ∧ cpu_states_ s'' = cpu_states_ s' ∧ qlen s'' = qlen s') s'.
Proof.
  intros Hf Hn HA Hpl. do 3 sched_step. split_and!; [|exact HA| |done..].
  - transitivity s'; [done|frames].
  - rewrite <-Hpl. by apply (places_same (set_world_ w s') n t).
Qed.

(** The map of places after two tasks moved. *)
Ltac two_places :=
  unfold places; cbn; rewrite ?fmap_insert; apply map_eq; intros ?;
  rewrite ?lookup_insert; repeat case_decide; subst; (done || congruence).

(** The part of [ReplaceExistingTask] after the preemption. *)
Definition after_preempt (c : Cpu) prev n (in_sync : bool) : eff NetScheduler unit :=
  upd_task prev (set_preempted false);;
  upd_task prev (set_prio_boost true);;
  Enqueue prev;;
  (if in_sync then
     upd_task n (set_prio_boost false);;
     upd_task n (set_preempted false);;
     upd_cpu c (set_next None)
   else
     upd_cpu c (set_current None);;
     Yield n);;
  now ← call MonotonicNow;
  upd_task n (set_start_submit (Some now));;
  count count_txn.

(** What a replacement leaves: the task that ran is queued, the other one runs
    or waits for the next round. *)
Definition replaced c n s s' : Prop :=
  frame s s' ∧ at_ s' (places s') ∧ qlen s' = S (qlen s) ∧
  (∀ d, d ≠ c → cpu_states_ s' !! d = cpu_states_ s !! d) ∧
  ∃ prev k, places s !! prev = Some (Running (Some c)) ∧ (k = Running (Some c) ∨ k = Yielded ∧ turned_down c (world_ s)) ∧
    places s' = <[n := k]> (<[prev := Queued]> (places s)).

(** [n] is to replace [prev] on [c]: neither is in the queues, and [c] is vacant. *)
Definition vacated c prev n st s : Prop :=
  prev ≠ n ∧ cpu_states_ s !! c = Some st ∧ next st = None ∧ places s !! prev = Some (Running (Some c)) ∧
  placed (run_queue_ s ++ run_queue_low_priority_ s) (yielding_tasks_ s) (<[c := set_current None st]> (cpu_states_ s))
    (<[prev := Off]> (<[n := Off]> (places s))).

Lemma wp_replace_failed c prev n tn st w s :
  vacated c prev n st s → tasks_ s !! n = Some tn → run_state tn = QUEUED → frame s (set_world_ w s) → turned_down c (world_ s) →
  wp E (after_preempt c prev n false) (λ _, replaced c n s) (set_world_ w s).
Proof.
  intros (Hne & Hst & Hnx & Hrun & HA1) Hn Hrn Hfw Htd. pose proof Hrun as (tp & Hp & _)%places_Some. unfold after_preempt.
  do 2 sched_step. rewrite map_task_task. wp_seq.
  eapply wp_Enqueue_gen; [lookup|exact HA1|by rewrite lookup_insert_eq|].
  intros s1 Hf1 Ht1 _ Hy1 Hc1 HA2 Hq1. cbn in Hc1, Ht1, Hq1, Hy1. rewrite insert_insert_eq in Ht1.
  rewrite insert_insert_eq, (insert_insert_ne _ prev n) in HA2 by done.
  assert (frame s s1) as Hf1' by (etransitivity; [|exact Hf1]; transitivity (set_world_ w s); [done|frames]).
  assert (cpu_states_ s1 !! c = Some st) as Hst1 by by rewrite Hc1. sched_step.
  assert (tasks_ s1 !! n = Some tn) as Hn1 by (rewrite Ht1; lookup).
  wp_seq. eapply (wp_Yield E n tn (<[n := Off]> (<[prev := Queued]> (places s)))).
  { done. } { unfold at_. cbn. by rewrite Hc1, Hy1. }
  { by rewrite lookup_insert_eq. } { by rewrite Hrn. } { by rewrite Hrn. }
  intros s2 Hf2 Ht2 _ Hq2 Hl2 Hc2 HA3. rewrite insert_insert_eq in HA3.
  eapply wp_mono; [eapply wp_replace_end; [|rewrite Ht2; lookup|exact HA3|]|].
  - transitivity s1; [done|]. transitivity (map_cpu c (set_current None st) s1); [|done].
    eapply frame_cpu; [by rewrite Hc1|done].
  - unfold places. rewrite Ht2. cbn. rewrite Ht1. two_places.
  - intros ? s3 (Hf3 & HA4 & Hpl3 & Hc3 & Hq3). unfold replaced. rewrite Hpl3. split_and!; [done..| | |].
    + rewrite Hq3. unfold qlen. rewrite Hq2, Hl2. exact Hq1.
    + intros d Hd. rewrite Hc3, Hc2. cbn. rewrite Hc1. by rewrite list_lookup_insert_ne.
    + exists prev, Yielded. auto.
Qed.

Lemma wp_replace_done c prev n tn tp1 st s s1 :
  vacated c prev n st s → frame s s1 →
  tasks_ s1 = <[prev := tp1]> (<[n := set_cpu (Some c) (set_run_state ON_CPU tn)]> (tasks_ s)) →
  cpu_states_ s1 = <[c := set_current (Some n) st]> (cpu_states_ s) →
  run_queue_ s1 = run_queue_ s → run_queue_low_priority_ s1 = run_queue_low_priority_ s →
  yielding_tasks_ s1 = yielding_tasks_ s →
  wp E (after_preempt c prev n true) (λ _, replaced c n s) s1.
Proof.
  intros (Hne & Hst & Hnx & Hrun & HA1) Hf1 Ht1 Hc1 Hq1 Hl1 Hy1. unfold after_preempt.
  assert (tasks_ s1 !! prev = Some tp1) as Hp1 by (rewrite Ht1; lookup).
  do 2 sched_step. rewrite map_task_task. wp_seq.
  assert (placed (run_queue_ s1 ++ run_queue_low_priority_ s1) (yielding_tasks_ s1) (cpu_states_ s1)
            (<[n := Running (Some c)]> (<[prev := Off]> (places s)))) as HA2.
  { rewrite Hq1, Hl1, Hy1, Hc1. apply (place_run _ _ _ _ c (set_current None st) n) in HA1; [|..|done|done].
    - by rewrite list_insert_insert_eq, (insert_insert_ne _ prev n), insert_insert_eq in HA1 by done.
    - by rewrite lookup_insert_ne, lookup_insert_eq by done.
    - by apply list_lookup_insert_eq, (lookup_lt_Some _ _ _ Hst). }
  eapply wp_Enqueue; [lookup|exact HA2|by rewrite lookup_insert_ne, lookup_insert_eq by done|].
  intros s2 Hf2 Ht2 _ _ Hc2 HA3 Hq2. cbn in Hc2, Ht2, Hq2. rewrite Ht1, !insert_insert_eq in Ht2.
  rewrite (insert_insert_ne _ prev n), insert_insert_eq in HA3 by done.
  assert (tasks_ s2 !! n = Some (set_cpu (Some c) (set_run_state ON_CPU tn))) as Hn2 by (rewrite Ht2; lookup).
  assert (cpu_states_ s2 !! c = Some (set_current (Some n) st)) as Hc2'
    by (rewrite Hc2, Hc1; by apply list_lookup_insert_eq, (lookup_lt_Some _ _ _ Hst)).
  do 3 sched_step. rewrite map_task_task.
  eapply wp_mono; [eapply wp_replace_end; [|lookup| |]|].
  - transitivity s1; [done|]. transitivity s2; [etransitivity; [|exact Hf2]|]; frames.
  - eapply place_same; [exact HA3|exact Hc2'|done|done].
  - unfold places. cbn. rewrite Ht2. two_places.
  - intros ? s3 (Hf3 & HA4 & Hpl3 & Hc3 & Hq3). unfold replaced. rewrite Hpl3. split_and!; [done..| | |].
    + rewrite Hq3. unfold qlen in *. cbn. rewrite Hq1, Hl1 in Hq2. exact Hq2.
    + intros d Hd. rewrite Hc3. cbn. rewrite Hc2, Hc1. by rewrite !list_lookup_insert_ne by done.
    + exists prev, (Running (Some c)). auto.
Qed.

Lemma ReplaceExistingTask_spec c n tn st s :
  at_ s (<[n := Off]> (places s)) → tasks_ s !! n = Some tn → run_state tn = QUEUED →
  cpu_states_ s !! c = Some st → is_Some (current st) → runtimes_ok s →
  wp E (ReplaceExistingTask c n) (λ _, replaced c n s) s.
Proof.
  intros HA Hn Hrn Hst [prev Hcur] Hrt. unfold ReplaceExistingTask. sched_step. wp_seq. rewrite Hcur.
  pose proof (pl_current _ _ _ _ HA _ _ _ Hst Hcur) as Hprev.
  assert (prev ≠ n) as Hne by (intros ->; rewrite lookup_insert_eq in Hprev; done).
  rewrite lookup_insert_ne in Hprev by done. apply places_Some in Hprev as (tp & Hp & Htp).
  assert (run_state tp = ON_CPU ∧ cpu tp = Some c) as [Hrp Hcp]
    by (unfold place_of in Htp; destruct (run_state tp); simplify_eq; done).
  assert (vacated c prev n st s) as Hvac.
  { split_and!; [done..| |by rewrite (place_is s prev tp Hp), Htp|].
    - destruct (pl_excl _ _ _ _ HA _ _ Hst); congruence.
    - exact (place_vacate _ _ _ _ _ _ _ HA Hst Hcur). }
  eapply wp_PreemptTask_replace; [done..| |].
  - intros w Hfw Htd. sched_step. by eapply wp_replace_failed.
  - intros s1 tp1 Hf1 Ht1 Hc1 Hq1 Hl1 Hy1. sched_step. by eapply wp_replace_done.
Qed.

(** ** The available CPUs *)

(** What the round knows of the CPUs it collected: available ones have no
    task, replaceable ones have one, and neither is the global agent's. *)
Definition usable s c (P : CpuState → Prop) : Prop :=
  c ∈ Cpus (cpus_ s) ∧ c ≠ global_cpuid_ s ∧ ∃ st, cpu_states_ s !! c = Some st ∧ P st.

Record round_ok s (r : round) : Prop := {
  ro_avail c : IsSet (avail_cpus r) c = true → usable s c (λ st, current st = None ∧ next st = None);
  ro_low c : IsSet (avail_cpus_low_priority r) c = true → usable s c (λ st, is_Some (current st));
}.

Lemma usable_frame s s' c P :
  frame s s' → cpu_states_ s' !! c = cpu_states_ s !! c → usable s c P → usable s' c P.
Proof. intros Hf Hc. unfold usable. by rewrite (f_cpus _ _ Hf), (f_global _ _ Hf), Hc. Qed.

Lemma round_ok_frame s s' r : frame s s' → cpu_states_ s' = cpu_states_ s → round_ok s r → round_ok s' r.
Proof. intros Hf Hc [Ha Hl]. split; intros c Hset; (eapply usable_frame; [done|by rewrite Hc|auto]). Qed.

Lemma round_ok_empty s : round_ok s empty_round.
Proof. by split; intros c; cbn; rewrite IsSet_Empty. Qed.

Lemma set_world_world w w' s : set_world_ w (set_world_ w' s) = set_world_ w s.
Proof. done. Qed.

(** The questions about the task on a CPU only read. *)
Lemma wp_replaceable p t Q s :
  tasks_ s !! p = Some t → (∀ b w, frame s (set_world_ w s) → Q b (set_world_ w s)) → wp E (replaceable p) Q s.
Proof.
  intros Hp HQ. unfold replaceable, is_memcached, ran_long. sched_step. wp_seq.
  apply wp_GetTaskName. intros name1 w1 Hf1. sched_step. wp_seq.
  assert (∀ w2 (long : bool), frame s (set_world_ w2 s) →
    wp E (if long then mret true else memcached ← (name ← GetTaskName (tid (gtid t)); mret (StrContains name "memcached")); mret (negb memcached))
      Q (set_world_ w2 s)) as Hend.
  { intros w2 long Hf2. destruct long; [sched_step; auto|]. wp_seq. apply wp_GetTaskName. intros name2 w3 Hf3.
    do 2 sched_step. apply HQ. by transitivity (set_world_ w2 s). }
  sched_step; [|by apply Hend]. sched_step. sched_step.
  - do 2 sched_step. apply Hend. transitivity (set_world_ w1 s); [done|].
    change (frame (set_world_ w1 s) (set_world_ w0 (set_world_ w (set_world_ w1 s)))). frames.
  - sched_step. apply (Hend w false). transitivity (set_world_ w1 s); [done|].
    change (frame (set_world_ w1 s) (set_world_ w (set_world_ w1 s))). frames.
Qed.

(** The loop over the CPUs: [l] are the ones still to visit. *)
Record scanning s (l : list Cpu) (r : round) s' : Prop := {
  sc_inv : inv s';
  sc_frame : frame s s';
  sc_round : round_ok s' r;
  sc_new c : IsSet (avail_cpus r) c = true ∨ IsSet (avail_cpus_low_priority r) c = true → c ∉ l;
  sc_nodup : NoDup l;
  sc_cpus c : c ∈ l → c ∈ Cpus (cpus_ s);
  sc_unavail : 0 <= unavail r ∧ unavail r + zlen l <= zlen (Cpus (cpus_ s));
}.

Lemma scanning_start s : inv s → scanning s (Cpus (cpus_ s)) empty_round s.
Proof.
  intros Hi.
  split; [done|done|apply round_ok_empty|by intros c; cbn; rewrite IsSet_Empty; intros []|apply NoDup_Cpus|done|].
  cbn. unfold zlen. lia.
Qed.

Lemma length_below (l : list nat) n : NoDup l → (∀ x, x ∈ l → x < n)%nat → (length l <= n)%nat.
Proof.
  intros Hl Hn. rewrite <-(length_seq n 0). apply submseteq_length, NoDup_submseteq; [done|].
  intros x Hx. apply elem_of_seq. specialize (Hn x Hx). lia.
Qed.

Lemma inv_cpus_int s : inv s → zlen (Cpus (cpus_ s)) < 2 ^ 31.
Proof.
  intros Hi. pose proof MAX_CPUS_int. assert (length (Cpus (cpus_ s)) <= MAX_CPUS)%nat.
  { apply length_below; [apply NoDup_Cpus|]. intros c Hc. destruct (inv_cpu s c Hi Hc) as (st & Hst & _).
    apply lookup_lt_Some in Hst. by rewrite (inv_len _ Hi) in Hst. }
  unfold zlen. lia.
Qed.

(** A visited CPU leaves the list; what is known of the others stays. *)
Lemma scanning_next s c l r r' s1 s2 :
  scanning s (c :: l) r s1 → inv s2 → frame s1 s2 →
  (∀ d, d ≠ c → cpu_states_ s2 !! d = cpu_states_ s1 !! d) →
  (∀ d, IsSet (avail_cpus r') d = true → IsSet (avail_cpus r) d = true ∨
    d = c ∧ usable s2 c (λ st, current st = None ∧ next st = None)) →
  (∀ d, IsSet (avail_cpus_low_priority r') d = true → IsSet (avail_cpus_low_priority r) d = true ∨
    d = c ∧ usable s2 c (λ st, is_Some (current st))) →
  0 <= unavail r' <= unavail r + 1 → scanning s l r' s2.
Proof.
  intros [Hi Hf [Hra Hrl] Hnew Hnd Hcp Hun] Hi2 Hf2 Hc Ha Hl Hu. apply NoDup_cons in Hnd as [Hcl Hnd].
  assert (∀ d, IsSet (avail_cpus r) d = true ∨ IsSet (avail_cpus_low_priority r) d = true → d ≠ c ∧ d ∉ l) as Hdl.
  { intros d Hd. specialize (Hnew d Hd). set_solver. }
  split; [done|by transitivity s1| |..].
  - split; intros d Hd.
    + destruct (Ha d Hd) as [Hd'|[-> ?]]; [|done]. eapply usable_frame; [done| |by apply Hra].
      apply Hc, Hdl. by left.
    + destruct (Hl d Hd) as [Hd'|[-> ?]]; [|done]. eapply usable_frame; [done| |by apply Hrl].
      apply Hc, Hdl. by right.
  - intros d [Hd|Hd]; [destruct (Ha d Hd) as [|[-> _]]|destruct (Hl d Hd) as [|[-> _]]]; try done; apply Hdl; auto.
  - done.
  - intros d Hd. apply Hcp. by right.
  - unfold zlen in *. cbn in Hun. lia.
Qed.

Lemma SetCpu_true l c d : IsSet (SetCpu l c) d = true → IsSet l d = true ∨ d = c.
Proof. rewrite IsSet_Set, orb_true_iff, bool_decide_eq_true. naive_solver. Qed.

(** A CPU that is not available is counted; a pending transaction that
    completed on it is taken note of. *)
Lemma scanning_unavail s c l r s1 s2 :
  scanning s (c :: l) r s1 → inv s2 → frame s1 s2 → (∀ d, d ≠ c → cpu_states_ s2 !! d = cpu_states_ s1 !! d) →
  scanning s l (add_unavail r) s2.
Proof.
  intros Hsc Hi2 Hf2 Hd. pose proof (sc_unavail _ _ _ _ Hsc) as [Hu0 Hu]. pose proof (inv_cpus_int _ Hi2) as Hint.
  rewrite (f_cpus _ _ Hf2), (f_cpus _ _ (sc_frame _ _ _ _ Hsc)) in Hint.
  assert (incr (unavail r) = unavail r + 1) as Hincr.
  { unfold incr. apply to_int_small. unfold zlen in *. cbn in Hu. lia. }
  eapply scanning_next; [done..| | |]; cbn; [auto..|lia].
Qed.

Lemma scanning_skip s c l r s1 s2 :
  scanning s (c :: l) r s1 → inv s2 → frame s1 s2 → (∀ d, d ≠ c → cpu_states_ s2 !! d = cpu_states_ s1 !! d) →
  scanning s l r s2.
Proof.
  intros Hsc Hi2 Hf2 Hd. pose proof (sc_unavail _ _ _ _ Hsc) as [Hu0 Hu]. eapply scanning_next; [done..| | |lia]; auto.
Qed.

(** A CPU whose transaction is committed, after the synchronisation. *)
Lemma wp_scan_synced s c l r s1 s2 st2 :
  scanning s (c :: l) r s1 → inv s2 → frame s1 s2 → (∀ d, d ≠ c → cpu_states_ s2 !! d = cpu_states_ s1 !! d) →
  cpu_states_ s2 !! c = Some st2 → next st2 = None → c ∈ Cpus (cpus_ s1) → c ≠ global_cpuid_ s1 →
  wp E (match current st2 with
        | None => mret (if in_switchto st2 then r else add_avail c r)
        | Some p => b ← replaceable p; mret (if b : bool then add_low c r else r)
        end) (scanning s l) s2.
Proof.
  intros Hsc Hi3 Hf2 Hoth Hst2 Hn2 Hc Hg. pose proof (sc_unavail _ _ _ _ Hsc) as [Hu0 Hu].
  assert (∀ P, P st2 → usable s2 c P) as Huse.
  { intros P HP. split_and!; [by rewrite (f_cpus _ _ Hf2)|by rewrite (f_global _ _ Hf2)|eauto]. }
  destruct (current st2) as [p|] eqn:Hc2.
  - pose proof (pl_current _ _ _ _ (inv_at _ Hi3) _ _ _ Hst2 Hc2) as (t & Hp & _)%places_Some.
    wp_seq. eapply wp_replaceable; [done|]. intros rep w2 Hfw. sched_step.
    assert (inv (set_world_ w2 s2)) as Hi4 by (eapply inv_frame; [done|done|apply Hi3|by left]).
    assert (frame s1 (set_world_ w2 s2)) as Hf3 by by transitivity s2.
    destruct rep; [|by eapply scanning_skip].
    eapply scanning_next; [done..|by left| |cbn; lia]. cbn. intros d [?| ->]%SetCpu_true; [by left|right].
    split; [done|]. eapply usable_frame; [exact Hfw|done|]. apply Huse. by rewrite Hc2.
  - sched_step. destruct (in_switchto st2); [by eapply scanning_skip|].
    eapply scanning_next; [done..| |by left|cbn; lia]. cbn. intros d [?| ->]%SetCpu_true; [by left|right].
    split; [done|]. by apply Huse.
Qed.

Lemma scan_cpu_spec s c l r s1 :
  scanning s (c :: l) r s1 → wp E (scan_cpu c r) (scanning s l) s1.
Proof.
  intros Hsc. pose proof (sc_inv _ _ _ _ Hsc) as Hi.
  assert (c ∈ Cpus (cpus_ s1)) as Hc.
  { rewrite (f_cpus _ _ (sc_frame _ _ _ _ Hsc)). apply (sc_cpus _ _ _ _ Hsc). left. }
  destruct (inv_cpu s1 c Hi Hc) as (st & Hst & _).
  pose proof (λ s2, scanning_skip s c l r s1 s2 Hsc) as Hskip.
  pose proof (λ s2, scanning_unavail s c l r s1 s2 Hsc) as Hun.
  unfold scan_cpu. sched_step. wp_seq. apply wp_Available; [done..|]. intros b w Hask.
  assert (inv (set_world_ w s1)) as Hi1 by by eapply inv_call.
  destruct b; cbn [negb]; cbv iota.
  2:{ destruct (next st) as [p|] eqn:Hn; cbn [is_some]; wp_seq; [|sched_step; sched_step; apply Hun; [done|frames|done]].
      sched_step. assert (inv (set_world_ w0 (set_world_ w s1))) as Hi2 by by eapply inv_call. sched_step.
      - wp_seq. eapply wp_mono; [eapply (SyncCpuState_spec E c st); [apply Hi2|done|]|].
        { right. right. subst. by eapply ask_committed. }
        intros b s2 Hsy. do 2 sched_step. apply Hun; [by eapply synced_inv| |].
        + etransitivity; [|apply Hsy]. frames.
        + intros d Hd. by rewrite (sy_others _ _ _ _ _ Hsy d Hd).
      - do 2 sched_step. apply Hun; [done|frames|done]. }
  unfold GetGlobalCPUId. do 2 sched_step. sched_step; [sched_step; apply Hskip; [done|frames|done]|].
  apply orb_false_iff in Heqb as [Hg%bool_decide_eq_false Hcur]. cbn in Hg.
  sched_step. assert (inv (set_world_ w0 (set_world_ w s1))) as Hi2 by by eapply inv_call.
  destruct r0; cbn [negb]; cbv iota. 2:{ sched_step. apply Hskip; [done|frames|done]. }
  wp_seq. eapply wp_mono; [eapply (SyncCpuState_spec E c st); [apply Hi2|done|right; right; by eapply ask_committed]|].
  intros b s2 Hsy. destruct (sy_cpu _ _ _ _ _ Hsy) as (st2 & Hst2 & Hn2 & _). sched_step.
  eapply wp_scan_synced; [done|by eapply synced_inv| | |done..].
  - etransitivity; [|apply Hsy]. frames.
  - intros d Hd. by rewrite (sy_others _ _ _ _ _ Hsy d Hd).
Qed.

(** ** The assignment loop *)

Definition measure s (r : round) : nat := qlen s + length (Cpus (avail_cpus_low_priority r)).

Lemma ClearCpu_true l c d : IsSet (ClearCpu l c) d = true → IsSet l d = true ∧ d ≠ c.
Proof. rewrite IsSet_Clear, andb_true_iff, negb_true_iff, bool_decide_eq_false. naive_solver. Qed.

Lemma ClearCpu_perm l c : IsSet l c = true → Cpus l ≡ₚ c :: Cpus (ClearCpu l c).
Proof.
  intros Hc. apply NoDup_Permutation; [apply NoDup_Cpus|apply NoDup_cons; split; [|apply NoDup_Cpus]|].
  - rewrite elem_Cpus. intros [_ ?]%ClearCpu_true. done.
  - intros d. rewrite elem_of_cons, !elem_Cpus, IsSet_Clear, andb_true_iff, negb_true_iff, bool_decide_eq_false.
    destruct (decide (c = d)) as [->|]; naive_solver.
Qed.

(** The state inside an iteration: [p] was taken from the queues. *)
Record taken s p s1 : Prop := {
  tk_frame : frame s s1;
  tk_tasks : tasks_ s1 = tasks_ s;
  tk_cpus : cpu_states_ s1 = cpu_states_ s;
  tk_queue : qlen s = S (qlen s1);
  tk_at : at_ s1 (<[p := Off]> (places s));
  tk_place : places s !! p = Some Queued;
}.

Lemma wp_Dequeue_taken Q s :
  inv s → (run_queue_ s = [] → run_queue_low_priority_ s = [] → Q None s) →
  (∀ p s1, taken s p s1 → run_queue_ s ++ run_queue_low_priority_ s = p :: run_queue_ s1 ++ run_queue_low_priority_ s1 →
    yielding_tasks_ s1 = yielding_tasks_ s → world_ s1 = world_ s → Q (Some p) s1) → wp E Dequeue Q s.
Proof.
  intros Hi HN HS. eapply wp_Dequeue; [apply Hi|done|]. intros p s1 Hf Hp Ht Hw Hq Hy Hc HA. apply HS; [|done..].
  split; try done. unfold qlen. rewrite <-!length_app, Hq. done.
Qed.

(** Tasks that are not in the queues stay where they are, unless they run on a
    replaceable CPU. *)
Definition stays (r r' : round) s s' : Prop :=
  (∀ c, IsSet (avail_cpus_low_priority r') c = true → IsSet (avail_cpus_low_priority r) c = true) ∧
  ∀ p k, places s !! p = Some k → k ≠ Queued →
    places s' !! p = Some k ∨ ∃ c, k = Running (Some c) ∧ IsSet (avail_cpus_low_priority r) c = true.

Lemma stays_move r r' s s' p k :
  (∀ c, IsSet (avail_cpus_low_priority r') c = true → IsSet (avail_cpus_low_priority r) c = true) →
  places s !! p = Some Queued → places s' = <[p := k]> (places s) → stays r r' s s'.
Proof. intros Hr Hp Hpl. split; [done|]. intros x k' Hx Hk. left. rewrite Hpl. by rewrite lookup_insert_ne by congruence. Qed.

(** After an iteration: the invariant, the round, and progress. *)
Definition iterated s (r : round) (r' : round) s' : Prop :=
  inv s' ∧ frame s s' ∧ round_ok s' r' ∧ (measure s' r' < measure s r)%nat ∧ unavail r' = unavail r ∧ stays r r' s s'.

Lemma taken_yield s p s1 r Q s2 :
  inv s → round_ok s r → taken s p s1 → frame s1 s2 → tasks_ s2 = tasks_ s1 → cpu_states_ s2 = cpu_states_ s1 →
  qlen s2 = qlen s1 → at_ s2 (<[p := Off]> (places s)) →
  (∀ s', iterated s r r s' → places s' = <[p := Yielded]> (places s) → world_ s' = world_ s2 →
    run_queue_ s' = run_queue_ s2 → run_queue_low_priority_ s' = run_queue_low_priority_ s2 →
    (∀ x, x ≠ p → tasks_ s' !! x = tasks_ s !! x) → Q tt s') → wp E (Yield p) Q s2.
Proof.
  intros Hi Hr [Hf Ht Hc Hq HA Hp0] Hf2 Ht2 Hc2 Hq2 HA2 HQ. pose proof Hp0 as (t & Hp & Hpl)%places_Some.
  assert (run_state t = QUEUED) as Hst by (unfold place_of in Hpl; by destruct (run_state t)).
  eapply wp_Yield; [by rewrite Ht2, Ht|exact HA2|by rewrite lookup_insert_eq|by rewrite Hst|by rewrite Hst|].
  intros s3 Hf3 Ht3 Hw3 Hq3 Hl3 Hc3 HA3. rewrite insert_insert_eq in HA3.
  assert (frame s s3) as Hfs by (do 2 (etransitivity; [eassumption|]); done).
  assert (places s3 = <[p := Yielded]> (places s)) as Hpl3.
  { unfold places. rewrite Ht3, Ht2, Ht. by rewrite fmap_insert. }
  apply HQ; [|done..|intros x Hx; rewrite Ht3, Ht2, Ht; by apply lookup_insert_ne].
  split_and!; [|done| |unfold measure, qlen in *; rewrite Hq3, Hl3; lia|done|by eapply stays_move].
  - eapply inv_move; [done|done|exact HA3|done|by right; right].
  - eapply round_ok_frame; [done|by rewrite Hc3, Hc2, Hc|done].
Qed.

Lemma give_cpu_spec p t c r s s1 :
  inv s → round_ok s r → taken s p s1 → tasks_ s1 !! p = Some t → IsSet (avail_cpus r) c = true →
  wp E (give_cpu p t c r) (λ r' s', r' = assign c r ∧ iterated s r r' s' ∧ places s' = <[p := Assigned (Some c)]> (places s) ∧
    run_queue_ s' = run_queue_ s1 ∧ run_queue_low_priority_ s' = run_queue_low_priority_ s1 ∧
    (∀ x, x ≠ p → tasks_ s' !! x = tasks_ s !! x) ∧ asked (world_ s1) (world_ s')) s1.
Proof.
  intros Hi Hr [Hf Ht Hc Hq HA Hp] Hp1 Hset. destruct (ro_avail _ _ Hr c Hset) as (Hcc & Hg & st & Hst & Hcur & Hnext).
  assert (cpu_states_ s1 !! c = Some st) as Hst1 by by rewrite Hc.
  assert (at_ (map_cpu c (set_next (Some p) st) s1) (<[p := Assigned (Some c)]> (places s))) as HA1.
  { apply (place_assign _ _ _ _ c st p) in HA; [|by rewrite lookup_insert_eq|done..]. by rewrite insert_insert_eq in HA. }
  assert (∀ t' s2, place_of t' = Assigned (Some c) → frame s1 s2 → tasks_ s2 = <[p := t']> (tasks_ s1) →
    cpu_states_ s2 = <[c := set_next (Some p) st]> (cpu_states_ s1) → run_queue_ s2 = run_queue_ s1 →
    run_queue_low_priority_ s2 = run_queue_low_priority_ s1 → yielding_tasks_ s2 = yielding_tasks_ s1 →
    asked (world_ s1) (world_ s2) →
    assign c r = assign c r ∧ iterated s r (assign c r) s2 ∧ places s2 = <[p := Assigned (Some c)]> (places s) ∧
    run_queue_ s2 = run_queue_ s1 ∧ run_queue_low_priority_ s2 = run_queue_low_priority_ s1 ∧
    (∀ x, x ≠ p → tasks_ s2 !! x = tasks_ s !! x) ∧ asked (world_ s1) (world_ s2)) as Hend.
  { intros t' s2 Ht' Hf2 Ht2 Hc2 Hq2 Hl2 Hy2 Hw2.
    assert (places s2 = <[p := Assigned (Some c)]> (places s)) as Hpl2
      by (unfold places; rewrite Ht2, Ht, fmap_insert; by rewrite Ht').
    assert (frame s s2) as Hfs by by transitivity s1.
    split_and!; try done; [|intros x Hx; rewrite Ht2, Ht; by apply lookup_insert_ne]. split_and!; try done.
    - eapply inv_frame; [done|done|rewrite Hpl2; unfold at_; by rewrite Hq2, Hl2, Hy2, Hc2|].
      rewrite Hpl2. intros x k Hx. split_key; [right|by left]. injection Hx as <-. split; congruence.
    - split; cbn.
      + intros d [Hd Hdc]%ClearCpu_true. eapply usable_frame; [done| |by apply (ro_avail _ _ Hr)].
        rewrite Hc2, Hc. by rewrite list_lookup_insert_ne by done.
      + intros d Hd. pose proof (ro_low _ _ Hr d Hd) as Hu. destruct (decide (d = c)) as [->|].
        * destruct Hu as (_ & _ & st' & Hst' & [? ?]). congruence.
        * eapply usable_frame; [done| |done]. rewrite Hc2, Hc. by rewrite list_lookup_insert_ne by done.
    - unfold measure, qlen in *. cbn. rewrite Hq2, Hl2. lia.
    - by eapply stays_move. }
  unfold give_cpu. sched_step. sched_step; [|by rewrite bool_decide_eq_false in *].
  sched_step; [|by rewrite bool_decide_eq_false in *]. do 4 sched_step. rewrite map_task_task. wp_seq.
  destruct (preempted t); cbn [when]; [do 2 sched_step; rewrite !map_task_task|sched_step].
  all: do 4 sched_step; (eapply Hend; [| |cbn; rewrite ?insert_insert_eq; reflexivity|done..|]); [done|frames|].
  all: cbn; etransitivity; eapply asked_call; eassumption.
Qed.

Lemma place_task_spec p t r s s1 :
  inv s → round_ok s r → taken s p s1 → tasks_ s1 !! p = Some t →
  wp E (place_task p t r) (iterated s r) s1.
Proof.
  intros Hi Hr Htk Hp1. pose proof Htk as [Hf Ht Hc Hq HA Hp0]. pose proof Hp0 as (t' & Hp & Hpl)%places_Some.
  rewrite Ht in Hp1. assert (t' = t) as -> by congruence. rewrite <-Ht in Hp1.
  assert (run_state t = QUEUED) as Hst by (unfold place_of in Hpl; by destruct (run_state t)).
  unfold place_task. sched_step. destruct (if Empty (avail_cpus r) then None else _) as [c|] eqn:Hpick.
  { destruct (Empty (avail_cpus r)); [done|]. apply PickNextCpu_IsSet in Hpick.
    eapply wp_mono; [by eapply give_cpu_spec|]. cbn. tauto. }
  destruct (if Empty (avail_cpus_low_priority r) then None else _) as [c|] eqn:Hlow; wp_seq.
  2:{ by eapply (taken_yield s p s1 r). }
  destruct (Empty (avail_cpus_low_priority r)); [done|]. apply PickNextCpu_IsSet in Hlow.
  destruct (ro_low _ _ Hr c Hlow) as (Hcc & Hg & st & Hstc & Hcur).
  assert (places s1 = places s) as Hpl1 by (unfold places; by rewrite Ht).
  eapply wp_mono; [eapply (ReplaceExistingTask_spec c p t st); [by rewrite Hpl1|done|done|by rewrite Hc|done|]|].
  { by apply (f_runtime _ _ Hf), Hi. }
  intros ? s2 (Hf2 & HA2 & Hq2 & Hoth & prev & k & Hprev & Hk & Hpl2). sched_step. rewrite Hpl1 in Hpl2, Hprev.
  assert (frame s s2) as Hfs by by transitivity s1.
  assert (∀ d, d ≠ c → cpu_states_ s2 !! d = cpu_states_ s !! d) as Hoth' by (intros d Hd; by rewrite Hoth, Hc by done).
  split_and!; [|done| | |done|].
  - eapply inv_frame; [done..|]. rewrite Hpl2. intros x k' Hx.
    split_key; [|right; by injection Hx as <-|by left].
    right. injection Hx as <-. destruct Hk as [->|[-> _]]; [split; congruence|done].
  - split; cbn.
    + intros d Hd. pose proof (ro_avail _ _ Hr d Hd) as Hu. destruct (decide (d = c)) as [->|].
      * destruct Hu as (_ & _ & st' & Hst' & Hn & _). destruct Hcur. congruence.
      * eapply usable_frame; [done|by apply Hoth'|done].
    + intros d [Hd Hdc]%ClearCpu_true. eapply usable_frame; [done|by apply Hoth'|by apply (ro_low _ _ Hr)].
  - unfold measure. cbn. rewrite (ClearCpu_perm _ _ Hlow). cbn. lia.
  - split; [cbn; intros d Hd; by apply ClearCpu_true in Hd as [? _]|]. intros x k' Hx Hk'. rewrite Hpl2.
    rewrite lookup_insert_ne by congruence. destruct (decide (x = prev)) as [->|Hxp]; [right|left; by rewrite lookup_insert_ne].
    exists c. split; [congruence|done].
Qed.

Lemma assign_task_spec p r s s1 :
  inv s → round_ok s r → taken s p s1 → wp E (assign_task p r) (iterated s r) s1.
Proof.
  intros Hi Hr Htk. pose proof Htk as [Hf Ht Hc Hq HA Hp]. apply places_Some in Hp as (t & Hp & Hpl).
  assert (run_state t = QUEUED) as Hst by (unfold place_of in Hpl; by destruct (run_state t)).
  assert (tasks_ s1 !! p = Some t) as Hp1 by by rewrite Ht.
  assert (∀ w, frame s1 (set_world_ w s1) → taken s p (set_world_ w s1)) as Htk'.
  { intros w Hfw. split; try done; [by transitivity s1|apply Htk]. }
  unfold assign_task. sched_step. sched_step; [|by unfold pending in *; rewrite Hst in *].
  assert (∀ (stale : bool) w, frame s1 (set_world_ w s1) →
    wp E (if stale then Yield p;; mret r else place_task p t r) (iterated s r) (set_world_ w s1)) as Hend.
  { intros stale w Hfw. destruct stale; [|by eapply place_task_spec; auto].
    wp_seq. by eapply (taken_yield s p (set_world_ w s1) r); auto. }
  sched_step. wp_seq. destruct r0; cbv iota.
  - sched_step. apply (Hend true). frames.
  - do 2 sched_step. apply Hend. change (frame s1 (set_world_ w0 (set_world_ w s1))). frames.
Qed.

(** The loop ends with the fuel given. *)
Lemma assign_loop_spec fuel r s :
  inv s → round_ok s r → (measure s r < fuel)%nat →
  wp E (assign_loop fuel r) (λ r' s', inv s' ∧ frame s s' ∧ unavail r' = unavail r) s.
Proof.
  revert r s. induction fuel as [|fuel IH]; intros r s Hi Hr Hm; [lia|]. cbn [assign_loop].
  destruct (_ && _); [by sched_step|]. wp_seq. apply wp_Dequeue_taken; [done|by intros; sched_step|].
  intros p s1 Htk _ _ _. wp_seq. eapply wp_mono; [by eapply assign_task_spec|].
  intros r' s' (Hi' & Hf' & Hr' & Hm' & Hu' & _). eapply wp_mono; [apply IH; [done..|lia]|].
  intros r2 s2 (Hi2 & Hf2 & Hu2). split_and!; [done|by transitivity s'|congruence].
Qed.

(** ** The end of the round *)

(** Yielding tasks are queued again. *)
Definition unyielded (k : place) : place := match k with Yielded => Queued | _ => k end.

Lemma unyield_all_spec s :
  inv s → wp E unyield_all
    (λ _ s', inv s' ∧ yielding_tasks_ s' = [] ∧ places s' = unyielded <$> places s) s.
Proof.
  intros Hi. unfold unyield_all. sched_step. wp_seq.
  apply (wp_for_each E _ (λ l _ s', frame s s' ∧
    placed (run_queue_ s' ++ run_queue_low_priority_ s') l (cpu_states_ s') (places s') ∧
    unyielded <$> places s' = unyielded <$> places s)).
  - split_and!; [done|apply Hi|done].
  - intros p l [] s1 (Hf & HA & Hpl).
    assert (places s1 !! p = Some Yielded) as Hp.
    { pose proof (pl_yield _ _ _ _ HA p) as Ho. rewrite occ_cons, occ_single, decide_True in Ho by done.
      pose proof (occ_nonneg p l). case_decide; [done|lia]. }
    pose proof (place_unyield _ _ l _ _ _ HA Hp (λ x, occ_cons x p l)) as HA1.
    pose proof Hp as (t & Hpt & Ht)%places_Some.
    assert (run_state t = YIELDING) as Hst by (unfold place_of in Ht; by destruct (run_state t)).
    sched_step. sched_step; [|by unfold yielding in *; rewrite Hst in *].
    eapply wp_Enqueue_gen; [done|exact HA1|by rewrite lookup_insert_eq|].
    intros s2 Hf2 Ht2 _ Hy2 Hc2 HA2 _. rewrite insert_insert_eq in HA2.
    assert (places s2 = <[p := Queued]> (places s1)) as Hpl2 by by rewrite (places_insert s1 _ _ _ Ht2).
    split_and!; [by transitivity s1|by rewrite Hpl2, Hc2|].
    rewrite Hpl2, fmap_insert, insert_id; [done|]. by rewrite lookup_fmap, Hp.
  - intros [] s1 (Hf & HA & Hpl). sched_step.
    assert (places s1 = unyielded <$> places s) as Hpl1.
    { rewrite <-Hpl. rewrite <-(map_fmap_id (places s1)) at 1. apply map_fmap_ext. intros x k Hx.
      pose proof (pl_yield _ _ _ _ HA x) as Ho. rewrite occ_nil, Hx in Ho. by destruct k. }
    split_and!; [|done|done].
    eapply inv_frame; [done|transitivity s1; [done|frames]|exact HA|].
    intros x k Hx. change (places s1 !! x = Some k) in Hx. rewrite Hpl1, lookup_fmap in Hx.
    destruct (places s !! x) as [[]|]; simplify_eq/=; [by left|by right|by right|by left..].
Qed.

Lemma record_unavail_spec u s :
  inv s → 0 <= u → wp E (record_unavail u) (λ _ s', inv s' ∧ places s' = places s ∧ yielding_tasks_ s' = yielding_tasks_ s) s.
Proof.
  intros Hi Hu. unfold record_unavail. sched_step. set (slot := if _ <? u then _ else u).
  assert (0 <= slot < zlen (cpuhist_ s)) as Hslot.
  { unfold zlen. rewrite (inv_hist _ Hi). subst slot. unfold kCpuHistLen. destruct (Z.ltb_spec (Z.of_nat 12 - 1) u); lia. }
  destruct (arr_get_total _ _ Hslot) as (n & Hget & _). wp_seq. rewrite Hget. apply wp_ret.
  wp_seq. rewrite arr_set_total by done. apply wp_ret. do 2 sched_step. split; [|done].
  destruct Hi. split; try done. cbn. by rewrite length_insert.
Qed.

Lemma GlobalSchedule_spec s :
  inv s → wp E GlobalSchedule (λ _ s', inv s' ∧ yielding_tasks_ s' = []) s.
Proof.
  intros Hi. unfold GlobalSchedule. sched_step. wp_seq.
  apply (wp_for_each E _ (scanning s)).
  { by apply scanning_start. }
  { intros c l r s1. apply scan_cpu_spec. }
  intros r s1 Hsc. pose proof (sc_unavail _ _ _ _ Hsc) as [Hu _].
  sched_step. wp_seq. eapply wp_mono; [apply assign_loop_spec; [apply Hsc|apply Hsc|unfold measure, qlen, assign_fuel; lia]|].
  intros r2 s2 (Hi2 & Hf2 & Hu2).
  assert (∀ s3, inv s3 → wp E (unyield_all;; record_unavail (unavail r2)) (λ _ s', inv s' ∧ yielding_tasks_ s' = []) s3) as Hend.
  { intros s3 Hi3. wp_seq. eapply wp_mono; [by apply unyield_all_spec|]. intros ? s4 (Hi4 & Hy4 & _).
    eapply wp_mono; [apply record_unavail_spec; [done|lia]|]. intros ? s5 (Hi5 & _ & ->). done. }
  sched_step; [|by apply Hend]. sched_step. apply Hend. by eapply inv_call.
Qed.

(** ** The move of the global agent *)

(** The target found: another CPU of the enclave with a committed request. *)
Definition target_ok s0 (o : option Cpu) s : Prop :=
  inv s ∧ frame s0 s ∧
  match o with
  | None => True
  | Some c => c ∈ Cpus (cpus_ s) ∧ c ≠ global_cpuid_ s ∧ done (world_ s) c
  end.

Lemma set_same_world s : set_world_ (world_ s) s = s.
Proof. by destruct s. Qed.

(** [Available(c) && req->committed()]: true only for a committed request. *)
Lemma wp_avail_committed (b : bool) c Q s :
  inv s → c ∈ Cpus (cpus_ s) →
  (∀ r w, frame s (set_world_ w s) → (r = true → b = true ∧ done w c) → Q r (set_world_ w s)) →
  wp E (if b then a ← Available c; if a : bool then call (Committed c) else mret false else mret false) Q s.
Proof.
  intros Hi Hc HQ. destruct b.
  - wp_seq. apply wp_Available; [done..|]. intros a w Hask. sched_step.
    + sched_step. apply (HQ r w0).
      * change (frame s (set_world_ w0 (set_world_ w s))). frames.
      * intros ->. split; [done|]. by eapply ask_committed.
    + sched_step. apply HQ; [frames|done].
  - sched_step. specialize (HQ false (world_ s)). rewrite set_same_world in HQ. by apply HQ.
Qed.

Lemma find_target_spec s0 home l s :
  inv s → frame s0 s → home = global_home_cpu_ s0 → (∀ c, c ∈ l → c ∈ Cpus (cpus_ s0)) →
  wp E (find_target (global_cpuid_ s0) home l) (target_ok s0) s.
Proof.
  intros Hi Hf ->. revert s Hi Hf. induction l as [|c l IH]; intros s Hi Hf Hl; cbn [find_target].
  { sched_step. by split_and!. }
  assert (∀ s, inv s → frame s0 s → wp E (find_target (global_cpuid_ s0) (global_home_cpu_ s0) l) (target_ok s0) s) as IH'.
  { intros s1 Hi1 Hf1. apply IH; [done..|]. intros d Hd. apply Hl. by right. }
  assert (∀ s, frame s0 s → c ∈ Cpus (cpus_ s)) as Hc by (intros s1 Hf1; rewrite (f_cpus _ _ Hf1); apply Hl; left).
  assert (∀ s, inv s → frame s0 s → global_home_cpu_ s0 ∈ Cpus (cpus_ s)) as Hh
    by (intros s1 Hi1 Hf1; rewrite <-(f_home _ _ Hf1); apply Hi1).
  wp_seq. apply wp_avail_committed; [done|by apply Hh|]. intros go w Hfw Hgo.
  assert (inv (set_world_ w s)) as Hi1 by (eapply inv_frame; [done..|apply Hi|by left]).
  assert (frame s0 (set_world_ w s)) as Hf1 by by transitivity s.
  destruct go.
  - destruct Hgo as [Hne%bool_decide_eq_true Hd]; [done|]. destruct (inv_cpu _ _ Hi1 (Hh _ Hi1 Hf1)) as (st & Hst & _).
    wp_seq. eapply wp_mono; [eapply (SyncCpuState_spec E _ st); [apply Hi1|done|by right; right]|].
    intros b s2 Hsy. sched_step. assert (inv s2) as Hi2 by by eapply synced_inv.
    assert (frame s0 s2) as Hf2 by (etransitivity; [exact Hf1|apply Hsy]).
    split_and!; [done|done|by apply Hh|by rewrite (f_global _ _ Hf2)|by apply (sy_done _ _ _ _ _ Hsy)].
  - destruct (inv_cpu _ _ Hi1 (Hc _ Hf1)) as (st & Hst & _). sched_step.
    destruct (in_switchto st); [by apply IH'|]. destruct (negb _); [by apply IH'|].
    wp_seq. apply wp_avail_committed; [done|by apply Hc|]. intros ok w2 Hfw2 Hok.
    assert (inv (set_world_ w2 (set_world_ w s))) as Hi2 by (eapply inv_frame; [done..|apply Hi1|by left]).
    assert (frame s0 (set_world_ w2 (set_world_ w s))) as Hf2 by (by transitivity (set_world_ w s)).
    destruct ok; [|by apply IH']. sched_step. destruct Hok as [Hne%bool_decide_eq_true Hd]; [done|].
    split_and!; [done|done|by apply Hc|by rewrite (f_global _ _ Hf2)|done].
Qed.

(** Taking the running task off a CPU. *)
Lemma wp_PreemptTask_vacate prev t c st a Q s :
  tasks_ s !! prev = Some t → run_state t = ON_CPU → cpu t = Some c → cpu_states_ s !! c = Some st →
  (∀ w, frame s (map_cpu c (set_current None st) (set_world_ w s)) →
    Q true (map_cpu c (set_current None st) (set_world_ w s))) →
  (unschedule_refused → E) → wp E (PreemptTask (Some prev) None a) Q s.
Proof.
  intros Hp Hrs Hcpu Hst HQ HE. unfold PreemptTask. sched_step; [|done]. do 2 sched_step.
  sched_step; [|by unfold pending in *; rewrite Hrs in *]. sched_step; [|by unfold oncpu in *; rewrite Hrs in *].
  wp_seq. rewrite decide_False by done. do 4 sched_step.
  sched_step.
  2:{ apply HE. exists c, (world_ s). rewrite Hask. cbn in Hask0 |- *. by rewrite Hask0. }
  sched_step. cbn [negb]. cbv iota. do 3 sched_step.
  apply (HQ w0). change (frame s (map_cpu c (set_current None st) (set_world_ w0 (set_world_ w s)))). frames.
Qed.

(** A CPU without tasks can become the global agent's. *)
Lemma inv_set_global c st s :
  inv s → c ∈ Cpus (cpus_ s) → cpu_states_ s !! c = Some st → current st = None → next st = None →
  inv (set_global_cpuid_ c s).
Proof.
  intros [HA Hl Hag Hh Hg Hfr Hhi Hn Hrt] Hc Hst Hcur Hnx. split; try done. cbn. intros p k Hp. split; intros ->.
  - destruct (pl_running _ _ _ _ HA _ _ Hp) as (d & st' & [= <-] & Hst' & ?). congruence.
  - destruct (pl_assigned _ _ _ _ HA _ _ Hp) as (d & st' & [= <-] & Hst' & ?). congruence.
Qed.

(** The task on the target is queued again. *)
Lemma wp_vacate_target c st s :
  inv s → c ∈ Cpus (cpus_ s) → cpu_states_ s !! c = Some st → next st = None → (unschedule_refused → E) →
  wp E (match current st with
        | None => mret tt
        | Some prev =>
            t ← get_task prev;
            CHECK (oncpu t);;
            in_sync ← PreemptTask (Some prev) None 0;
            CHECK in_sync;;
            upd_task prev (set_prio_boost true);;
            Enqueue prev;;
            upd_cpu c (set_current None)
        end)
    (λ _ s', inv s' ∧ frame s s' ∧ ∃ st', cpu_states_ s' !! c = Some st' ∧ current st' = None ∧ next st' = None) s.
Proof.
  intros Hi Hc Hst Hnx HE. destruct (current st) as [prev|] eqn:Hcur; [|sched_step; split_and!; [done|done|eauto]].
  pose proof (pl_current _ _ _ _ (inv_at _ Hi) _ _ _ Hst Hcur) as (t & Hp & Ht)%places_Some.
  assert (run_state t = ON_CPU ∧ cpu t = Some c) as [Hrs Hcpu]
    by (unfold place_of in Ht; destruct (run_state t); simplify_eq; done).
  sched_step. sched_step; [|by unfold oncpu in *; rewrite Hrs in *]. wp_seq.
  eapply wp_PreemptTask_vacate; [done..| |exact HE]. intros w Hfw. sched_step; [|done]. sched_step. wp_seq.
  pose proof (place_vacate _ _ _ _ _ _ _ (inv_at _ Hi) Hst Hcur) as HA1.
  eapply wp_Enqueue; [lookup|exact HA1|by rewrite lookup_insert_eq|]. intros s2 Hf2 Ht2 _ _ Hc2 HA2 _.
  rewrite insert_insert_eq in HA2. cbn in Ht2, Hc2. rewrite insert_insert_eq in Ht2.
  assert (cpu_states_ s2 !! c = Some (set_current None st)) as Hst2
    by (rewrite Hc2; by apply list_lookup_insert_eq, (lookup_lt_Some _ _ _ Hst)).
  assert (frame s s2) as Hfs by (etransitivity; [|exact Hf2]; etransitivity; [exact Hfw|frames]).
  assert (places s2 = <[prev := Queued]> (places s)) as Hpl2 by by rewrite (places_insert s _ _ _ Ht2).
  sched_step. split_and!.
  - eapply (inv_move s _ prev Queued); [done|transitivity s2; [done|frames]| |done|by right; left].
    by eapply place_same.
  - transitivity s2; [done|frames].
  - exists (set_current None (set_current None st)). split_and!; [lookup|done..].
Qed.

Lemma PickNextGlobalCPU_spec s : inv s → (unschedule_refused → E) → wp E PickNextGlobalCPU (λ _ s', inv s') s.
Proof.
  intros Hi HE. unfold PickNextGlobalCPU. sched_step. wp_seq.
  eapply wp_mono; [by apply find_target_spec|]. intros o s1 (Hi1 & Hf1 & Ho). destruct o as [c|]; [|by sched_step].
  destruct Ho as (Hc & Hg & Hd). sched_step. sched_step.
  2:{ exfalso. apply done_committed in Hd. rewrite Hask in Hd. cbn in Hd. congruence. }
  assert (inv (set_world_ w s1)) as Hi2 by by eapply inv_call.
  assert (done w c) as Hd2 by (subst r; by eapply ask_committed).
  destruct (inv_cpu _ _ Hi2 Hc) as (st & Hst & _). sched_step. wp_seq.
  assert (wp E (when (is_some (next st)) (SyncCpuState c;; mret tt))
    (λ _ s', inv s' ∧ c ∈ Cpus (cpus_ s') ∧ ∃ st', cpu_states_ s' !! c = Some st' ∧ next st' = None) (set_world_ w s1)) as Hsync.
  { sched_step; [|split_and!; [done|done|]; exists st; by destruct (next st)].
    wp_seq. eapply wp_mono; [eapply (SyncCpuState_spec E c st); [apply Hi2|done|by right; right]|].
    intros b s3 Hsy. sched_step. split_and!; [by eapply synced_inv|by rewrite (f_cpus _ _ (sy_frame _ _ _ _ _ Hsy))|].
    destruct (sy_cpu _ _ _ _ _ Hsy) as (st' & ? & ? & _). eauto. }
  eapply wp_mono; [exact Hsync|]. intros ? s3 (Hi3 & Hc3 & st3 & Hst3 & Hn3). sched_step. wp_seq.
  eapply wp_mono; [by apply (wp_vacate_target c st3)|]. intros ? s4 (Hi4 & Hf4 & st4 & Hst4 & Hcur4 & Hn4).
  unfold SetGlobalCPU. do 3 sched_step.
  assert (c ∈ Cpus (cpus_ s4)) as Hc4 by by rewrite (f_cpus _ _ Hf4).
  pose proof (inv_set_global c st4 s4 Hi4 Hc4 Hst4 Hcur4 Hn4) as Hi5.
  eapply inv_frame; [by eapply (inv_call (Ping c)); [exact Hi5|]|frames|apply Hi5|by left].
Qed.
End round.
