(* ===== verification/NetSchedulerLive.v ===== *)
(** * Which tasks a round starts

    In a round in which the kernel's answers about CPUs and tasks do not
    change, with no transaction in flight, the tasks get the CPUs that a greedy
    walk of the run queues, high priority before low priority, gives them; if
    affinity masks are not enforced, these tasks are the first eligible ones, as
    many as there are free CPUs. *)
From S2P Require Import Prelude StateMonad Ghost CgroupWatcher NetTask NetScheduler NetSchedulerInv NetSchedulerOps.
From S2P Require Import NetSchedulerCallbacks NetSchedulerRound.
Open Scope Z_scope.

Section live.
Context `{Topology, !CpuListLaws, !Kernel, !KernelLaws}.
Implicit Types (s : NetScheduler) (p : ptr) (t : NetTask) (c : Cpu).

(** The kernel during the round: in all worlds of [W], which calls do not
    leave, CPU [c] is available if [av c], the task [g] is on a CPU if [on g],
    and its barrier is [bar g]. *)
Record calm (W : world → Prop) (av : Cpu → bool) (on : Gtid → bool) (bar : Gtid → Z) : Prop := {
  calm_call R (e : event R) w : W w → W (ask e w).2;
  calm_avail w c : W w → (ask (CpuAvail c) w).1 = av c;
  calm_on w g : W w → (ask (OnCpu g) w).1 = on g;
  calm_bar w g : W w → (ask (Barrier g) w).1 = bar g;
}.

(** A task that may be given a CPU: off CPU, without messages to come. *)
Definition eligible (on : Gtid → bool) (bar : Gtid → Z) t : bool :=
  negb (on (gtid t)) && (seqnum t =? bar (gtid t)).

Definition eligible_at on bar s p : bool :=
  match tasks_ s !! p with Some t => eligible on bar t | None => false end.

(** The greedy walk of a queue: each eligible task takes the nearest CPU that is
    left and that it may use. *)
Fixpoint greedy on bar (tk : ptr → option NetTask) (enforce : bool) (avail : CpuList) (q : list ptr) : list (ptr * Cpu) :=
  match q with
  | [] => []
  | p :: q =>
      match (t ← tk p; if eligible on bar t then PickNextCpu avail t enforce else None) with
      | Some c => (p, c) :: greedy on bar tk enforce (ClearCpu avail c) q
      | None => greedy on bar tk enforce avail q
      end
  end.

(** A CPU on which the round can start a task. *)
Definition free_cpu (av : Cpu → bool) s c : bool :=
  av c && negb (bool_decide (c = global_cpuid_ s)) &&
  match cpu_states_ s !! c with Some st => negb (is_some (current st)) && negb (in_switchto st) | None => false end.

Section calm.
Context (W : world → Prop) (av : Cpu → bool) (on : Gtid → bool) (bar : Gtid → Z) (HW : calm W av on bar).

Lemma calm_asked w w' : W w → asked w w' → W w'.
Proof. intros Hw Ha. apply Ha; [|done]. intros R e v. apply (calm_call _ _ _ _ HW). Qed.

(** ** The free CPUs are found *)

Lemma scan_cpu_calm c r st s :
  W (world_ s) → cpu_states_ s !! c = Some st → agent st = Some c → next st = None → done (world_ s) c →
  wp False (scan_cpu c r) (λ r' s', ∃ w, s' = set_world_ w s ∧ W w ∧ frame s s' ∧
    (∀ d, done (world_ s) d → done w d) ∧
    r' = if free_cpu av s c then add_avail c r else if av c then r else add_unavail r) s.
Proof.
  intros HWs Hst Hag Hnx Hd. unfold scan_cpu, free_cpu. sched_step. wp_seq. eapply wp_Available_agent; [done..|].
  intros b w Hask. pose proof (calm_avail _ _ _ _ HW (world_ s) c HWs) as Hav. rewrite Hask in Hav. cbn in Hav. subst b.
  pose proof (calm_call _ _ _ _ HW _ (CpuAvail c) _ HWs) as HW1. rewrite Hask in HW1. cbn in HW1.
  assert (keeps_done s (set_world_ w s)) as Hk1 by keeps.
  destruct (av c); cbn [negb andb]; cbv iota.
  2:{ rewrite Hnx. cbn [is_some]. do 2 sched_step. exists w. split_and!; [done..|frames| |done].
      intros d Hdd. by apply (Hk1 d). }
  unfold GetGlobalCPUId. do 2 sched_step. cbn [global_cpuid_ set_world_].
  destruct (bool_decide (c = global_cpuid_ s)); cbn [orb negb].
  { sched_step. exists w. split_and!; [done..|frames| |done]. intros d Hdd. by apply (Hk1 d). }
  rewrite Hst. destruct (current st) as [p|] eqn:Hcur; cbn [is_some negb andb].
  { sched_step. exists w. split_and!; [done..|frames| |done]. intros d Hdd. by apply (Hk1 d). }
  sched_step. destruct (Hk1 c Hd) as [Hd1 _].
  assert (r0 = true) as ->.
  { pose proof (done_committed c w Hd1) as Hcm. cbn in Hask0. by rewrite Hask0 in Hcm. }
  cbn [negb]. cbv iota. unfold SyncCpuState. sched_step. rewrite Hnx. do 2 sched_step. rewrite Hcur. sched_step.
  exists w0. pose proof (calm_call _ _ _ _ HW _ (Committed c) _ HW1) as HW2. cbn in Hask0. rewrite Hask0 in HW2. cbn in HW2.
  split_and!; [done..| | |by destruct (in_switchto st)].
  - change (frame s (set_world_ w0 (set_world_ w s))). frames.
  - intros d Hdd. assert (keeps_done s (set_world_ w0 (set_world_ w s))) as Hk2 by keeps. by apply (Hk2 d).
Qed.

(** No transaction is in flight. *)
Definition settled s : Prop :=
  (∀ c st, cpu_states_ s !! c = Some st → next st = None) ∧ (∀ c, c ∈ Cpus (cpus_ s) → done (world_ s) c).

(** What the loop over the CPUs finds, [l] still to visit: the free CPUs. *)
Record found s (l : list Cpu) (r : round) s' : Prop := {
  fo_state : ∃ w, s' = set_world_ w s ∧ W w ∧ ∀ c, done (world_ s) c → done w c;
  fo_avail c : IsSet (avail_cpus r) c = true ↔ c ∈ Cpus (cpus_ s) ∧ c ∉ l ∧ free_cpu av s c = true;
  fo_low c : IsSet (avail_cpus_low_priority r) c = false;
}.

(** Tasks have no part in it. *)
Lemma scan_found s :
  (∀ c, c ∈ Cpus (cpus_ s) → ∃ st, cpu_states_ s !! c = Some st ∧ agent st = Some c) →
  W (world_ s) → settled s →
  wp False (for_each scan_cpu (Cpus (cpus_ s)) empty_round) (found s []) s.
Proof.
  intros Hag HWs [Hn Hd].
  apply (wp_for_each False _ (λ l r s', found s l r s' ∧ NoDup l ∧ ∀ c, c ∈ l → c ∈ Cpus (cpus_ s))); [| |by intros r s' [? _]].
  - split_and!; [|apply NoDup_Cpus|done].
    split; [exists (world_ s); by rewrite set_same_world| |intros c; apply IsSet_Empty].
    intros c. cbn. rewrite IsSet_Empty. naive_solver.
  - intros c l r s1 ([(w & -> & HWw & Hdw) Ha Hl] & [Hcl Hnd]%NoDup_cons & Hsub).
    assert (c ∈ Cpus (cpus_ s)) as Hc by (apply Hsub; left).
    destruct (Hag c Hc) as (st & Hst & Hagc).
    eapply wp_mono; [apply (scan_cpu_calm c r st); [done..|by eapply Hn|by apply Hdw, Hd]|].
    intros r' s2 (w2 & -> & HW2 & Hf2 & Hd2 & Hr'). cbn in Hd2.
    change (free_cpu av (set_world_ w s) c) with (free_cpu av s c) in Hr'.
    split_and!; [|done|intros d Hdl; apply Hsub; by right]. split; [eauto 10| |].
    + intros d. rewrite Hr'. destruct (free_cpu av s c) eqn:Hfree; cbn.
      * rewrite IsSet_Set, orb_true_iff, bool_decide_eq_true, Ha, not_elem_of_cons.
        destruct (decide (c = d)) as [<-|Hne]; [tauto|]. assert (d ≠ c) by done. tauto.
      * assert (IsSet (avail_cpus (if av c then r else add_unavail r)) d = IsSet (avail_cpus r) d) as -> by by destruct (av c).
        rewrite Ha, not_elem_of_cons. destruct (decide (c = d)) as [<-|Hne]; [|assert (d ≠ c) by done; tauto].
        rewrite Hfree. split; [tauto|by intros (_ & _ & ?)].
    + intros d. rewrite Hr'. destruct (free_cpu av s c), (av c); apply Hl.
Qed.

Lemma scan_calm s :
  inv s → W (world_ s) → settled s →
  wp False (for_each scan_cpu (Cpus (cpus_ s)) empty_round) (λ r s', found s [] r s' ∧ scanning s [] r s') s.
Proof.
  intros Hi HWs Hset. apply wp_and.
  - apply scan_found; [intros c; by apply inv_cpu|done..].
  - apply (wp_for_each False _ (scanning s)); [by apply scanning_start| |done]. intros c l r s1. apply scan_cpu_spec.
Qed.

(** ** The assignment loop *)

(** One iteration with a free CPU: an eligible task gets one, another yields. *)
Definition assigned_one p t (r : round) s s1 (r' : round) s' : Prop :=
  iterated s r r' s' ∧ W (world_ s') ∧ run_queue_ s' = run_queue_ s1 ∧
  run_queue_low_priority_ s' = run_queue_low_priority_ s1 ∧ (∀ x, x ≠ p → tasks_ s' !! x = tasks_ s !! x) ∧
  match (if eligible on bar t then PickNextCpu (avail_cpus r) t (enforce_affinity_mask_ s) else None) with
  | Some c => r' = assign c r ∧ places s' = <[p := Assigned (Some c)]> (places s)
  | None => r' = r ∧ places s' = <[p := Yielded]> (places s)
  end.

Lemma assign_task_calm p t r s s1 :
  inv s → round_ok s r → taken s p s1 → tasks_ s1 !! p = Some t → W (world_ s1) →
  Empty (avail_cpus r) = false → Empty (avail_cpus_low_priority r) = true →
  wp False (assign_task p r) (assigned_one p t r s s1) s1.
Proof.
  intros Hi Hr Htk Hp1 HW1 Hne Hlow. unfold assign_task. sched_step.
  assert (run_state t = QUEUED) as Hst.
  { pose proof (tk_place _ _ _ Htk) as (t' & Hp & Hpl)%places_Some. rewrite <-(tk_tasks _ _ _ Htk) in Hp.
    assert (t' = t) as -> by congruence. unfold place_of in Hpl. by destruct (run_state t). }
  sched_step; [|by unfold pending in *; rewrite Hst in *].
  assert (∀ w, frame s1 (set_world_ w s1) → taken s p (set_world_ w s1)) as Htk'.
  { intros w Hfw. destruct Htk. split; try done. by transitivity s1. }
  pose proof (f_enforce _ _ (tk_frame _ _ _ Htk)) as Henf.
  assert (∀ w, W w → frame s1 (set_world_ w s1) →
    (if eligible on bar t then PickNextCpu (avail_cpus r) t (enforce_affinity_mask_ s) else None) = None →
    wp False (Yield p;; mret r) (assigned_one p t r s s1) (set_world_ w s1)) as Hyield.
  { intros w HWw Hfw Hel. wp_seq. eapply (taken_yield False s p (set_world_ w s1) r); try done; [by auto|apply Htk|].
    intros s' Hit Hpl Hw Hq Hl Ht. sched_step. unfold assigned_one. rewrite Hel. split_and!; try done. by rewrite Hw. }
  sched_step. pose proof (calm_on _ _ _ _ HW (world_ s1) (gtid t) HW1) as Hon. rewrite Hask in Hon. cbn in Hon. subst r0.
  pose proof (calm_asked _ _ HW1 (asked_call _ _ _ _ Hask)) as HWw.
  wp_seq. destruct (on (gtid t)) eqn:Hon.
  { sched_step. cbv iota. apply Hyield; [done|frames|]. unfold eligible. by rewrite Hon. }
  do 2 sched_step. pose proof (calm_bar _ _ _ _ HW w (gtid t) HWw) as Hbar. cbn in Hask0. rewrite Hask0 in Hbar. cbn in Hbar. subst r0.
  pose proof (calm_asked _ _ HWw (asked_call _ _ _ _ Hask0)) as HWw0.
  assert (frame s1 (set_world_ w0 s1)) as Hfw0 by (change (frame s1 (set_world_ w0 (set_world_ w s1))); frames).
  destruct (seqnum t =? bar (gtid t)) eqn:Hseq; cbn [negb]; cbv iota.
  2:{ apply (Hyield w0); [done..|]. unfold eligible. by rewrite Hseq, andb_false_r. }
  assert (eligible on bar t = true) as Hel by (unfold eligible; by rewrite Hon, Hseq). rewrite Hel in Hyield.
  unfold place_task. sched_step. rewrite Hne, Hlow. change (enforce_affinity_mask_ (set_world_ w0 _)) with (enforce_affinity_mask_ s1).
  rewrite Henf. destruct (PickNextCpu (avail_cpus r) t (enforce_affinity_mask_ s)) as [c|] eqn:Hpick; [|by apply (Hyield w0)].
  pose proof (PickNextCpu_IsSet _ _ _ _ Hpick).
  eapply wp_mono; [apply (give_cpu_spec False p t c r s); [done..|by apply (Htk' w0)|done|done]|].
  intros r' s' (-> & Hit & Hpl & Hq & Hl & Ht & Hw). unfold assigned_one. rewrite Hel, Hpick.
  split_and!; try done. by eapply calm_asked; [|exact Hw].
Qed.

Lemma Empty_None l : (∀ c, IsSet l c = false) → Empty l = true.
Proof.
  intros Hl. rewrite Empty_Cpus. apply bool_decide_eq_true. destruct (Cpus l) as [|c k] eqn:Hk; [done|].
  assert (c ∈ Cpus l) as Hc by (rewrite Hk; left). apply elem_Cpus in Hc. by rewrite Hl in Hc.
Qed.

(** What the loop does to the tasks of the queues, [tk] being the tasks at the start. *)
Record assigned_all (tk : ptr → option NetTask) (r : round) s (r' : round) s' : Prop := {
  as_inv : inv s';
  as_world : W (world_ s');
  as_unavail : unavail r' = unavail r;
  as_winner p c :
    (p, c) ∈ greedy on bar tk (enforce_affinity_mask_ s) (avail_cpus r) (run_queue_ s ++ run_queue_low_priority_ s) →
    places s' !! p = Some (Assigned (Some c));
  as_waits p : p ∈ run_queue_ s ++ run_queue_low_priority_ s →
    p ∉ (greedy on bar tk (enforce_affinity_mask_ s) (avail_cpus r) (run_queue_ s ++ run_queue_low_priority_ s)).*1 →
    places s' !! p = Some Queued ∨ places s' !! p = Some Yielded;
  as_other p : p ∉ run_queue_ s ++ run_queue_low_priority_ s → places s' !! p = places s !! p;
}.

Lemma greedy_Empty tk enforce avail q : Empty avail = true → greedy on bar tk enforce avail q = [].
Proof.
  intros He. assert (∀ t, PickNextCpu avail t enforce = None) as Hno.
  { intros t. destruct (PickNextCpu avail t enforce) as [c|] eqn:Hc; [|done]. apply PickNextCpu_IsSet, elem_Cpus in Hc.
    rewrite Empty_Cpus in He. apply bool_decide_eq_true in He. rewrite He in Hc. by apply elem_of_nil in Hc. }
  induction q as [|p q IH]; [done|]. cbn [greedy]. destruct (tk p) as [t|]; cbn; [|done]. rewrite Hno. by destruct (eligible on bar t).
Qed.

(** One more task at the head of the queue. *)
Lemma assigned_all_cons tk p t q r s r1 s1 s2 r' s' :
  run_queue_ s ++ run_queue_low_priority_ s = p :: q → run_queue_ s1 ++ run_queue_low_priority_ s1 = q → p ∉ q →
  tk p = Some t → enforce_affinity_mask_ s1 = enforce_affinity_mask_ s → assigned_one p t r s s2 r1 s1 →
  assigned_all tk r1 s1 r' s' → unavail r1 = unavail r → assigned_all tk r s r' s'.
Proof.
  intros Hq Hq1 Hpq Htp Henf (_ & _ & _ & _ & _ & Hcase) [Hi' HW' Hu' Hwin Hwait Hoth] Hu1.
  rewrite Hq1, Henf in Hwin, Hwait. rewrite Hq1 in Hoth.
  split; [done|done|congruence|..]; rewrite Hq; cbn [greedy]; rewrite ?Htp; cbn [mbind option_bind];
    destruct (if eligible on bar t then _ else None) as [c|]; destruct Hcase as [-> Hpl1]; cbn [avail_cpus assign fmap list_fmap] in *.
  - intros x d [[= -> ->]|Hx]%elem_of_cons; [|auto]. by rewrite Hoth, Hpl1, lookup_insert_eq.
  - auto.
  - intros x Hx [Hxp Hxw]%not_elem_of_cons. apply elem_of_cons in Hx as [?|Hx]; [done|auto].
  - intros x Hx Hxw. apply elem_of_cons in Hx as [->|Hx]; [|auto]. right. by rewrite Hoth, Hpl1, lookup_insert_eq.
  - intros x [Hxp Hxq]%not_elem_of_cons. by rewrite Hoth, Hpl1, lookup_insert_ne.
  - intros x [Hxp Hxq]%not_elem_of_cons. by rewrite Hoth, Hpl1, lookup_insert_ne.
Qed.

Lemma assign_loop_calm tk fuel r s :
  inv s → round_ok s r → W (world_ s) →
  (∀ c, IsSet (avail_cpus_low_priority r) c = false) → (measure s r < fuel)%nat →
  (∀ p, p ∈ run_queue_ s ++ run_queue_low_priority_ s → tk p = tasks_ s !! p) →
  wp False (assign_loop fuel r) (assigned_all tk r s) s.
Proof.
  revert r s. induction fuel as [|fuel IH]; intros r s Hi Hr HWs Hlow Hm Htk'; [lia|]. cbn [assign_loop].
  rewrite (Empty_None _ Hlow), andb_true_r. pose proof (inv_at _ Hi) as HA.
  destruct (Empty (avail_cpus r)) eqn:Hne.
  { sched_step. split; try done; rewrite greedy_Empty by done; [by intros p c ?%elem_of_nil|].
    intros p Hp%occ_elem_of _. left. rewrite (pl_queue _ _ _ _ HA) in Hp. by case_decide. }
  wp_seq. apply wp_Dequeue_taken; [done| |].
  { intros Hq Hl. sched_step. split; try done; rewrite Hq, Hl; cbn; [by intros p c ?%elem_of_nil|by intros p ?%elem_of_nil]. }
  intros p s1 Htk Hq Hy1 Hw1. pose proof (tk_place _ _ _ Htk) as (t & Hp & Hpl)%places_Some.
  wp_seq. eapply wp_mono; [apply (assign_task_calm p t r s s1); try done; [by rewrite (tk_tasks _ _ _ Htk)|by rewrite Hw1|by apply Empty_None]|].
  intros r' s2 Hone. pose proof Hone as ((Hi2 & Hf2 & Hr2 & Hm2 & Hu2 & _) & HW2 & Hq2 & Hl2 & Ht2 & Hcase).
  rewrite <-Hq2, <-Hl2 in Hq.
  assert (p ∉ run_queue_ s2 ++ run_queue_low_priority_ s2) as Hpq.
  { intros Hin%occ_elem_of. pose proof (pl_queue _ _ _ _ HA p) as Ho. rewrite Hq, occ_cons, occ_single in Ho.
    rewrite decide_True in Ho by done. case_decide; lia. }
  assert (tk p = Some t) as Htp by (rewrite <-Hp; apply Htk'; rewrite Hq; left).
  eapply wp_mono; [apply IH; try done|].
  - intros c. destruct (if eligible on bar t then _ else None); destruct Hcase as [-> _]; apply Hlow.
  - lia.
  - intros x Hx. rewrite Ht2 by (by intros ->). apply Htk'. rewrite Hq. by right.
  - intros r3 s3 Hall. eapply assigned_all_cons; try done. by rewrite (f_enforce _ _ Hf2).
Qed.

(** ** The round *)

Definition free_cpus s : list Cpu := filter (λ c, free_cpu av s c = true) (Cpus (cpus_ s)).

(** Who gets which CPU in the round, and where everyone is afterwards; [avail]
    is the set of free CPUs. *)
Record round_result s (avail : CpuList) s' : Prop := {
  rr_inv : inv s';
  rr_avail c : IsSet avail c = true ↔ c ∈ free_cpus s;
  rr_started p c :
    (p, c) ∈ greedy on bar (λ p, tasks_ s !! p) (enforce_affinity_mask_ s) avail (run_queue_ s ++ run_queue_low_priority_ s) ↔
    places s' !! p = Some (Assigned (Some c));
  rr_waits p : p ∈ run_queue_ s ++ run_queue_low_priority_ s →
    p ∉ (greedy on bar (λ p, tasks_ s !! p) (enforce_affinity_mask_ s) avail (run_queue_ s ++ run_queue_low_priority_ s)).*1 →
    places s' !! p = Some Queued;
  rr_other p : p ∉ run_queue_ s ++ run_queue_low_priority_ s → places s' !! p = unyielded <$> places s !! p;
}.

Lemma round_end s r s1 r' s2 s3 :
  inv s → settled s → found s [] r s1 → assigned_all (λ p, tasks_ s !! p) r s1 r' s2 →
  inv s3 → places s3 = unyielded <$> places s2 → round_result s (avail_cpus r) s3.
Proof.
  intros Hi [Hn _] [(w & -> & _) Ha _] [_ _ _ Hwin Hwait Hoth] Hi3 Hpl3. cbn [run_queue_ run_queue_low_priority_
    enforce_affinity_mask_ set_world_] in Hwin, Hwait, Hoth.
  assert (∀ p c, places s !! p ≠ Some (Assigned (Some c))) as Hnone.
  { intros p c Hp. destruct (pl_assigned _ _ _ _ (inv_at _ Hi) _ _ Hp) as (d & st & _ & Hst & Hnx).
    by rewrite (Hn _ _ Hst) in Hnx. }
  split; [done|..].
  - intros c. unfold free_cpus. rewrite list_elem_of_filter, Ha, elem_of_nil. tauto.
  - intros p c. split; [intros Hp%Hwin; by rewrite Hpl3, lookup_fmap, Hp|].
    rewrite Hpl3, lookup_fmap. intros Hpc.
    destruct (decide (p ∈ run_queue_ s ++ run_queue_low_priority_ s)) as [Hq|Hq].
    + destruct (decide (p ∈ (greedy on bar (λ p, tasks_ s !! p) (enforce_affinity_mask_ s) (avail_cpus r)
        (run_queue_ s ++ run_queue_low_priority_ s)).*1)) as [Hw|Hw].
      * apply list_elem_of_fmap in Hw as ([x d] & -> & Hw). cbn in *. rewrite (Hwin _ _ Hw) in Hpc. by simplify_eq/=.
      * by destruct (Hwait p Hq Hw) as [Hx|Hx]; rewrite Hx in Hpc.
    + rewrite (Hoth p Hq) in Hpc. change (unyielded <$> places s !! p = Some (Assigned (Some c))) in Hpc.
      specialize (Hnone p c). destruct (places s !! p) as [[]|]; simplify_eq/=.
  - intros p Hq Hnw. rewrite Hpl3, lookup_fmap. by destruct (Hwait p Hq Hnw) as [-> | ->].
  - intros p Hq. by rewrite Hpl3, lookup_fmap, (Hoth p Hq).
Qed.

Lemma GlobalSchedule_calm s :
  inv s → W (world_ s) → settled s →
  wp False GlobalSchedule (λ _ s', ∃ avail, round_result s avail s') s.
Proof.
  intros Hi HWs Hset. unfold GlobalSchedule. sched_step. wp_seq.
  eapply wp_mono; [by apply scan_calm|]. intros r s1 [Hfo Hsc]. pose proof Hfo as [(w & -> & HWw & Hdw) Ha Hl].
  sched_step. wp_seq.
  eapply wp_mono; [apply (assign_loop_calm (λ p, tasks_ s !! p)); try done; [apply Hsc|apply Hsc|]|].
  { unfold measure, qlen, assign_fuel. lia. }
  intros r2 s2 Has. pose proof (sc_unavail _ _ _ _ Hsc) as [Hu _]. rewrite <-(as_unavail _ _ _ _ _ Has) in Hu.
  assert (∀ s3, inv s3 → places s3 = places s2 →
    wp False (unyield_all;; record_unavail (unavail r2)) (λ _ s', ∃ avail, round_result s avail s') s3) as Hend.
  { intros s3 Hi3 Hpl3. wp_seq. eapply wp_mono; [by apply unyield_all_spec|]. intros ? s4 (Hi4 & _ & Hpl4).
    eapply wp_mono; [by apply record_unavail_spec|]. intros ? s5 (Hi5 & Hpl5 & _).
    exists (avail_cpus r). eapply round_end; [done..|]. by rewrite Hpl5, Hpl4, Hpl3. }
  pose proof (as_inv _ _ _ _ _ Has) as Hi2. sched_step; [|by apply Hend].
  sched_step. apply Hend; [by eapply inv_call|done].
Qed.

Lemma free_cpus_length s avail :
  (∀ c, IsSet avail c = true ↔ c ∈ free_cpus s) → length (Cpus avail) = length (free_cpus s).
Proof.
  intros Ha. apply Permutation_length, NoDup_Permutation; [apply NoDup_Cpus|apply NoDup_filter, NoDup_Cpus|].
  intros c. by rewrite elem_Cpus, Ha.
Qed.

(** ** The greedy walk *)

Lemma greedy_IsSet tk enforce avail q p c : (p, c) ∈ greedy on bar tk enforce avail q → IsSet avail c = true.
Proof.
  revert avail. induction q as [|x q IH]; intros avail; [by intros ?%elem_of_nil|]. cbn [greedy].
  destruct (tk x) as [t|]; cbn; [|by apply IH]. destruct (eligible on bar t); cbn; [|by apply IH].
  destruct (PickNextCpu avail t enforce) as [d|] eqn:Hpick; [|by apply IH].
  intros [[= -> ->]|Hin]%elem_of_cons; [by eapply PickNextCpu_IsSet|]. apply IH, ClearCpu_true in Hin. tauto.
Qed.

(** Without affinity masks, the first eligible tasks of the queue get CPUs. *)
Lemma greedy_first tk avail q :
  (greedy on bar tk false avail q).*1 =
  take (length (Cpus avail)) (filter (λ p, (match tk p with Some t => eligible on bar t | None => false end) = true) q).
Proof.
  revert avail. induction q as [|x q IH]; intros avail; [cbn; by rewrite take_nil|].
  rewrite filter_cons. cbn [greedy]. destruct (tk x) as [t|] eqn:Hx; cbn; [|apply IH].
  destruct (eligible on bar t) eqn:Hel; cbn; [|apply IH].
  destruct (PickNextCpu avail t false) as [c|] eqn:Hpick.
  - apply PickNextCpu_IsSet in Hpick. cbn. rewrite IH, (ClearCpu_perm _ _ Hpick). done.
  - destruct (Empty avail) eqn:He; [|by destruct (PickNextCpu_some avail t He); congruence].
    rewrite (greedy_Empty tk false avail q He). rewrite Empty_Cpus in He. apply bool_decide_eq_true in He. by rewrite He.
Qed.

(** ** A freed task at the head of the queue *)

Lemma dangling_head_faults s p q :
  (∀ c, c ∈ Cpus (cpus_ s) → ∃ st, cpu_states_ s !! c = Some st ∧ agent st = Some c) →
  W (world_ s) → settled s → free_cpus s ≠ [] →
  run_queue_ s ++ run_queue_low_priority_ s = p :: q → tasks_ s !! p = None →
  GlobalSchedule s = Fault UseAfterFree.
Proof.
  intros Hag HWs Hset Hfree Hq Hp.
  destruct (wp_total _ _ _ (scan_found s Hag HWs Hset)) as (r & s1 & Hscan & [(w & -> & _) Ha Hl]).
  assert (Empty (avail_cpus r) = false) as Hne.
  { rewrite Empty_Cpus. apply bool_decide_eq_false. intros He. destruct (free_cpus s) as [|c l] eqn:Hf; [done|].
    assert (c ∈ free_cpus s) as Hc by (rewrite Hf; left). unfold free_cpus in Hc. apply list_elem_of_filter in Hc as [Hc Hin].
    assert (IsSet (avail_cpus r) c = true) as Hset' by (apply Ha; split_and!; [done|by apply not_elem_of_nil|done]).
    apply elem_Cpus in Hset'. rewrite He in Hset'. by apply elem_of_nil in Hset'. }
  assert (∃ s2, Dequeue (set_world_ w s) = Ok (Some p, s2) ∧ tasks_ s2 = tasks_ s) as (s2 & Hdeq & Ht2).
  { unfold Dequeue. erewrite eff_bind_Ok by done. cbn [run_queue_ run_queue_low_priority_ set_world_].
    destruct (run_queue_ s) as [|p' q']; cbn in Hq; [rewrite Hq|injection Hq as -> _]; by eexists. }
  assert (assign_task p r s2 = Fault UseAfterFree) as Hfault.
  { assert (get_task p s2 = Fault UseAfterFree) as Hget.
    { unfold get_task. erewrite eff_bind_Ok by done. unfold expect, lift. by rewrite Ht2, Hp. }
    unfold assign_task, mbind at 1, eff_bind at 1. by rewrite Hget. }
  unfold GlobalSchedule. erewrite eff_bind_Ok by done. erewrite eff_bind_Ok by exact Hscan.
  erewrite eff_bind_Ok by done. unfold assign_fuel. cbn [assign_loop]. rewrite Hne. cbn [andb].
  unfold mbind at 1, eff_bind at 1. erewrite eff_bind_Ok by exact Hdeq.
  unfold mbind at 1, eff_bind at 1. by rewrite Hfault.
Qed.
End calm.
End live.
