(* ===== verification/NetAgent.v ===== *)
(** * Agents and the agent process ([NetAgent], [FullNetAgent], [ghost_agent/agent_net.cc])

    Every CPU of the enclave has an agent thread; the one on the global CPU
    runs the scheduler, the others yield.  [agent_net.cc] parses the flags,
    starts the agents in a process of their own and scrapes control groups
    until a signal ends it. *)
From S2P Require Import Prelude StateMonad Ghost CgroupWatcher NetTask NetScheduler.
Open Scope Z_scope.

(** ** The agent thread *)

(** The message channel and the dispatcher of the ghOSt library: [Peek] gives
    the next message, [DispatchMessage] finds the task of the message, calls
    the callback and [Consume] removes the message. *)
Class Dispatcher `{Topology, !Kernel} := {
  channel_message : Type;
  Peek : eff NetScheduler (option channel_message);
  DispatchMessage : channel_message → eff NetScheduler unit;
  Consume : channel_message → eff NetScheduler unit;
}.

Section agent.
Context `{Topology, !Kernel, !Dispatcher}.
Notation M := (eff NetScheduler).

(** Drain the channel. *)
Fixpoint drain (fuel : nat) : M unit :=
  match fuel with
  | O => fail OutOfFuel
  | S fuel =>
      msg ← Peek;
      match msg with
      | None => mret tt
      | Some msg => DispatchMessage msg;; Consume msg;; drain fuel
      end
  end.

(** One iteration of the loop of [AgentThread], of the agent of CPU [c]. *)
Definition agent_iteration (fuel : nat) (c : Cpu) : M unit :=
  agent_barrier ← call (AgentBarrier c);
  global ← GetGlobalCPUId;
  if negb (bool_decide (c = global)) then call (LocalYield c agent_barrier)
  else
    boosted ← call (BoostedPriority c);
    if boosted : bool then PickNextGlobalCPU
    else drain fuel;; GlobalSchedule.

(** [fuel] bounds the iterations, [msgs] the messages of one iteration. *)
Fixpoint agent_loop (fuel msgs : nat) (c : Cpu) : M unit :=
  match fuel with
  | O => fail OutOfFuel
  | S fuel =>
      finished ← call (Finished c);
      if finished : bool then mret tt else agent_iteration msgs c;; agent_loop fuel msgs c
  end.

Definition AgentThread (fuel msgs : nat) (c : Cpu) : M unit :=
  call (SignalReady c);;
  call (WaitForEnclaveReady c);;
  agent_loop fuel msgs c.

(** ** [FullNetAgent] *)

(** [std::iter_swap] of the first agent with the first one on [global_cpuid];
    an agent is its CPU. *)
Definition bring_to_front (global_cpuid : Cpu) (agents : list Cpu) : list Cpu :=
  if bool_decide (head agents = Some global_cpuid) then agents
  else match list_find (λ c, c = global_cpuid) agents with
       | Some (d, it) => match agents with
                         | front :: rest => <[0%nat := it]> (<[d := front]> agents)
                         | [] => []
                         end
       | None => agents
       end.

(** The destructor up to the termination of the agents: the order in which
    they are terminated. *)
Definition destroy_agents (agents : list Cpu) : M (list Cpu) :=
  ValidatePreExitState;;
  global_cpuid ← GetGlobalCPUId;
  let agents' := bring_to_front global_cpuid agents in
  CHECK (bool_decide (head agents' = Some global_cpuid));;
  mret agents'.

Definition kDebugRunqueue : Z := 1.

(** The response code. *)
Definition RpcHandler (req : Z) : M Z :=
  if req =? kDebugRunqueue then modify (set_debug_runqueue_ true);; mret 0 else mret (-1).

(** ** Configuration *)

Record NetConfig := { config_cpus : CpuList; config_global_cpu : Cpu; config_enforce_affinity : bool }.

(** The flags [globalcpu], [ghost_cpus] (parsed by the library) and
    [enforce_affinity]; the result has the new value of the flag [globalcpu].
    [None]: a [CHECK] fails. *)
Definition ParseNetConfig (globalcpu : Z) (ghost_cpus : CpuList) (enforce_affinity : bool) : option (NetConfig * Z) :=
  if negb (1 <? zlen (Cpus ghost_cpus)) then None
  else
    let checked := if globalcpu <? 0
                   then if globalcpu =? -1 then Z.of_nat <$> head (Cpus ghost_cpus) else None
                   else Some globalcpu in
    match checked with
    | None => None
    | Some globalcpu =>
        if IsSet ghost_cpus (Z.to_nat globalcpu)
        then Some ({| config_cpus := ghost_cpus; config_global_cpu := Z.to_nat globalcpu;
                      config_enforce_affinity := enforce_affinity |}, globalcpu)
        else None
    end.

(** The constructor of [FullNetAgent] up to the start of the agent threads. *)
Definition new_full_agent (config : NetConfig) (hist : list Z) (garbage : bool) (w : world) : option NetScheduler :=
  s ← new_scheduler (config_cpus config) (config_global_cpu config) hist garbage w;
  Some (set_enforce_affinity_mask_ (config_enforce_affinity config) s).

(** ** The main process *)

Definition endl : string := String (Ascii.ascii_of_nat 10) "".
Definition tab : string := String (Ascii.ascii_of_nat 9) "".

Definition EINTR : Z := 4.
(** [absl::Seconds(std::numeric_limits<time_t>::max())], in nanoseconds. *)
Definition kMaxSleep : Z := (2 ^ 63 - 1) * 1000000000.

(** [SleepFor], of a finite duration. *)
Fixpoint SleepFor (fuel : nat) (duration : Z) : eff world unit :=
  match fuel with
  | O => fail OutOfFuel
  | S fuel =>
      if 0 <? duration then
        let to_sleep := Z.min duration kMaxSleep in
        ret ← call (nanosleep to_sleep);
        match ret with
        | Some errno => CHECK (errno =? EINTR)
        | None => SleepFor fuel (duration - to_sleep)
        end
      else mret tt
  end.

(** The handler of [SIGINT]: the static [first], whether the notification is
    set, and whether the process exits. *)
Definition sigint_handler (first notified : bool) : bool * bool * bool :=
  if first then (false, true, false) else (first, notified, true).

Definition containers_to_tasks_rules : list (string * string) := [("mygroup1", "*"); ("docker", "memcached")].

(** The loop of [main].  [rules] are [containers_to_tasks_rules] in the order of
    the hash map, [depth] bounds the depth of the control groups. *)
Fixpoint scrape_loop (fuel depth : nat) (cwd : string) (rules : list (string * string)) (sleep_duration : Z) :
    eff world unit :=
  match fuel with
  | O => fail OutOfFuel
  | S fuel =>
      notified ← call HasBeenNotified;
      if notified : bool then mret tt
      else
        moved ← ScrapeCgroups depth cwd rules;
        when (negb (moved =? 0)) (call (Printf ("Moved " +:+ pretty moved +:+ " tasks into ghost" +:+ endl)));;
        SleepFor 3 sleep_duration;;
        scrape_loop fuel depth cwd rules sleep_duration
  end.

(** The flags, with the text of [ghost_cpus]; [cgroup_period] is in nanoseconds. *)
Record Flags := {
  FLAGS_globalcpu : Z; FLAGS_ghost_cpus : string; FLAGS_enforce_affinity : bool; FLAGS_cgroup_period : Z }.

Definition default_flags : Flags := {|
  FLAGS_globalcpu := -1; FLAGS_ghost_cpus := "1-5"; FLAGS_enforce_affinity := true;
  FLAGS_cgroup_period := 1000000000 |}.

(** [printf("%2d ", id)] *)
Definition print_id (c : Cpu) : string :=
  let text := pretty c in (if (String.length text <? 2)%nat then " " +:+ text else text) +:+ " ".

(** The map of cores: the group of each one, eight to a line; [n] were printed. *)
Fixpoint core_map (group : Cpu → CpuList) (n : nat) (cores : list Cpu) : string :=
  match cores with
  | [] => ""
  | c :: cores =>
      "( " +:+ String.concat "" (print_id <$> Cpus (group c)) +:+ ")" +:+
      (if (S n mod 8 =? 0)%nat then endl else tab) +:+ core_map group (S n) cores
  end.

Definition SIGUSR1 : Z := 10.
Definition SIGINT : Z := 2.

(** The handler of [SIGUSR1] *)
Definition sigusr1_handler : eff world bool := call (Rpc kDebugRunqueue);; mret false.

(** What [ParseNetConfig] prints *)
Definition print_config (CpuList_text : CpuList → string) (Cpu_text : Cpu → string) (config : NetConfig) : eff world unit :=
  call (Printf ("Dumping config->cpus_ bitmap" +:+ endl));;
  call (Printf (CpuList_text (config_cpus config) +:+ endl));;
  call (Printf (String.concat "" ((λ c, Cpu_text c +:+ ",") <$> Cpus (config_cpus config)) +:+ endl));;
  mret tt.

(** [ParseCpuStr], the cores and the texts of CPUs and CPU sets are the library's. *)
Definition main (fuel depth : nat) (ParseCpuStr : string → CpuList) (all_cores : list Cpu)
    (CpuList_text : CpuList → string) (Cpu_text : Cpu → string) (rules : list (string * string)) (fl : Flags) :
    eff world Z :=
  parsed ← (match ParseNetConfig (FLAGS_globalcpu fl) (ParseCpuStr (FLAGS_ghost_cpus fl)) (FLAGS_enforce_affinity fl) with
            | Some (config, _) => mret config | None => abort "CHECK" end);
  print_config CpuList_text Cpu_text parsed;;
  call (Printf ("Core map" +:+ endl +:+ core_map siblings 0 all_cores +:+ endl));;
  call (Printf ("L3 siblings map" +:+ endl +:+ core_map l3_siblings 0 all_cores +:+ endl));;
  call (Printf ("Initializing..." +:+ endl));;
  call (NewAgentProcess (config_cpus parsed) (config_global_cpu parsed) (config_enforce_affinity parsed));;
  call InitCore;;
  call (Printf ("Initialization complete, ghOSt active" +:+ endl));;
  call SetGlobalEnclaveCtlFdOnce;;
  call (AddHandler SIGINT);;
  call (AddHandler SIGUSR1);;
  cwd ← call current_path;
  scrape_loop fuel depth cwd rules (FLAGS_cgroup_period fl);;
  call DeleteAgentProcess;;
  call (Printf ("Done!" +:+ endl));;
  mret 0.

End agent.
