(* ===== verification/NetSchedulerReach.v ===== *)
(** * Runs of the scheduler

    A run starts with the constructor and [EnclaveReady] and goes on with
    callbacks, scheduling rounds, moves of the global agent and changes of the
    world, in any order. *)
From S2P Require Import Prelude StateMonad Ghost CgroupWatcher NetTask NetScheduler NetSchedulerInv NetSchedulerOps.
From S2P Require Import NetSchedulerCallbacks NetSchedulerRound NetAgent.
Open Scope Z_scope.

Section reach.
Context `{Topology, !CpuListLaws, !Kernel, !KernelLaws}.
Implicit Types (s : NetScheduler) (p : ptr) (t : NetTask) (c : Cpu).

Definition is_new (m : message) : bool := match m with MSG_TASK_NEW _ _ _ => true | _ => false end.
Definition is_departed (m : message) : bool := match m with MSG_TASK_DEPARTED _ _ => true | _ => false end.

(** The kernel reports no more run time than there was. *)
Definition honest s t (m : message) : Prop := ∀ r, reported m = Some r → r <= cputime (world_ s) (gtid t).

Inductive step s : NetScheduler → Prop :=
  | step_new p g garbage r runnable n s' :
      (** the dispatcher allocates the task of a new thread and calls [TaskNew] *)
      tasks_ s !! p = None → 0 <= r <= cputime (world_ s) g →
      handle p (MSG_TASK_NEW r runnable n) (map_task p (new_task g garbage) s) = Ok (tt, s') → step s s'
  | step_message p t m s' :
      (** another message; only a blocked task departs *)
      tasks_ s !! p = Some t → is_new m = false → honest s t m → (is_departed m = true → place_of t = Off) →
      handle p m s = Ok (tt, s') → step s s'
  | step_advance p t n :
      (** the dispatcher records the sequence number of a message *)
      tasks_ s !! p = Some t → step s (map_task p (set_seqnum n t) s)
  | step_schedule s' : GlobalSchedule s = Ok (tt, s') → step s s'
  | step_global s' : PickNextGlobalCPU s = Ok (tt, s') → step s s'
  | step_dump b v s' : DumpState b v s = Ok (tt, s') → step s s'
  | step_call {R} (e : event R) r s' : call e s = Ok (r, s') → step s s'
  | step_world w : (∀ g, cputime (world_ s) g <= cputime w g) → step s (set_world_ w s).

(** ** The start *)

Definition started (cpus : CpuList) (global_cpu : Cpu) (hist : list Z) (garbage : bool) (w : world) s : Prop :=
  ∃ s0, new_scheduler cpus global_cpu hist garbage w = Some s0 ∧ EnclaveReady s0 = Ok (tt, s).

Record fresh cpus (hist : list Z) s : Prop := {
  fr_cpus : cpus_ s = cpus;
  fr_home : global_home_cpu_ s ∈ Cpus cpus;
  fr_global : global_cpuid_ s = global_home_cpu_ s;
  fr_tasks : tasks_ s = ∅;
  fr_queues : run_queue_ s = [] ∧ run_queue_low_priority_ s = [] ∧ yielding_tasks_ s = [];
  fr_hist : cpuhist_ s = hist;
  fr_num : num_tasks_ s = 0;
  fr_len : length (cpu_states_ s) = MAX_CPUS;
  fr_idle c st : cpu_states_ s !! c = Some st → current st = None ∧ next st = None;
}.

Lemma new_scheduler_fresh cpus g hist garbage w s :
  new_scheduler cpus g hist garbage w = Some s → fresh cpus hist s.
Proof.
  unfold new_scheduler. intros Hs.
  assert (∃ c, c ∈ Cpus cpus ∧ s = {|
    cpus_ := cpus;
    cpu_states_ := replicate MAX_CPUS {| current := None; next := None; agent := None; in_switchto := false |};
    global_cpuid_ := c; global_home_cpu_ := c; enforce_affinity_mask_ := garbage; num_tasks_ := 0;
    run_queue_ := []; run_queue_low_priority_ := []; yielding_tasks_ := []; cpuhist_ := hist;
    counters_ := no_counts; debug_runqueue_ := false; tasks_ := ∅; world_ := w |}) as (c & Hc & ->).
  { destruct (IsSet cpus g) eqn:Hset.
    - injection Hs as <-. exists g. split; [by apply elem_Cpus|done].
    - rewrite Front_Cpus in Hs. destruct (Cpus cpus) as [|c l] eqn:Hl; [done|]. injection Hs as <-. exists c. split; [left|done]. }
  split; try done; cbn.
  - by rewrite length_replicate.
  - intros d st Hd. apply lookup_replicate in Hd as [-> _]. done.
Qed.

Lemma EnclaveReady_inv cpus hist s :
  fresh cpus hist s → (∀ c, c ∈ Cpus cpus → c < MAX_CPUS)%nat → length hist = kCpuHistLen →
  wp True EnclaveReady (λ _ s', inv s' ∧ cpus_ s' = cpus ∧ tasks_ s' = ∅) s.
Proof.
  intros Hfr Hmax Hhist. unfold EnclaveReady. sched_step. rewrite (fr_cpus _ _ _ Hfr).
  apply (wp_for_each True _ (λ l _ s', fresh cpus hist s' ∧ (∀ c, c ∈ l → c ∈ Cpus cpus) ∧
    ∀ c st, c ∈ Cpus cpus → c ∉ l → cpu_states_ s' !! c = Some st → agent st = Some c)).
  - split_and!; [done|done|]. intros c st ? ?. done.
  - intros c l [] s1 (Hf1 & Hl & Ha). sched_step.
    destruct (lookup_lt_is_Some_2 (cpu_states_ s1) c) as [st Hst].
    { rewrite (fr_len _ _ _ Hf1). apply Hmax, Hl. left. }
    sched_step. sched_step; [|done]. subst r. pose proof (lookup_cpu (cpu_states_ s1) c st (set_agent (Some c) st)) as Hlk.
    split_and!.
    + destruct Hf1 as [? ? ? ? ? ? ? Hlen Hidle]. split; try done; cbn; [by rewrite length_insert|].
      intros d st' [[-> ->]|[? Hd]]%Hlk; [by apply (Hidle _ _ Hst)|eauto|done].
    + intros d Hd. apply Hl. by right.
    + intros d st' Hd Hdl Hst'. cbn in Hst'. apply Hlk in Hst' as [[-> ->]|[Hne Hst']]; [done| |done].
      apply (Ha d st'); [done| |done]. by apply not_elem_of_cons.
  - intros [] s1 ([? Hh Hg Ht (Hq1 & Hq2 & Hq3) ? Hn Hlen Hidle] & _ & Ha).
    assert (places s1 = ∅) as Hpl by (unfold places; rewrite Ht; apply fmap_empty).
    split_and!; [|done..]. split; try done.
    + unfold at_. rewrite Hpl, Hq1, Hq2, Hq3.
      split; try (intros; by rewrite lookup_empty); try (intros *; by rewrite lookup_empty).
      * intros c st x Hst Hx. destruct (Hidle _ _ Hst). congruence.
      * intros c st x Hst Hx. destruct (Hidle _ _ Hst). congruence.
      * intros c st Hst. left. by apply (Hidle _ _ Hst).
    + intros c Hc. subst cpus. destruct (lookup_lt_is_Some_2 (cpu_states_ s1) c) as [st Hst].
      { rewrite Hlen. by apply Hmax. }
      rewrite list_lookup_fmap, Hst. cbn. f_equal. apply (Ha c st); [done| |done]. by apply not_elem_of_nil.
    + by subst cpus.
    + by subst cpus; rewrite Hg.
    + intros p k. by rewrite Hpl, lookup_empty.
    + by subst hist.
    + by rewrite Hn, Ht, map_size_empty.
    + intros p t. by rewrite Ht, lookup_empty.
Qed.

(** ** Steps keep the invariant *)

Lemma follows_inv s p t m s' :
  inv s → follows s p t m s' →
  inv s' ∧ ∃ k, step_place m (place_of t) = Some k ∧ places s' = partial_alter (λ _, k) p (places s).
Proof.
  intros Hi (k & Hk & Hoff & [Hf Hpl HA]). split; [by eapply inv_move|]. by exists (Some k).
Qed.

(** All callbacks but the one for new tasks follow the state machine. *)
Lemma handle_spec E p t m s :
  inv s → tasks_ s !! p = Some t → is_new m = false → honest s t m → (is_departed m = true → place_of t = Off) →
  E ∨ accepts s t m →
  wp E (handle p m) (λ _ s', inv s' ∧
    ∃ k, step_place m (place_of t) = Some k ∧ places s' = partial_alter (λ _, k) p (places s)) s.
Proof.
  intros Hi Hp Hnew Hhon Hdep Hacc.
  destruct m as [r b n|d| |z sw|r z sw|r z sw|r z sw|r z]; cbn [handle] in *; [done|..].
  - eapply wp_mono; [by eapply TaskRunnable_spec|]. intros ? s' ?. by eapply follows_inv.
  - eapply wp_mono; [by eapply TaskDead_spec|]. intros ? s' (Hoff & Hi' & Hpl). split; [done|].
    exists None. by rewrite Hoff.
  - eapply wp_mono; [eapply TaskDeparted_spec; [done..|by apply Hdep|done]|]. intros ? s' (Hi' & Hpl). split; [done|].
    by exists None.
  - eapply wp_mono; [eapply TaskBlocked_spec; [done..|by apply Hhon|done]|]. intros ? s' ?. by eapply follows_inv.
  - eapply wp_mono; [eapply TaskPreempted_spec; [done..|by apply Hhon|done]|]. intros ? s' ?. by eapply follows_inv.
  - eapply wp_mono; [eapply TaskYield_spec; [done..|by apply Hhon|done]|]. intros ? s' ?. by eapply follows_inv.
  - eapply wp_mono; [eapply TaskSwitchto_spec; [done..|by apply Hhon|done]|]. intros ? s' ?. by eapply follows_inv.
Qed.

Lemma DumpState_inv E b v s : inv s → wp E (DumpState b v) (λ _ s', inv s') s.
Proof.
  intros Hi. unfold DumpState. sched_step. destruct (_ && _); [by sched_step|].
  assert (∀ s', inv s' → cpus_ s' = cpus_ s → wp E ((if v then for_each (λ c _, cs ← cpu_state c;
      match current cs with Some p => get_task p;; mret tt | None => mret tt end) (Cpus (cpus_ s)) tt
     else mret tt);; modify (set_counters_ no_counts)) (λ _ s', inv s') s') as Hend.
  { intros s1 Hi1 Hc. wp_seq. assert (∀ s2, inv s2 → wp E (modify (set_counters_ no_counts)) (λ _ s', inv s') s2) as Hmod.
    { intros s2 []. sched_step. by split. }
    destruct v; [|sched_step; auto].
    apply (wp_for_each E _ (λ l _ s', s' = s1 ∧ ∀ c, c ∈ l → c ∈ Cpus (cpus_ s1))); [by rewrite Hc| |].
    - intros c l [] ? [-> Hl]. destruct (inv_cpu s1 c Hi1) as (st & Hst & _); [apply Hl; left|]. sched_step.
      assert (∀ d, d ∈ l → d ∈ Cpus (cpus_ s1)) by (intros; apply Hl; by right).
      destruct (current st) as [p|] eqn:Hcur; [|by sched_step].
      pose proof (pl_current _ _ _ _ (inv_at _ Hi1) _ _ _ Hst Hcur) as (t & Hp & _)%places_Some. do 2 sched_step. done.
    - intros [] ? [-> _]. auto. }
  wp_seq. apply (wp_for_each E _ (λ l _ s', inv s' ∧ cpus_ s' = cpus_ s ∧ ∀ i, i ∈ l → 1 <= i < 12)).
  - split_and!; [done..|]. intros i Hi'%elem_of_seqZ. unfold kCpuHistLen in Hi'. lia.
  - intros i l [] s1 (Hi1 & Hc1 & Hl). sched_step. wp_seq.
    rewrite arr_set_total; [|unfold zlen; rewrite (inv_hist _ Hi1); pose proof (Hl i (list_elem_of_here _ _)); unfold kCpuHistLen; lia].
    apply wp_ret. sched_step. split_and!; [|done|intros; apply Hl; by right].
    destruct Hi1. split; try done. cbn. by rewrite length_insert.
  - intros [] s1 (Hi1 & Hc1 & _). by apply Hend.
Qed.

Lemma step_inv s s' : inv s → step s s' → inv s'.
Proof.
  intros Hi Hs. destruct Hs as [p g garbage r b n s' Hp Hr Hrun|p t m s' Hp Hnew Hhon Hdep Hrun|p t n Hp|s' Hrun|s' Hrun|b v s' Hrun|R e r s' Hrun|w Hw].
  - eapply wp_Ok in Hrun; [|by apply (TaskNew_spec True)]. by destruct Hrun.
  - eapply wp_Ok in Hrun; [|eapply (handle_spec True); eauto]. by destruct Hrun.
  - eapply inv_frame; [done|frames| |].
    + rewrite (places_same s p t) by done. apply Hi.
    + rewrite (places_same s p t) by done. by left.
  - eapply wp_Ok in Hrun; [|by apply (GlobalSchedule_spec True)]. by destruct Hrun.
  - by eapply wp_Ok in Hrun; [|by apply (PickNextGlobalCPU_spec True)].
  - by eapply wp_Ok in Hrun; [|by apply (DumpState_inv True)].
  - unfold call in Hrun. cbn in Hrun. destruct (ask e (world_ s)) as [r' w] eqn:Hask. injection Hrun as _ <-.
    by eapply inv_call.
  - eapply inv_frame; [done| |apply Hi|by left]. split; try done. intros Hrt p t Hp. cbn in *.
    specialize (Hrt p t Hp). specialize (Hw (gtid t)). lia.
Qed.

Lemma reach_inv cpus g hist garbage w s0 s :
  started cpus g hist garbage w s0 → (∀ c, c ∈ Cpus cpus → c < MAX_CPUS)%nat → length hist = kCpuHistLen →
  rtc step s0 s → inv s.
Proof.
  intros (s1 & Hnew & Hready) Hmax Hhist Hrun.
  assert (inv s0) as Hi0.
  { eapply wp_Ok in Hready; [|eapply EnclaveReady_inv; [by eapply new_scheduler_fresh|done..]]. by destruct Hready. }
  clear Hready Hnew. induction Hrun as [|s0 s2 s Hs _ IH]; [done|]. apply IH. by eapply step_inv.
Qed.

(** ** The invariant, task by task *)

Lemma current_iff s p t c st :
  inv s → tasks_ s !! p = Some t → cpu_states_ s !! c = Some st →
  current st = Some p ↔ run_state t = ON_CPU ∧ cpu t = Some c.
Proof.
  intros Hi Hp Hst. pose proof (inv_at _ Hi) as HA. split.
  - intros Hcur. pose proof (pl_current _ _ _ _ HA _ _ _ Hst Hcur) as Hpl. rewrite (place_is s p t Hp) in Hpl.
    unfold place_of in Hpl. destruct (run_state t); simplify_eq. done.
  - intros [Hrs Hcpu]. destruct (pl_running _ _ _ _ HA p (cpu t)) as (d & st' & Hd & Hst' & ?).
    { rewrite (place_is s p t Hp). unfold place_of. by rewrite Hrs. }
    congruence.
Qed.

Lemma next_iff s p t c st :
  inv s → tasks_ s !! p = Some t → cpu_states_ s !! c = Some st →
  next st = Some p ↔ run_state t = PENDING ∧ cpu t = Some c.
Proof.
  intros Hi Hp Hst. pose proof (inv_at _ Hi) as HA. split.
  - intros Hcur. pose proof (pl_next _ _ _ _ HA _ _ _ Hst Hcur) as Hpl. rewrite (place_is s p t Hp) in Hpl.
    unfold place_of in Hpl. destruct (run_state t); simplify_eq. done.
  - intros [Hrs Hcpu]. destruct (pl_assigned _ _ _ _ HA p (cpu t)) as (d & st' & Hd & Hst' & ?).
    { rewrite (place_is s p t Hp). unfold place_of. by rewrite Hrs. }
    congruence.
Qed.

Lemma on_cpu_state s p t :
  inv s → tasks_ s !! p = Some t → run_state t = ON_CPU ∨ run_state t = PENDING →
  ∃ c st, cpu t = Some c ∧ cpu_states_ s !! c = Some st.
Proof.
  intros Hi Hp Hrs. pose proof (inv_at _ Hi) as HA. pose proof (place_is s p t Hp) as Hpl. unfold place_of in Hpl.
  destruct Hrs as [Hrs|Hrs]; rewrite Hrs in Hpl.
  - destruct (pl_running _ _ _ _ HA _ _ Hpl) as (c & st & ? & ? & _). eauto.
  - destruct (pl_assigned _ _ _ _ HA _ _ Hpl) as (c & st & ? & ? & _). eauto.
Qed.

Lemma no_dangling s p :
  inv s →
  p ∈ run_queue_ s ++ run_queue_low_priority_ s ++ yielding_tasks_ s ∨
    (∃ c st, cpu_states_ s !! c = Some st ∧ (current st = Some p ∨ next st = Some p)) → is_Some (tasks_ s !! p).
Proof.
  intros Hi Hp. pose proof (inv_at _ Hi) as HA.
  assert (is_Some (places s !! p)) as [k (t & Ht & _)%places_Some]; [|by exists t].
  destruct Hp as [Hp|(c & st & Hst & [Hp|Hp])].
  - rewrite app_assoc, elem_of_app in Hp. destruct Hp as [Hp|Hp]; apply occ_elem_of in Hp.
    + rewrite (pl_queue _ _ _ _ HA) in Hp. case_decide; [eauto|done].
    + rewrite (pl_yield _ _ _ _ HA) in Hp. case_decide; [eauto|done].
  - rewrite (pl_current _ _ _ _ HA _ _ _ Hst Hp). eauto.
  - rewrite (pl_next _ _ _ _ HA _ _ _ Hst Hp). eauto.
Qed.

Lemma global_idle s st :
  inv s → cpu_states_ s !! global_cpuid_ s = Some st → current st = None ∧ next st = None.
Proof.
  intros Hi Hst. pose proof (inv_at _ Hi) as HA. split.
  - destruct (current st) as [p|] eqn:Hc; [|done]. pose proof (pl_current _ _ _ _ HA _ _ _ Hst Hc) as Hp.
    by destruct (inv_free _ Hi _ _ Hp).
  - destruct (next st) as [p|] eqn:Hc; [|done]. pose proof (pl_next _ _ _ _ HA _ _ _ Hst Hc) as Hp.
    by destruct (inv_free _ Hi _ _ Hp).
Qed.

(** The states of runs on CPUs that the array of CPU states has room for. *)
Definition reachable s : Prop :=
  ∃ cpus g hist garbage w s0, started cpus g hist garbage w s0 ∧
    (∀ c, c ∈ Cpus cpus → c < MAX_CPUS)%nat ∧ length hist = kCpuHistLen ∧ rtc step s0 s.

Lemma reachable_holds_inv s : reachable s → inv s.
Proof. intros (cpus & g & hist & garbage & w & s0 & Hst & Hmax & Hhist & Hrun). by eapply reach_inv. Qed.

Lemma reachable_step s s' : reachable s → step s s' → reachable s'.
Proof.
  intros (cpus & g & hist & garbage & w & s0 & Hst & Hmax & Hhist & Hrun) Hs.
  exists cpus, g, hist, garbage, w, s0. split_and!; [done..|]. by eapply rtc_r.
Qed.

End reach.
