(* ===== verification/NetSchedulerQueue.v ===== *)
(** * The place of a task in the run queue

    How far a task that waits in the high-priority queue is from its head, and
    what the callbacks and the moves of the global agent do to that distance:
    a message about another task puts at most one task in front of it. *)
From S2P Require Import Prelude StateMonad Ghost CgroupWatcher NetTask NetScheduler NetSchedulerInv NetSchedulerOps.
Open Scope Z_scope.

(** A sequence that returns, taken apart. *)
Lemma eff_bind_inv {S A B} (m : eff S A) (k : A → eff S B) s b s' :
  (m ≫= k) s = Ok (b, s') → ∃ a s1, m s = Ok (a, s1) ∧ k a s1 = Ok (b, s').
Proof. unfold mbind, eff_bind. destruct (m s) as [[a s1]| |]; [eauto|done..]. Qed.

Section queue.
Context `{Topology, !Kernel}.
Implicit Types (s : NetScheduler) (p x : ptr) (c : Cpu) (k n : nat).

(** At most [k] tasks go before [p]: those ahead of it in the queue, and those
    that yield, which the end of the round may put in front. *)
Definition waits p k s : Prop :=
  ∃ front rest, run_queue_ s = front ++ p :: rest ∧ (length front + length (yielding_tasks_ s) <= k)%nat.

Definition same_queues s s' : Prop := run_queue_ s' = run_queue_ s ∧ yielding_tasks_ s' = yielding_tasks_ s.

Global Instance same_queues_preorder : PreOrder same_queues.
Proof. split; [by intros s|]. intros s1 s2 s3 [] []. split; congruence. Qed.

(** [p] is at most [n] tasks further from the head. *)
Definition delay p n s s' : Prop := ∀ k, waits p k s → waits p (k + n) s'.

Lemma waits_mono p k k' s : waits p k s → (k <= k')%nat → waits p k' s.
Proof. intros (f & r & Hq & Hl) Hk. exists f, r. split; [done|lia]. Qed.

Lemma waits_same p k s s' : same_queues s s' → waits p k s → waits p k s'.
Proof. intros [Hq Hy] (f & r & Hw & Hl). exists f, r. by rewrite Hq, Hy. Qed.

Lemma delay_same p s s' : same_queues s s' → delay p 0 s s'.
Proof. intros Hs k Hw. rewrite Nat.add_0_r. by eapply waits_same. Qed.

Lemma delay_trans p n n' s1 s2 s3 : delay p n s1 s2 → delay p n' s2 s3 → delay p (n + n') s1 s3.
Proof. intros H12 H23 k Hw. rewrite Nat.add_assoc. auto. Qed.

Lemma delay_mono p n n' s s' : delay p n s s' → (n <= n')%nat → delay p n' s s'.
Proof. intros Hd Hn k Hw. eapply waits_mono; [by apply Hd|lia]. Qed.

Lemma delays_bind {A B} p n n' (m : eff NetScheduler A) (k : A → eff NetScheduler B) :
  steps (delay p n) m → (∀ a, steps (delay p n') (k a)) → steps (delay p (n + n')) (m ≫= k).
Proof. intros Hm Hk s b s' (a & s1 & Hms & Hks)%eff_bind_inv. eapply delay_trans; [by eapply Hm|by eapply Hk]. Qed.

Lemma delays_mono {A} p n n' (m : eff NetScheduler A) : steps (delay p n) m → (n <= n')%nat → steps (delay p n') m.
Proof. intros Hm Hn s a s' Hs. eapply delay_mono; [by eapply Hm|done]. Qed.

Lemma delays_same {A} p n (m : eff NetScheduler A) : steps same_queues m → steps (delay p n) m.
Proof. intros Hm s a s' Hs. eapply delay_mono; [by eapply delay_same, Hm|lia]. Qed.

(** ** The primitives *)

Lemma same_get_task p : steps same_queues (get_task p).
Proof. unfold get_task. auto with steps. Qed.

Lemma same_upd_task p f : steps same_queues (upd_task p f).
Proof. apply steps_bind; [typeclasses eauto|apply same_get_task|]. intros t. by apply steps_modify. Qed.

Lemma same_cpu_state c : steps same_queues (cpu_state c).
Proof. unfold cpu_state. auto with steps. Qed.

Lemma same_upd_cpu c f : steps same_queues (upd_cpu c f).
Proof. apply steps_bind; [typeclasses eauto|apply same_cpu_state|]. intros t. by apply steps_modify. Qed.

Lemma same_count f : steps same_queues (count f).
Proof. by apply steps_modify. Qed.

Lemma same_call {R} (e : event R) : steps same_queues (call e).
Proof. intros s r s'. unfold call. destruct (ask e (world_of s)). by intros [= <- <-]. Qed.

End queue.

#[export] Hint Resolve same_get_task same_upd_task same_cpu_state same_upd_cpu same_count same_call : steps.

Section effects.
Context `{Topology, !Kernel}.
Implicit Types (s : NetScheduler) (p x : ptr) (c : Cpu) (k n : nat).

(** A task enters the queue at one of its ends, or starts to yield. *)
Lemma Enqueue_delays p x : steps (delay p 1) (Enqueue x).
Proof.
  unfold Enqueue. apply (delays_bind p 0 1); [by apply delays_same, same_upd_task|]. intros _.
  apply (delays_bind p 0 1); [by apply delays_same, same_get_task|]. intros t. case_match.
  2:{ apply delays_same. by apply steps_modify. }
  intros s [] s' [= <-] k (f & r & Hq & Hl). unfold waits. cbn. rewrite Hq. case_match.
  - exists (x :: f), r. cbn. split; [done|lia].
  - exists f, (r ++ [x]). rewrite <-app_assoc. split; [done|lia].
Qed.

Lemma Yield_delays p x : steps (delay p 1) (Yield x).
Proof.
  unfold Yield. apply (delays_bind p 0 1); [by apply delays_same, same_get_task|]. intros t.
  apply (delays_bind p 0 1); [apply delays_same; auto with steps|]. intros _.
  apply (delays_bind p 0 1); [by apply delays_same, same_upd_task|]. intros _.
  intros s [] s' [= <-] k (f & r & Hq & Hl). exists f, r. cbn. rewrite length_app. cbn. split; [done|lia].
Qed.

Lemma find_erase_other p x (front rest q : list ptr) :
  x ≠ p → find_erase x (front ++ p :: rest) = Some q →
  ∃ front' rest', q = front' ++ p :: rest' ∧ (length front' <= length front)%nat.
Proof.
  intros Hx. unfold find_erase. destruct (list_find _ _) as [[i y]|] eqn:Hf; cbn; [|done]. intros [= <-].
  apply list_find_Some in Hf as (Hi & <- & _). destruct (decide (i < length front)%nat) as [Hlt|Hge].
  - exists (delete i front), rest. rewrite delete_take_drop, take_app_le, drop_app_le, app_assoc by lia. rewrite <-delete_take_drop.
    split; [done|]. apply lookup_lt_is_Some_2 in Hlt as [z Hz]. pose proof (length_delete front i ltac:(eauto)). lia.
  - rewrite lookup_app_r in Hi by lia. destruct (i - length front)%nat as [|j] eqn:Hj; [by injection Hi as ->|].
    exists front, (delete j rest). replace i with (length front + S j)%nat by lia. split; [|done].
    rewrite delete_take_drop, take_app_add, <-Nat.add_succ_r, drop_app_add. cbn. by rewrite <-app_assoc, delete_take_drop.
Qed.

Lemma Remove_delays p x st : x ≠ p → steps (delay p 0) (RemoveFromRunqueue x st).
Proof.
  intros Hx. unfold RemoveFromRunqueue. apply (delays_bind p 0 0); [by apply delays_same, same_get_task|]. intros t.
  apply (delays_bind p 0 0); [apply delays_same; auto with steps|]. intros _.
  intros s a s' (q & s0 & [= -> ->] & (u & s1 & Hs1 & Hs')%eff_bind_inv)%eff_bind_inv.
  apply (delay_trans p 0 0 _ s1); [|by eapply delay_same, same_upd_task].
  intros k (f & r & Hq & Hl). rewrite Hq in Hs1. destruct (find_erase x (f ++ p :: r)) as [q|] eqn:Hfe.
  - injection Hs1 as _ <-. destruct (find_erase_other _ _ _ _ _ Hx Hfe) as (f' & r' & -> & Hf). exists f', r'. cbn. split; [done|lia].
  - exists f, r. case_match; [|done]. injection Hs1 as _ <-. cbn. split; [done|lia].
Qed.

(** ** Callbacks *)

(** A computation that ends with one that delays. *)
Lemma delays_then {A B} p n (m : eff NetScheduler A) (k : A → eff NetScheduler B) :
  steps same_queues m → (∀ a, steps (delay p n) (k a)) → steps (delay p n) (m ≫= k).
Proof. intros Hm Hk. apply (delays_bind p 0 n); [by apply delays_same|done]. Qed.

Lemma delays_end {A B} p n (m : eff NetScheduler A) (k : A → eff NetScheduler B) :
  steps (delay p n) m → (∀ a, steps same_queues (k a)) → steps (delay p n) (m ≫= k).
Proof.
  intros Hm Hk. rewrite <-(Nat.add_0_r n). apply delays_bind; [done|]. intros a. by apply delays_same.
Qed.

Lemma delays_when p n b m : steps (delay p n) m → steps (delay p n) (when b m).
Proof. intros Hm. destruct b; [done|]. apply delays_same, steps_ret, _. Qed.

Lemma same_UpdateTaskRuntime x r b : steps same_queues (UpdateTaskRuntime x r b).
Proof. unfold UpdateTaskRuntime. auto with steps. Qed.

Lemma same_cpu_state_of x : steps same_queues (cpu_state_of x).
Proof. unfold cpu_state_of. auto 20 with steps. Qed.

Lemma same_GetTaskName (x : Z) : steps same_queues (GetTaskName x : eff NetScheduler string).
Proof. unfold GetTaskName. auto with steps. Qed.

(** Only a transaction that failed puts its task back. *)
Definition syncs p (m : eff NetScheduler bool) : Prop :=
  ∀ s b s', m s = Ok (b, s') → if b : bool then same_queues s s' else delay p 1 s s'.

Lemma syncs_then {A} p (m : eff NetScheduler A) (k : A → eff NetScheduler bool) : steps same_queues m → (∀ a, syncs p (k a)) → syncs p (m ≫= k).
Proof.
  intros Hm Hk s b s' (a & s1 & Hms%Hm & Hks%Hk)%eff_bind_inv. destruct b; [by transitivity s1|].
  eapply (delay_trans p 0 1); [by apply delay_same|done].
Qed.

Lemma syncs_true {A} p (m : eff NetScheduler A) : steps same_queues m → syncs p (m;; mret true).
Proof. intros Hm s b s' (a & s1 & Hms%Hm & [= <- <-])%eff_bind_inv. done. Qed.

(** The task is put back, and what follows returns [false]. *)
Lemma syncs_back {A B} p (m : eff NetScheduler A) (k : A → eff NetScheduler B) :
  steps (delay p 1) m → (∀ a, steps same_queues (k a)) → syncs p (m ≫= λ a, k a;; mret false).
Proof.
  intros Hm Hk s b s' (a & s1 & Hms%Hm & (u & s2 & Hks%Hk & [= <- <-])%eff_bind_inv)%eff_bind_inv.
  eapply (delay_trans p 1 0); [done|by apply delay_same].
Qed.

Lemma eff_bind_assoc {A B C} (m : eff NetScheduler A) (k : A → eff NetScheduler B) (h : B → eff NetScheduler C) s :
  (m ≫= λ a, k a ≫= h) s = ((m ≫= k) ≫= h) s.
Proof. unfold mbind, eff_bind. by destruct (m s) as [[]| |]. Qed.

Lemma SyncCpuState_syncs p c : syncs p (SyncCpuState c).
Proof.
  unfold SyncCpuState. repeat first
    [ apply syncs_true; auto with steps; fail
    | apply syncs_then; [auto with steps; fail|intros ?] | case_match ].
  - intros s b s' (u & s1 & Hs1 & Hs')%eff_bind_inv. rewrite eff_bind_assoc in Hs'.
    eapply (syncs_back p (Enqueue n) (λ _, state ← call (TxnState c);
      if bool_decide (state = GHOST_TXN_CPU_UNAVAIL) then count count_unavail else count count_other)).
    + apply Enqueue_delays.
    + auto with steps.
    + unfold mbind at 1, eff_bind at 1. rewrite Hs1. exact Hs'.
  - by intros s b s' [= <- <-].
Qed.

Lemma SyncCpuState_delays p c : steps (delay p 1) (SyncCpuState c).
Proof.
  intros s b s' Hs%(SyncCpuState_syncs p). destruct b; [|done]. by eapply delay_mono; [apply delay_same|lia].
Qed.

(** A task that leaves its CPU had a transaction that completed. *)
Lemma same_synced c : steps same_queues (SyncCpuState c ≫= λ synced, CHECK synced).
Proof.
  intros s a s' (b & s1 & Hs & Hc)%eff_bind_inv. apply (SyncCpuState_syncs 0%nat) in Hs.
  destruct b; [by injection Hc as <- <-|done].
Qed.
End effects.

#[export] Hint Resolve same_UpdateTaskRuntime same_cpu_state_of same_GetTaskName same_synced : steps.

Section callbacks.
Context `{Topology, !Kernel}.
Implicit Types (s : NetScheduler) (p x : ptr) (c : Cpu).

Lemma same_leave_cpu x r : steps same_queues (leave_cpu x r).
Proof. unfold leave_cpu. auto 20 with steps. Qed.

Lemma same_leave_switchto x r z : steps same_queues (leave_switchto x r z).
Proof. unfold leave_switchto, CpuLeavingSwitchto. auto 20 with steps. Qed.

Lemma same_CpuEnteringSwitchto z : steps same_queues (CpuEnteringSwitchto z).
Proof. unfold CpuEnteringSwitchto. auto 20 with steps. Qed.

Lemma same_AdjustTaskPriority x : steps same_queues (AdjustTaskPriority x).
Proof. unfold AdjustTaskPriority. auto 20 with steps. Qed.
End callbacks.

#[export] Hint Extern 1 (steps same_queues (modify _)) => apply steps_modify; intros ?; split; reflexivity : steps.
#[export] Hint Resolve same_leave_cpu same_leave_switchto same_CpuEnteringSwitchto same_AdjustTaskPriority : steps.

(** Go through a callback to the one operation on the queues. *)
Ltac delay_step :=
  lazymatch goal with
  | |- steps (delay _ _) (if _ then _ else _) => case_match
  | |- steps (delay _ _) (when _ _) => apply delays_when
  | |- steps (delay _ _) (Enqueue _) => apply Enqueue_delays
  | |- steps (delay _ _) (Yield _) => apply Yield_delays
  | |- steps (delay _ _) (RemoveFromRunqueue _ _) => eapply delays_mono; [by apply Remove_delays|lia]
  | |- steps (delay _ _) _ => first
      [ apply delays_same; auto 20 with steps; fail
      | apply delays_then; [auto 20 with steps; fail|intros ?]
      | apply delays_end; [|auto 20 with steps; fail] ]
  end.

Section others.
Context `{Topology, !Kernel}.
Implicit Types (s : NetScheduler) (p x : ptr) (c : Cpu).

(** A message about another task puts at most one task before [p]. *)
Lemma handle_delays p x m : x ≠ p → steps (delay p 1) (handle x m).
Proof.
  intros Hx. destruct m; cbn [handle];
    unfold TaskNew, TaskRunnable, TaskDead, TaskDeparted, TaskBlocked, TaskPreempted, TaskYield, TaskSwitchto, free_task, CpuLeavingSwitchto.
  all: repeat delay_step.
Qed.

Lemma find_target_delays p g home l : steps (delay p 1) (find_target g home l).
Proof.
  induction l as [|c l IH]; cbn [find_target]; [by apply delays_same, steps_ret, _|]. unfold Available.
  apply delays_then; [auto 20 with steps|]. intros go. destruct go.
  - apply delays_end; [apply SyncCpuState_delays|auto with steps].
  - repeat first [exact IH|delay_step].
Qed.

Lemma same_PreemptTask prev n a : steps same_queues (PreemptTask prev n a).
Proof. unfold PreemptTask, UpdateRuntime. auto 20 with steps. Qed.
Hint Resolve same_PreemptTask : steps.

(** A move of the global agent synchronises at most two CPUs and vacates one. *)
Lemma PickNextGlobalCPU_delays p : steps (delay p 3) PickNextGlobalCPU.
Proof.
  unfold PickNextGlobalCPU. apply delays_then; [auto with steps|]. intros s.
  apply (delays_bind p 1 2); [apply find_target_delays|]. intros [target|]; [|by apply delays_same, steps_ret, _].
  do 2 (apply delays_then; [auto with steps|intros ?]). apply delays_then; [auto with steps|]. intros cs.
  apply (delays_bind p 1 1); [apply delays_when, delays_end; [apply SyncCpuState_delays|auto with steps]|]. intros _.
  unfold SetGlobalCPU. repeat delay_step. case_match; repeat delay_step.
Qed.

Lemma same_DumpState b v : steps same_queues (DumpState b v).
Proof. unfold DumpState. auto 20 with steps. Qed.
End others.
