(* ===== verification/NetSchedulerFair.v ===== *)
(** * How long a task waits

    In a round without interference, when affinity masks are not enforced, an
    eligible task of the high-priority queue is started, or comes nearer to the
    head of the queue by the number of idle CPUs.  Callbacks and moves of the
    global agent push it back by a bounded number of tasks.  So a task that
    waits is started after a number of rounds that its place bounds. *)
From S2P Require Import Prelude StateMonad Ghost CgroupWatcher NetTask NetScheduler NetSchedulerInv NetSchedulerOps.
From S2P Require Import NetSchedulerCallbacks NetSchedulerRound NetSchedulerLive NetSchedulerReach NetSchedulerQueue.
Open Scope Z_scope.

Section fair.
Context `{Topology, !CpuListLaws, !Kernel, !KernelLaws}.
Implicit Types (s : NetScheduler) (p x : ptr) (t : NetTask) (c : Cpu).

(** The kernel in a round, for a thread [g] whose last message had the number
    [n]: in all worlds of [W], which calls do not leave, the CPUs of [idle] are
    available, [g] is off CPU and without messages to come, and transactions
    commit. *)
Record serves (W : world → Prop) (idle : list Cpu) (g : Gtid) (n : Z) : Prop := {
  sv_call R (e : event R) w : W w → W (ask e w).2;
  sv_avail c w : W w → c ∈ idle → (ask (CpuAvail c) w).1 = true;
  sv_off w : W w → (ask (OnCpu g) w).1 = false;
  sv_barrier w : W w → (ask (Barrier g) w).1 = n;
  sv_commit c w : W w → (ask (Commit c) w).1 = true;
  sv_txn c w : W w → (ask (TxnState c) w).1 = GHOST_TXN_COMPLETE;
}.

(** The thread and the last message of a task. *)
Definition signed x (g : Gtid) (n : Z) s : Prop := ∃ t, tasks_ s !! x = Some t ∧ gtid t = g ∧ seqnum t = n.

Section round.
Context (W : world → Prop) (idle : list Cpu) (g : Gtid) (n : Z) (HW : serves W idle g n).

(** What every operation of a round keeps, and what those keep that do not
    touch the queues. *)
Definition undisturbed s s' : Prop :=
  W (world_ s) → W (world_ s') ∧ enforce_affinity_mask_ s' = enforce_affinity_mask_ s ∧
    ∀ x g n, signed x g n s → signed x g n s'.

Definition calmly s s' : Prop := undisturbed s s' ∧ (W (world_ s) → same_queues s s').

Global Instance undisturbed_preorder : PreOrder undisturbed.
Proof.
  split; [by intros s ?|]. intros s1 s2 s3 H12 H23 HW1. destruct (H12 HW1) as (HW2 & He2 & Hs2).
  destruct (H23 HW2) as (HW3 & He3 & Hs3). split_and!; [done|congruence|auto].
Qed.

Global Instance calmly_preorder : PreOrder calmly.
Proof.
  split; [by intros s; split|]. intros s1 s2 s3 [H12 Hq12] [H23 Hq23]. split; [by transitivity s2|].
  intros HW1. transitivity s2; [by auto|]. apply Hq23, H12, HW1.
Qed.

Lemma steps_calmly {A} (m : eff NetScheduler A) : steps undisturbed m → steps same_queues m → steps calmly m.
Proof. intros Hu Hq s a s' Hs. split; [by eapply Hu|]. intros _. by eapply Hq. Qed.

Lemma calmly_undisturbed {A} (m : eff NetScheduler A) : steps calmly m → steps undisturbed m.
Proof. intros Hm s a s' Hs. by eapply Hm. Qed.

(** ** The primitives *)

Lemma calm_get_task x : steps calmly (get_task x).
Proof. unfold get_task. auto with steps. Qed.

Lemma calm_cpu_state c : steps calmly (cpu_state c).
Proof. unfold cpu_state. auto with steps. Qed.

Lemma calm_modify f : (∀ s, calmly s (f s)) → steps calmly (modify f).
Proof. apply steps_modify. Qed.

Lemma calm_upd_cpu c f : steps calmly (upd_cpu c f).
Proof. apply steps_bind; [typeclasses eauto|apply calm_cpu_state|]. intros st. by apply calm_modify. Qed.

Lemma calm_count f : steps calmly (count f).
Proof. by apply calm_modify. Qed.

Lemma calm_call {R} (e : event R) : steps calmly (call e).
Proof.
  apply steps_calmly; [|apply same_call]. intros s r s' Hs HWs. unfold call in Hs. cbn in Hs.
  pose proof (sv_call _ _ _ _ HW R e _ HWs) as HW'. destruct (ask e (world_ s)) as [r' w]. injection Hs as <- <-. done.
Qed.

(** The fields that tell which thread a task is stay. *)
Definition keeps_signed (f : NetTask → NetTask) : Prop := ∀ t, gtid (f t) = gtid t ∧ seqnum (f t) = seqnum t.

Lemma signed_insert x t t' s :
  tasks_ s !! x = Some t → gtid t' = gtid t → seqnum t' = seqnum t →
  ∀ y g n, signed y g n s → signed y g n (set_tasks_ (<[x := t']> (tasks_ s)) s).
Proof.
  intros Hx Hg Hn y g' n' (u & Hu & Hgu & Hnu). unfold signed. cbn. destruct (decide (x = y)) as [->|Hne].
  - exists t'. rewrite lookup_insert_eq. split_and!; [done|congruence..].
  - exists u. by rewrite lookup_insert_ne.
Qed.

Lemma get_task_inv x t s s' : get_task x s = Ok (t, s') → s' = s ∧ tasks_ s !! x = Some t.
Proof.
  unfold get_task. intros (s1 & s2 & [= -> ->] & Hs)%eff_bind_inv. unfold expect, lift in Hs.
  destruct (tasks_ s2 !! x) as [u|]; cbn in Hs; [|done]. by injection Hs as <- <-.
Qed.

Lemma calm_upd_task x f : keeps_signed f → steps calmly (upd_task x f).
Proof.
  intros Hf. apply steps_calmly; [|apply same_upd_task]. intros s [] s' Hs HWs. unfold upd_task in Hs.
  apply eff_bind_inv in Hs as (t & s1 & [-> Ht]%get_task_inv & [= <-]). split_and!; [done..|].
  intros y g' n'. by eapply signed_insert; [|apply Hf..].
Qed.

Hint Resolve calm_get_task calm_cpu_state calm_upd_cpu calm_count calm_call : steps.
Hint Extern 1 (steps calmly (upd_task _ _)) => apply calm_upd_task; intros ?; split; reflexivity : steps.

Lemma calm_UpdateTaskRuntime x r b : steps calmly (UpdateTaskRuntime x r b).
Proof.
  intros s [] s'. unfold UpdateTaskRuntime, SetRuntime. intros (t & s1 & [-> Ht]%get_task_inv & Hs)%eff_bind_inv.
  destruct (r <? runtime t); [done|]. unfold upd_task in Hs.
  apply eff_bind_inv in Hs as (t' & s2 & [-> Ht']%get_task_inv & [= <-]). split; [|done]. intros HWs. split_and!; [done..|].
  intros y g' n'. by apply (signed_insert x t).
Qed.

Lemma calm_GetTaskName (z : Z) : steps calmly (GetTaskName z : eff NetScheduler string).
Proof. unfold GetTaskName. auto with steps. Qed.
Hint Resolve calm_UpdateTaskRuntime calm_GetTaskName : steps.

(** ** Transactions commit *)

(** A call whose answer [W] fixes. *)
Lemma calm_answer {R A} (e : event R) r (k : R → eff NetScheduler A) :
  (∀ w, W w → (ask e w).1 = r) → steps calmly (k r) → steps calmly (call e ≫= k).
Proof.
  intros Hr Hk s a s' Hs. assert (W (world_ s) → calmly s s') as Hc; [|split; [intros HWs; by apply Hc|intros HWs; by apply Hc]].
  intros HWs. apply eff_bind_inv in Hs as (b & s1 & Hs1 & Hs'). specialize (Hr _ HWs).
  transitivity s1; [by eapply calm_call|]. unfold call in Hs1. cbn in Hs1. destruct (ask e (world_ s)) as [b' w]. cbn in Hr.
  injection Hs1 as <- <-. subst b'. by eapply Hk.
Qed.

Lemma calm_SyncCpuState c : steps calmly (SyncCpuState c).
Proof.
  unfold SyncCpuState. apply steps_bind; [typeclasses eauto|auto with steps|]. intros cs. case_match; [|auto with steps].
  do 5 (apply steps_bind; [typeclasses eauto|auto with steps|intros ?]).
  eapply calm_answer; [apply (sv_txn _ _ _ _ HW)|]. rewrite bool_decide_eq_true_2 by done. auto 20 with steps.
Qed.

Lemma calm_PreemptTask prev x a : steps calmly (PreemptTask prev (Some x) a).
Proof. unfold PreemptTask, UpdateRuntime. auto 20 with steps. Qed.

(** Computations that return [true] in [W]. *)
Definition succeeds (m : eff NetScheduler bool) : Prop := ∀ s b s', W (world_ s) → m s = Ok (b, s') → b = true.

Lemma succeeds_then {A} (m : eff NetScheduler A) k : steps calmly m → (∀ a, succeeds (k a)) → succeeds (m ≫= k).
Proof. intros Hm Hk s b s' HWs (a & s1 & Hms%Hm & Hks)%eff_bind_inv. eapply Hk; [|done]. by apply Hms. Qed.

Lemma succeeds_if (m : eff NetScheduler bool) k : steps calmly m → succeeds m → succeeds (k true) → succeeds (m ≫= k).
Proof.
  intros Hm Hs Hk s b s' HWs (a & s1 & Hms & Hks)%eff_bind_inv. assert (a = true) as -> by by eapply Hs.
  apply Hm in Hms. eapply Hk; [|done]. by apply Hms.
Qed.

Lemma succeeds_true : succeeds (mret true).
Proof. by intros s b s' _ [= <- <-]. Qed.

Lemma succeeds_Commit c : succeeds (call (Commit c)).
Proof.
  intros s b s' HWs Hs. pose proof (sv_commit _ _ _ _ HW c _ HWs) as Hc. unfold call in Hs. cbn in Hs.
  destruct (ask (Commit c) (world_ s)). by injection Hs as <- _.
Qed.

Lemma PreemptTask_succeeds prev x a : succeeds (PreemptTask prev (Some x) a).
Proof.
  unfold PreemptTask, UpdateRuntime. do 5 (apply succeeds_then; [auto with steps|intros ?]).
  case_match; [apply succeeds_true|]. do 2 (apply succeeds_then; [auto with steps|intros ?]).
  apply succeeds_if; [auto with steps| |].
  - do 2 (apply succeeds_then; [auto with steps|intros ?]). apply succeeds_Commit.
  - cbn [negb]. do 2 (apply succeeds_then; [auto 20 with steps|intros ?]). apply succeeds_true.
Qed.

(** ** Who gets in front of a task in the round *)

Definition pushes p k s s' : Prop := undisturbed s s' ∧ (W (world_ s) → delay p k s s').

Lemma pushes_trans p k k' s1 s2 s3 : pushes p k s1 s2 → pushes p k' s2 s3 → pushes p (k + k') s1 s3.
Proof.
  intros [Hu12 H12] [Hu23 H23]. split; [by transitivity s2|]. intros HW1. destruct (Hu12 HW1) as [HW2 _].
  eapply delay_trans; auto.
Qed.

Lemma pushes_calm {A} p (m : eff NetScheduler A) : steps calmly m → steps (pushes p 0) m.
Proof. intros Hm s a s' [Hu Hq]%Hm. split; [done|]. intros HWs. by apply delay_same, Hq. Qed.

Lemma pushes_then {A B} p k (m : eff NetScheduler A) (f : A → eff NetScheduler B) :
  steps calmly m → (∀ a, steps (pushes p k) (f a)) → steps (pushes p k) (m ≫= f).
Proof.
  intros Hm Hf s b s' (a & s1 & Hms & Hfs)%eff_bind_inv.
  eapply (pushes_trans p 0 k); [by eapply pushes_calm|by eapply Hf].
Qed.

Lemma pushes_end {A B} p k (m : eff NetScheduler A) (f : A → eff NetScheduler B) :
  steps (pushes p k) m → (∀ a, steps calmly (f a)) → steps (pushes p k) (m ≫= f).
Proof.
  intros Hm Hf s b s' (a & s1 & Hms & Hfs)%eff_bind_inv. rewrite <-(Nat.add_0_r k).
  eapply (pushes_trans p k 0); [by eapply Hm|by eapply pushes_calm, Hfs].
Qed.

Lemma undisturbed_modify f :
  (∀ s, world_ (f s) = world_ s ∧ enforce_affinity_mask_ (f s) = enforce_affinity_mask_ s ∧ tasks_ (f s) = tasks_ s) →
  steps undisturbed (modify f).
Proof.
  intros Hf. apply steps_modify. intros s HWs. destruct (Hf s) as (Hw & He & Ht). rewrite Hw. split_and!; [done..|].
  intros x g' n'. unfold signed. by rewrite Ht.
Qed.
Hint Extern 1 (steps undisturbed (modify _)) => apply undisturbed_modify; intros ?; split_and!; reflexivity : steps.
Hint Extern 5 (steps undisturbed _) => apply calmly_undisturbed : steps.

Lemma Enqueue_pushes p x : steps (pushes p 1) (Enqueue x).
Proof.
  assert (steps undisturbed (Enqueue x)) as Hu by (unfold Enqueue; auto 20 with steps).
  intros s a s' Hs. split; [by eapply Hu|]. intros _. by eapply Enqueue_delays.
Qed.

Lemma Yield_pushes p x : steps (pushes p 1) (Yield x).
Proof.
  assert (steps undisturbed (Yield x)) as Hu by (unfold Yield; auto 20 with steps).
  intros s a s' Hs. split; [by eapply Hu|]. intros _. by eapply Yield_delays.
Qed.

Lemma pushes_if p k (m : eff NetScheduler bool) {A} (f : bool → eff NetScheduler A) :
  steps calmly m → succeeds m → steps (pushes p k) (f true) → steps (pushes p k) (m ≫= f).
Proof.
  intros Hm Hs Hf s a s' Hrun. assert (W (world_ s) → pushes p k s s') as Hp; [|by split; intros HWs; apply Hp].
  intros HWs. apply eff_bind_inv in Hrun as (b & s1 & Hms & Hfs). assert (b = true) as -> by by eapply Hs.
  eapply (pushes_trans p 0 k); [by eapply pushes_calm|by eapply Hf].
Qed.

(** The task that was replaced goes to the head of its queue. *)
Lemma ReplaceExistingTask_pushes p c x : steps (pushes p 1) (ReplaceExistingTask c x).
Proof.
  unfold ReplaceExistingTask. apply pushes_then; [auto with steps|]. intros cs.
  apply pushes_if; [apply calm_PreemptTask|apply PreemptTask_succeeds|].
  do 3 (apply pushes_then; [auto with steps|intros ?]). apply pushes_end; [apply Enqueue_pushes|]. auto 20 with steps.
Qed.

Lemma calm_give_cpu x t c r : steps calmly (give_cpu x t c r).
Proof. unfold give_cpu. auto 20 with steps. Qed.

Lemma give_cpu_result x t c r : results (λ r', r' = assign c r) (give_cpu x t c r).
Proof. unfold give_cpu. auto 20 with steps. Qed.

(** What one iteration does to a task [p] that still waits: a CPU is used up
    for the task taken, or [p] loses the place it gained when the task was taken. *)
Definition spent p (r : round) s r' s' : Prop :=
  (∃ c, IsSet (avail_cpus r) c = true ∧ r' = assign c r ∧ delay p 0 s s') ∨
  avail_cpus r' = avail_cpus r ∧ delay p 1 s s'.

Lemma place_task_spent p x t r s r' s' :
  W (world_ s) → place_task x t r s = Ok (r', s') → undisturbed s s' ∧ spent p r s r' s'.
Proof.
  intros HWs. unfold place_task. intros (s0 & s1 & [= -> ->] & Hs)%eff_bind_inv.
  destruct (if Empty (avail_cpus r) then None else _) as [c|] eqn:Hpick.
  - assert (r' = assign c r) as -> by (by eapply give_cpu_result).
    destruct (Empty (avail_cpus r)); [done|]. apply PickNextCpu_IsSet in Hpick. apply calm_give_cpu in Hs as [Hu Hq].
    split; [done|]. left. exists c. split_and!; [done..|]. by apply delay_same, Hq.
  - destruct (if Empty (avail_cpus_low_priority r) then None else _) as [c|].
    + apply eff_bind_inv in Hs as ([] & s2 & [Hu Hd]%(ReplaceExistingTask_pushes p) & [= <- <-]). split; [done|]. right. by auto.
    + apply eff_bind_inv in Hs as ([] & s2 & [Hu Hd]%(Yield_pushes p) & [= <- <-]). split; [done|]. right. by auto.
Qed.

Lemma assign_task_spent p x r s r' s' :
  W (world_ s) → assign_task x r s = Ok (r', s') → undisturbed s s' ∧ spent p r s r' s'.
Proof.
  intros HWs. unfold assign_task. intros (t & s1 & [-> Ht]%get_task_inv & Hs)%eff_bind_inv.
  apply eff_bind_inv in Hs as (u & s1 & Hs1 & Hs). unfold CHECK in Hs1. case_match; [|done]. injection Hs1 as _ <-.
  apply eff_bind_inv in Hs as (running & s1 & Hs1%calm_call & (stale & s2 & Hs2 & Hs)%eff_bind_inv).
  assert (steps calmly (if running then mret true else b ← call (Barrier (gtid t)); mret (negb (seqnum t =? b)))) as Hc by auto with steps.
  apply Hc in Hs2. assert (calmly s s2) as [Hu2 Hq2] by by transitivity s1. destruct (Hu2 HWs) as [HW2 _].
  assert (undisturbed s2 s' ∧ spent p r s2 r' s') as [Hu Hsp].
  { destruct stale; [|by eapply place_task_spent].
    apply eff_bind_inv in Hs as ([] & s3 & [Hu Hd]%(Yield_pushes p) & [= <- <-]). split; [done|]. right. by auto. }
  split; [by transitivity s2|]. pose proof (delay_same p _ _ (Hq2 HWs)) as H0'.
  destruct Hsp as [(c & Hc' & -> & Hd)|[Ha Hd]]; [left; exists c; split_and!; [done..|]|right; split; [done|]].
  - by eapply (delay_trans p 0 0).
  - by eapply (delay_trans p 0 1).
Qed.

(** ** A task that is taken is started *)

(** [p] was given a CPU in this round. *)
Definition got p (r : round) s : Prop :=
  ∃ c, places s !! p = Some (Assigned (Some c)) ∨
       places s !! p = Some (Running (Some c)) ∧ IsSet (avail_cpus_low_priority r) c = false.

Lemma got_stays p r r' s s' : got p r s → stays r r' s s' → got p r' s'.
Proof.
  intros [c [Hp|[Hp Hc]]] [Hl Hst]; exists c.
  - left. by destruct (Hst p _ Hp) as [?|(d & ? & _)].
  - right. destruct (Hst p _ Hp) as [?|(d & [= ->] & ?)]; [done| |congruence].
    split; [done|]. destruct (IsSet (avail_cpus_low_priority r') c) eqn:Hc'; [|done]. apply Hl in Hc'. congruence.
Qed.

Lemma place_task_starts p t r s s1 :
  inv s → round_ok s r → taken s p s1 → tasks_ s1 !! p = Some t → W (world_ s1) → enforce_affinity_mask_ s1 = false →
  Empty (avail_cpus r) && Empty (avail_cpus_low_priority r) = false →
  wp False (place_task p t r) (got p) s1.
Proof.
  intros Hi Hr Htk Hp1 HW1 Henf Hne. pose proof Htk as [Hf Ht Hc Hq HA Hp0]. unfold place_task. sched_step. rewrite Henf.
  destruct (Empty (avail_cpus r)) eqn:Ha; cbn in Hne.
  - rewrite Hne. destruct (PickNextCpu_some _ t Hne) as [c Hpick]. rewrite Hpick. apply PickNextCpu_IsSet in Hpick.
    destruct (ro_low _ _ Hr c Hpick) as (_ & _ & st & Hstc & Hcur).
    assert (places s1 = places s) as Hpl1 by (unfold places; by rewrite Ht).
    pose proof Hp0 as (t' & Hp & Hpl)%places_Some. rewrite <-Ht, Hp1 in Hp. injection Hp as <-.
    assert (run_state t = QUEUED) as Hst by (unfold place_of in Hpl; by destruct (run_state t)).
    wp_seq. eapply wp_mono; [eapply (ReplaceExistingTask_spec False c p t st); [by rewrite Hpl1|done|done|by rewrite Hc|done|]|].
    { by apply (f_runtime _ _ Hf), Hi. }
    intros ? s2 (_ & _ & _ & _ & prev & k & _ & Hk & Hpl2). sched_step. exists c. right. cbn. rewrite Hpl2, lookup_insert_eq.
    split; [|by rewrite IsSet_Clear, bool_decide_eq_true_2].
    destruct Hk as [->|(_ & v & Hv & Hno)]; [done|]. exfalso.
    assert (W v) as HWv by (apply Hv; [apply (sv_call _ _ _ _ HW)|done]). by rewrite (sv_commit _ _ _ _ HW c v HWv) in Hno.
  - destruct (PickNextCpu_some _ t Ha) as [c Hpick]. rewrite Hpick. apply PickNextCpu_IsSet in Hpick.
    eapply wp_mono; [by eapply (give_cpu_spec False p t c r s)|]. intros r' s' (_ & _ & Hpl & _). exists c. left.
    by rewrite Hpl, lookup_insert_eq.
Qed.

Lemma assign_task_starts p r s s1 :
  inv s → round_ok s r → taken s p s1 → signed p g n s1 → W (world_ s1) → enforce_affinity_mask_ s1 = false →
  Empty (avail_cpus r) && Empty (avail_cpus_low_priority r) = false →
  wp False (assign_task p r) (got p) s1.
Proof.
  intros Hi Hr Htk (t & Hp1 & Hg & Hn) HW1 Henf Hne. pose proof Htk as [Hf Ht Hc Hq HA Hp0].
  pose proof Hp0 as (t' & Hp & Hpl)%places_Some. rewrite <-Ht, Hp1 in Hp. injection Hp as <-.
  unfold assign_task. sched_step. sched_step; [|unfold pending, place_of in *; by destruct (run_state t)].
  sched_step. pose proof (sv_off _ _ _ _ HW _ HW1) as Hoff. rewrite <-Hg, Hask in Hoff. cbn in Hoff. subst r0.
  assert (W w) as HWw by (pose proof (sv_call _ _ _ _ HW _ (OnCpu (gtid t)) _ HW1) as Hw; by rewrite Hask in Hw).
  wp_seq. do 2 sched_step. pose proof (sv_barrier _ _ _ _ HW _ HWw) as Hbar. cbn in Hask0. rewrite <-Hg, Hask0 in Hbar. cbn in Hbar.
  assert (W w0) as HWw0 by (pose proof (sv_call _ _ _ _ HW _ (Barrier (gtid t)) _ HWw) as Hw; by rewrite Hask0 in Hw).
  subst r0. rewrite Hn, Z.eqb_refl. cbn [negb]. cbv iota. rewrite set_world_world.
  apply (place_task_starts p t r s); try done. destruct Htk. split; try done. transitivity s1; [done|].
  change (frame s1 (set_world_ w0 (set_world_ w s1))). frames.
Qed.

(** ** The assignment loop *)

(** Once started, [p] keeps its CPU. *)
Lemma assign_loop_got p fuel r s :
  inv s → round_ok s r → got p r s → (measure s r < fuel)%nat →
  wp False (assign_loop fuel r) (λ r' s', inv s' ∧ unavail r' = unavail r ∧ got p r' s') s.
Proof.
  revert r s. induction fuel as [|fuel IH]; intros r s Hi Hr Hg Hm; [lia|]. cbn [assign_loop].
  destruct (_ && _); [by sched_step|]. wp_seq. apply wp_Dequeue_taken; [done|by intros; sched_step|].
  intros x s1 Htk _ _ _. wp_seq. eapply wp_mono; [by eapply assign_task_spec|].
  intros r' s' (Hi' & Hf' & Hr' & Hm' & Hu' & Hst). eapply wp_mono; [apply IH; [done..|by eapply got_stays|lia]|].
  intros r2 s2 (Hi2 & Hu2 & Hg2). split_and!; [done|congruence|done].
Qed.

(** The task at the head leaves the queue. *)
Lemma waits_taken p k x q s s1 :
  waits p k s → run_queue_ s = x :: q → run_queue_ s1 = q → yielding_tasks_ s1 = yielding_tasks_ s →
  x = p ∨ (0 < k)%nat ∧ waits p (pred k) s1.
Proof.
  intros (f & rest & Hq & Hl) Hx Hq1 Hy1. rewrite Hx in Hq. destruct f as [|y f]; cbn in *; injection Hq as -> Hq; [by left|].
  right. split; [lia|]. exists f, rest. rewrite Hq1, Hy1. split; [done|lia].
Qed.

Lemma Dequeue_head x q s : run_queue_ s = x :: q → Dequeue s = Ok (Some x, set_run_queue_ q s).
Proof. intros Hq. unfold Dequeue. erewrite eff_bind_Ok by done. by rewrite Hq. Qed.

(** The state of a round in which [p] waits behind at most [k] tasks. *)
Record waiting p k s : Prop := {
  wa_inv : inv s;
  wa_world : W (world_ s);
  wa_free : enforce_affinity_mask_ s = false;
  wa_signed : signed p g n s;
  wa_waits : waits p k s;
}.

Lemma waiting_next p k k' s s' : waiting p k s → inv s' → undisturbed s s' → waits p k' s' → waiting p k' s'.
Proof. intros [Hi HWs He Hs _] Hi' Hu Hw. destruct (Hu HWs) as (HW' & He' & Hs'). split; auto. congruence. Qed.

Lemma spent_avail p r r' k s s' :
  spent p r s r' s' → waits p k s →
  ∃ k', waits p k' s' ∧ (k' + length (Cpus (avail_cpus r)) <= S k + length (Cpus (avail_cpus r')))%nat.
Proof.
  intros [(c & Hc & -> & Hd)|[Ha Hd]] Hw.
  - exists k. specialize (Hd k Hw). rewrite Nat.add_0_r in Hd. split; [done|]. cbn. rewrite (ClearCpu_perm _ _ Hc). cbn. lia.
  - exists (k + 1)%nat. split; [by apply Hd|]. rewrite Ha. lia.
Qed.

(** Either [p] is started, or a task before it for every free CPU. *)
Lemma assign_loop_waits p k fuel r s :
  waiting p k s → round_ok s r → (measure s r < fuel)%nat →
  wp False (assign_loop fuel r) (λ r' s', inv s' ∧ unavail r' = unavail r ∧
    (got p r' s' ∨ ∃ k', waiting p k' s' ∧ (k' + length (Cpus (avail_cpus r)) <= k)%nat)) s.
Proof.
  revert k r s. induction fuel as [|fuel IH]; intros k r s Hwa Hr Hm; [lia|]. cbn [assign_loop].
  destruct (Empty (avail_cpus r) && Empty (avail_cpus_low_priority r)) eqn:Hne.
  { sched_step. apply andb_true_iff in Hne as [Ha _]. rewrite Empty_Cpus in Ha. apply bool_decide_eq_true in Ha.
    split_and!; [apply Hwa|done|]. right. exists k. rewrite Ha. cbn. split; [done|lia]. }
  pose proof Hwa as [Hi HWs He Hsg Hw]. pose proof Hw as (f & rest & Hq & _).
  destruct (run_queue_ s) as [|x q] eqn:Hrq; [by destruct f|].
  destruct (wp_total _ _ _ (wp_Dequeue_taken False (λ o s1, ∀ y, o = Some y → taken s y s1) s Hi ltac:(done)
    ltac:(by intros y s1 Htk _ _ _ ? [= <-]))) as (o & s1 & Hdq & Htk). rewrite (Dequeue_head x q s Hrq) in Hdq.
  injection Hdq as <- <-. specialize (Htk x eq_refl).
  wp_seq. eapply wp_run; [by apply Dequeue_head|].
  set (s1 := set_run_queue_ q s) in *. cbv beta iota. wp_seq.
  destruct (waits_taken p k x q s s1 Hw Hrq eq_refl eq_refl) as [->|[Hk Hw1]].
  - eapply wp_mono; [apply wp_and; [by apply (assign_task_spec False p r s s1)|by apply (assign_task_starts p r s s1)]|].
    intros r' s' ((Hi' & Hf' & Hr' & Hm' & Hu' & _) & Hg). eapply wp_mono; [apply (assign_loop_got p); [done..|lia]|].
    intros r2 s2 (Hi2 & Hu2 & Hg2). split_and!; [done|congruence|by left].
  - destruct (wp_total _ _ _ (assign_task_spec False x r s s1 Hi Hr Htk)) as (r' & s' & Hrun & Hi' & Hf' & Hr' & Hm' & Hu' & _).
    eapply wp_run; [exact Hrun|]. destruct (assign_task_spent p x r s1 r' s' HWs Hrun) as [Hu Hsp].
    destruct (spent_avail p r r' (pred k) s1 s' Hsp Hw1) as (k' & Hw' & Hk').
    eapply wp_mono; [apply (IH k'); [|done|lia]|].
    + by eapply (waiting_next p k k' s s').
    + intros r2 s2 (Hi2 & Hu2 & Hcase). split_and!; [done|congruence|].
      destruct Hcase as [?|(k2 & Hwa2 & Hk2)]; [by left|]. right. exists k2. split; [done|lia].
Qed.

(** ** The end of the round *)

(** The tasks that yield are queued again, at worst in front of [p]. *)
Lemma requeue_pushes p l u :
  steps (λ s s', pushes p (length l) s s' ∧ yielding_tasks_ s' = yielding_tasks_ s)
    (for_each (λ x (_ : unit), t ← get_task x; CHECK (yielding t);; Enqueue x) l u).
Proof.
  revert u. induction l as [|x l IH]; intros u; cbn [for_each length].
  { intros s v s' [= _ <-]. split; [|done]. split; [done|]. intros _. by apply delay_same. }
  intros s v s' (w & s1 & Hone & [Hp Hy]%IH)%eff_bind_inv.
  assert (steps (pushes p 1) (t ← get_task x; CHECK (yielding t);; Enqueue x)) as Hp1.
  { do 2 (apply pushes_then; [auto with steps|intros ?]). apply Enqueue_pushes. }
  split; [eapply (pushes_trans p 1); [by eapply Hp1|done]|]. rewrite Hy.
  apply eff_bind_inv in Hone as (t & s2 & [-> _]%get_task_inv & ([] & s3 & Hc & He)%eff_bind_inv).
  unfold CHECK in Hc. case_match; [|done]. injection Hc as <-.
  unfold Enqueue in He. apply eff_bind_inv in He as (a & s4 & Hs4%same_upd_task & (t' & s5 & [-> _]%get_task_inv & He)%eff_bind_inv).
  transitivity (yielding_tasks_ s4); [|apply Hs4]. by case_match; injection He as _ <-.
Qed.

Lemma unyield_all_pushes p : steps (pushes p 0) unyield_all.
Proof.
  unfold unyield_all. intros s a s' (y & s0 & [= -> ->] & (u & s1 & [[Hu Hd] Hy]%(requeue_pushes p) & [= _ <-])%eff_bind_inv)%eff_bind_inv.
  split; [exact Hu|]. intros HWs k Hw. destruct (Hd HWs k Hw) as (f & rest & Hq & Hl). rewrite Hy in Hl.
  exists f, rest. cbn. split; [done|lia].
Qed.

(** ** The idle CPUs are found *)

Definition idle_at s c : Prop :=
  c ≠ global_cpuid_ s ∧ done (world_ s) c ∧
  ∃ st, cpu_states_ s !! c = Some st ∧ agent st = Some c ∧ current st = None ∧ next st = None ∧ in_switchto st = false.

Lemma scan_idle c r s :
  W (world_ s) → c ∈ idle → idle_at s c →
  wp False (scan_cpu c r) (λ r' s', r' = add_avail c r ∧ ∃ w, s' = set_world_ w s ∧ keeps_done s s') s.
Proof.
  intros HWs Hc (Hg & Hd & st & Hst & Hag & Hcur & Hnx & Hsw). unfold scan_cpu. sched_step. wp_seq.
  eapply wp_Available_agent; [done..|]. intros b w Hask.
  pose proof (sv_avail _ _ _ _ HW c _ HWs Hc) as Hav. rewrite Hask in Hav. cbn in Hav. subst b. cbn [negb]. cbv iota.
  assert (keeps_done s (set_world_ w s)) as Hk1 by keeps.
  unfold GetGlobalCPUId. do 2 sched_step. cbn [global_cpuid_ set_world_].
  rewrite bool_decide_eq_false_2, Hcur by done. cbn [orb is_some]. sched_step. destruct (Hk1 c Hd) as [Hd1 _].
  assert (r0 = true) as -> by (pose proof (done_committed c w Hd1) as Hcm; cbn in Hask0; by rewrite Hask0 in Hcm).
  cbn [negb]. cbv iota. unfold SyncCpuState. sched_step. rewrite Hnx. do 2 sched_step. rewrite Hcur, Hsw. sched_step.
  split; [done|]. exists w0. split; [done|]. change (keeps_done s (set_world_ w0 (set_world_ w s))). keeps.
Qed.

(** The scan of [c] leaves the other CPUs and all committed requests alone. *)
Definition spares c s s' : Prop :=
  global_cpuid_ s' = global_cpuid_ s ∧ (∀ d, d ≠ c → cpu_states_ s' !! d = cpu_states_ s !! d) ∧ keeps_done s s'.

Global Instance spares_preorder c : PreOrder (spares c).
Proof.
  split; [by intros s; split_and!|]. intros s1 s2 s3 (Hg & Hc & Hk) (Hg' & Hc' & Hk'). split_and!; [congruence| |by transitivity s2].
  intros d Hd. by rewrite Hc', Hc.
Qed.

Lemma spares_call c {R} (e : event R) : (∀ d, ¬ opens e d) → steps (spares c) (call e).
Proof.
  intros He s r s'. unfold call. cbn. destruct (ask e (world_ s)) as [r' w] eqn:Hask. intros [= <- <-].
  split_and!; [done..|]. by eapply keeps_done_call.
Qed.

Lemma spares_upd_task c x f : steps (spares c) (upd_task x f).
Proof. unfold upd_task. apply steps_bind; [typeclasses eauto|unfold get_task; auto with steps|]. intros t. by apply steps_modify. Qed.

Lemma spares_upd_cpu c f : steps (spares c) (upd_cpu c f).
Proof.
  unfold upd_cpu. apply steps_bind; [typeclasses eauto|unfold cpu_state; auto with steps|]. intros st. apply steps_modify.
  intros s. split_and!; [done| |done]. intros d Hd. cbn. by rewrite list_lookup_insert_ne.
Qed.
Hint Resolve spares_upd_task spares_upd_cpu : steps.
Hint Extern 1 (steps (spares _) (call _)) => apply spares_call; intros ? [] : steps.
Hint Extern 1 (steps (spares _) (modify _)) => apply steps_modify; intros ?; split_and!; done : steps.

Lemma spares_scan_cpu c r : steps (spares c) (scan_cpu c r).
Proof.
  unfold scan_cpu, Available, SyncCpuState, Enqueue, replaceable, is_memcached, ran_long, GetTaskName, GetGlobalCPUId,
    get_task, cpu_state, count.
  auto 40 with steps.
Qed.

Lemma calm_scan_cpu c r : steps calmly (scan_cpu c r).
Proof.
  pose proof calm_SyncCpuState. unfold scan_cpu, Available, replaceable, is_memcached, ran_long, GetGlobalCPUId.
  auto 40 with steps.
Qed.

Lemma scan_cpu_avail c r d :
  IsSet (avail_cpus r) d = true → results (λ r', IsSet (avail_cpus r') d = true) (scan_cpu c r).
Proof.
  intros Hd. assert (IsSet (avail_cpus (add_avail c r)) d = true) by (cbn; by rewrite IsSet_Set, Hd, orb_true_r).
  unfold scan_cpu. repeat first [done | apply results_bind; intros ? | case_match | apply results_ret].
Qed.

(** What the loop over the CPUs has found, [l] still to visit. *)
Record scanned s (l : list Cpu) (r : round) s' : Prop := {
  sd_scanning : scanning s l r s';
  sd_calm : calmly s s';
  sd_idle c : c ∈ idle → c ∈ l → idle_at s' c;
  sd_found c : c ∈ idle → c ∉ l → IsSet (avail_cpus r) c = true;
}.

Lemma idle_spared c d s s' : spares c s s' → d ≠ c → idle_at s d → idle_at s' d.
Proof.
  intros (Hg & Hc & Hk) Hd (Hdg & Hdone & st & Hst & Hrest). split_and!; [by rewrite Hg|by apply Hk|].
  exists st. by rewrite Hc.
Qed.

Lemma scan_next s c l r s1 :
  W (world_ s) → scanned s (c :: l) r s1 → wp False (scan_cpu c r) (scanned s l) s1.
Proof.
  intros HWs [Hsc Hca Hid Hfo]. destruct (wp_total _ _ _ (scan_cpu_spec False s c l r s1 Hsc)) as (r' & s2 & Hrun & Hsc2).
  eapply wp_run; [exact Hrun|]. destruct (proj1 Hca HWs) as [HW1 _]. pose proof (sc_nodup _ _ _ _ Hsc) as [Hcl _]%NoDup_cons.
  split; [done|by transitivity s1; [|eapply calm_scan_cpu]|..].
  - intros d Hd Hdl. apply (idle_spared c d s1); [by eapply spares_scan_cpu|by intros ->|]. apply Hid; [done|by right].
  - intros d Hd Hdl. destruct (decide (d = c)) as [->|Hne].
    + pose proof (scan_idle c r s1 HW1 Hd (Hid c Hd ltac:(left))) as Hwp. apply (wp_Ok _ _ _ _ _ _ Hwp) in Hrun as [-> _].
      cbn. by rewrite IsSet_Set, bool_decide_eq_true_2.
    + eapply (scan_cpu_avail c r d); [|exact Hrun]. apply Hfo; [done|]. by apply not_elem_of_cons.
Qed.

Lemma scan_finds s :
  inv s → W (world_ s) → (∀ c, c ∈ idle → c ∈ Cpus (cpus_ s) ∧ idle_at s c) → NoDup idle →
  wp False (for_each scan_cpu (Cpus (cpus_ s)) empty_round)
    (λ r s', scanning s [] r s' ∧ calmly s s' ∧ (length idle <= length (Cpus (avail_cpus r)))%nat) s.
Proof.
  intros Hi HWs Hidle Hnd. apply (wp_for_each False _ (scanned s)).
  - split; [by apply scanning_start|done|intros c Hc _; by apply Hidle|]. intros c Hc Hn. by destruct Hn, (Hidle c Hc).
  - intros c l r s1. by apply scan_next.
  - intros r s1 [Hsc Hca _ Hfo]. split_and!; [done..|]. apply submseteq_length, NoDup_submseteq; [done|].
    intros c Hc. apply elem_Cpus, Hfo; [done|]. apply not_elem_of_nil.
Qed.

(** ** The round *)

Lemma calm_record_unavail z : steps calmly (record_unavail z).
Proof.
  unfold record_unavail. repeat (apply steps_bind; [typeclasses eauto|auto with steps; fail|intros ?]).
  apply steps_bind; [typeclasses eauto|by apply calm_modify|auto with steps].
Qed.

(** [p] is on a CPU, or on its way to one. *)
Definition on_its_way p s : Prop := ∃ c, places s !! p = Some (Assigned (Some c)) ∨ places s !! p = Some (Running (Some c)).

Lemma round_end_waits p k u s :
  waiting p k s → 0 <= u →
  wp False (unyield_all;; record_unavail u) (λ _ s', inv s' ∧ waits p k s') s.
Proof.
  intros Hwa Hu. pose proof Hwa as [Hi HWs _ _ Hw].
  destruct (wp_total _ _ _ (unyield_all_spec False s Hi)) as ([] & s1 & Hrun1 & Hi1 & _).
  destruct (wp_total _ _ _ (record_unavail_spec False u s1 Hi1 Hu)) as ([] & s2 & Hrun2 & Hi2 & _).
  wp_seq. eapply wp_run; [exact Hrun1|]. eapply wp_run; [exact Hrun2|]. split; [done|].
  apply (unyield_all_pushes p) in Hrun1 as [Hu1 Hd1]. apply calm_record_unavail in Hrun2 as [_ Hq2].
  destruct (Hu1 HWs) as [HW1 _]. eapply waits_same; [by apply Hq2|]. rewrite <-(Nat.add_0_r k). by apply Hd1.
Qed.

Lemma round_end_got p r u s :
  inv s → got p r s → 0 <= u →
  wp False (unyield_all;; record_unavail u) (λ _ s', inv s' ∧ on_its_way p s') s.
Proof.
  intros Hi Hg Hu. wp_seq. eapply wp_mono; [by apply unyield_all_spec|]. intros [] s1 (Hi1 & _ & Hpl1).
  eapply wp_mono; [by apply record_unavail_spec|]. intros [] s2 (Hi2 & Hpl2 & _). split; [done|].
  destruct Hg as [c Hc]. exists c. rewrite Hpl2, Hpl1, lookup_fmap. destruct Hc as [->|[-> _]]; auto.
Qed.

(** The round starts [p], or [p] comes nearer by a task for every idle CPU. *)
Lemma GlobalSchedule_serves p k s :
  waiting p k s → NoDup idle → (∀ c, c ∈ idle → c ∈ Cpus (cpus_ s) ∧ idle_at s c) →
  wp False GlobalSchedule (λ _ s', inv s' ∧ (on_its_way p s' ∨ ∃ k', waits p k' s' ∧ (k' + length idle <= k)%nat)) s.
Proof.
  intros Hwa Hnd Hidle. pose proof Hwa as [Hi HWs _ _ Hw]. unfold GlobalSchedule. sched_step. wp_seq.
  eapply wp_mono; [by apply scan_finds|]. intros r s1 (Hsc & [Hu1 Hq1] & Hlen). sched_step. wp_seq.
  assert (waiting p k s1) as Hwa1.
  { eapply (waiting_next p k k s); [done|apply Hsc|done|]. by eapply waits_same; [apply Hq1|]. }
  eapply wp_mono; [apply (assign_loop_waits p k); [done|apply Hsc|unfold measure, qlen, assign_fuel; lia]|].
  intros r2 s2 (Hi2 & Hu2 & Hcase). pose proof (sc_unavail _ _ _ _ Hsc) as [Hu _]. rewrite <-Hu2 in Hu.
  assert (∀ s3, inv s3 → calmly s2 s3 → places s3 = places s2 →
    wp False (unyield_all;; record_unavail (unavail r2))
      (λ _ s', inv s' ∧ (on_its_way p s' ∨ ∃ k', waits p k' s' ∧ (k' + length idle <= k)%nat)) s3) as Hend.
  { intros s3 Hi3 [Hu3 Hq3] Hpl3. destruct Hcase as [Hg|(k' & Hwa2 & Hk')].
    - eapply wp_mono; [apply (round_end_got p r2); [done|unfold got; by rewrite Hpl3|done]|]. intros [] s' [? ?]. auto.
    - eapply wp_mono; [apply (round_end_waits p k'); [|done]|].
      + eapply (waiting_next p k' k' s2); [done..|]. eapply waits_same; [|apply Hwa2]. apply Hq3, Hwa2.
      + intros [] s' [? ?]. split; [done|]. right. exists k'. split; [done|lia]. }
  wp_seq. apply wp_when; intros _; [|by apply Hend]. sched_step. apply Hend; [by eapply inv_call| |done].
  apply (calm_call (SubmitRunRequests (assigned_cpus r2)) s2 r0). unfold call. cbn. by rewrite Hask.
Qed.
End round.

(** ** Runs in which a task waits *)

(** A round that serves [p] has the idle CPUs [idle] to offer. *)
Definition served p (idle : list Cpu) s : Prop :=
  NoDup idle ∧ (∀ c, c ∈ idle → c ∈ Cpus (cpus_ s) ∧ idle_at s c) ∧ enforce_affinity_mask_ s = false ∧
  ∃ W g n, serves W idle g n ∧ W (world_ s) ∧ signed p g n s.

(** Steps that are not about [p], and how many tasks they may put before it. *)
Inductive elsewhere p : nat → NetScheduler → NetScheduler → Prop :=
  | elsewhere_new x g garbage r runnable n s s' :
      x ≠ p → tasks_ s !! x = None → 0 <= r <= cputime (world_ s) g →
      handle x (MSG_TASK_NEW r runnable n) (map_task x (new_task g garbage) s) = Ok (tt, s') → elsewhere p 1 s s'
  | elsewhere_message x t m s s' :
      x ≠ p → tasks_ s !! x = Some t → is_new m = false → honest s t m → (is_departed m = true → place_of t = Off) →
      handle x m s = Ok (tt, s') → elsewhere p 1 s s'
  | elsewhere_advance x t n s : tasks_ s !! x = Some t → elsewhere p 0 s (map_task x (set_seqnum n t) s)
  | elsewhere_global s s' : PickNextGlobalCPU s = Ok (tt, s') → elsewhere p 3 s s'
  | elsewhere_dump b v s s' : DumpState b v s = Ok (tt, s') → elsewhere p 0 s s'
  | elsewhere_call R (e : event R) r s s' : call e s = Ok (r, s') → elsewhere p 0 s s'
  | elsewhere_world w s : (∀ g, cputime (world_ s) g <= cputime w g) → elsewhere p 0 s (set_world_ w s).

(** [wait p offers pushed s s']: a run from [s] to [s'] in which no round
    starts [p]; its rounds had [offers] idle CPUs, and its other steps may have
    put [pushed] tasks before [p]. *)
Inductive wait p : nat → nat → NetScheduler → NetScheduler → Prop :=
  | wait_here s : wait p 0 0 s s
  | wait_round idle offers pushed s s1 s2 :
      served p idle s → GlobalSchedule s = Ok (tt, s1) → ¬ on_its_way p s1 →
      wait p offers pushed s1 s2 → wait p (length idle + offers) pushed s s2
  | wait_other k offers pushed s s1 s2 :
      elsewhere p k s s1 → wait p offers pushed s1 s2 → wait p offers (k + pushed) s s2.

Lemma elsewhere_step p k s s' : elsewhere p k s s' → step s s'.
Proof.
  destruct 1; [by eapply step_new|by eapply step_message|by eapply step_advance|by eapply step_global
    |by eapply step_dump|by eapply step_call|by eapply step_world].
Qed.

Lemma elsewhere_delay p k s s' : elsewhere p k s s' → delay p k s s'.
Proof.
  destruct 1 as [x g garbage r b n s s' Hx _ _ Hrun|x t m s s' Hx _ _ _ _ Hrun| | | | |].
  - by apply (handle_delays p x _ Hx) in Hrun.
  - by eapply handle_delays.
  - by apply delay_same.
  - by eapply PickNextGlobalCPU_delays.
  - by eapply delay_same, same_DumpState.
  - by eapply delay_same, same_call.
  - by apply delay_same.
Qed.

Lemma served_round p k idle s :
  inv s → waits p k s → served p idle s →
  ∃ s', GlobalSchedule s = Ok (tt, s') ∧ (on_its_way p s' ∨ ∃ k', waits p k' s' ∧ (k' + length idle <= k)%nat).
Proof.
  intros Hi Hw (Hnd & Hidle & He & W & g & n & HW & HWs & Hsg).
  destruct (wp_total _ _ _ (GlobalSchedule_serves W idle g n HW p k s ltac:(by split) Hnd Hidle)) as ([] & s' & Hrun & _ & Hcase).
  eauto.
Qed.

(** Every idle CPU offered brings a waiting task nearer. *)
Lemma wait_bound p offers pushed s s' k :
  wait p offers pushed s s' → inv s → waits p k s → ∃ k', waits p k' s' ∧ (k' + offers <= k + pushed)%nat.
Proof.
  intros Hr. revert k. induction Hr as [s|idle offers pushed s s1 s2 Hsv Hrun Hno Hr IH|j offers pushed s s1 s2 Hel Hr IH];
    intros k Hi Hw.
  - exists k. split; [done|lia].
  - destruct (served_round p k idle s Hi Hw Hsv) as (s1' & Hrun' & Hcase). rewrite Hrun in Hrun'. injection Hrun' as <-.
    destruct Hcase as [?|(k1 & Hw1 & Hk1)]; [done|].
    destruct (IH k1 (step_inv _ _ Hi (step_schedule _ _ Hrun)) Hw1) as (k2 & Hw2 & Hk2). exists k2. split; [done|lia].
  - destruct (IH (k + j)%nat (step_inv _ _ Hi (elsewhere_step _ _ _ _ Hel)) (elsewhere_delay _ _ _ _ Hel k Hw)) as (k2 & Hw2 & Hk2).
    exists k2. split; [done|lia].
Qed.

Lemma waits_at p i s : run_queue_ s !! i = Some p → waits p (i + length (yielding_tasks_ s)) s.
Proof.
  intros Hi. exists (take i (run_queue_ s)), (drop (S i) (run_queue_ s)). split; [by rewrite take_drop_middle|].
  rewrite length_take. lia.
Qed.

Lemma waits_queued p k s : waits p k s → p ∈ run_queue_ s.
Proof. intros (f & r & -> & _). apply elem_of_app. right. left. Qed.

End fair.
