(* ===== verification/NetAgentSpec.v ===== *)
(** * Runs of the agents

    What the dispatcher of the ghOSt library does with a message, and that an
    agent thread on top of it keeps the scheduler in the states that runs of
    [NetSchedulerReach.step] reach. *)
From S2P Require Import Prelude StateMonad Ghost CgroupWatcher NetTask NetScheduler NetSchedulerInv NetSchedulerOps.
From S2P Require Import NetSchedulerCallbacks NetSchedulerRound NetAgent NetSchedulerReach.
Open Scope Z_scope.

Section agents.
Context `{Topology, !CpuListLaws, !Kernel, !KernelLaws}.
Implicit Types (s : NetScheduler) (p : ptr) (t : NetTask) (c : Cpu).

(** The dispatcher allocates the task of a new thread; for another thread it
    records the sequence number of the message; then it calls the callback.  A
    message to no task is dropped. *)
Inductive delivers s : run_result NetScheduler unit → Prop :=
  | delivers_new p g garbage r runnable n :
      tasks_ s !! p = None → 0 <= r <= cputime (world_ s) g →
      delivers s (handle p (MSG_TASK_NEW r runnable n) (map_task p (new_task g garbage) s))
  | delivers_message p t m n :
      tasks_ s !! p = Some t → is_new m = false → honest s t m → (is_departed m = true → place_of t = Off) →
      delivers s (handle p m (map_task p (set_seqnum n t) s))
  | delivers_nothing : delivers s (Ok (tt, s)).

(** [w'] is the world some time after [w]. *)
Definition later (w w' : world) : Prop := ∀ g, cputime w g <= cputime w' g.

(** [Peek] and [Consume] are about the channel only; a message in the channel
    is delivered. *)
Class DispatcherLaws `{!Dispatcher} := {
  Peek_world s : ∃ msg w, Peek s = Ok (msg, set_world_ w s) ∧ later (world_ s) w;
  Consume_world msg s : ∃ w, Consume msg s = Ok (tt, set_world_ w s) ∧ later (world_ s) w;
  Dispatch_delivers msg s0 s : reachable s → Peek s0 = Ok (Some msg, s) → delivers s (DispatchMessage msg s);
}.

Context `{!Dispatcher, !DispatcherLaws}.

(** A callback aborted the process. *)
Definition refused : Prop :=
  ∃ s0 msg s e s', reachable s ∧ Peek s0 = Ok (Some msg, s) ∧ DispatchMessage msg s = Exit e s'.

(** What may come out of a run: a reachable state, the end of the process in a
    callback or because the kernel turned a request down, or the end of the fuel. *)
Definition goes_on {A} (o : run_result NetScheduler A) : Prop :=
  match o with Ok (_, s) => reachable s | Exit _ _ => refused ∨ unschedule_refused | Fault f => f = OutOfFuel end.

Lemma goes_on_bind {A B} (m : eff NetScheduler A) (k : A → eff NetScheduler B) s :
  goes_on (m s) → (∀ a s', m s = Ok (a, s') → reachable s' → goes_on (k a s')) → goes_on ((m ≫= k) s).
Proof. unfold mbind, eff_bind. destruct (m s) as [[a s']| |]; eauto. Qed.

Lemma goes_on_call {R} (e : event R) s : reachable s → goes_on (call e s).
Proof.
  intros Hs. destruct (call e s) as [[r s']| |] eqn:Hc; cbn; [by eapply reachable_step, step_call|..];
    unfold call in Hc; by destruct (ask e (world_of s)).
Qed.

Lemma goes_on_world {A} (m : eff NetScheduler A) a w s :
  reachable s → m s = Ok (a, set_world_ w s) → later (world_ s) w → goes_on (m s).
Proof. intros Hs -> Hw. by eapply reachable_step, step_world. Qed.

Lemma reachable_advance s p t n : reachable s → tasks_ s !! p = Some t → reachable (map_task p (set_seqnum n t) s).
Proof. intros Hs Hp. by eapply reachable_step, step_advance. Qed.

(** A message that is delivered leads to a reachable state or ends the process. *)
Lemma delivers_goes_on s o : reachable s → delivers s o → match o with Ok (_, s') => reachable s' | Exit _ _ => True | Fault _ => False end.
Proof.
  intros Hs Hd. pose proof (reachable_holds_inv _ Hs) as Hi. destruct Hd as [p g garbage r b n Hp Hr|p t m n Hp Hnew Hhon Hdep|]; [| |done].
  - pose proof (TaskNew_spec True p g garbage r b n s Hi Hp Hr (λ _ _, I)) as Hwp. unfold wp in Hwp. cbn [handle] in *.
    destruct (TaskNew _ _ _ _ _) as [[[] s']| |] eqn:Hrun; [|done..]. eapply reachable_step; [exact Hs|]. by eapply step_new.
  - pose proof (reachable_advance s p t n Hs Hp) as Hs1. pose proof (reachable_holds_inv _ Hs1) as Hi1.
    assert (tasks_ (map_task p (set_seqnum n t) s) !! p = Some (set_seqnum n t)) as Hp1 by apply lookup_insert_eq.
    pose proof (handle_spec True p _ m _ Hi1 Hp1 Hnew Hhon Hdep (or_introl I)) as Hwp. unfold wp in Hwp.
    destruct (handle _ _ _) as [[[] s']| |] eqn:Hrun; [|done..]. eapply reachable_step; [exact Hs1|].
    by apply (step_message _ p (set_seqnum n t) m).
Qed.

Lemma drain_goes_on fuel s : reachable s → goes_on (drain fuel s).
Proof.
  revert s. induction fuel as [|fuel IH]; intros s Hs; cbn [drain]; [done|].
  apply goes_on_bind.
  { destruct (Peek_world s) as (msg & w & Hpeek & Hw). by eapply goes_on_world. }
  intros [msg|] s1 Hpeek Hs1; [|done]. apply goes_on_bind.
  - pose proof (delivers_goes_on _ _ Hs1 (Dispatch_delivers msg s s1 Hs1 Hpeek)) as Hd. unfold goes_on.
    destruct (DispatchMessage msg s1) as [[]| |] eqn:Hrun; [done| |done]. left. do 5 eexists. eauto.
  - intros [] s2 _ Hs2. apply goes_on_bind; [|intros [] s3 _ Hs3; by apply IH].
    destruct (Consume_world msg s2) as (w & Hc & Hw). by eapply goes_on_world.
Qed.

Lemma GlobalSchedule_goes_on s : reachable s → goes_on (GlobalSchedule s).
Proof.
  intros Hs. destruct (wp_total _ _ _ (GlobalSchedule_spec False s (reachable_holds_inv _ Hs))) as ([] & s' & Hrun & _).
  rewrite Hrun. by eapply reachable_step, step_schedule.
Qed.

Lemma PickNextGlobalCPU_goes_on s : reachable s → goes_on (PickNextGlobalCPU s).
Proof.
  intros Hs. pose proof (PickNextGlobalCPU_spec unschedule_refused s (reachable_holds_inv _ Hs) id) as Hwp. unfold wp in Hwp.
  destruct (PickNextGlobalCPU s) as [[[] s']| |] eqn:Hrun; cbn; [by eapply reachable_step, step_global|by right|done].
Qed.

Lemma agent_iteration_goes_on fuel c s : reachable s → goes_on (agent_iteration fuel c s).
Proof.
  intros Hs. unfold agent_iteration. apply goes_on_bind; [by apply goes_on_call|]. intros b s1 _ Hs1.
  apply goes_on_bind; [done|]. intros global s2 _ Hs2. destruct (negb _); [by apply goes_on_call|].
  apply goes_on_bind; [by apply goes_on_call|]. intros [] s3 _ Hs3; [by apply PickNextGlobalCPU_goes_on|].
  apply goes_on_bind; [by apply drain_goes_on|]. intros [] s4 _ Hs4. by apply GlobalSchedule_goes_on.
Qed.

Lemma agent_loop_goes_on fuel msgs c s : reachable s → goes_on (agent_loop fuel msgs c s).
Proof.
  revert s. induction fuel as [|fuel IH]; intros s Hs; cbn [agent_loop]; [done|].
  apply goes_on_bind; [by apply goes_on_call|]. intros [] s1 _ Hs1; [done|].
  apply goes_on_bind; [by apply agent_iteration_goes_on|]. intros [] s2 _ Hs2. by apply IH.
Qed.

Lemma AgentThread_goes_on fuel msgs c s : reachable s → goes_on (AgentThread fuel msgs c s).
Proof.
  intros Hs. unfold AgentThread. apply goes_on_bind; [by apply goes_on_call|]. intros [] s1 _ Hs1.
  apply goes_on_bind; [by apply goes_on_call|]. intros [] s2 _ Hs2. by apply agent_loop_goes_on.
Qed.

(** The agent of another CPU than the global one only yields. *)
Lemma satellite_yields fuel c s :
  c ≠ global_cpuid_ s → ∃ w, agent_iteration fuel c s = Ok (tt, set_world_ w s).
Proof.
  intros Hc. unfold agent_iteration. destruct (ask (AgentBarrier c) (world_ s)) as [b w1] eqn:Hb.
  erewrite eff_bind_Ok by (unfold call; cbn; by rewrite Hb). erewrite eff_bind_Ok by done. cbn [with_world calls_scheduler].
  change (global_cpuid_ (set_world_ w1 s)) with (global_cpuid_ s). rewrite bool_decide_eq_false_2 by done.
  unfold call. cbn. destruct (ask (LocalYield c b) w1) as [[] w2]. eauto.
Qed.

(** ** Construction and destruction *)

(** The global agent's CPU is the configured one, a CPU of the enclave. *)
Lemma configured_global globalcpu ghost_cpus enforce config globalcpu' hist garbage w :
  ParseNetConfig globalcpu ghost_cpus enforce = Some (config, globalcpu') →
  ∃ s, new_full_agent config hist garbage w = Some s ∧ cpus_ s = ghost_cpus ∧ enforce_affinity_mask_ s = enforce ∧
    Z.of_nat (global_cpuid_ s) = globalcpu' ∧ IsSet ghost_cpus (global_cpuid_ s) = true ∧
    (globalcpu = -1 → head (Cpus ghost_cpus) = Some (global_cpuid_ s)) ∧ (0 <= globalcpu → globalcpu' = globalcpu) ∧
    global_cpuid_ s = config_global_cpu config.
Proof.
  unfold ParseNetConfig, new_full_agent, new_scheduler. destruct (1 <? _); cbn [negb]; [|done].
  destruct (Z.ltb_spec globalcpu 0) as [Hneg|Hpos].
  - destruct (Z.eqb_spec globalcpu (-1)) as [->|]; [|done].
    destruct (head (Cpus ghost_cpus)) as [c|] eqn:Hh; cbn; [|done]. rewrite Nat2Z.id.
    destruct (IsSet ghost_cpus c) eqn:Hset; [|done]. intros [= <- <-]. cbn. rewrite Hset. cbn. eexists. split_and!; done.
  - cbn. destruct (IsSet ghost_cpus (Z.to_nat globalcpu)) eqn:Hset; [|done]. intros [= <- <-]. cbn. rewrite Hset. cbn.
    eexists. split_and!; try done; cbn; lia.
Qed.

Lemma swap_front_perm (l : list Cpu) d it :
  l !! d = Some it → match l with front :: _ => <[0%nat := it]> (<[d := front]> l) ≡ₚ l | [] => True end.
Proof.
  destruct l as [|front rest]; [done|]. destruct d as [|d]; cbn; intros Hd; [by injection Hd as ->|].
  change (it :: <[d:=front]> rest ≡ₚ front :: rest). rewrite <-(take_drop_middle rest d it Hd) at 2. rewrite insert_take_drop by (by eapply lookup_lt_Some).
  by rewrite <-!Permutation_middle, Permutation_swap.
Qed.

(** The destructor terminates every agent once, the global one first. *)
Lemma destroy_agents_order agents s :
  run_queue_ s = [] → run_queue_low_priority_ s = [] → global_cpuid_ s ∈ agents →
  ∃ order, destroy_agents agents s = Ok (order, s) ∧ order ≡ₚ agents ∧ head order = Some (global_cpuid_ s).
Proof.
  intros Hq Hl Hin.
  assert (bring_to_front (global_cpuid_ s) agents ≡ₚ agents ∧
          head (bring_to_front (global_cpuid_ s) agents) = Some (global_cpuid_ s)) as [Hp Hh].
  { unfold bring_to_front. case_bool_decide as Hf; [done|].
    destruct (list_find _ agents) as [[d it]|] eqn:Hfind.
    - apply list_find_Some in Hfind as (Hd & -> & _). pose proof (swap_front_perm _ _ _ Hd) as Hp.
      destruct agents as [|front rest]; [done|]. split; [done|]. by destruct d.
    - exfalso. rewrite list_find_None, Forall_forall in Hfind. by apply (Hfind _ Hin). }
  eexists. split; [|split; [exact Hp|exact Hh]].
  assert (ValidatePreExitState s = Ok (tt, s)) as Hval.
  { unfold ValidatePreExitState. erewrite eff_bind_Ok by done. by rewrite Hq, Hl. }
  unfold destroy_agents. erewrite eff_bind_Ok by exact Hval. erewrite eff_bind_Ok by done.
  rewrite Hh, bool_decide_eq_true_2 by done. done.
Qed.

End agents.
