(* ===== verification/NetAgentMain.v ===== *)
(** * Runs of the agent process's main function

    From the flags to the exit status: the calls that make up the life of the
    agents, and that the loop over the control groups ends when the signal has
    come. *)
From S2P Require Import Prelude StateMonad Ghost CgroupWatcher CgroupSpec NetTask NetScheduler NetAgent.
Open Scope Z_scope.

Section runs.
Context `{Topology, !Kernel}.
(** The arguments of the scrapes. *)
Context (depth : nat) (cwd : string) (rules : list (string * string)).

(** The calls that start and end the agents, and the scrapes and sleeps between. *)
Inductive milestone :=
  | AgentsStarted (cpus : CpuList) (global_cpu : Cpu) (enforce_affinity : bool)
  | CoreInitialised
  | EnclaveChosen
  | Handles (signum : Z)
  | Scraped
  | Slept
  | AgentsStopped.

Definition milestone_of {R} (e : event R) : option milestone :=
  match e with
  | NewAgentProcess cpus global_cpu enforce => Some (AgentsStarted cpus global_cpu enforce)
  | InitCore => Some CoreInitialised
  | SetGlobalEnclaveCtlFdOnce => Some EnclaveChosen
  | AddHandler signum => Some (Handles signum)
  | nanosleep _ => Some Slept
  | DeleteAgentProcess => Some AgentsStopped
  | _ => None
  end.

(** [runs w l w']: some calls lead from [w] to [w'], with the milestones [l]; a
    scrape is a complete run of [ScrapeCgroups]. *)
Inductive runs : world → list milestone → world → Prop :=
  | runs_nil w : runs w [] w
  | runs_scrape l n w w1 w' : ScrapeCgroups depth cwd rules w = Ok (n, w1) → runs w1 l w' → runs w (Scraped :: l) w'
  | runs_call R (e : event R) l w w' : runs (ask e w).2 l w' → runs w (option_list (milestone_of e) ++ l) w'.

Lemma runs_app w l w' l' w'' : runs w l w' → runs w' l' w'' → runs w (l ++ l') w''.
Proof.
  induction 1 as [|l n w w1 w' Hs Hr IH|R e l w w' Hr IH]; intros Hr'; [done| |].
  - cbn. by eapply runs_scrape, IH.
  - rewrite <-app_assoc. by apply runs_call, IH.
Qed.

Lemma runs_one {R} (e : event R) w : runs w (option_list (milestone_of e)) (ask e w).2.
Proof. rewrite <-(app_nil_r (option_list _)). by apply runs_call, runs_nil. Qed.

(** Calls without milestones. *)
Definition quiet (w w' : world) : Prop := runs w [] w'.

Global Instance quiet_preorder : PreOrder quiet.
Proof. split; [intros w; apply runs_nil|intros w1 w2 w3; apply (runs_app w1 [] w2 [])]. Qed.

Lemma quiet_call {R} (e : event R) : milestone_of e = None → steps quiet (call e).
Proof.
  intros He w r w'. unfold call. cbn. pose proof (runs_one e w) as Hr. rewrite He in Hr.
  destruct (ask e w) as [r' w1]. by intros [= <- <-].
Qed.

End runs.

#[export] Hint Resolve quiet_call : steps.

Section scrapes.
Context `{Topology, !Kernel} (depth : nat) (cwd : string) (rules : list (string * string)).
Local Abbreviation quiet := (quiet depth cwd rules).

Lemma quiet_MoveTasksToGhost path pattern : steps quiet (MoveTasksToGhost path pattern).
Proof. unfold MoveTasksToGhost, move_line, MoveToScheduler, GetTaskName. auto 20 with steps. Qed.
Hint Resolve quiet_MoveTasksToGhost : steps.

Lemma quiet_ScrapeDirectory fuel skipdir rules' path : steps quiet (ScrapeDirectory fuel skipdir rules' path).
Proof.
  revert path. induction fuel as [|fuel IH]; intros path; cbn [ScrapeDirectory]; [apply steps_fail|].
  unfold substr, apply_rule. auto 20 with steps.
Qed.

End scrapes.

(** ** Waiting for the signal *)

(** The signal comes during the [remaining w]-th sleep from now: until then
    the notification is not set, and a sleep returns 0 or is interrupted. *)
Record awaits `{Kernel} (W : world → Prop) (remaining : world → nat) : Prop := {
  aw_notified w : W w → (ask HasBeenNotified w).1 = (remaining w =? 0)%nat;
  aw_sleep ns w : W w → 0 < ns →
    remaining (ask (nanosleep ns) w).2 = pred (remaining w) ∧
    ((ask (nanosleep ns) w).1 = None ∨ (ask (nanosleep ns) w).1 = Some EINTR);
  aw_other R (e : event R) w : W w →
    match e with nanosleep _ => True | _ => remaining (ask e w).2 = remaining w end;
}.

Section main.
Context `{Topology, !Kernel}.
Context (W : world → Prop) (names : Z → option string) (tasks : string → option string).
Context (subdirs : string → list string) (cls : world → Z → Z) (willing : Z → bool).
Context (HS : steady W names tasks subdirs cls willing).
Context (remaining : world → nat) (HA : awaits W remaining).
Context (cwd : string) (Hcwd : ∀ w, W w → (ask current_path w).1 = cwd).
Context (rules : list (string * string)) (depth : nat) (Hdepth : shallow subdirs depth kCgroupPathPrefix).
Context (Hlines : ∀ q line, visits subdirs cwd kCgroupPathPrefix q → line ∈ task_lines tasks q → is_Some (stoi line)).

Local Abbreviation runs := (runs depth cwd rules).

(** The threads that the rules select and that can be moved. *)
Definition chosen (t : Z) : Prop :=
  (∃ q, visits subdirs cwd kCgroupPathPrefix q ∧ selected tasks names rules q t) ∧ willing t = true.

(** The chosen threads are in ghOSt, the others are where they were. *)
Definition scraped (w w' : world) : Prop :=
  ∀ t, (chosen t → cls w' t = SCHED_GHOST) ∧ (¬ chosen t → cls w' t = cls w t).

(** [w'] is like [w] for the classes of threads and the signal. *)
Definition alike (w w' : world) : Prop := W w' ∧ remaining w' = remaining w ∧ ∀ t, cls w' t = cls w t.

Lemma alike_trans w w1 w2 : alike w w1 → alike w1 w2 → alike w w2.
Proof. intros (? & ? & Hc) (? & ? & Hc'). split_and!; [done|congruence|]. intros t. by rewrite Hc', Hc. Qed.

(** Calls that neither sleep nor move threads. *)
Definition plain {R} (e : event R) : bool :=
  match e with SchedTaskEnterGhost _ | sched_setscheduler _ _ | nanosleep _ => false | _ => true end.

Lemma alike_call {R} (e : event R) w : plain e = true → W w → alike w (ask e w).2.
Proof.
  intros He HW. pose proof (sy_same _ _ _ _ _ _ HS R e w) as Hc. pose proof (aw_other _ _ HA R e w HW) as Hr.
  split_and!; [by apply (sy_call _ _ _ _ _ _ HS)|by destruct e|]. intros t. specialize (Hc t HW). by destruct e.
Qed.

(** What a step of [main] from [w] leads to: milestones [l], and the classes
    of threads as before. *)
Lemma wp_plain {R} (e : event R) l w0 Q w :
  plain e = true → W w → runs w0 l w →
  (∀ w', runs w0 (l ++ option_list (milestone_of e)) w' → alike w w' → Q (ask e w).1 w') →
  wp False (call e) Q w.
Proof.
  intros He HW Hl HQ. unfold wp, call. cbn. pose proof (runs_one depth cwd rules e w) as Hr. pose proof (alike_call e w He HW) as Ha.
  destruct (ask e w) as [r w']. apply HQ; [|done]. by eapply runs_app.
Qed.

(** A sleep takes one call, which may be interrupted. *)
Lemma SleepFor_once duration l w0 w :
  0 < duration <= kMaxSleep → W w → runs w0 l w →
  wp False (SleepFor 3 duration)
    (λ _ w', W w' ∧ runs w0 (l ++ [Slept]) w' ∧ remaining w' = pred (remaining w) ∧ ∀ t, cls w' t = cls w t) w.
Proof.
  intros Hd HW Hl. cbn [SleepFor]. destruct (Z.ltb_spec 0 duration) as [_|]; [|lia]. rewrite Z.min_l by lia.
  destruct (aw_sleep _ _ HA duration w HW) as [Hr Hret]; [lia|].
  pose proof (sy_call _ _ _ _ _ _ HS _ (nanosleep duration) w HW) as HW'.
  pose proof (sy_same _ _ _ _ _ _ HS _ (nanosleep duration) w) as Hc. cbn in Hc.
  pose proof (runs_app _ _ _ _ _ _ _ _ Hl (runs_one _ _ _ (nanosleep duration) w)) as Hl'. cbn in Hl'.
  wp_seq. unfold wp, call. cbn. destruct (ask (nanosleep duration) w) as [r w']. cbn in *.
  assert (∀ t, cls w' t = cls w t) as Hc' by auto. rewrite Z.sub_diag.
  destruct Hret as [->| ->]; cbn; auto.
Qed.

(** Without a sleep the signal does not come nearer. *)
Lemma quiet_remaining w w' : runs w [] w' → W w → remaining w' = remaining w.
Proof.
  remember [] as l eqn:Hl. induction 1 as [|l n w w1 w' _ _ _|R e l w w' Hr IH]; intros HW; [done|done|].
  apply app_eq_nil in Hl as [He ->]. rewrite IH by (done || by apply (sy_call _ _ _ _ _ _ HS)).
  pose proof (aw_other _ _ HA R e w HW). by destruct e.
Qed.

Lemma scrape_once l w0 w :
  W w → runs w0 l w →
  wp False (ScrapeCgroups depth cwd rules) (λ _ w', W w' ∧ runs w0 (l ++ [Scraped]) w' ∧ remaining w' = remaining w ∧ scraped w w') w.
Proof.
  intros HW Hl.
  destruct (wp_total _ _ _ (ScrapeDirectory_steady W names tasks subdirs cls willing HS cwd rules depth kCgroupPathPrefix w
    HW Hdepth (le_n _) Hlines)) as (n & w' & Hrun & HW' & _ & M & _ & HM & Hc).
  eapply wp_run; [exact Hrun|]. pose proof (quiet_ScrapeDirectory depth cwd rules _ _ _ _ _ _ _ Hrun) as Hq.
  split_and!; [done|eapply runs_app; [exact Hl|]; eapply runs_scrape; [exact Hrun|apply runs_nil]|by apply quiet_remaining|].
  intros t. rewrite Hc. unfold chosen. split.
  - intros [Hv Hw]. case_bool_decide as Ht; [done|]. destruct (decide (cls w t = SCHED_GHOST)); [done|]. destruct Ht. by apply HM.
  - intros Hno. rewrite bool_decide_eq_false_2; [done|]. intros (? & ? & _)%HM. by destruct Hno.
Qed.

Lemma scraped_trans w w1 w2 : scraped w w1 → scraped w1 w2 → scraped w w2.
Proof.
  intros H1' H2' t. destruct (H1' t), (H2' t). split; [auto|]. intros Hn. by transitivity (cls w1 t); auto.
Qed.

(** The classes after [n] rounds. *)
Definition scraped_n (n : nat) (w w' : world) : Prop :=
  match n with O => ∀ t, cls w' t = cls w t | S _ => scraped w w' end.

Lemma scraped_classes w w1 w2 w3 :
  (∀ t, cls w1 t = cls w t) → scraped w1 w2 → (∀ t, cls w3 t = cls w2 t) → scraped w w3.
Proof. intros He Hs He' t. destruct (Hs t). rewrite He', <-He. done. Qed.

(** The loop ends with the signal, after as many scrapes and sleeps. *)
Lemma scrape_loop_ends fuel period l w0 w :
  0 < period <= kMaxSleep → W w → runs w0 l w → (remaining w < fuel)%nat →
  wp False (scrape_loop fuel depth cwd rules period)
    (λ _ w', W w' ∧ runs w0 (l ++ concat (replicate (remaining w) [Scraped; Slept])) w' ∧ scraped_n (remaining w) w w') w.
Proof.
  intros Hp. revert l w. induction fuel as [|fuel IH]; intros l w HW Hl Hf; [lia|]. cbn [scrape_loop].
  wp_seq. eapply wp_plain; [done..|]. cbn [milestone_of option_list]. rewrite app_nil_r.
  intros w1 Hl1 (HW1 & Hr1 & Hc1). rewrite (aw_notified _ _ HA w HW). destruct (Nat.eqb_spec (remaining w) 0) as [Hz|Hz].
  { apply wp_ret. rewrite Hz. cbn. by rewrite app_nil_r. }
  wp_seq. eapply wp_mono; [by eapply scrape_once|]. intros moved w2 (HW2 & Hl2 & Hr2 & Hs2).
  wp_seq. eapply (wp_mono _ _ (λ _ w3, runs w0 (l ++ [Scraped]) w3 ∧ alike w2 w3)).
  { apply wp_when; intros _; [|by split; [|split_and!]]. eapply wp_plain; [done..|].
    cbn [milestone_of option_list]. rewrite app_nil_r. auto. }
  intros [] w3 (Hl3 & HW3 & Hr3 & Hc3). wp_seq. eapply wp_mono; [by eapply SleepFor_once|].
  intros [] w4 (HW4 & Hl4 & Hr4 & Hc4). assert (remaining w = S (remaining w4)) as Hrem by lia.
  eapply wp_mono; [apply IH; [done..|lia]|]. intros [] w5 (HW5 & Hl5 & Hs5). rewrite Hrem. cbn [replicate concat app scraped_n].
  rewrite <-!app_assoc in Hl5. split_and!; [done..|].
  assert (scraped w w4) as Hs4 by (eapply scraped_classes; [exact Hc1|exact Hs2|]; intros t; by rewrite Hc4, Hc3).
  destruct (remaining w4); cbn in Hs5; [|by eapply scraped_trans].
  by eapply scraped_classes; [|exact Hs4|exact Hs5].
Qed.

(** Before the loop. *)
Definition prefix_of_main (w0 : world) (l : list milestone) (w : world) : Prop := runs w0 l w ∧ alike w0 w.

Lemma wp_prefix {R A} (e : event R) (k : R → eff world A) l w0 Q w :
  plain e = true → prefix_of_main w0 l w →
  (∀ w', prefix_of_main w0 (l ++ option_list (milestone_of e)) w' → wp False (k (ask e w).1) Q w') →
  wp False (call e ≫= k) Q w.
Proof.
  intros He (Hl & Ha) Hk. wp_seq. pose proof Ha as (HW & _). eapply wp_plain; [done..|]. intros w' Hl' Ha'.
  apply Hk. split; [done|]. by eapply alike_trans.
Qed.

Lemma print_config_prefix CpuList_text Cpu_text config l w0 w :
  prefix_of_main w0 l w → wp False (print_config CpuList_text Cpu_text config) (λ _ w', prefix_of_main w0 l w') w.
Proof.
  intros Hpre. unfold print_config.
  do 3 (eapply wp_prefix; [done|exact Hpre|]; clear Hpre; cbn [milestone_of option_list]; rewrite app_nil_r; intros ? Hpre).
  by apply wp_ret.
Qed.

(** The milestones of [main]. *)
Definition life (config : NetConfig) (n : nat) : list milestone :=
  [AgentsStarted (config_cpus config) (config_global_cpu config) (config_enforce_affinity config);
   CoreInitialised; EnclaveChosen; Handles SIGINT; Handles SIGUSR1] ++ concat (replicate n [Scraped; Slept]) ++ [AgentsStopped].

Lemma main_ends fuel ParseCpuStr all_cores CpuList_text Cpu_text fl config globalcpu w :
  ParseNetConfig (FLAGS_globalcpu fl) (ParseCpuStr (FLAGS_ghost_cpus fl)) (FLAGS_enforce_affinity fl) = Some (config, globalcpu) →
  0 < FLAGS_cgroup_period fl <= kMaxSleep → W w → (remaining w < fuel)%nat →
  wp False (main fuel depth ParseCpuStr all_cores CpuList_text Cpu_text rules fl)
    (λ ret w', ret = 0 ∧ runs w (life config (remaining w)) w' ∧ scraped_n (remaining w) w w') w.
Proof.
  intros Hcfg Hp HW Hf. unfold main. rewrite Hcfg. wp_seq. change (wp False ?m ?Q w) with (Q config w). cbv beta.
  assert (prefix_of_main w [] w) as Hpre by (split; [apply runs_nil|done]).
  wp_seq. eapply wp_mono; [by apply print_config_prefix|]. clear Hpre. intros [] ? Hpre.
  do 9 (eapply wp_prefix; [done|exact Hpre|]; clear Hpre; cbn [milestone_of option_list app]; intros ? Hpre).
  eapply wp_prefix; [done|exact Hpre|]. cbn [milestone_of option_list app]. rewrite Hcwd by apply Hpre.
  intros w1 (Hl1 & HW1 & Hr1 & Hc1).
  wp_seq. eapply wp_mono; [eapply scrape_loop_ends; [done..|lia]|]. rewrite Hr1. intros [] w2 (HW2 & Hl2 & Hs2).
  wp_seq. eapply wp_plain; [done..|]. intros w3 Hl3 (HW3 & Hr3 & Hc3).
  wp_seq. eapply wp_plain; [done..|]. intros w4 Hl4 (HW4 & Hr4 & Hc4). apply wp_ret. split_and!; [done| |].
  - cbn in Hl4. rewrite app_nil_r in Hl4. exact Hl4.
  - destruct (remaining w); cbn in *; [intros t; by rewrite Hc4, Hc3, Hs2, Hc1|].
    eapply scraped_classes; [exact Hc1|exact Hs2|]. intros t. by rewrite Hc4, Hc3.
Qed.
End main.
