(* ===== verification/GhostReference.v ===== *)
(** * Reference instances of the ghOSt interfaces

    CPU sets as bit maps, a topology of eight CPUs on two nodes, and a small
    machine that answers every call: they show that the laws of [Ghost] can be
    met, and they run the examples. *)
From S2P Require Import Prelude StateMonad Ghost.
Open Scope Z_scope.

Module Reference.

(** ** Bit maps *)
Definition has (l : N) (c : nat) : bool := N.testbit l (N.of_nat c).
Definition bits (l : N) : list nat := filter (λ c, has l c = true) (seq 0 (S (N.to_nat (N.log2 l)))).

Global Instance bitmaps : CpuLists := {|
  CpuList := N;
  EmptyCpuList := 0%N;
  IsSet := has;
  SetCpu l c := N.setbit l (N.of_nat c);
  ClearCpu l c := N.clearbit l (N.of_nat c);
  Intersection := N.land;
  Empty l := bool_decide (bits l = []);
  Front l := head (bits l);
  Cpus := bits;
|}.

Lemma has_bound l c : has l c = true → (c < S (N.to_nat (N.log2 l)))%nat.
Proof.
  unfold has. intros Hc. destruct (N.lt_ge_cases (N.log2 l) (N.of_nat c)) as [Hlt|Hle]; [|lia].
  by rewrite N.bits_above_log2 in Hc.
Qed.

(** A longer range has the same elements of a bounded set. *)
Lemma filter_seq (P : nat → Prop) `{∀ c, Decision (P c)} n m :
  (∀ c, P c → c < n)%nat → (n <= m)%nat → filter P (seq 0 m) = filter P (seq 0 n).
Proof.
  intros HP Hnm. replace m with (n + (m - n))%nat by lia. rewrite seq_app, filter_app.
  assert (filter P (seq (0 + n) (m - n)) = []) as ->; [|by rewrite app_nil_r].
  destruct (filter P _) as [|c l] eqn:Hf; [done|]. exfalso.
  assert (c ∈ filter P (seq (0 + n) (m - n))) as Hc by (rewrite Hf; left).
  apply list_elem_of_filter in Hc as [Hc Hin%elem_of_seq]. apply HP in Hc. lia.
Qed.

Global Instance bitmap_laws : CpuListLaws.
Proof.
  split.
  - intros l c. unfold Cpus, IsSet, bitmaps, bits. rewrite list_elem_of_filter, elem_of_seq.
    split; [by intros [? _]|]. intros Hc. split; [done|]. apply has_bound in Hc. lia.
  - intros l. apply NoDup_filter, NoDup_seq.
  - done.
  - intros l c d. cbn. unfold has. case_bool_decide as Hcd; cbn.
    + subst. apply N.setbit_eq.
    + apply N.setbit_neq. lia.
  - intros l c d. cbn. unfold has. case_bool_decide as Hcd; cbn.
    + subst. apply N.clearbit_eq.
    + apply N.clearbit_neq. lia.
  - intros l k. unfold Cpus, IsSet, Intersection, bitmaps, bits. rewrite list_filter_filter.
    set (n := Nat.max (S (N.to_nat (N.log2 l))) (S (N.to_nat (N.log2 (N.land l k))))).
    rewrite <-(filter_seq (λ c, has (N.land l k) c = true) _ n); [|apply has_bound|lia].
    rewrite <-(filter_seq _ (S (N.to_nat (N.log2 l))) n); [|intros c [_ Hc]; by apply has_bound|lia].
    apply list_filter_iff. intros c. unfold has. rewrite N.land_spec, andb_true_iff. tauto.
  - done.
  - done.
Qed.

(** ** Eight CPUs: cores of two, two nodes *)
Global Program Instance eight_cpus : Topology := {|
  siblings c := N.lor (N.setbit 0 (N.of_nat (2 * (c / 2)))) (N.setbit 0 (N.of_nat (2 * (c / 2) + 1)));
  l3_siblings c := if (c <? 4)%nat then 15%N else 240%N;
  numa_node c := Z.of_nat (c / 4);
  MAX_CPUS := 8;
|}.
Next Obligation. done. Qed.

(** ** The machine

    Threads that have not been assigned a class are in [SCHED_OTHER]; a
    committed transaction reports [m_txn]; CPUs in [m_busy] belong to another
    scheduling class, threads in [m_running] are on a CPU.  [m_inbox] has the messages of new
    threads: where their tasks will be, and the threads; [m_signal] is after how
    many sleeps the main process gets its signal. *)
Record machine := {
  m_open : list nat; m_txn : txn_state; m_busy : list nat; m_running : list Z;
  m_clock : N; m_class : list (Z * Z); m_files : list (string * string); m_dirs : list (string * list string);
  m_inbox : list (nat * Z); m_signal : nat;
}.

Definition set_open (l : list nat) (m : machine) : machine := {|
  m_open := l; m_txn := m_txn m; m_busy := m_busy m; m_running := m_running m; m_clock := m_clock m;
  m_class := m_class m; m_files := m_files m; m_dirs := m_dirs m; m_inbox := m_inbox m; m_signal := m_signal m |}.
Definition set_class (l : list (Z * Z)) (m : machine) : machine := {|
  m_open := m_open m; m_txn := m_txn m; m_busy := m_busy m; m_running := m_running m; m_clock := m_clock m;
  m_class := l; m_files := m_files m; m_dirs := m_dirs m; m_inbox := m_inbox m; m_signal := m_signal m |}.

Definition sleep (m : machine) : machine := {|
  m_open := m_open m; m_txn := m_txn m; m_busy := m_busy m; m_running := m_running m; m_clock := m_clock m;
  m_class := m_class m; m_files := m_files m; m_dirs := m_dirs m; m_inbox := m_inbox m; m_signal := pred (m_signal m) |}.

Definition assoc {A B} `{EqDecision A} (l : list (A * B)) (a : A) : option B :=
  snd ∘ snd <$> list_find (λ kv, kv.1 = a) l.

Definition answer {R} (e : event R) (m : machine) : R * machine :=
  match e in event R return R * machine with
  | Committed c => (negb (bool_decide (c ∈ m_open m)), m)
  | TxnState _ => (m_txn m, m)
  | Open c _ _ _ => (tt, set_open (c :: m_open m) m)
  | OpenUnschedule c => (tt, set_open (c :: m_open m) m)
  | Commit c => (true, set_open (filter (λ d, d ≠ c) (m_open m)) m)
  | SubmitRunRequests l => (tt, set_open (filter (λ d, has l d ≠ true) (m_open m)) m)
  | LocalYield _ _ => (tt, m)
  | HasAgent _ => (true, m)
  | CpuAvail c => (negb (bool_decide (c ∈ m_busy m)), m)
  | Ping _ => (tt, m)
  | Finished _ => (false, m)
  | BoostedPriority _ => (false, m)
  | AgentBarrier _ => (0, m)
  | SignalReady _ | WaitForEnclaveReady _ => (tt, m)
  | OnCpu g => (bool_decide (g ∈ m_running m), m)
  | Barrier _ => (1, m)
  | Runtime _ => (Z.of_N (m_clock m), m)
  | sched_getaffinity _ => (Some (list_to_set (seq 0 8)), m)
  | sched_getscheduler tid => (default 0 (assoc (m_class m) tid), m)
  | sched_setscheduler tid policy => (0, set_class ((tid, policy) :: m_class m) m)
  | SchedTaskEnterGhost tid => (0, set_class ((tid, 18) :: m_class m) m)
  | ReadFile path => (assoc (m_files m) path, m)
  | AppendFile _ _ => (tt, m)
  | FileExists path => (is_some (assoc (m_files m) path), m)
  | Subdirectories path => (Some (default [] (assoc (m_dirs m) path)), m)
  | nanosleep _ => (None, sleep m)
  | HasBeenNotified => ((m_signal m =? 0)%nat, m)
  | MonotonicNow => (Z.of_N (m_clock m), m)
  | Bernoulli _ _ => (false, m)
  | current_path => ("/root", m)
  | Rpc _ => (0, m)
  | Printf _ | NewAgentProcess _ _ _ | DeleteAgentProcess | InitCore | SetGlobalEnclaveCtlFdOnce | AddHandler _ => (tt, m)
  end.

Global Instance small_machine : Kernel := {|
  SCHED_GHOST := 18; tid := λ g, g; world := machine; ask := @answer
|}.

Global Program Instance small_machine_laws : KernelLaws := {|
  done m c := c ∉ m_open m;
  txn m c := m_txn m;
  cputime m g := Z.of_N (m_clock m);
|}.
Next Obligation. intros c w b w'. cbn. intros [= <- <-] Hc. by apply negb_true_iff, bool_decide_eq_false in Hc. Qed.
Next Obligation. intros c w. cbn. intros Hc. by apply negb_true_iff, bool_decide_eq_false. Qed.
Next Obligation.
  intros R e c w Hd Ho. destruct e; cbn in *; try done.
  - apply not_elem_of_cons. split; [by intros ->|done].
  - apply not_elem_of_cons. split; [by intros ->|done].
  - intros [_ ?]%list_elem_of_filter. done.
  - intros [_ ?]%list_elem_of_filter. done.
Qed.
Next Obligation. done. Qed.
Next Obligation. intros R e c w _ _. by destruct e. Qed.
Next Obligation. intros R e g w. destruct e; cbn; lia. Qed.
Next Obligation. intros g w. cbn. lia. Qed.

End Reference.
