(* ===== verification/AgentSamples.v ===== *)
(** * Sample runs of the scheduler

    Two threads on the reference machine, CPUs 1 to 5, the global agent on
    CPU 1. *)
From S2P Require Import Prelude StateMonad Ghost GhostReference CgroupWatcher CgroupSpec NetTask NetScheduler NetSchedulerInv.
From S2P Require Import NetSchedulerOps NetSchedulerCallbacks NetSchedulerRound NetSchedulerLive NetAgent NetSchedulerReach.
From S2P Require Import NetSchedulerQueue NetSchedulerFair NetAgentSpec NetAgentMain.
Open Scope Z_scope.

Module AgentSamples.
Import Reference.

(** Thread 100 is an engine thread, 200 a memcached thread. *)
Definition machine0 : machine := {|
  m_open := []; m_txn := GHOST_TXN_COMPLETE; m_busy := []; m_running := []; m_clock := 1000000%N; m_class := [];
  m_files := [("/proc/100/comm", "EngineThread_0"); ("/proc/200/comm", "memcached")]; m_dirs := [];
  m_inbox := []; m_signal := 2 |}.

Definition run_state_of {A} (m : eff NetScheduler A) (s : NetScheduler) : NetScheduler :=
  match m s with Ok (_, s') => s' | _ => s end.

Definition cpus_1_to_5 : CpuList := 62%N.

Definition scheduler0 : NetScheduler :=
  match new_scheduler cpus_1_to_5 1%nat (replicate 12 0) false machine0 with
  | Some s => s
  | None => {| cpus_ := cpus_1_to_5; cpu_states_ := []; global_cpuid_ := 0; global_home_cpu_ := 0;
               enforce_affinity_mask_ := false; num_tasks_ := 0; run_queue_ := []; run_queue_low_priority_ := [];
               yielding_tasks_ := []; cpuhist_ := []; counters_ := no_counts; debug_runqueue_ := false;
               tasks_ := ∅; world_ := machine0 |}
  end.

Definition ready : NetScheduler := run_state_of EnclaveReady scheduler0.
(** Both threads are new and runnable; the memory of their tasks held [true] and [false]. *)
Definition with_engine : NetScheduler :=
  run_state_of (handle 1%nat (MSG_TASK_NEW 10 true 1)) (map_task 1%nat (new_task 100 true) ready).
Definition with_both : NetScheduler :=
  run_state_of (handle 2%nat (MSG_TASK_NEW 20 true 1)) (map_task 2%nat (new_task 200 false) with_engine).
Definition scheduled : NetScheduler := run_state_of GlobalSchedule with_both.

Example queues_of_both : (run_queue_ with_both, run_queue_low_priority_ with_both) = ([1%nat], [2%nat]).
Proof. vm_compute. reflexivity. Qed.

Example places_of_scheduled :
  (places scheduled !! 1%nat, places scheduled !! 2%nat) = (Some (Assigned (Some 2%nat)), Some (Assigned (Some 3%nat))).
Proof. vm_compute. reflexivity. Qed.

(** CPUs 2 to 4 are taken by another scheduling class. *)
Definition crowd (m : machine) : machine := {|
  m_open := m_open m; m_txn := m_txn m; m_busy := [2; 3; 4]%nat; m_running := []; m_clock := m_clock m;
  m_class := m_class m; m_files := m_files m; m_dirs := m_dirs m; m_inbox := m_inbox m; m_signal := m_signal m |}.
Definition crowded : NetScheduler := set_world_ (crowd (world_ with_both)) with_both.

(** The runs are runs of the step relation. *)
Lemma run_state_of_Ok {A} (m : eff NetScheduler A) s : returns (m s) = true → ∃ a, m s = Ok (a, run_state_of m s).
Proof. unfold run_state_of. destruct (m s) as [[]| |]; [eauto|done..]. Qed.

Lemma run_state_of_unit (m : eff NetScheduler unit) s : returns (m s) = true → m s = Ok (tt, run_state_of m s).
Proof. intros Hok. destruct (run_state_of_Ok m s Hok) as [[] Hm]. done. Qed.

Lemma ready_reachable : reachable ready.
Proof.
  exists cpus_1_to_5, 1%nat, (replicate 12 0), false, machine0, ready. split_and!; [|..|reflexivity].
  - exists scheduler0. split; [reflexivity|]. apply run_state_of_unit. vm_compute. reflexivity.
  - apply Forall_forall. change (Cpus cpus_1_to_5) with [1; 2; 3; 4; 5]%nat. cbn. repeat constructor; lia.
  - reflexivity.
Qed.

Lemma with_engine_reachable : reachable with_engine.
Proof.
  eapply reachable_step; [exact ready_reachable|]. apply (step_new _ 1%nat 100 true 10 true 1); [reflexivity|vm_compute; split; discriminate|].
  apply run_state_of_unit. vm_compute. reflexivity.
Qed.

Lemma with_both_reachable : reachable with_both.
Proof.
  eapply reachable_step; [exact with_engine_reachable|]. apply (step_new _ 2%nat 200 false 20 true 1); [reflexivity|vm_compute; split; discriminate|].
  apply run_state_of_unit. vm_compute. reflexivity.
Qed.

Lemma scheduled_reachable : reachable scheduled.
Proof.
  eapply reachable_step; [exact with_both_reachable|]. apply step_schedule.
  apply run_state_of_unit. vm_compute. reflexivity.
Qed.

Lemma crowded_reachable : reachable crowded.
Proof.
  eapply reachable_step; [exact with_both_reachable|]. apply step_world. intros g. apply Z.le_refl.
Qed.

(** The machine answers the same as long as nobody changes the two lists. *)
Definition in_crowd : world → Prop := λ m : machine, m_busy m = [2; 3; 4]%nat ∧ m_running m = [].
Definition crowd_avail (c : Cpu) : bool := negb (bool_decide (c ∈ [2; 3; 4]%nat)).

Lemma crowd_calm : calm in_crowd crowd_avail (λ _, false) (λ _, 1).
Proof.
  split.
  - intros R e w. by destruct e.
  - intros w c [Hb _]. cbn. by rewrite Hb.
  - intros w g [_ Hr]. cbn. by rewrite Hr.
  - done.
Qed.

Lemma crowded_settled : settled crowded.
Proof.
  assert (forallb (λ st, negb (is_some (next st))) (cpu_states_ crowded) = true ∧ m_open (world_ crowded) = []) as [Hn Ho]
    by (vm_compute; split; reflexivity).
  split.
  - intros c st Hst. apply list_elem_of_lookup_2, list_elem_of_In in Hst.
    pose proof (proj1 (forallb_forall _ _) Hn st Hst) as Hb. cbv beta in Hb. destruct (next st); [discriminate Hb|reflexivity].
  - intros c _. change (c ∉ m_open (world_ crowded)). rewrite Ho. apply not_elem_of_nil.
Qed.

(** One CPU: the engine thread is started, and in the next round the memcached
    thread of low priority replaces it. *)
Definition started_engine : NetScheduler := run_state_of GlobalSchedule crowded.

Example engine_thread_replaced :
  (places started_engine !! 1%nat, places started_engine !! 2%nat) = (Some (Assigned (Some 5%nat)), Some Queued) ∧
  (places (run_state_of GlobalSchedule started_engine) !! 1%nat, places (run_state_of GlobalSchedule started_engine) !! 2%nat) =
    (Some Queued, Some (Running (Some 5%nat))).
Proof. split; vm_compute; reflexivity. Qed.

(** ** Two engine threads and one CPU *)

Definition with_engines : NetScheduler :=
  run_state_of (handle 3%nat (MSG_TASK_NEW 20 true 1)) (map_task 3%nat (new_task 101 true) with_engine).
Definition one_cpu : NetScheduler := set_world_ (crowd (world_ with_engines)) with_engines.

Lemma one_cpu_reachable : reachable one_cpu.
Proof.
  eapply reachable_step; [|apply step_world; intros g; apply Z.le_refl].
  eapply reachable_step; [exact with_engine_reachable|].
  apply (step_new _ 3%nat 101 true 20 true 1); [reflexivity|vm_compute; split; discriminate|].
  apply run_state_of_unit. vm_compute. reflexivity.
Qed.

Definition obliging : world → Prop := λ m : machine, in_crowd m ∧ m_txn m = GHOST_TXN_COMPLETE.

Lemma obliging_serves g : serves obliging [5%nat] g 1.
Proof.
  split.
  - intros R e w. by destruct e.
  - intros c w [[Hb _] _] ->%list_elem_of_singleton. cbn. by rewrite Hb.
  - intros w [[_ Hr] _]. cbn. by rewrite Hr.
  - done.
  - done.
  - by intros c w [_ Ht].
Qed.

Lemma one_cpu_served : served 3%nat [5%nat] one_cpu.
Proof.
  split_and!; [apply NoDup_singleton| |vm_compute; reflexivity|].
  - intros c ->%list_elem_of_singleton. split; [vm_compute; repeat constructor|].
    assert (cpu_states_ one_cpu !! 5%nat = Some {| current := None; next := None; agent := Some 5%nat; in_switchto := false |})
      as Hst by (vm_compute; reflexivity).
    split_and!; [vm_compute; discriminate| |by eexists].
    assert (m_open (world_ one_cpu) = []) as Ho by (vm_compute; reflexivity).
    change (5%nat ∉ m_open (world_ one_cpu)). rewrite Ho. apply not_elem_of_nil.
  - exists obliging, 101, 1. split_and!; [apply obliging_serves|vm_compute; split_and!; reflexivity|].
    assert ((λ t, (gtid t, seqnum t)) <$> tasks_ one_cpu !! 3%nat = Some (101, 1)) as Hs by (vm_compute; reflexivity).
    apply fmap_Some in Hs as (t & Ht & Hgs). injection Hgs as Hg Hn. exists t. split_and!; [exact Ht|by symmetry..].
Qed.

(** The engine thread is about to run on CPU 2. *)
Lemma scheduled_engine :
  ∃ t, tasks_ scheduled !! 1%nat = Some t ∧ place_of t = Assigned (Some 2%nat) ∧
       cputime (world_ scheduled) (gtid t) = 1000000.
Proof.
  assert ((place_of <$> tasks_ scheduled !! 1%nat) = Some (Assigned (Some 2%nat))) as Hpl by (vm_compute; reflexivity).
  apply fmap_Some in Hpl as (t & Hp & Hpl). exists t. split_and!; [exact Hp|done|].
  change (Z.of_N (m_clock (world_ scheduled)) = 1000000). vm_compute. reflexivity.
Qed.

(** ** A dispatcher for new threads *)

Definition with_inbox (l : list (nat * Z)) (m : machine) : machine := {|
  m_open := m_open m; m_txn := m_txn m; m_busy := m_busy m; m_running := m_running m; m_clock := m_clock m;
  m_class := m_class m; m_files := m_files m; m_dirs := m_dirs m; m_inbox := l; m_signal := m_signal m |}.

Global Instance new_threads : Dispatcher := {|
  channel_message := nat * Z;
  Peek s := Ok (head (m_inbox (world_ s)), s);
  DispatchMessage msg s :=
    match tasks_ s !! msg.1 with
    | None => handle msg.1 (MSG_TASK_NEW 0 true 1) (map_task msg.1 (new_task msg.2 false) s)
    | Some _ => Ok (tt, s)
    end;
  Consume _ s := Ok (tt, set_world_ (with_inbox (tail (m_inbox (world_ s))) (world_ s)) s);
|}.

Global Instance new_threads_laws : DispatcherLaws.
Proof.
  split.
  - intros s. exists (head (m_inbox (world_ s))), (world_ s). split; [by destruct s|]. intros g. apply Z.le_refl.
  - intros msg s. eexists. split; [reflexivity|]. intros g. apply Z.le_refl.
  - intros [p g] s0 s _ _. cbn [DispatchMessage new_threads fst snd]. destruct (tasks_ s !! p) as [t|] eqn:Hp.
    + apply delivers_nothing.
    + apply delivers_new; [done|]. change (0 <= 0 <= Z.of_N (m_clock (world_ s))). lia.
Qed.

(** Thread 100 has a message in the channel. *)
Definition incoming : NetScheduler := set_world_ (with_inbox [(1%nat, 100)] (world_ ready)) ready.

Lemma incoming_reachable : reachable incoming.
Proof. eapply reachable_step; [exact ready_reachable|]. apply step_world. intros g. apply Z.le_refl. Qed.

(** ** A file system with two control groups *)

(** [docker] has a memcached and a bash thread, [system] a memcached thread. *)
Definition files : list (string * string) :=
  [("/sys/fs/cgroup/cpu/docker/tasks", "100" +:+ String newline "200" +:+ String newline "");
   ("/sys/fs/cgroup/cpu/system/tasks", "300" +:+ String newline "");
   ("/proc/100/comm", "memcached"); ("/proc/200/comm", "bash"); ("/proc/300/comm", "memcached")].
Definition directories : list (string * list string) :=
  [("/sys/fs/cgroup/cpu", ["/sys/fs/cgroup/cpu/docker"; "/sys/fs/cgroup/cpu/system"])].
Definition cgroup_machine : machine := {|
  m_open := []; m_txn := GHOST_TXN_COMPLETE; m_busy := []; m_running := []; m_clock := 0%N; m_class := [];
  m_files := files; m_dirs := directories; m_inbox := []; m_signal := 2 |}.

Definition same_files : world → Prop := λ m : machine, m_files m = files ∧ m_dirs m = directories.
Definition comm (t : Z) : option string := assoc files ("/proc/" +:+ pretty t +:+ "/comm").
Definition tasks_file (path : string) : option string := assoc files (path +:+ "/tasks").
Definition subdirs (path : string) : list string :=
  if decide (path = kCgroupPathPrefix) then ["docker"; "system"] else [].
Definition class_of : world → Z → Z := λ (m : machine) t, default 0 (assoc (m_class m) t).

Lemma files_steady : steady same_files comm tasks_file subdirs class_of (λ _, true).
Proof.
  split.
  - intros R e w. by destruct e.
  - intros t w [Hf _]. cbn. by rewrite Hf.
  - intros path w [Hf _]. cbn. by rewrite Hf.
  - intros path w [Hf _]. cbn. by rewrite Hf.
  - intros path w [_ Hd]. cbn. rewrite Hd. unfold subdirs, assoc, directories. cbn [list_find fst].
    destruct (decide (path = kCgroupPathPrefix)) as [->|Hne]; [done|].
    rewrite decide_False; [done|]. intros Heq. apply Hne. by rewrite <-Heq.
  - done.
  - done.
  - intros t w u _. cbn. unfold class_of, assoc. cbn. case_bool_decide as Hut; cbn.
    + by rewrite decide_True by done.
    + rewrite decide_False by done. by destruct (list_find _ _) as [[]|].
  - intros R e w u _. by destruct e.
Qed.

Lemma signal_awaited : awaits same_files m_signal.
Proof.
  split.
  - done.
  - intros ns w _ _. cbn. auto.
  - intros R e w _. by destruct e.
Qed.

Lemma visited_groups skipdir q :
  visits subdirs skipdir kCgroupPathPrefix q →
  q ∈ [kCgroupPathPrefix; kCgroupPathPrefix +:+ "/" +:+ "docker"; kCgroupPathPrefix +:+ "/" +:+ "system"].
Proof.
  assert (∀ n r, n ∈ ["docker"; "system"] → visits subdirs skipdir (kCgroupPathPrefix +:+ "/" +:+ n) r →
    r = kCgroupPathPrefix +:+ "/" +:+ n) as Hleaf.
  { intros n r Hn Hv. inversion Hv as [|? x ? _ Hx]; [done|]. exfalso. unfold subdirs in Hx.
    rewrite decide_False in Hx; [by apply elem_of_nil in Hx|].
    apply elem_of_cons in Hn as [->|Hn]; [done|]. by apply list_elem_of_singleton in Hn as ->. }
  inversion 1 as [|? n ? _ Hn Hv]; [left|]. unfold subdirs in Hn. rewrite decide_True in Hn by done.
  rewrite (Hleaf n q Hn Hv). apply elem_of_cons in Hn as [->|Hn]; [right; left|].
  apply list_elem_of_singleton in Hn as ->. right. right. left.
Qed.

Lemma task_lines_numbers skipdir q line :
  visits subdirs skipdir kCgroupPathPrefix q → line ∈ task_lines tasks_file q → is_Some (stoi line).
Proof.
  intros Hv%visited_groups%list_elem_of_In Hl%list_elem_of_In.
  assert (forallb (λ q, forallb (λ line, is_some (stoi line)) (task_lines tasks_file q))
    [kCgroupPathPrefix; kCgroupPathPrefix +:+ "/" +:+ "docker"; kCgroupPathPrefix +:+ "/" +:+ "system"] = true) as Hall
    by (vm_compute; reflexivity).
  pose proof (proj1 (forallb_forall _ _) (proj1 (forallb_forall _ _) Hall q Hv) line Hl) as Hb. cbv beta in Hb.
  destruct (stoi line); [eauto|discriminate Hb].
Qed.

End AgentSamples.
