(* ===== verification/AgentProps.v ===== *)
(** * Properties of the scheduler

    Stated for the states that runs reach ([NetSchedulerReach.reachable]),
    against any CPU sets, topology and kernel that meet the laws of [Ghost]: a
    committed transaction stays as it is until it is opened again, and run times do
    not decrease.  The runs are on CPUs that the array of CPU states has room for;
    in them no task departs that is not blocked, and no message reports more run
    time than the thread had.  [TaskDeparted] does not test the former; the section
    on errors shows what happens otherwise. *)
From S2P Require Import Prelude StateMonad Ghost GhostReference CgroupWatcher CgroupSpec NetTask NetScheduler NetSchedulerInv.
From S2P Require Import NetSchedulerOps NetSchedulerCallbacks NetSchedulerRound NetSchedulerLive NetAgent.
From S2P Require Import NetSchedulerReach NetSchedulerQueue NetSchedulerFair NetAgentSpec NetAgentMain AgentSamples.
Open Scope Z_scope.

Section invariant.
Context `{Topology, !CpuListLaws, !Kernel, !KernelLaws}.

(** C6: In every state that a run of the scheduler reaches, whatever the order
    of messages, rounds and moves of the global agent and whatever the kernel
    answers within [KernelLaws], as long as no task departs that is not blocked and no message reports
    more run time than the thread had ([departed_queued_task_dangles] shows what the
    former leads to): a task is in the run queues exactly once if it is QUEUED and
    not otherwise, in the list of yielding tasks exactly once if it is YIELDING and
    not otherwise, the current task of exactly its CPU if it is ON_CPU, and the next
    task of exactly its CPU if it is PENDING; no pointer to a freed task is left
    anywhere; no CPU has a current and a next task; the CPU of the global agent has
    neither; and [num_tasks_] counts the tasks. *)
Theorem scheduler_invariant s :
  reachable s →
  (∀ p t, tasks_ s !! p = Some t →
    occ p (run_queue_ s ++ run_queue_low_priority_ s) = (if decide (run_state t = QUEUED) then 1 else 0) ∧
    occ p (yielding_tasks_ s) = (if decide (run_state t = YIELDING) then 1 else 0) ∧
    (∀ c st, cpu_states_ s !! c = Some st →
      (current st = Some p ↔ run_state t = ON_CPU ∧ cpu t = Some c) ∧
      (next st = Some p ↔ run_state t = PENDING ∧ cpu t = Some c)) ∧
    (run_state t = ON_CPU ∨ run_state t = PENDING → ∃ c st, cpu t = Some c ∧ cpu_states_ s !! c = Some st)) ∧
  (∀ p, p ∈ run_queue_ s ++ run_queue_low_priority_ s ++ yielding_tasks_ s ∨
        (∃ c st, cpu_states_ s !! c = Some st ∧ (current st = Some p ∨ next st = Some p)) → is_Some (tasks_ s !! p)) ∧
  (∀ c st, cpu_states_ s !! c = Some st → current st = None ∨ next st = None) ∧
  (∀ st, cpu_states_ s !! global_cpuid_ s = Some st → current st = None ∧ next st = None) ∧
  num_tasks_ s = to_int (Z.of_nat (size (tasks_ s))).
Proof.
  intros Hi%reachable_holds_inv. pose proof (inv_at _ Hi) as HA. split_and!.
  - intros p t Hp. split_and!.
    + rewrite (pl_queue _ _ _ _ HA), (place_is s p t Hp). unfold place_of. by destruct (run_state t).
    + rewrite (pl_yield _ _ _ _ HA), (place_is s p t Hp). unfold place_of. by destruct (run_state t).
    + intros c st Hst. split; [by apply (current_iff s p t)|by apply (next_iff s p t)].
    + intros Hrs. by apply (on_cpu_state s p t).
  - intros p Hp. by apply no_dangling.
  - intros c st. apply (pl_excl _ _ _ _ HA).
  - intros st. by apply global_idle.
  - apply Hi.
Qed.
End invariant.

Lemma scheduler_invariant_witness :
  reachable AgentSamples.scheduled ∧
  ∀ st, cpu_states_ AgentSamples.scheduled !! global_cpuid_ AgentSamples.scheduled = Some st → current st = None ∧ next st = None.
Proof.
  split; [exact AgentSamples.scheduled_reachable|].
  exact (proj1 (proj2 (proj2 (proj2 (scheduler_invariant AgentSamples.scheduled AgentSamples.scheduled_reachable))))).
Defined.

Section callbacks.
Context `{Topology, !CpuListLaws, !Kernel, !KernelLaws}.

(** C7: The callbacks refine the state machine [step_place] of tasks. In a
    reachable state (see [scheduler_invariant] for the runs), none of the callbacks
    for the messages considered touches freed memory, a null pointer or an array out
    of bounds. First, a message to a live task, other than the one for new threads,
    that reports no more run time than the thread had, and does not report the
    departure of a task that is not blocked: when the callback returns, the state
    machine has a transition, the task is at the place the transition leads to (or
    released), every other task is where it was, and the state is reachable again;
    it aborts in a [CHECK] only if the message does not fit: it does not fit the
    place, or reports a run time below the known one, or arrives before the pending
    transaction of the task completed, or contradicts the switchto flag. Second, the
    message for a new thread, whose task was just allocated: when the callback
    returns, the task is queued if it is runnable and off CPU otherwise, and every
    other task is where it was; it aborts only if [sched_getaffinity] fails or its
    mask has more than [MAX_CPUS] CPUs or no CPU of the enclave. *)
Theorem callbacks_refine_state_machine s :
  reachable s →
  (∀ p t m, tasks_ s !! p = Some t → is_new m = false → honest s t m →
    (is_departed m = true → place_of t = Off) →
    match handle p m s with
    | Ok (_, s') => reachable s' ∧
        ∃ k, step_place m (place_of t) = Some k ∧ places s' = partial_alter (λ _, k) p (places s)
    | Exit _ _ => ¬ accepts s t m
    | Fault _ => False
    end) ∧
  (∀ p g garbage r (runnable : bool) n, tasks_ s !! p = None → 0 <= r <= cputime (world_ s) g →
    match handle p (MSG_TASK_NEW r runnable n) (map_task p (new_task g garbage) s) with
    | Ok (_, s') => reachable s' ∧ places s' = <[p := if runnable then Queued else Off]> (places s)
    | Exit _ _ => ∃ w, ¬ mask_fits (cpus_ s) (ask (sched_getaffinity (tid g)) w).1
    | Fault _ => False
    end).
Proof.
  intros Hr. pose proof (reachable_holds_inv _ Hr) as Hi. split.
  2:{ intros p g garbage r runnable n Hp Hrt.
      pose proof (TaskNew_spec _ p g garbage r runnable n s Hi Hp Hrt (λ w Hw, ex_intro _ w Hw)) as Hwp. unfold wp in Hwp.
      change (TaskNew p r runnable n) with (handle p (MSG_TASK_NEW r runnable n)) in Hwp.
      destruct (handle _ _ _) as [[[] s']| |] eqn:Hrun; [|done..]. destruct Hwp as [_ Hpl]. split; [|done].
      eapply reachable_step; [exact Hr|]. by eapply step_new. }
  intros p t m Hp Hnew Hhon Hdep.
  pose proof (handle_spec True p t m s Hi Hp Hnew Hhon Hdep (or_introl I)) as Hpart.
  pose proof (λ Ha, handle_spec False p t m s Hi Hp Hnew Hhon Hdep (or_intror Ha)) as Htot.
  unfold wp in Hpart, Htot. destruct (handle p m s) as [[[] s']|msg s'|f] eqn:Hrun; [|exact Htot|done].
  destruct Hpart as [_ Hk]. split; [|done]. eapply reachable_step; [exact Hr|]. by eapply step_message.
Qed.
End callbacks.

Lemma callbacks_refine_state_machine_witness :
  match handle 1%nat (MSG_TASK_BLOCKED 30 2 false) AgentSamples.scheduled with
  | Ok (_, s') => reachable s' ∧
      ∃ k, step_place (MSG_TASK_BLOCKED 30 2 false) (Assigned (Some 2%nat)) = Some k ∧
           places s' = partial_alter (λ _, k) 1%nat (places AgentSamples.scheduled)
  | _ => False
  end.
Proof.
  destruct AgentSamples.scheduled_engine as (t & Hp & Hpl & Hclock).
  assert (honest AgentSamples.scheduled t (MSG_TASK_BLOCKED 30 2 false)) as Hh by (intros r [= <-]; lia).
  assert (is_departed (MSG_TASK_BLOCKED 30 2 false) = true → place_of t = Off) as Hd by (intros Hf; discriminate Hf).
  pose proof (proj1 (callbacks_refine_state_machine AgentSamples.scheduled AgentSamples.scheduled_reachable)
    1%nat t (MSG_TASK_BLOCKED 30 2 false) Hp eq_refl Hh Hd) as Hthm.
  rewrite Hpl in Hthm.
  assert (returns (handle 1%nat (MSG_TASK_BLOCKED 30 2 false) AgentSamples.scheduled) = true) as Hok by (vm_compute; reflexivity).
  revert Hthm Hok. generalize (handle 1%nat (MSG_TASK_BLOCKED 30 2 false) AgentSamples.scheduled).
  by intros [[[] s']| |].
Defined.

Section rounds.
Context `{Topology, !CpuListLaws, !Kernel, !KernelLaws}.

(** C8: In every reachable state (see [scheduler_invariant] for the runs) the
    scheduling round returns, whatever the kernel answers within [KernelLaws]: the assignment loop ends
    with the fuel given, no [CHECK] fails and no freed task is touched; afterwards
    no task is left in the list of yielding tasks. The move of the global agent
    touches no freed task either, and fails no [CHECK] but the one that the kernel
    commits the request to take the running task off the new global CPU; when it
    returns, the global agent is on a CPU of the enclave. *)
Theorem rounds_never_fail s :
  reachable s →
  (∃ s', GlobalSchedule s = Ok (tt, s') ∧ yielding_tasks_ s' = []) ∧
  match PickNextGlobalCPU s with
  | Ok (_, s') => IsSet (cpus_ s') (global_cpuid_ s') = true
  | Exit _ _ => unschedule_refused
  | Fault _ => False
  end.
Proof.
  intros Hi%reachable_holds_inv. split.
  - destruct (wp_total _ _ _ (GlobalSchedule_spec False s Hi)) as ([] & s' & Hrun & _ & Hy). eauto.
  - pose proof (PickNextGlobalCPU_spec unschedule_refused s Hi id) as Hwp. unfold wp in Hwp.
    destruct (PickNextGlobalCPU s) as [[[] s']| |]; [|done..]. apply elem_Cpus, (inv_global _ Hwp).
Qed.

(** C9: Work conservation and priority. Consider a reachable state (see
    [scheduler_invariant]) without a transaction in flight, and a round in which the
    kernel's answers about the availability of CPUs and about the status words of
    tasks do not change. Let the queue be the high-priority queue followed by the
    low-priority one. The round gives the free CPUs (available, without a task, not
    in a switchto chain, not the global agent's) to the tasks as the greedy walk of
    the queue does: each eligible task gets the nearest CPU left that it may use.
    All other tasks of the queue are queued afterwards, and the yielding ones, too.
    If affinity masks are not enforced, the started tasks are exactly the first [n]
    eligible ones for [n] free CPUs: no free CPU is left while an eligible task
    waits, and no low-priority task starts before an eligible high-priority one. *)
Theorem round_assigns_greedily W av on bar s :
  reachable s → calm W av on bar → W (world_ s) → settled s →
  let queue := run_queue_ s ++ run_queue_low_priority_ s in
  ∃ s' avail, GlobalSchedule s = Ok (tt, s') ∧ (∀ c, IsSet avail c = true ↔ c ∈ free_cpus av s) ∧
    let started := greedy on bar (λ p, tasks_ s !! p) (enforce_affinity_mask_ s) avail queue in
    (∀ p c, (p, c) ∈ started ↔ places s' !! p = Some (Assigned (Some c))) ∧
    (∀ p, p ∈ queue → p ∉ started.*1 → places s' !! p = Some Queued) ∧
    (∀ p, p ∈ yielding_tasks_ s → places s' !! p = Some Queued) ∧
    (enforce_affinity_mask_ s = false →
      started.*1 = take (length (free_cpus av s)) (filter (λ p, eligible_at on bar s p = true) queue)).
Proof.
  intros Hi%reachable_holds_inv HW HWs Hset queue.
  destruct (wp_total _ _ _ (GlobalSchedule_calm W av on bar HW s Hi HWs Hset)) as ([] & s' & Hrun & avail & [_ Hav Hst Hwait Hoth]).
  exists s', avail. cbv zeta. split_and!; [done..| |].
  - intros p Hp%occ_elem_of. rewrite (pl_yield _ _ _ _ (inv_at _ Hi)) in Hp. case_decide as Hy; [|done].
    rewrite Hoth; [by rewrite Hy|]. intros Hq%occ_elem_of. rewrite (pl_queue _ _ _ _ (inv_at _ Hi)) in Hq.
    case_decide; [congruence|lia].
  - intros ->. rewrite greedy_first. by rewrite (free_cpus_length av s avail Hav).
Qed.
End rounds.

Lemma rounds_never_fail_witness :
  reachable AgentSamples.with_both ∧ ∃ s', GlobalSchedule AgentSamples.with_both = Ok (tt, s') ∧ yielding_tasks_ s' = [].
Proof.
  split; [exact AgentSamples.with_both_reachable|].
  exact (proj1 (rounds_never_fail AgentSamples.with_both AgentSamples.with_both_reachable)).
Defined.

(** One free CPU, two eligible tasks: the engine thread gets it. *)
Lemma round_assigns_greedily_witness :
  ∃ s', GlobalSchedule AgentSamples.crowded = Ok (tt, s') ∧
    places s' !! 1%nat = Some (Assigned (Some 5%nat)) ∧ places s' !! 2%nat = Some Queued.
Proof.
  destruct (round_assigns_greedily AgentSamples.in_crowd AgentSamples.crowd_avail (λ _, false) (λ _, 1)
    AgentSamples.crowded AgentSamples.crowded_reachable AgentSamples.crowd_calm (conj eq_refl eq_refl)
    AgentSamples.crowded_settled) as (s' & avail & Hrun & Hav & Hst & Hwait & _ & Hfirst).
  assert (run_queue_ AgentSamples.crowded ++ run_queue_low_priority_ AgentSamples.crowded = [1; 2]%nat) as Hq by (vm_compute; reflexivity).
  assert (free_cpus AgentSamples.crowd_avail AgentSamples.crowded = [5%nat]) as Hfree by (vm_compute; reflexivity).
  assert (filter (λ p, eligible_at (λ _, false) (λ _, 1) AgentSamples.crowded p = true) [1; 2]%nat = [1; 2]%nat) as Hel
    by (vm_compute; reflexivity).
  rewrite Hfree, Hq, Hel in Hfirst. specialize (Hfirst eq_refl). rewrite Hfree in Hav. rewrite Hq in Hst, Hwait.
  revert Hst Hwait Hfirst. generalize (greedy_IsSet (λ _, false) (λ _, 1) (λ p, tasks_ AgentSamples.crowded !! p)
    (enforce_affinity_mask_ AgentSamples.crowded) avail [1; 2]%nat).
  generalize (greedy (λ _, false) (λ _, 1) (λ p, tasks_ AgentSamples.crowded !! p)
    (enforce_affinity_mask_ AgentSamples.crowded) avail [1; 2]%nat).
  intros started Hset Hst Hwait Hfirst. destruct started as [|[p c] [|]]; [discriminate Hfirst| |discriminate Hfirst].
  injection Hfirst as ->. exists s'. split; [exact Hrun|]. split.
  - rewrite (proj1 (Hst _ _) (list_elem_of_here _ _)).
    pose proof (Hset _ _ (list_elem_of_here _ _)) as Hc%Hav%list_elem_of_singleton. by rewrite Hc.
  - apply Hwait; [right; left|]. by intros Hin%list_elem_of_singleton.
Defined.

Section fairness.
Context `{Topology, !CpuListLaws, !Kernel, !KernelLaws}.

End fairness.


Section agents.
Context `{Topology, !CpuListLaws, !Kernel, !KernelLaws, !Dispatcher, !DispatcherLaws}.

(** C11: The agent thread of any CPU, started in a reachable state on top of a
    dispatcher that delivers the messages of the channel to the callbacks
    ([DispatcherLaws]; as in [scheduler_invariant], no task departs that is not
    blocked, and no message reports more run time than the thread had): however many
    iterations it makes, the state stays reachable (so the invariant holds at all
    times), it touches no freed task, null pointer or array out of bounds, and the
    process is aborted only in the callback of a message, or in the move of the
    global agent when the kernel turns down the request to take a task off its CPU,
    never by a scheduling round. An iteration of an agent that is not the global one
    leaves the scheduler as it is. *)
Theorem agent_thread_safe fuel msgs c s :
  reachable s →
  match AgentThread fuel msgs c s with
  | Ok (_, s') => reachable s'
  | Exit _ _ =>
      (∃ s0 msg s1 e s2, reachable s1 ∧ Peek s0 = Ok (Some msg, s1) ∧ DispatchMessage msg s1 = Exit e s2) ∨
      unschedule_refused
  | Fault f => f = OutOfFuel
  end ∧
  (c ≠ global_cpuid_ s → ∃ w, agent_iteration msgs c s = Ok (tt, set_world_ w s)).
Proof. intros Hs. split; [exact (AgentThread_goes_on fuel msgs c s Hs)|apply satellite_yields]. Qed.
End agents.

(** The agent of CPU 3 yields while a message waits; the global agent handles it. *)
Lemma agent_thread_safe_witness :
  reachable AgentSamples.incoming ∧ returns (agent_iteration 2 1%nat AgentSamples.incoming) = true ∧
  ∃ w, agent_iteration 2 3%nat AgentSamples.incoming = Ok (tt, set_world_ w AgentSamples.incoming).
Proof.
  split; [exact AgentSamples.incoming_reachable|]. split; [vm_compute; reflexivity|].
  assert (bool_decide (3%nat ≠ global_cpuid_ AgentSamples.incoming) = true) as Hne%bool_decide_eq_true by (vm_compute; reflexivity).
  exact (proj2 (agent_thread_safe 5 2 3%nat AgentSamples.incoming AgentSamples.incoming_reachable) Hne).
Defined.

Section pick.
Context `{Topology, !CpuListLaws}.

(** C21: The CPU that [PickNextCpu] chooses by successive intersections is
    the first one, in the order of the CPU set, among the nearest of the CPUs
    the task may get: the CPU it ran on last, then its hyperthreads, then CPUs
    that share its L3 cache, then its NUMA node, then any.  It is available, and
    in the affinity mask of the task if masks are enforced; no CPU is chosen
    exactly if there is no such CPU. *)
Theorem PickNextCpu_is_nearest avail t e :
  PickNextCpu avail t e = nearest (distance t) (allowed_cpus avail t e) ∧
  (∀ c, PickNextCpu avail t e = Some c →
    IsSet avail c = true ∧ (e = true → IsSet (allowed_cpulist t) c = true) ∧
    ∀ d, IsSet avail d = true → (e = true → IsSet (allowed_cpulist t) d = true) → (distance t c <= distance t d)%nat) ∧
  (PickNextCpu avail t e = None ↔ ¬ ∃ c, IsSet avail c = true ∧ (e = true → IsSet (allowed_cpulist t) c = true)).
Proof.
  assert (∀ c, c ∈ allowed_cpus avail t e ↔ IsSet avail c = true ∧ (e = true → IsSet (allowed_cpulist t) c = true)) as Hin.
  { intros c. unfold allowed_cpus. destruct e; [rewrite list_elem_of_filter|]; rewrite elem_Cpus; naive_solver. }
  rewrite PickNextCpu_nearest. split_and!; [done|..].
  - intros c Hc. pose proof (nearest_elem _ _ _ Hc) as [Ha Hb]%Hin. split_and!; [done..|].
    intros d Hd Hd'. eapply nearest_least; [done|]. by apply Hin.
  - split.
    + intros Hn%nearest_None (c & Hc%Hin). rewrite Hn in Hc. by apply elem_of_nil in Hc.
    + intros Hno. destruct (nearest _ _) as [c|] eqn:Hc; [|done]. apply nearest_elem, Hin in Hc. destruct Hno. eauto.
Qed.
End pick.

(** The last CPU, 2, is taken; its hyperthread 3 is preferred to 0 and 4. *)
Lemma PickNextCpu_is_nearest_witness :
  PickNextCpu 25%N (set_cpu (Some 2%nat) (new_task 7 false)) false = Some 3%nat ∧
  PickNextCpu 25%N (set_cpu (Some 2%nat) (new_task 7 false)) false =
    nearest (distance (set_cpu (Some 2%nat) (new_task 7 false))) (allowed_cpus 25%N (set_cpu (Some 2%nat) (new_task 7 false)) false).
Proof.
  split; [vm_compute; reflexivity|].
  exact (proj1 (PickNextCpu_is_nearest 25%N (set_cpu (Some 2%nat) (new_task 7 false)) false)).
Defined.

Section errors.
Context `{Topology, !CpuListLaws, !Kernel, !KernelLaws}.

(** C24: A queued task that departs is released but not taken out of its
    run queue.  When it is the first one of the queues, affinity and priority do
    not matter: the callback returns, and the next round with a free CPU reads
    the released task. *)
Theorem departed_queued_task_dangles W av on bar s p q payload_cpu :
  reachable s → calm W av on bar → W (world_ s) → settled s → free_cpus av s ≠ [] →
  run_queue_ s ++ run_queue_low_priority_ s = p :: q →
  ∃ s', handle p (MSG_TASK_DEPARTED payload_cpu false) s = Ok (tt, s') ∧
    run_queue_ s' ++ run_queue_low_priority_ s' = p :: q ∧ tasks_ s' !! p = None ∧
    GlobalSchedule s' = Fault UseAfterFree.
Proof.
  intros Hi%reachable_holds_inv HW HWs Hset Hfree Hq.
  assert (is_Some (tasks_ s !! p)) as [t Hp].
  { apply (no_dangling s); [done|]. left. rewrite app_assoc, Hq. left. }
  set (s' := set_num_tasks_ (to_int (num_tasks_ s - 1)) (set_tasks_ (delete p (tasks_ s)) s)).
  assert (tasks_ s' !! p = None) as Hp' by apply lookup_delete_eq.
  exists s'. split_and!; [|done..|].
  - cbn [handle]. unfold TaskDeparted, free_task. erewrite eff_bind_Ok by done.
    assert (get_task p s = Ok (t, s)) as Hget; [|by erewrite eff_bind_Ok by exact Hget].
    unfold get_task. erewrite eff_bind_Ok by done. unfold expect, lift. by rewrite Hp.
  - apply (dangling_head_faults W av on bar HW s' p q); try done. intros c Hc. exact (inv_cpu s c Hi Hc).
Qed.

(** C25: A new runnable task is queued before its priority is known: the
    queue it is put in is decided by what the memory of the task held before
    ([garbage]), while the priority it has afterwards is decided by the name of
    its thread. *)
Theorem new_task_queue_is_garbage p g garbage r n s s' :
  handle p (MSG_TASK_NEW r true n) (map_task p (new_task g garbage) s) = Ok (tt, s') →
  run_queue_ s' = run_queue_ s ++ (if garbage then [p] else []) ∧
  run_queue_low_priority_ s' = run_queue_low_priority_ s ++ (if garbage then [] else [p]) ∧
  ∃ t w, tasks_ s' !! p = Some t ∧
    high_priority t = StrContains (default "" (ask (ReadFile ("/proc/" +:+ pretty (tid g) +:+ "/comm")) w).1) "EngineThread".
Proof. intros Hrun. pose proof (TaskNew_queue p g garbage r n s) as Hwp. unfold wp in Hwp. cbn [handle] in Hrun. by rewrite Hrun in Hwp. Qed.
End errors.

Lemma departed_queued_task_dangles_witness :
  ∃ s', handle 1%nat (MSG_TASK_DEPARTED 0 false) AgentSamples.crowded = Ok (tt, s') ∧ GlobalSchedule s' = Fault UseAfterFree.
Proof.
  assert (run_queue_ AgentSamples.crowded ++ run_queue_low_priority_ AgentSamples.crowded = [1; 2]%nat) as Hq by (vm_compute; reflexivity).
  assert (free_cpus AgentSamples.crowd_avail AgentSamples.crowded = [5%nat]) as Hfree by (vm_compute; reflexivity).
  assert (free_cpus AgentSamples.crowd_avail AgentSamples.crowded ≠ []) as Hne by (rewrite Hfree; discriminate).
  destruct (departed_queued_task_dangles AgentSamples.in_crowd AgentSamples.crowd_avail (λ _, false) (λ _, 1)
    AgentSamples.crowded 1%nat [2%nat] 0 AgentSamples.crowded_reachable AgentSamples.crowd_calm (conj eq_refl eq_refl)
    AgentSamples.crowded_settled Hne Hq) as (s' & Hrun & _ & _ & Hfault).
  exists s'. split; [exact Hrun|exact Hfault].
Defined.

(** The engine thread goes to the low-priority queue if the memory held [false]. *)
Lemma new_task_queue_is_garbage_witness :
  ∃ s', handle 1%nat (MSG_TASK_NEW 10 true 1) (map_task 1%nat (new_task 100 false) AgentSamples.ready) = Ok (tt, s') ∧
    run_queue_ s' = run_queue_ AgentSamples.ready ++ [] ∧
    run_queue_low_priority_ s' = run_queue_low_priority_ AgentSamples.ready ++ [1%nat].
Proof.
  assert (returns (handle 1%nat (MSG_TASK_NEW 10 true 1) (map_task 1%nat (new_task 100 false) AgentSamples.ready)) = true)
    as [[[] s'] Hrun]%returns_ex by (vm_compute; reflexivity).
  exists s'. destruct (new_task_queue_is_garbage 1%nat 100 false 10 1 AgentSamples.ready s' Hrun) as (Hq & Hl & _).
  split; [exact Hrun|]. split; [exact Hq|exact Hl].
Defined.

Section cgroups.
Context `{Kernel}.

(** C22: On a file system that does not change meanwhile, a scrape returns
    for every directory tree of fewer than [fuel] levels.  The threads it moves
    into the ghOSt class are exactly those in the tasks file of a visited
    control group (outside of [skipdir] and its hierarchy) for which a rule
    exists whose container pattern occurs in the name of the group and whose
    task pattern is [*] or occurs in the name of the thread, less those that
    were in the class already or are dying; every other thread keeps its class;
    and the result counts the moved threads, each once, whatever the order and
    the overlap of the rules. *)
Theorem scrape_moves_selected W names tasks subdirs cls willing skipdir rules fuel w :
  steady W names tasks subdirs cls willing → W w → shallow subdirs fuel kCgroupPathPrefix →
  (∀ q line, visits subdirs skipdir kCgroupPathPrefix q → line ∈ task_lines tasks q → is_Some (stoi line)) →
  ∃ n w' (M : gset Z), ScrapeCgroups fuel skipdir rules w = Ok (n, w') ∧
    n = to_int (Z.of_nat (size M)) ∧
    (∀ t, t ∈ M ↔ (∃ q, visits subdirs skipdir kCgroupPathPrefix q ∧ selected tasks names rules q t) ∧
                  willing t = true ∧ cls w t ≠ SCHED_GHOST) ∧
    (∀ t, cls w' t = if bool_decide (t ∈ M) then SCHED_GHOST else cls w t).
Proof.
  intros HS HW Hsh Hlines.
  destruct (wp_total _ _ _ (ScrapeDirectory_steady W names tasks subdirs cls willing HS skipdir rules fuel kCgroupPathPrefix w
    HW Hsh (le_n _) Hlines)) as (n & w' & Hrun & _ & _ & M & Hn & HM & Hc).
  exists n, w', M. split_and!; done.
Qed.
End cgroups.

Lemma scrape_moves_selected_witness :
  ∃ n w' (M : gset Z), ScrapeCgroups 3 "/root" containers_to_tasks_rules AgentSamples.cgroup_machine = Ok (n, w') ∧
    n = to_int (Z.of_nat (size M)) ∧ n = 1.
Proof.
  destruct (scrape_moves_selected AgentSamples.same_files AgentSamples.comm AgentSamples.tasks_file AgentSamples.subdirs
    AgentSamples.class_of (λ _, true) "/root" containers_to_tasks_rules 3 AgentSamples.cgroup_machine
    AgentSamples.files_steady (conj eq_refl eq_refl)) as (n & w' & M & Hrun & Hn & _).
  - repeat constructor.
  - apply AgentSamples.task_lines_numbers.
  - exists n, w', M. split_and!; [exact Hrun|exact Hn|]. vm_compute in Hrun. by injection Hrun as <-.
Defined.

Section process.
Context `{Topology, !CpuListLaws, !Kernel, !KernelLaws}.

(** C23: The main process from the flags to its exit status, for a positive
    period of at most [kMaxSleep].  Flags that do not give a valid configuration
    (fewer than two CPUs, or a global CPU outside of them) end it in the state of
    the world in which it started: it has made no call.  Otherwise, on a file
    system that does not change, whose task files hold a thread id per line, and
    when a signal comes during the [n]-th sleep and not at another time, [main]
    returns 0 after [n] rounds of a complete scrape and a sleep each: it starts the
    agents once, with the parsed configuration, which the constructor of the agents
    accepts and whose global CPU belongs to the enclave; then initialises the core,
    chooses the enclave, installs both handlers, makes the rounds, and stops the
    agents once after the last one.  If there was a scrape, every thread that a rule selects and
    that can be moved is in the ghOSt class, and no other thread has changed its
    class; without one no thread has. *)
Theorem main_process_life W names tasks subdirs cls willing remaining cwd rules depth fuel
    ParseCpuStr all_cores CpuList_text Cpu_text fl w :
  steady W names tasks subdirs cls willing → awaits W remaining → (∀ v, W v → (ask current_path v).1 = cwd) →
  shallow subdirs depth kCgroupPathPrefix →
  (∀ q line, visits subdirs cwd kCgroupPathPrefix q → line ∈ task_lines tasks q → is_Some (stoi line)) →
  0 < FLAGS_cgroup_period fl <= kMaxSleep → W w → (remaining w < fuel)%nat →
  let n := remaining w in
  let run := main fuel depth ParseCpuStr all_cores CpuList_text Cpu_text rules fl w in
  match ParseNetConfig (FLAGS_globalcpu fl) (ParseCpuStr (FLAGS_ghost_cpus fl)) (FLAGS_enforce_affinity fl) with
  | None => run = Exit "CHECK" w
  | Some (config, _) =>
      (∀ hist garbage v, ∃ s, new_full_agent config hist garbage v = Some s ∧ global_cpuid_ s = config_global_cpu config ∧
        IsSet (cpus_ s) (global_cpuid_ s) = true) ∧
      ∃ w', run = Ok (0, w') ∧ runs depth cwd rules w (life config n) w' ∧
        (n = 0%nat → ∀ t, cls w' t = cls w t) ∧
        (0 < n → ∀ t, let chosen := chosen names tasks subdirs willing cwd rules t in
          (chosen → cls w' t = SCHED_GHOST) ∧ (¬ chosen → cls w' t = cls w t))%nat
  end.
Proof.
  intros HS HA Hcwd Hd Hlines Hp HW Hf. cbv zeta.
  destruct (ParseNetConfig _ _ _) as [[config gcpu]|] eqn:Hcfg; [|unfold main; by rewrite Hcfg]. split.
  - intros hist garbage v. destruct (configured_global _ _ _ _ _ hist garbage v Hcfg) as (s & Hs & Hcpus & _ & _ & Hset & _ & _ & Hg).
    exists s. rewrite Hcpus. split_and!; done.
  - destruct (wp_total _ _ _ (main_ends W names tasks subdirs cls willing HS remaining HA cwd Hcwd rules depth Hd Hlines fuel
      ParseCpuStr all_cores CpuList_text Cpu_text fl config gcpu w Hcfg Hp HW Hf)) as (ret & w' & Hrun & -> & Hl & Hs).
    exists w'. split_and!; [done..| |]; destruct (remaining w); cbn in Hs; [done..|lia|done].
Qed.
End process.

(** The signal comes during the second sleep; the memcached thread of the
    container is moved, the one outside of it and the shell are not. *)
Lemma main_process_life_witness :
  ∃ config w', main 3 3 (λ _, AgentSamples.cpus_1_to_5) (seq 0 8) (λ _, "0x3e") pretty containers_to_tasks_rules default_flags
      AgentSamples.cgroup_machine = Ok (0, w') ∧
    runs 3 "/root" containers_to_tasks_rules AgentSamples.cgroup_machine (life config 2) w' ∧ config_global_cpu config = 1%nat ∧
    AgentSamples.class_of w' 100 = 18 ∧ AgentSamples.class_of w' 200 = 0 ∧ AgentSamples.class_of w' 300 = 0.
Proof.
  pose proof (main_process_life AgentSamples.same_files AgentSamples.comm AgentSamples.tasks_file AgentSamples.subdirs
    AgentSamples.class_of (λ _, true) Reference.m_signal "/root" containers_to_tasks_rules 3 3
    (λ _, AgentSamples.cpus_1_to_5) (seq 0 8) (λ _, "0x3e") pretty default_flags AgentSamples.cgroup_machine
    AgentSamples.files_steady AgentSamples.signal_awaited (λ _ _, eq_refl)) as Hlife.
  assert (shallow AgentSamples.subdirs 3 kCgroupPathPrefix) as Hsh by repeat constructor.
  specialize (Hlife Hsh (AgentSamples.task_lines_numbers "/root")).
  assert (0 < FLAGS_cgroup_period default_flags <= kMaxSleep) as Hp by (vm_compute; split; [reflexivity|discriminate]).
  specialize (Hlife Hp (conj eq_refl eq_refl)).
  assert (Reference.m_signal AgentSamples.cgroup_machine < 3)%nat as Hf by (vm_compute; lia).
  specialize (Hlife Hf). cbv zeta in Hlife.
  change (ParseNetConfig _ _ _) with (Some ({| config_cpus := AgentSamples.cpus_1_to_5; config_global_cpu := 1%nat;
    config_enforce_affinity := true |}, 1)) in Hlife. cbv beta iota in Hlife.
  destruct Hlife as (_ & w' & Hrun & Hl & _). eexists _, w'. split_and!; [exact Hrun|exact Hl|reflexivity|..];
    vm_compute in Hrun; injection Hrun as <-; reflexivity.
Defined.
